(* ===== verification/_CoqProject ===== *)
-Q . S2P
Prelude.v
Mem.v
DList.v
Klib.v
Machine.v
Irq.v
Sched.v
SchedSpec.v
SchedOps.v
Mutex.v
Sem.v
Cpu.v
TaskInit.v
Log.v
Report.v
Panic.v
Timer.v
Init.v
Elf.v
Loader32.v
Loader16.v
System.v
Liveness.v
Boot.v
Queues.v
Lines.v
Create.v
Stub.v
Tss.v
Program.v
Startup.v
Chain.v
Demo.v
