(* ===== verification/Prelude.v ===== *)
(** * os-toy-i386: a verification development (root file)

    The program is a toy operating system for the i386: a boot sector, a
    16-bit and a 32-bit loader, and a kernel with preemptive tasks, a
    reentrant mutex, a semaphore, sleeping, and a log on the serial port. The
    paths below are under src/source/.

    ** How the program works

    The boot sector loads loader/, whose 16-bit half asks the BIOS for the
    memory map and enters protected mode, and whose 32-bit half reads 500
    sectors from the disk, places the segments of the ELF file they hold and
    jumps to the kernel with a pointer to the memory map. kernel_init sets up
    the GDT, the IDT, the log, the timer and the task manager; init_main
    becomes the first task, creates another one and enables interrupts. From
    then on the kernel runs only in the calls of its tasks (sys_sched_yield,
    sys_sleep, the mutex, the semaphore) and in the timer interrupt, always
    with interrupts masked. Tasks change by a far jump to a TSS. All queues
    are doubly linked lists whose nodes are members of the task structure.

    ** The files

    - Prelude (this file): integers at their width, C loops, lists,
      permutations, bits; the hint databases [cint] and [cint_wrap].
    - Mem: byte memory, C strings. Hint database [cmem].
    - DList: kernel/tools/list.c and list.h on a store of nodes and headers;
      separation by [same_objs] and the representation of a set of disjoint
      lists.
    - Klib: kernel/tools/klib.c on byte memory, with a reference renderer for
      kernel_vsprintf.
    - Machine: the state of the kernel ([kstate]), the monad [M] of its
      statements, and the instructions of comm/cpuistr.h. Class [Platform]:
      the addresses the linker gives and what ports answer.
    - Irq: gates, controllers and the protection of critical sections of
      kernel/cpu/irq.c and cpu/irq.h.
    - Sched: kernel/core/task.c and core/task.h, except creation of tasks.
      SchedSpec: the abstract scheduler [asched] and the representation
      [krep]. SchedOps: the refinement of the calls of the scheduler.
    - Mutex, Sem: kernel/ipc/mutex.c and sem.c, with ASSERT of klib.h.
    - Cpu: segment descriptors and the GDT of kernel/cpu/cpu.c.
    - TaskInit: tss_init, task_init, task_manager_init, task_main_init, the
      loop of the idle task.
    - Log: kernel/tools/log.c, panic of klib.c, the exception handlers of
      irq.c. Report: what these handlers print. Panic: a failed ASSERT
      followed by panic.
    - Timer: kernel/dev/timer.c. Init: kernel/init/init.c.
    - Elf, Loader32: loader/loader32.c with comm/elf.h and comm/info.h.
      Loader16: loader/loader16.c with comm/types.h.
    - System: the tasks, the hardware task switch and the timer interrupt as
      a step relation [sys_step], the abstract kernel [asys] and the
      invariant that relates them. Liveness: runs of the system. Boot: from
      the start of the kernel to every reachable configuration.
    - Queues: the waiters of a semaphore and of a mutex along runs.
    - Lines: the system with the log's routines cut into their steps.
      Create: the system with task_init cut into its steps.
    - Program: the loops of init_main and new_task_entry as code, run by the
      two tasks over the steps of Lines ([prog_step]), and what they print.
    - Stub: a register file with a stack, and the interrupt entry routines of
      kernel/init/start.S. Tss: the task switch and ltr as the processor
      carries them out, on registers, TSSs and descriptors, under the system
      of System. Startup: boot/start.S, loader/start.S, and _start and
      simple_switch of kernel/init/start.S. Chain: boot_info in memory, and
      the way from power on to the first task.
    - Demo: a concrete image of the kernel, on which the theorems about the
      whole kernel are applied.

    ** How state and code correspond

    A task, a mutex, a semaphore, a list node or a header is an object of a
    map keyed by its address; a pointer is an address, and the address of a
    member is the address of the structure plus the offset the C layout
    gives. Names and task state segments are bytes of the memory. A kernel
    function has type [M A]: it ends ([Done]), stops for ever ([Stop], with
    the reason: a null dereference, a failed assertion, an endless loop, a
    halt loop), or jumps to a TSS ([Switch]), keeping what is left of it as
    the context of the task. [sys_step] saves and loads these contexts as
    the processor does with TSSs, so a call that blocks goes on where it
    stopped when the task is switched back in.

    The layers are: code on [kstate]; the abstract scheduler [asched] (ready,
    sleeping and waiting tasks as sequences), implemented by way of [krep];
    the abstract kernel [asys] (scheduler, owners, counters), implemented by
    way of the invariants [locks_ok] and [sys_inv]. The clients of a layer
    (System, Liveness, Boot, Queues, Lines, Create) use its refinement lemmas
    only. Under these layers is the processor of Tss: [carries] relates its
    registers, descriptors and TSSs to a configuration of System.

    ** The theorems

    - The whole kernel (Boot, Liveness, Lines, Create): every run of the kernel
      is matched, step for step, by the run of the abstract system with the same
      labels, whose state the configuration represents; the kernel
      never faults, panics or loops while the contracts of its calls hold;
      mutual exclusion; a lock that returns is held; a ready task runs and a
      sleeper wakes in a bounded number of ticks; lines of the log are never
      mixed; tasks created at the same time get descriptors of their own.
    - The two tasks of init.c (Program): what the serial line carries is a
      dialogue ([dialogue]) of numbered lines in which nothing is received
      before it is sent, whatever the timer does; the system never deadlocks,
      and is idle only while the main task sleeps.
    - Semaphores and mutexes over runs (Queues): no waiter is lost, and no unit
      while the count fits an int; waiters are served in their order, no other
      task barges in.
    - The processor (Tss): it accepts every switch of the kernel, the
      registers of a task survive the other tasks, and what a new task starts
      with.
    - The calls (SchedOps, Mutex, Sem, Timer, Panic): refinement of the abstract
      operation on every branch, misuse of a mutex and what it prints, with
      the log free, held, or queued for, overflow of sleeping times.
    - Creation and start (Init, TaskInit, Cpu, Irq, Timer): the state after
      kernel_init and init_main, the tables it leaves, the devices' ports,
      and the failures of task_init.
    - Interrupts (Stub, Report): for each of the 128 gates the frame the
      handlers read and the return to the interrupted program, and the lines an
      exception prints, when they fit the buffer.
    - Routines (DList, Klib, Log): functional correctness with framing,
      round trips, and the routines that do less than their names say
      (kernel_memset, kernel_str_equal, kernel_itoa in base 16 and 2).
    - From power on to the first task (Chain): the boot sector, the loader and
      _start on one memory, with the memory map that reaches kernel_init.
    - Loaders (Elf, Loader32, Loader16, Startup): the image in memory is the
      file's; the drive is polled and read as its protocol wants, and a drive
      in error is polled for ever; the memory map is the BIOS's, or what an
      ignored last entry makes of it; the state on entering protected
      mode; the boot sector reads the loader or never ends; simple_switch
      resumes what it has stopped.

    ** Bounds

    A C loop is [cwhile], or [mwhile] for statements: 2^40 turns at most
    ([loop_depth] = 40). The loops of the program are governed by 32-bit
    variables, so a loop that ends makes at most 2^32 + 1 tests; running out
    means that the loop does not end, and is the failure [KLoop] or
    [HSpin]. Theorems about loops show that they end: their conclusions are
    results, not conditions on a result. The polls of the drive and the
    attempts of the boot sector, which depend on a device, are taken to
    succeed within 2^32 turns if ever. The endless loops of the tasks
    (init_main, the three task bodies, the idle task) are indexed by a number
    of turns.
    Integers wrap as in the build of the project, which does not optimise.

    ** What the model fixes

    - A kernel call or a timer interrupt is one step: interrupts are masked
      from its entry to its end. The routines that run with interrupts
      enabled, log_println, log_printfln and task_init, are sequential in
      their own files, and cut into their steps in Lines and Create. In Boot
      the start of the kernel is one step until init_main enters its loop;
      Create starts at the moment init_main enables interrupts, before its
      task_init.
    - A task switch of System saves and loads the flags and the continuation.
      The general registers, the busy bits and the registers in the TSSs are
      the state of Tss, which runs alongside: the kernel code between two
      switches may compute any registers ([computes]), but leaves the segment
      registers, TR, the descriptors and the TSSs alone. The switch to a task
      that task_init has just made is a theorem of its own.
    - A failed ASSERT is [Stop] with its file, line and condition, and
      [with_panic] goes on with the panic it calls. A kernel_vsprintf that
      hangs prints its message, but the bytes it wrote to the buffer before
      are not recorded.
    - In Program a task formats its line in one step: str_buf is on its own
      stack, and the buffers of the two tasks, which are parameters, are taken
      to be apart. Its count wraps like the int of the source.
    - The linker's addresses ([symbol]), the ports' answers ([device_inb], the
      drive of Loader32) and the BIOS of Loader16 and Startup are parameters.
      The drive and the BIOS come with hypotheses that state their documented
      behaviour, which concrete instances meet. [ata_disk] is the protocol of
      READ SECTORS EXT as a state machine over the traffic on the ports: only
      that command, given to an idle drive, is known to read, and the data
      register is known only once DRQ has been reported for a sector; the status
      is taken to be up to date whenever it is read. [serves] and [int13_read]
      say what the BIOS does for the requests they name, and for no other.
    - The registers an interrupt routine pushes are 32 bits; a segment register
      fills its word or only the low half of it, as processors differ ([zext]).
      The string __FILE__ stands for is a parameter ([file_literal]).
    - Of the assembly, the registers and the stack are modelled; the bytes of
      the instructions are not.
    - In Chain boot_info lies in the memory the boot sector has read the loader
      into; the stack frame of the 16-bit loader and the registers it leaves
      are parameters, and the kernel's image is the segments of any ELF file
      that hold the names of the first tasks and lie above the loader.

    ** Not modelled

    The empty test() of list.c and the code in comments; the declarations of
    functions in headers and the constants nothing uses; the linker script and
    the build files, which give the addresses that [symbol] stands for. *)

From Stdlib Require Export ZArith Lia.
From stdpp Require Export base tactics numbers list gmap strings fin_maps.

#[export] Set Default Goal Selector "!".

Declare Scope c_scope.
Delimit Scope c_scope with c.
Open Scope Z_scope.

(** ** Machine integers

    Integers are kept as [Z]; the C conversions to a width are written out.
    [i32] is two's complement wrap-around, which is what the [-O0] build of
    the project does on signed overflow. *)

Definition u8 (v : Z) : Z := v mod 0x100.
Definition u16 (v : Z) : Z := v mod 0x10000.
Definition u32 (v : Z) : Z := v mod 0x100000000.
Definition i32 (v : Z) : Z := (v + 0x80000000) mod 0x100000000 - 0x80000000.

Definition INT_MAX : Z := 0x7FFFFFFF.
Definition INT_MIN : Z := -0x80000000.

(** The null pointer. *)
Definition NULL : Z := 0.

Lemma u8_small v : 0 <= v < 0x100 → u8 v = v.
Proof. apply Z.mod_small. Qed.
Lemma u16_small v : 0 <= v < 0x10000 → u16 v = v.
Proof. apply Z.mod_small. Qed.
Lemma u32_small v : 0 <= v < 0x100000000 → u32 v = v.
Proof. apply Z.mod_small. Qed.
Lemma i32_small v : INT_MIN <= v <= INT_MAX → i32 v = v.
Proof. unfold i32, INT_MIN, INT_MAX. intros ?. rewrite Z.mod_small; lia. Qed.
Lemma u8_bound v : 0 <= u8 v < 0x100.
Proof. apply Z.mod_pos_bound. lia. Qed.
Lemma u16_bound v : 0 <= u16 v < 0x10000.
Proof. apply Z.mod_pos_bound. lia. Qed.
Lemma u32_bound v : 0 <= u32 v < 0x100000000.
Proof. apply Z.mod_pos_bound. lia. Qed.
Lemma i32_bound v : INT_MIN <= i32 v <= INT_MAX.
Proof. unfold i32, INT_MIN, INT_MAX. pose proof (Z.mod_pos_bound (v + 0x80000000) 0x100000000). lia. Qed.

Lemma u8_u8 v : u8 (u8 v) = u8 v.
Proof. apply u8_small, u8_bound. Qed.

Create HintDb cint.
Create Rewrite HintDb cint_wrap.
#[export] Hint Rewrite u8_small u16_small u32_small i32_small
  using (unfold INT_MAX, INT_MIN in *; lia) : cint_wrap.
#[export] Hint Resolve u8_bound u16_bound u32_bound i32_bound : cint.

(** ** C loops

    A loop body maps the loop variables to [Cont s'] (next iteration) or
    [Brk r] (the loop is left with result [r]).  [loopn n] runs at most [2^n]
    iterations, doubling at each level, so a large bound costs nothing to
    evaluate: the loop stops at its own exit. *)

Inductive flow (S R : Type) : Type :=
| Cont (s : S)
| Brk (r : R).
Arguments Cont {S R} s.
Arguments Brk {S R} r.

Fixpoint loopn {S R} (n : nat) (body : S → flow S R) (s : S) : flow S R :=
  match n with
  | O => body s
  | S n' =>
      match loopn n' body s with
      | Cont s' => loopn n' body s'
      | Brk r => Brk r
      end
  end.

(** Every terminating C loop of the program is governed by 32-bit variables,
    so it makes at most [2^32 + 1] tests of its condition: [2^40] iterations
    are enough. [None] means the loop does not terminate. *)
Definition loop_depth : nat := 40.

Definition cwhile {S R} (body : S → flow S R) (s : S) : option R :=
  match loopn loop_depth body s with
  | Brk r => Some r
  | Cont _ => None
  end.

(** [steps body k s r]: the loop started in [s] is left with [r] in its
    [k]-th iteration. *)
Inductive steps {S R} (body : S → flow S R) : Z → S → R → Prop :=
| steps_brk s r : body s = Brk r → steps body 1 s r
| steps_cont k s s' r :
    body s = Cont s' → steps body k s' r → steps body (k + 1) s r.

Lemma steps_pos {S R} (body : S → flow S R) k s r : steps body k s r → 1 <= k.
Proof. induction 1; lia. Qed.

Lemma loopn_steps {S R} (body : S → flow S R) n k s r :
  steps body k s r →
  (k <= 2 ^ Z.of_nat n → loopn n body s = Brk r) ∧
  (2 ^ Z.of_nat n < k →
     ∃ s', loopn n body s = Cont s' ∧ steps body (k - 2 ^ Z.of_nat n) s' r).
Proof.
  revert k s r. induction n as [|n IH]; intros k s r Hst.
  - cbn [loopn]. change (2 ^ Z.of_nat 0) with 1. split.
    + intros ?. inversion Hst as [|k' ? ? ? Hb Hs]; subst; [done|].
      apply steps_pos in Hs. lia.
    + intros ?. inversion Hst as [|k' ? s' ? Hb Hs]; subst; [lia|].
      exists s'. split; [done|]. by replace (k' + 1 - 1) with k' by lia.
  - cbn [loopn]. rewrite Nat2Z.inj_succ, Z.pow_succ_r by lia.
    set (p := 2 ^ Z.of_nat n) in *.
    destruct (IH k s r Hst) as [IH1 IH2].
    destruct (decide (k <= p)) as [Hle|Hgt].
    + rewrite IH1 by done. split; [done|]. apply steps_pos in Hst. lia.
    + destruct IH2 as (s' & -> & Hs'); [lia|].
      destruct (IH _ _ _ Hs') as [IH3 IH4]. split.
      * intros ?. apply IH3. lia.
      * intros ?. destruct IH4 as (s'' & -> & Hs''); [lia|].
        exists s''. split; [done|]. by replace (k - 2 * p) with (k - p - p) by lia.
Qed.

(** The rule for using a loop: exhibit its run, bounded by [2^40]. *)
Lemma cwhile_steps {S R} (body : S → flow S R) k s r :
  steps body k s r → k <= 2 ^ 40 → cwhile body s = Some r.
Proof.
  intros Hst Hk. unfold cwhile.
  by rewrite (proj1 (loopn_steps body loop_depth k s r Hst) Hk).
Qed.
(** A loop that goes on in every state of an invariant does not end. *)
Lemma cwhile_never {S R} (body : S → flow S R) (P : S → Prop) s :
  (∀ s, P s → ∃ s', body s = Cont s' ∧ P s') → P s → cwhile body s = None.
Proof.
  intros Hb Hs. unfold cwhile.
  assert (∀ n s, P s → ∃ s', loopn n body s = Cont s' ∧ P s') as Hn.
  { induction n as [|n IH]; intros s1 H1; cbn [loopn]; [by apply Hb|].
    destruct (IH s1 H1) as (s2 & -> & H2). by apply IH. }
  by destruct (Hn loop_depth s Hs) as (s' & -> & _).
Qed.

(** ** Lists *)

Section list_facts.
Context {A : Type}.
Implicit Types (xs ys : list A) (x d : A).

Lemma head_app_or d xs ys :
  default d (head (xs ++ ys)) = default (default d (head ys)) (head xs).
Proof. by destruct xs. Qed.

Lemma last_app_or d xs ys :
  default d (last (xs ++ ys)) = default (default d (last xs)) (last ys).
Proof.
  destruct ys as [|y ys _] using rev_ind; [by rewrite app_nil_r|].
  by rewrite app_assoc, !last_snoc.
Qed.

Lemma last_cons_or d x xs : default d (last (x :: xs)) = default x (last xs).
Proof. apply (last_app_or d [x] xs). Qed.

Lemma last_elem_of d xs : default d (last xs) ∈ xs ∨ (xs = [] ∧ default d (last xs) = d).
Proof.
  destruct xs as [|y ys _] using rev_ind; [by right|].
  left. rewrite last_snoc. set_solver.
Qed.

Lemma head_elem_of d xs : default d (head xs) ∈ xs ∨ (xs = [] ∧ default d (head xs) = d).
Proof. destruct xs; [by right|left; set_solver]. Qed.
End list_facts.

Lemma alter_as_insert {A} (f : A → A) (m : gmap Z A) i x :
  m !! i = Some x → alter f i m = <[i := f x]> m.
Proof.
  intros Hi. apply map_eq. intros j. rewrite lookup_alter, lookup_insert.
  case_decide; subst; [by rewrite Hi|done].
Qed.

Lemma alter_as_list_insert {A} (f : A → A) (l : list A) (i : nat) x :
  l !! i = Some x → alter f i l = <[i := f x]> l.
Proof.
  intros Hi. apply list_eq. intros j. destruct (decide (i = j)) as [<-|Hne].
  - rewrite list_lookup_alter_eq, Hi, list_lookup_insert_eq; [done|]. by eapply lookup_lt_Some.
  - by rewrite list_lookup_alter_ne, list_lookup_insert_ne.
Qed.

(** Permutations of lists of addresses are decided by counting. *)
Lemma Permutation_occ (xs ys : list Z) :
  xs ≡ₚ ys ↔ ∀ x, count_occ Z.eq_dec xs x = count_occ Z.eq_dec ys x.
Proof. apply (Permutation_count_occ Z.eq_dec). Qed.
Lemma count_occ_cons_app (y : Z) xs x :
  count_occ Z.eq_dec (y :: xs) x =
    (count_occ Z.eq_dec [y] x + count_occ Z.eq_dec xs x)%nat.
Proof. apply (count_occ_app Z.eq_dec [y] xs). Qed.

Ltac perm_solve :=
  repeat match goal with
  | Hp : @Permutation Z _ _ |- _ => rewrite Permutation_occ in Hp
  end;
  rewrite Permutation_occ; let x := fresh "x" in intros x;
  repeat match goal with
  | Hp : ∀ y : Z, count_occ _ _ y = count_occ _ _ y |- _ => specialize (Hp x)
  end;
  repeat match goal with
  | Hp : context [count_occ Z.eq_dec (?y :: ?ys) x] |- _ =>
      lazymatch ys with [] => fail | _ => rewrite (count_occ_cons_app y ys x) in Hp end
  | |- context [count_occ Z.eq_dec (?y :: ?ys) x] =>
      lazymatch ys with [] => fail | _ => rewrite (count_occ_cons_app y ys x) end
  | Hp : context [count_occ Z.eq_dec (_ ++ _) x] |- _ => rewrite count_occ_app in Hp
  | |- context [count_occ Z.eq_dec (_ ++ _) x] => rewrite count_occ_app
  end;
  rewrite ?count_occ_nil in *; lia.

(** ** Bit fields *)

Lemma testbit_small x n i : 0 <= x < 2 ^ n → 0 <= n <= i → Z.testbit x i = false.
Proof.
  intros Hx Hn. rewrite <- (Z.mod_small x (2 ^ n)) by done.
  by apply Z.mod_pow2_bits_high.
Qed.
Lemma u16_land x : u16 x = Z.land x (Z.ones 16).
Proof. symmetry. by apply Z.land_ones. Qed.

(** Equality of two words bit by bit: masks are written as [Z.ones], and every
    comparison of the bit index is a case. *)
Ltac mask_norm :=
  repeat match goal with
  | |- context [Z.land ?x 0xFFFF] => change (Z.land x 0xFFFF) with (Z.land x (Z.ones 16))
  | |- context [Z.land ?x 0xFFF] => change (Z.land x 0xFFF) with (Z.land x (Z.ones 12))
  | |- context [Z.land ?x 0xFF] => change (Z.land x 0xFF) with (Z.land x (Z.ones 8))
  | |- context [Z.land ?x 0xF] => change (Z.land x 0xF) with (Z.land x (Z.ones 4))
  end;
  rewrite ?u16_land.
Ltac bit_cases i :=
  repeat match goal with
  | |- context [Z.testbit (Z.shiftl ?x ?n) ?j] =>
      destruct (Z.lt_ge_cases j n);
      [rewrite (Z.shiftl_spec_low x n j) by lia|rewrite (Z.shiftl_spec_high x n j) by lia]
  | |- context [Z.testbit (Z.shiftr ?x ?n) ?j] => rewrite (Z.shiftr_spec x n j) by lia
  | |- context [Z.testbit (Z.ones ?n) ?j] => rewrite (Z.testbit_ones_nonneg n j) by lia
  | |- context [Z.testbit (Z.lor _ _) _] => rewrite Z.lor_spec
  | |- context [Z.testbit (Z.land _ _) _] => rewrite Z.land_spec
  end;
  repeat match goal with
  | |- context [?a <? ?b] => destruct (Z.ltb_spec a b); try lia
  end;
  rewrite ?andb_true_r, ?andb_false_r, ?orb_false_r, ?orb_false_l.
Ltac bitwise :=
  mask_norm; apply Z.bits_inj'; let i := fresh "i" in intros i ?; bit_cases i.

(** ** Encoding and decoding *)
