(* ===== verification/Mem.v ===== *)
(** * Byte memory

    The kernel runs in a flat 32-bit address space without paging: every
    address is readable and writable, so memory is a total map from addresses
    to bytes (a cell never written holds [0], as in a zeroed image).  Strings,
    buffers and task state segments live here.  Addresses are [Z]; C objects
    do not wrap around the end of the address space. *)

From S2P Require Import Prelude.

Notation mem := (gmap Z Z).

Definition load8 (m : mem) (a : Z) : Z := u8 (default 0 (m !! a)).
Definition store8 (m : mem) (a v : Z) : mem := <[a := u8 v]> m.

(** i386 is little endian. *)
Definition load16 (m : mem) (a : Z) : Z :=
  load8 m a + 0x100 * load8 m (a + 1).
Definition load32 (m : mem) (a : Z) : Z :=
  load16 m a + 0x10000 * load16 m (a + 2).
Definition store16 (m : mem) (a v : Z) : mem :=
  store8 (store8 m a v) (a + 1) (v / 0x100).
Definition store32 (m : mem) (a v : Z) : mem :=
  store16 (store16 m a v) (a + 2) (v / 0x10000).

(** Consecutive bytes. *)
Fixpoint stores (m : mem) (a : Z) (bs : list Z) : mem :=
  match bs with
  | [] => m
  | b :: bs' => stores (store8 m a b) (a + 1) bs'
  end.

Fixpoint bytes_at (m : mem) (a : Z) (bs : list Z) : Prop :=
  match bs with
  | [] => True
  | b :: bs' => load8 m a = b ∧ bytes_at m (a + 1) bs'
  end.

Notation len l := (Z.of_nat (length l)).

(** A NUL-terminated string with contents [bs]. *)
Definition cstr_at (m : mem) (a : Z) (bs : list Z) : Prop :=
  Forall (λ b, b ≠ 0) bs ∧ bytes_at m a (bs ++ [0]).

(** The ranges [a, a+n) and [b, b+k) have no address in common. *)
Definition disjoint_ranges (a n b k : Z) : Prop := a + n <= b ∨ b + k <= a.

Definition byte (b : Z) : Prop := 0 <= b < 0x100.

Section facts.
Implicit Types (m : mem) (bs : list Z).

Lemma load_store_eq m a v : load8 (store8 m a v) a = u8 v.
Proof. unfold load8, store8, u8. rewrite lookup_insert_eq. cbn. apply Z.mod_mod. lia. Qed.
Lemma load8_byte m a : byte (load8 m a).
Proof. apply u8_bound. Qed.
Lemma load16_bound m a : 0 <= load16 m a < 0x10000.
Proof.
  pose proof (load8_byte m a). pose proof (load8_byte m (a + 1)). unfold load16, byte in *. lia.
Qed.
Lemma load32_bound m a : 0 <= load32 m a < 0x100000000.
Proof.
  pose proof (load16_bound m a). pose proof (load16_bound m (a + 2)). unfold load32 in *. lia.
Qed.
Lemma load_store_ne m a b v : a ≠ b → load8 (store8 m a v) b = load8 m b.
Proof. intros. unfold load8, store8. by rewrite lookup_insert_ne. Qed.
Lemma store_store_eq m a v w : store8 (store8 m a v) a w = store8 m a w.
Proof. apply insert_insert_eq. Qed.
Lemma store_store_ne m a b v w :
  a ≠ b → store8 (store8 m a v) b w = store8 (store8 m b w) a v.
Proof. intros. by apply insert_insert_ne. Qed.
Lemma store_u8 m a v : store8 m a (u8 v) = store8 m a v.
Proof. unfold store8, u8. by rewrite Z.mod_mod. Qed.

Lemma stores_app m a bs cs : stores m a (bs ++ cs) = stores (stores m a bs) (a + len bs) cs.
Proof.
  revert m a. induction bs as [|b bs IH]; intros m a; [by rewrite Z.add_0_r|].
  cbn [stores app length]. rewrite IH. f_equal. lia.
Qed.
Lemma stores_snoc m a bs b : stores m a (bs ++ [b]) = store8 (stores m a bs) (a + len bs) b.
Proof. by rewrite stores_app. Qed.
Lemma store_stores_comm m a bs x v :
  x < a ∨ a + len bs <= x → store8 (stores m a bs) x v = stores (store8 m x v) a bs.
Proof.
  revert m a. induction bs as [|b bs IH]; intros m a Hx; [done|].
  cbn [stores length] in *. rewrite IH by lia. by rewrite store_store_ne by lia.
Qed.
Lemma load_stores_out m a bs x :
  x < a ∨ a + len bs <= x → load8 (stores m a bs) x = load8 m x.
Proof.
  revert m a. induction bs as [|b bs IH]; intros m a Hx; [done|].
  cbn [stores length] in *. rewrite IH by lia. by rewrite load_store_ne by lia.
Qed.
Lemma load_stores_in m a bs i b :
  bs !! i = Some b → load8 (stores m a bs) (a + Z.of_nat i) = u8 b.
Proof.
  revert m a i. induction bs as [|b' bs IH]; intros m a i; [done|].
  destruct i as [|i]; cbn [stores lookup list_lookup].
  - intros [= ->]. rewrite load_stores_out by lia. rewrite Z.add_0_r. apply load_store_eq.
  - intros Hi. rewrite <- (IH (store8 m a b') (a + 1) i Hi). f_equal. lia.
Qed.

(** Writing twice to the same range: the second write wins. *)
Lemma stores_stores_eq m a bs cs :
  length bs = length cs → stores (stores m a bs) a cs = stores m a cs.
Proof.
  revert m a cs. induction bs as [|b bs IH]; intros m a [|c cs]; try done.
  cbn [stores length]. intros [= Hl].
  rewrite store_stores_comm by lia. rewrite IH by done.
  by rewrite store_store_eq.
Qed.

Lemma bytes_at_app m a bs cs :
  bytes_at m a (bs ++ cs) ↔ bytes_at m a bs ∧ bytes_at m (a + len bs) cs.
Proof.
  revert a. induction bs as [|b bs IH]; intros a.
  - cbn. rewrite Z.add_0_r. tauto.
  - cbn [bytes_at app length]. rewrite IH.
    replace (a + 1 + len bs) with (a + Z.of_nat (S (length bs))) by lia. tauto.
Qed.
Lemma bytes_at_stores_out m a bs x cs :
  disjoint_ranges a (len bs) x (len cs) →
  bytes_at (stores m a bs) x cs ↔ bytes_at m x cs.
Proof.
  revert x. induction cs as [|c cs IH]; intros x Hd; [done|].
  unfold disjoint_ranges in *. cbn [bytes_at length] in *.
  rewrite load_stores_out, IH by lia. done.
Qed.
Lemma bytes_at_stores m a bs : Forall byte bs → bytes_at (stores m a bs) a bs.
Proof.
  revert m a. induction bs as [|b bs IH]; intros m a; [done|].
  intros [? ?]%Forall_cons. cbn [bytes_at stores]. split; [|by apply IH].
  rewrite load_stores_out by lia. rewrite load_store_eq. by apply u8_small.
Qed.
Lemma cstr_at_stores_out m a bs x cs :
  disjoint_ranges a (len bs) x (len cs + 1) →
  cstr_at (stores m a bs) x cs ↔ cstr_at m x cs.
Proof.
  intros Hd. unfold cstr_at. rewrite bytes_at_stores_out; [done|].
  unfold disjoint_ranges in *. rewrite length_app. cbn. lia.
Qed.
Lemma cstr_at_cons m a b bs :
  cstr_at m a (b :: bs) ↔ load8 m a = b ∧ b ≠ 0 ∧ cstr_at m (a + 1) bs.
Proof. unfold cstr_at. rewrite Forall_cons. cbn [app bytes_at]. tauto. Qed.
Lemma bytes_at_byte m a bs : bytes_at m a bs → Forall byte bs.
Proof.
  revert a. induction bs as [|b bs IH]; intros a; [constructor|].
  intros [<- ?]. constructor; [apply load8_byte|eauto].
Qed.
Lemma cstr_at_nil m a : cstr_at m a [] ↔ load8 m a = 0.
Proof. unfold cstr_at. cbn. rewrite Forall_nil. tauto. Qed.
(** An address holds at most one string. *)
Lemma cstr_at_fun m a bs cs : cstr_at m a bs → cstr_at m a cs → bs = cs.
Proof.
  revert a cs. induction bs as [|b bs IH]; intros a [|c cs] H1 H2.
  - done.
  - apply cstr_at_nil in H1. apply cstr_at_cons in H2 as (Hc & Hz & _). congruence.
  - apply cstr_at_nil in H2. apply cstr_at_cons in H1 as (Hb & Hz & _). congruence.
  - apply cstr_at_cons in H1 as (<- & _ & H1). apply cstr_at_cons in H2 as (<- & _ & H2).
    f_equal. by eapply IH.
Qed.

(** A string is where its bytes are. *)
Lemma cstr_at_same m m' a bs :
  (∀ x, a <= x <= a + len bs → load8 m' x = load8 m x) → cstr_at m a bs → cstr_at m' a bs.
Proof.
  revert a. induction bs as [|b bs IH]; intros a Hx.
  - rewrite !cstr_at_nil. intros <-. apply Hx. cbn. lia.
  - rewrite !cstr_at_cons. cbn [length] in Hx. intros (<- & Hb & Hs). split_and!; [apply Hx; lia|done|].
    apply IH; [|done]. intros x Hr. apply Hx. lia.
Qed.

(** *** Words *)

Lemma load16_store16 m a v : load16 (store16 m a v) a = u16 v.
Proof.
  unfold load16, store16. rewrite load_store_eq, load_store_ne, load_store_eq by lia.
  unfold u8, u16. Z.to_euclidean_division_equations. lia.
Qed.
Lemma load8_store16_ne m a v x :
  x < a ∨ a + 2 <= x → load8 (store16 m a v) x = load8 m x.
Proof. intros. unfold store16. by rewrite !load_store_ne by lia. Qed.
Lemma load8_store32_ne m a v x :
  x < a ∨ a + 4 <= x → load8 (store32 m a v) x = load8 m x.
Proof. intros. unfold store32. by rewrite !load8_store16_ne by lia. Qed.
Lemma load32_store32 m a v : load32 (store32 m a v) a = u32 v.
Proof.
  unfold load32, store32.
  assert (load16 (store16 (store16 m a v) (a + 2) (v / 0x10000)) a = u16 v) as ->.
  { rewrite <- (load16_store16 m a v). unfold load16.
    by rewrite !(load8_store16_ne _ (a + 2)) by lia. }
  rewrite load16_store16. unfold u16, u32. Z.to_euclidean_division_equations. lia.
Qed.
Lemma load32_store32_ne m a v x :
  disjoint_ranges a 4 x 4 → load32 (store32 m a v) x = load32 m x.
Proof.
  unfold disjoint_ranges. intros. unfold load32, load16.
  by rewrite !load8_store32_ne by lia.
Qed.
Lemma load32_stores_out m a bs x :
  disjoint_ranges a (len bs) x 4 → load32 (stores m a bs) x = load32 m x.
Proof.
  unfold disjoint_ranges, load32, load16. intros Hd. by rewrite !load_stores_out by lia.
Qed.
Lemma load16_stores_out m a bs x :
  disjoint_ranges a (len bs) x 2 → load16 (stores m a bs) x = load16 m x.
Proof. unfold disjoint_ranges, load16. intros Hd. by rewrite !load_stores_out by lia. Qed.
End facts.

Create Rewrite HintDb cmem.
#[export] Hint Rewrite load_store_eq load32_store32 : cmem.
#[export] Hint Rewrite load_store_ne load8_store16_ne load8_store32_ne load32_store32_ne
  using (unfold disjoint_ranges; lia) : cmem.
