(* ===== verification/DList.v ===== *)
(** * Intrusive doubly linked lists (kernel/tools/list.c, list.h)

    Nodes and list headers are objects of a store addressed by pointers, as in
    C: the same node may be reached from a header, from its neighbours and
    from the task that embeds it.  Every operation is a partial state
    transformer of the store; [None] is the dereference of an address where
    no object of the type lives (the null pointer, for instance).

    [lheap_rep H L] is the abstraction: the header at address [l] represents
    the sequence of node addresses [L !! l]. *)

From S2P Require Import Prelude.

(** typedef struct _list_node_t *)
Record list_node_t : Type := ListNode { n_pre : Z; n_next : Z }.

(** typedef struct _list_t *)
Record list_t : Type := List { l_frist : Z; l_last : Z; l_count : Z }.

Record lheap : Type := LHeap {
  nodes : gmap Z list_node_t;
  lists : gmap Z list_t
}.

(** Programs over the store. *)
Definition LM (A : Type) : Type := lheap → option (A * lheap).
#[export] Instance LM_ret : MRet LM := λ A a H, Some (a, H).
#[export] Instance LM_bind : MBind LM := λ A B f m H,
  match m H with
  | Some (a, H') => f a H'
  | None => None
  end.

(** Field accesses [n->pre], [l->count], ... *)
Definition get_node (n : Z) : LM list_node_t := λ H,
  nd ← nodes H !! n; Some (nd, H).
Definition put_node (n : Z) (nd : list_node_t) : LM unit := λ H,
  _ ← nodes H !! n; Some (tt, LHeap (<[n := nd]> (nodes H)) (lists H)).
Definition get_list (l : Z) : LM list_t := λ H,
  lt ← lists H !! l; Some (lt, H).
Definition put_list (l : Z) (lt : list_t) : LM unit := λ H,
  _ ← lists H !! l; Some (tt, LHeap (nodes H) (<[l := lt]> (lists H))).

Definition set_pre (n v : Z) : LM unit :=
  nd ← get_node n; put_node n (ListNode v (n_next nd)).
Definition set_next (n v : Z) : LM unit :=
  nd ← get_node n; put_node n (ListNode (n_pre nd) v).
Definition set_frist (l v : Z) : LM unit :=
  lt ← get_list l; put_list l (List v (l_last lt) (l_count lt)).
Definition set_last (l v : Z) : LM unit :=
  lt ← get_list l; put_list l (List (l_frist lt) v (l_count lt)).
Definition set_count (l v : Z) : LM unit :=
  lt ← get_list l; put_list l (List (l_frist lt) (l_last lt) v).
Definition get_frist (l : Z) : LM Z := lt ← get_list l; mret (l_frist lt).
Definition get_last (l : Z) : LM Z := lt ← get_list l; mret (l_last lt).
Definition get_count (l : Z) : LM Z := lt ← get_list l; mret (l_count lt).
Definition get_pre (n : Z) : LM Z := nd ← get_node n; mret (n_pre nd).
Definition get_next (n : Z) : LM Z := nd ← get_node n; mret (n_next nd).

(** ** list.h: the inline functions *)

Definition list_node_init (node : Z) : LM unit :=
  set_next node NULL;; set_pre node NULL.
Definition list_node_pre (node : Z) : LM Z := get_pre node.
Definition list_node_next (node : Z) : LM Z := get_next node.
Definition list_is_empty (l : Z) : LM bool := c ← get_count l; mret (c =? 0).
Definition list_count (l : Z) : LM Z := get_count l.
Definition list_first (l : Z) : LM Z := get_frist l.
Definition list_last (l : Z) : LM Z := get_last l.

(** ** list.c *)

Definition list_init (l : Z) : LM unit :=
  set_last l NULL;; set_frist l NULL;; set_count l 0.

Definition list_insert_first (l n : Z) : LM unit :=
  f ← get_frist l;
  set_next n f;;
  set_pre n NULL;;
  c ← get_count l;
  (if c =? 0 then
     set_last l n;; set_frist l n
   else
     f ← get_frist l;
     set_pre f n;;
     set_frist l n);;
  c ← get_count l;
  set_count l (i32 (c + 1)).

Definition list_insert_last (l n : Z) : LM unit :=
  la ← get_last l;
  set_pre n la;;
  set_next n NULL;;
  c ← get_count l;
  (if c =? 0 then
     set_last l n;; set_frist l n
   else
     la ← get_last l;
     set_next la n;;
     set_last l n);;
  c ← get_count l;
  set_count l (i32 (c + 1)).

Definition list_pop_first (l : Z) : LM Z :=
  c ← get_count l;
  if c =? 0 then mret NULL
  else
    remove_node ← get_frist l;
    nx ← get_next remove_node;
    set_frist l nx;;
    f ← get_frist l;
    (if f =? NULL then set_last l NULL
     else nx ← get_next remove_node; set_pre nx NULL);;
    set_next remove_node NULL;;
    set_pre remove_node NULL;;
    c ← get_count l;
    set_count l (i32 (c - 1));;
    mret remove_node.

Definition list_pop_last (l : Z) : LM Z :=
  c ← get_count l;
  if c =? 0 then mret NULL
  else
    remove_node ← get_last l;
    pr ← get_pre remove_node;
    set_last l pr;;
    la ← get_last l;
    (if la =? NULL then set_frist l NULL
     else pr ← get_pre remove_node; set_next pr NULL);;
    set_next remove_node NULL;;
    set_pre remove_node NULL;;
    c ← get_count l;
    set_count l (i32 (c - 1));;
    mret remove_node.

Definition list_pop (l n : Z) : LM Z :=
  f ← get_frist l;
  (if n =? f then nx ← get_next n; set_frist l nx else mret tt);;
  la ← get_last l;
  (if n =? la then pr ← get_pre n; set_last l pr else mret tt);;
  pr ← get_pre n;
  (if pr =? NULL then mret tt else nx ← get_next n; set_next pr nx);;
  nx ← get_next n;
  (if nx =? NULL then mret tt else pr ← get_pre n; set_pre nx pr);;
  set_next n NULL;;
  set_pre n NULL;;
  c ← get_count l;
  set_count l (i32 (c - 1));;
  mret n.

(** ** The abstraction *)

(** [dlseg h p xs n]: the nodes [xs] are linked in this order in both
    directions; the first one points back to [p], the last one to [n]. *)
Fixpoint dlseg (h : gmap Z list_node_t) (p : Z) (xs : list Z) (n : Z) : Prop :=
  match xs with
  | [] => True
  | x :: xs' =>
      h !! x = Some (ListNode p (default n (head xs'))) ∧ dlseg h x xs' n
  end.

Record list_rep (h : gmap Z list_node_t) (lt : list_t) (xs : list Z) : Prop := {
  lr_frist : l_frist lt = default NULL (head xs);
  lr_last : l_last lt = default NULL (last xs);
  lr_count : l_count lt = Z.of_nat (length xs);
  lr_bound : Z.of_nat (length xs) <= INT_MAX;
  lr_nodup : NoDup xs;
  lr_seg : dlseg h NULL xs NULL
}.

Record heap_rep (H : lheap) (L : gmap Z (list Z)) : Prop := {
  hr_lists : ∀ l xs, L !! l = Some xs →
    ∃ lt, lists H !! l = Some lt ∧ list_rep (nodes H) lt xs;
  hr_disj : ∀ l1 l2 xs1 xs2 n,
    L !! l1 = Some xs1 → L !! l2 = Some xs2 → n ∈ xs1 → n ∈ xs2 → l1 = l2;
  hr_null : nodes H !! NULL = None
}.

(** The node [n] is linked in none of the lists. *)
Definition unlinked (L : gmap Z (list Z)) (n : Z) : Prop :=
  ∀ l xs, L !! l = Some xs → n ∉ xs.

(** The same objects live at the same addresses. *)
Definition same_objs (H H' : lheap) : Prop :=
  (∀ n, is_Some (nodes H' !! n) ↔ is_Some (nodes H !! n)) ∧
  (∀ l, is_Some (lists H' !! l) ↔ is_Some (lists H !! l)).

#[export] Instance same_objs_equiv : Equivalence same_objs.
Proof.
  split.
  - intros H. split; done.
  - intros H H' [? ?]. split; intros ?; symmetry; auto.
  - intros H1 H2 H3 [? ?] [? ?]. split; intros ?; etrans; eauto.
Qed.

Section segments.
Implicit Types (h : gmap Z list_node_t) (xs ys : list Z).

Lemma dlseg_app h p xs ys n :
  dlseg h p (xs ++ ys) n ↔
  dlseg h p xs (default n (head ys)) ∧ dlseg h (default p (last xs)) ys n.
Proof.
  revert p. induction xs as [|x xs IH]; intros p; [cbn; tauto|].
  cbn [dlseg app]. rewrite IH, last_cons_or, head_app_or. tauto.
Qed.

Lemma dlseg_frame h h' p xs n :
  (∀ a, a ∈ xs → h' !! a = h !! a) → dlseg h p xs n → dlseg h' p xs n.
Proof.
  revert p. induction xs as [|x xs IH]; intros p Ha; [done|].
  cbn [dlseg]. intros [Hx Hxs]. split; [rewrite Ha; [done|set_solver]|].
  apply IH; [set_solver|done].
Qed.

Lemma dlseg_insert_ne h p xs n a nd :
  a ∉ xs → dlseg (<[a := nd]> h) p xs n ↔ dlseg h p xs n.
Proof.
  intros Ha. split; apply dlseg_frame; intros b Hb;
    rewrite lookup_insert_ne by set_solver; done.
Qed.

Lemma dlseg_elem h p xs n a : dlseg h p xs n → a ∈ xs → is_Some (h !! a).
Proof.
  revert p. induction xs as [|x xs IH]; intros p; [set_solver|].
  cbn [dlseg]. intros [Hx Hxs] [->|Ha]%elem_of_cons; eauto.
Qed.

(** Redirecting the outer links of a segment. *)
Lemma dlseg_set_pre h p p' x xs n :
  x ∉ xs → dlseg h p (x :: xs) n →
  dlseg (<[x := ListNode p' (default n (head xs))]> h) p' (x :: xs) n.
Proof.
  cbn [dlseg]. intros Hx [_ Hxs]. split; [by rewrite lookup_insert_eq|].
  by rewrite dlseg_insert_ne.
Qed.

Lemma dlseg_set_next h p xs x n n' :
  x ∉ xs → dlseg h p (xs ++ [x]) n →
  dlseg (<[x := ListNode (default p (last xs)) n']> h) p (xs ++ [x]) n'.
Proof.
  rewrite !dlseg_app. cbn [dlseg head default]. intros Hx (Hxs & _ & _).
  split; [by rewrite dlseg_insert_ne|]. by rewrite lookup_insert_eq.
Qed.

Lemma dlseg_last h p xs x n :
  dlseg h p (xs ++ [x]) n → h !! x = Some (ListNode (default p (last xs)) n).
Proof. rewrite dlseg_app. cbn. tauto. Qed.
End segments.

Section heap_facts.
Implicit Types (H : lheap) (L : gmap Z (list Z)) (xs : list Z).

Lemma heap_rep_node H L l xs n :
  heap_rep H L → L !! l = Some xs → n ∈ xs → is_Some (nodes H !! n).
Proof.
  intros HR Hl Hn. destruct (hr_lists _ _ HR _ _ Hl) as (lt & _ & Hlr).
  eapply dlseg_elem; [apply (lr_seg _ _ _ Hlr)|done].
Qed.

Lemma heap_rep_nonnull H L l xs n :
  heap_rep H L → L !! l = Some xs → n ∈ xs → n ≠ NULL.
Proof.
  intros HR Hl Hn ->. destruct (heap_rep_node _ _ _ _ _ HR Hl Hn) as [? Hx].
  by rewrite (hr_null _ _ HR) in Hx.
Qed.

Lemma heap_rep_obj H L n nd : heap_rep H L → nodes H !! n = Some nd → n ≠ NULL.
Proof. intros HR Hn ->. by rewrite (hr_null _ _ HR) in Hn. Qed.

(** An operation on the list at [l] which touches only its own nodes and
    unlinked ones leaves the other lists alone. *)
Lemma heap_rep_update H L l xs H' lt' xs' :
  heap_rep H L → L !! l = Some xs →
  (∀ a, a ∉ xs → ¬ unlinked L a → nodes H' !! a = nodes H !! a) →
  nodes H' !! NULL = None →
  lists H' = <[l := lt']> (lists H) →
  list_rep (nodes H') lt' xs' →
  (∀ a, a ∈ xs' → a ∈ xs ∨ unlinked L a) →
  heap_rep H' (<[l := xs']> L).
Proof.
  intros HR Hl Hframe Hnull Hls Hlr Hxs'. split; [| |done].
  - intros l2 ys [(<- & <-)|(Hne & Hl2)]%lookup_insert_Some.
    + exists lt'. by rewrite Hls, lookup_insert_eq.
    + destruct (hr_lists _ _ HR _ _ Hl2) as (lt2 & ? & Hlr2).
      exists lt2. rewrite Hls, lookup_insert_ne by done. split; [done|].
      destruct Hlr2. split; try done.
      eapply dlseg_frame; [|done]. intros a Ha. apply Hframe.
      * intros Hin. by apply Hne, (hr_disj _ _ HR _ _ _ _ a Hl Hl2).
      * intros Hun. by apply (Hun _ _ Hl2).
  - intros l1 l2 xs1 xs2 n
      [(<- & <-)|(Hne1 & Hl1)]%lookup_insert_Some
      [(<- & <-)|(Hne2 & Hl2)]%lookup_insert_Some Hn1 Hn2; try done.
    + destruct (Hxs' _ Hn1) as [Hin|Hun].
      * by apply (hr_disj _ _ HR _ _ _ _ n Hl Hl2).
      * by destruct (Hun _ _ Hl2).
    + destruct (Hxs' _ Hn2) as [Hin|Hun].
      * by apply (hr_disj _ _ HR _ _ _ _ n Hl1 Hl).
      * by destruct (Hun _ _ Hl1).
    + by apply (hr_disj _ _ HR _ _ _ _ n Hl1 Hl2).
Qed.
End heap_facts.

(** ** Symbolic execution of the store programs *)

Section exec.
Context {A B : Type}.

Lemma LM_bind_step (m : LM A) (f : A → LM B) H a H' r :
  m H = Some (a, H') → f a H' = r → (m ≫= f) H = r.
Proof. intros Hm <-. unfold mbind, LM_bind. by rewrite Hm. Qed.

Lemma LM_ret_step (a : A) H : mret (M:=LM) a H = Some (a, H).
Proof. done. Qed.
End exec.

Section exec_fields.
Implicit Types (H : lheap) (nd : list_node_t) (lt : list_t).

Lemma set_pre_step H n v nd : nodes H !! n = Some nd →
  set_pre n v H =
    Some (tt, LHeap (<[n := ListNode v (n_next nd)]> (nodes H)) (lists H)).
Proof. intros Hn. unfold set_pre, get_node, put_node, mbind, LM_bind. cbn. by repeat (rewrite Hn; cbn). Qed.
Lemma set_next_step H n v nd : nodes H !! n = Some nd →
  set_next n v H =
    Some (tt, LHeap (<[n := ListNode (n_pre nd) v]> (nodes H)) (lists H)).
Proof. intros Hn. unfold set_next, get_node, put_node, mbind, LM_bind. cbn. by repeat (rewrite Hn; cbn). Qed.
Lemma get_pre_step H n nd : nodes H !! n = Some nd → get_pre n H = Some (n_pre nd, H).
Proof. intros Hn. unfold get_pre, get_node, mbind, LM_bind. cbn. by rewrite Hn. Qed.
Lemma get_next_step H n nd : nodes H !! n = Some nd → get_next n H = Some (n_next nd, H).
Proof. intros Hn. unfold get_next, get_node, mbind, LM_bind. cbn. by rewrite Hn. Qed.
Lemma get_frist_step H l lt : lists H !! l = Some lt → get_frist l H = Some (l_frist lt, H).
Proof. intros Hn. unfold get_frist, get_list, mbind, LM_bind. cbn. by rewrite Hn. Qed.
Lemma get_last_step H l lt : lists H !! l = Some lt → get_last l H = Some (l_last lt, H).
Proof. intros Hn. unfold get_last, get_list, mbind, LM_bind. cbn. by rewrite Hn. Qed.
Lemma get_count_step H l lt : lists H !! l = Some lt → get_count l H = Some (l_count lt, H).
Proof. intros Hn. unfold get_count, get_list, mbind, LM_bind. cbn. by rewrite Hn. Qed.
Lemma set_frist_step H l v lt : lists H !! l = Some lt →
  set_frist l v H =
    Some (tt, LHeap (nodes H) (<[l := List v (l_last lt) (l_count lt)]> (lists H))).
Proof. intros Hn. unfold set_frist, get_list, put_list, mbind, LM_bind. cbn. by repeat (rewrite Hn; cbn). Qed.
Lemma set_last_step H l v lt : lists H !! l = Some lt →
  set_last l v H =
    Some (tt, LHeap (nodes H) (<[l := List (l_frist lt) v (l_count lt)]> (lists H))).
Proof. intros Hn. unfold set_last, get_list, put_list, mbind, LM_bind. cbn. by repeat (rewrite Hn; cbn). Qed.
Lemma set_count_step H l v lt : lists H !! l = Some lt →
  set_count l v H =
    Some (tt, LHeap (nodes H) (<[l := List (l_frist lt) (l_last lt) v]> (lists H))).
Proof. intros Hn. unfold set_count, get_list, put_list, mbind, LM_bind. cbn. by repeat (rewrite Hn; cbn). Qed.
End exec_fields.

(** Lookups in a store updated at known addresses. *)
Ltac slookup :=
  cbn [nodes lists];
  repeat first
    [ rewrite lookup_insert_eq
    | rewrite lookup_insert_ne by (solve [done | congruence]) ];
  first [reflexivity | eassumption].

(** Decide the condition of an [if] on pointers or counters. *)
Ltac sdecide :=
  match goal with
  | |- context [if ?a =? ?b then _ else _] =>
      first
        [ rewrite (proj2 (Z.eqb_eq a b)) by (solve [done | congruence | lia])
        | rewrite (proj2 (Z.eqb_neq a b)) by (solve [done | congruence | lia]) ]
  end.

(** One field access. *)
Ltac sprim :=
  cbn [n_pre n_next l_frist l_last l_count];
  first
    [ reflexivity
    | eapply set_pre_step; slookup | eapply set_next_step; slookup
    | eapply get_pre_step; slookup | eapply get_next_step; slookup
    | eapply get_frist_step; slookup | eapply get_last_step; slookup
    | eapply get_count_step; slookup | eapply set_frist_step; slookup
    | eapply set_last_step; slookup | eapply set_count_step; slookup ].
(** A program: statements in sequence, conditionals decided on the way. *)
Ltac sbody :=
  first
    [ eapply LM_bind_step; [sbody | cbn beta; sbody]
    | sdecide; sbody
    | sprim ].

(** Every program of field accesses keeps the set of objects. *)
Definition keeps_objs {A} (m : LM A) : Prop :=
  ∀ H a H', m H = Some (a, H') → same_objs H H'.

Section keeps.
Lemma is_Some_insert {V} (m : gmap Z V) k v j :
  is_Some (m !! k) → is_Some (<[k := v]> m !! j) ↔ is_Some (m !! j).
Proof. intros ?. rewrite lookup_insert. case_decide; subst; naive_solver. Qed.

Lemma keeps_bind {A B} (m : LM A) (f : A → LM B) :
  keeps_objs m → (∀ a, keeps_objs (f a)) → keeps_objs (m ≫= f).
Proof.
  intros Hm Hf H b H'. unfold mbind, LM_bind.
  destruct (m H) as [[a H1]|] eqn:E; [|done]. intros E2.
  transitivity H1; [by eapply Hm|by eapply Hf].
Qed.
Lemma keeps_ret {A} (a : A) : keeps_objs (mret a).
Proof. by intros H a' H' [= <- <-]. Qed.
Lemma keeps_if {A} (b : bool) (m1 m2 : LM A) :
  keeps_objs m1 → keeps_objs m2 → keeps_objs (if b then m1 else m2).
Proof. by destruct b. Qed.
Lemma keeps_get_node n : keeps_objs (get_node n).
Proof. intros H a H'. unfold get_node. cbn. by destruct (nodes H !! n); intros [= <- <-]. Qed.
Lemma keeps_get_list l : keeps_objs (get_list l).
Proof. intros H a H'. unfold get_list. cbn. by destruct (lists H !! l); intros [= <- <-]. Qed.
Lemma keeps_put_node n nd : keeps_objs (put_node n nd).
Proof.
  intros H a H'. unfold put_node. cbn. destruct (nodes H !! n) eqn:E; intros [= <- <-].
  split; [|done]. intros j. cbn. by apply is_Some_insert.
Qed.
Lemma keeps_put_list l lt : keeps_objs (put_list l lt).
Proof.
  intros H a H'. unfold put_list. cbn. destruct (lists H !! l) eqn:E; intros [= <- <-].
  split; [done|]. intros j. cbn. by apply is_Some_insert.
Qed.
End keeps.

Create HintDb lkeeps.
#[export] Hint Resolve keeps_ret keeps_get_node keeps_get_list
  keeps_put_node keeps_put_list : lkeeps.
#[export] Hint Unfold set_pre set_next set_frist set_last set_count get_pre get_next
  get_frist get_last get_count : lkeeps.

Ltac keeps_solve :=
  repeat first
    [ solve [auto with lkeeps nocore]
    | apply keeps_bind; [|intros ?]
    | apply keeps_if
    | progress autounfold with lkeeps ].

Lemma keeps_insert_first l n : keeps_objs (list_insert_first l n).
Proof. unfold list_insert_first. keeps_solve. Qed.
Lemma keeps_insert_last l n : keeps_objs (list_insert_last l n).
Proof. unfold list_insert_last. keeps_solve. Qed.
Lemma keeps_pop_first l : keeps_objs (list_pop_first l).
Proof. unfold list_pop_first. keeps_solve. Qed.
Lemma keeps_pop_last l : keeps_objs (list_pop_last l).
Proof. unfold list_pop_last. keeps_solve. Qed.
Lemma keeps_pop l n : keeps_objs (list_pop l n).
Proof. unfold list_pop. keeps_solve. Qed.
Lemma keeps_init l : keeps_objs (list_init l).
Proof. unfold list_init. keeps_solve. Qed.
Lemma keeps_node_init n : keeps_objs (list_node_init n).
Proof. unfold list_node_init. keeps_solve. Qed.

(** ** The operations implement sequence operations *)

Section specs.
Context (H : lheap) (L : gmap Z (list Z)).
Hypothesis HR : heap_rep H L.

(** Closing steps shared by the proofs below: the store after the run
    represents the updated family of sequences. *)
Local Ltac set_facts :=
  repeat match goal with
  | Hs : ?P |- _ =>
      lazymatch P with
      | _ !! _ = _ => clear Hs
      | dlseg _ _ _ _ => clear Hs
      | heap_rep _ _ => clear Hs
      | _ <= _ => clear Hs
      | _ = _ => clear Hs
      end
  end;
  set_solver.
Local Ltac solve_frame :=
  let a := fresh "a" in let Ha := fresh "Ha" in let Hu := fresh "Hu" in
  intros a Ha Hu; cbn [nodes lists];
  rewrite ?lookup_insert_ne by (intros ->; first [by apply Hu | set_solver]);
  done.
Local Ltac solve_null :=
  cbn [nodes]; rewrite ?lookup_insert_ne by (eauto using heap_rep_obj);
  apply (hr_null _ _ HR).
Local Ltac solve_seg :=
  repeat match goal with
  | Hs : dlseg _ _ _ _ |- _ =>
      progress (rewrite ?dlseg_app in Hs; cbn [dlseg head default last from_option id] in Hs)
  | Hs : NoDup _ |- _ => progress (rewrite ?NoDup_app, ?NoDup_cons in Hs)
  | Hs : _ ∧ _ |- _ => destruct Hs
  end;
  rewrite ?dlseg_app, ?last_snoc; cbn [dlseg head default last from_option id];
  split_and?;
  first
    [ done
    | slookup
    | eapply dlseg_frame; [|eassumption];
      let a := fresh "a" in let Ha := fresh "Ha" in
      intros a Ha; rewrite ?lookup_insert_ne by set_facts; done ].
Local Ltac finish :=
  eapply heap_rep_update;
  [ exact HR | eassumption | solve_frame | solve_null
  | cbn [lists]; rewrite ?insert_insert_eq; reflexivity | | ];
  cbn [nodes lists].

Lemma count_nonzero {A} (ys : list A) z : Z.of_nat (length (ys ++ [z])) ≠ 0.
Proof. rewrite length_app. cbn. lia. Qed.
Lemma count_nonzero_cons {A} (ys : list A) z : Z.of_nat (length (z :: ys)) ≠ 0.
Proof. cbn. lia. Qed.

Lemma list_insert_last_ok l xs n :
  L !! l = Some xs → unlinked L n → is_Some (nodes H !! n) →
  Z.of_nat (length xs) < INT_MAX →
  ∃ H', list_insert_last l n H = Some (tt, H') ∧ heap_rep H' (<[l := xs ++ [n]]> L).
Proof.
  intros Hl Hun [[p0 n0] Hn] Hlen.
  destruct (hr_lists _ _ HR _ _ Hl) as ([fr la ct] & Hlt & [? ? ? ? Hnd Hseg]); cbn in *.
  assert (n ∉ xs) as Hnx by (by eapply Hun).
  destruct xs as [|z ys _] using rev_ind.
  - cbn in *; subst. eexists. split; [unfold list_insert_last; sbody|]. finish.
    + split; cbn; [done|done|done|unfold INT_MAX; lia|by apply NoDup_singleton|].
      by rewrite lookup_insert_eq.
    + set_solver.
  - rewrite last_snoc in *. cbn in *; subst.
    pose proof (count_nonzero ys z). pose proof (dlseg_last _ _ _ _ _ Hseg) as Hz.
    assert (n ≠ z) by set_solver.
    eexists. split; [unfold list_insert_last; sbody|]. finish.
    + split; cbn; rewrite ?last_snoc; try done.
      * rewrite !head_app_or. by destruct (head ys).
      * rewrite i32_small, (length_app (ys ++ [z])); cbn; unfold INT_MAX, INT_MIN in *; lia.
      * rewrite (length_app (ys ++ [z])); cbn; lia.
      * apply NoDup_app. split_and!; [done|set_solver|apply NoDup_singleton].
      * solve_seg.
    + set_solver.
Qed.

Lemma list_insert_first_ok l xs n :
  L !! l = Some xs → unlinked L n → is_Some (nodes H !! n) →
  Z.of_nat (length xs) < INT_MAX →
  ∃ H', list_insert_first l n H = Some (tt, H') ∧ heap_rep H' (<[l := n :: xs]> L).
Proof.
  intros Hl Hun [[p0 n0] Hn] Hlen.
  destruct (hr_lists _ _ HR _ _ Hl) as ([fr la ct] & Hlt & [? ? ? ? Hnd Hseg]); cbn in *.
  assert (n ∉ xs) as Hnx by (by eapply Hun).
  destruct xs as [|z ys].
  - cbn in *; subst. eexists. split; [unfold list_insert_first; sbody|]. finish.
    + split; cbn; [done|done|done|unfold INT_MAX; lia|by apply NoDup_singleton|].
      by rewrite lookup_insert_eq.
    + set_solver.
  - rewrite last_cons_or in *. cbn [head default from_option id] in *; subst.
    pose proof (count_nonzero_cons ys z). pose proof (proj1 Hseg) as Hz.
    assert (n ≠ z) by set_solver.
    eexists. split; [unfold list_insert_first; sbody|]. finish.
    + split; cbn; rewrite ?last_cons_or; try done.
      * rewrite i32_small; cbn in *; unfold INT_MAX, INT_MIN in *; lia.
      * cbn in *; lia.
      * by constructor.
      * solve_seg.
    + set_solver.
Qed.

(** Popping removes the node, unlinks it and hands it back. *)
Lemma list_pop_first_ok l n xs :
  L !! l = Some (n :: xs) →
  ∃ H', list_pop_first l H = Some (n, H') ∧ heap_rep H' (<[l := xs]> L) ∧
    nodes H' !! n = Some (ListNode NULL NULL).
Proof.
  intros Hl.
  destruct (hr_lists _ _ HR _ _ Hl) as ([fr la ct] & Hlt & [? ? ? ? Hnd Hseg]); cbn in *.
  pose proof (count_nonzero_cons xs n). rewrite last_cons_or in *.
  pose proof (proj1 Hseg) as Hn. pose proof (heap_rep_obj _ _ _ _ HR Hn).
  destruct xs as [|z ys]; cbn [head default last from_option id] in *; subst.
  - eexists. split; [unfold list_pop_first; sbody|]. split; [finish|].
    + split; cbn; done || (by constructor) || (unfold INT_MAX; lia).
    + set_solver.
    + slookup.
  - pose proof (proj1 (proj2 Hseg)) as Hz. pose proof (heap_rep_obj _ _ _ _ HR Hz).
    assert (n ≠ z) by (apply NoDup_cons in Hnd; set_solver).
    eexists. split; [unfold list_pop_first; sbody|]. split; [finish|].
    + split; cbn; rewrite ?last_cons_or; try done.
      * rewrite i32_small; cbn in *; unfold INT_MAX, INT_MIN in *; lia.
      * cbn in *; lia.
      * by apply NoDup_cons in Hnd as [_ ?].
      * solve_seg.
    + set_solver.
    + slookup.
Qed.

Lemma list_pop_first_empty l :
  L !! l = Some [] → list_pop_first l H = Some (NULL, H).
Proof.
  intros Hl.
  destruct (hr_lists _ _ HR _ _ Hl) as ([fr la ct] & Hlt & [? ? ? ? ? ?]); cbn in *.
  unfold list_pop_first. sbody.
Qed.

Lemma list_pop_last_ok l n xs :
  L !! l = Some (xs ++ [n]) →
  ∃ H', list_pop_last l H = Some (n, H') ∧ heap_rep H' (<[l := xs]> L) ∧
    nodes H' !! n = Some (ListNode NULL NULL).
Proof.
  intros Hl.
  destruct (hr_lists _ _ HR _ _ Hl) as ([fr la ct] & Hlt & [? ? ? ? Hnd Hseg]); cbn in *.
  pose proof (count_nonzero xs n). rewrite last_snoc in *.
  pose proof (dlseg_last _ _ _ _ _ Hseg) as Hn. pose proof (heap_rep_obj _ _ _ _ HR Hn).
  destruct xs as [|z ys _] using rev_ind; rewrite ?last_snoc in *;
    cbn [head default last from_option id] in *; subst.
  - eexists. split; [unfold list_pop_last; sbody|]. split; [finish|].
    + split; cbn; done || (by constructor) || (unfold INT_MAX; lia).
    + set_solver.
    + slookup.
  - rewrite (dlseg_app _ _ (ys ++ [z])) in Hseg. destruct Hseg as [Hseg _].
    pose proof (dlseg_last _ _ _ _ _ Hseg) as Hz. pose proof (heap_rep_obj _ _ _ _ HR Hz).
    assert (n ≠ z) by (apply NoDup_app in Hnd; set_solver).
    eexists. split; [unfold list_pop_last; sbody|]. split; [finish|].
    + split; cbn; rewrite ?last_snoc; try done.
      * rewrite !head_app_or. by destruct (head ys).
      * rewrite i32_small, !length_app in *; cbn in *; unfold INT_MAX, INT_MIN in *; lia.
      * rewrite !length_app in *; cbn in *; lia.
      * by apply NoDup_app in Hnd as [? _].
      * solve_seg.
    + set_solver.
    + slookup.
Qed.

Lemma list_pop_last_empty l :
  L !! l = Some [] → list_pop_last l H = Some (NULL, H).
Proof.
  intros Hl.
  destruct (hr_lists _ _ HR _ _ Hl) as ([fr la ct] & Hlt & [? ? ? ? ? ?]); cbn in *.
  unfold list_pop_last. sbody.
Qed.

(** [list_pop], by the position of the node: what the header and the
    neighbours hold. *)
Lemma pop_facts l n xs ys :
  L !! l = Some (xs ++ n :: ys) →
  ∃ ct, lists H !! l = Some (List (default n (head xs)) (default n (last ys)) ct) ∧
    i32 (ct - 1) = Z.of_nat (length (xs ++ ys)) ∧
    Z.of_nat (length (xs ++ ys)) <= INT_MAX ∧
    NoDup (xs ++ ys) ∧ (n ∉ xs) ∧ (n ∉ ys) ∧
    dlseg (nodes H) NULL xs n ∧ dlseg (nodes H) n ys NULL ∧
    nodes H !! n = Some (ListNode (default NULL (last xs)) (default NULL (head ys))) ∧
    n ≠ NULL.
Proof.
  intros Hl.
  destruct (hr_lists _ _ HR _ _ Hl) as ([fr la ct] & Hlt & [? ? ? ? Hnd Hseg]); cbn in *.
  rewrite head_app_or, last_app_or, last_cons_or in *; cbn in *; subst.
  apply dlseg_app in Hseg as (Hxs & Hn & Hys). cbn in Hxs.
  apply NoDup_app in Hnd as (? & Hd & [? ?]%NoDup_cons).
  exists (Z.of_nat (length (xs ++ n :: ys))).
  split_and!; try done.
  - rewrite i32_small; rewrite !length_app in *; cbn in *;
      unfold INT_MAX, INT_MIN in *; lia.
  - rewrite !length_app in *; cbn in *; lia.
  - apply NoDup_app. split_and!; [done| |done]. intros ? ? ?. eapply Hd; set_solver.
  - set_solver.
  - by eapply heap_rep_obj.
Qed.

Local Ltac pop_start Hl :=
  destruct (pop_facts _ _ _ _ Hl) as
    (ct & Hlt & Hct & Hb & Hnd & Hnx & Hny & Hsx & Hsy & Hn & Hnn);
  rewrite ?last_snoc, ?last_cons_or, ?head_app_or in *;
  cbn [head default last from_option id app dlseg] in *.

Lemma list_pop_only l n :
  L !! l = Some [n] →
  ∃ H', list_pop l n H = Some (n, H') ∧ heap_rep H' (<[l := []]> L) ∧
    nodes H' !! n = Some (ListNode NULL NULL).
Proof.
  intros Hl. pop_start (Hl : L !! l = Some ([] ++ n :: [])).
  eexists. split; [unfold list_pop; sbody|]. split; [finish|slookup].
  - by split.
  - set_solver.
Qed.

Lemma list_pop_front l n y ys :
  L !! l = Some (n :: y :: ys) →
  ∃ H', list_pop l n H = Some (n, H') ∧ heap_rep H' (<[l := y :: ys]> L) ∧
    nodes H' !! n = Some (ListNode NULL NULL).
Proof.
  intros Hl. pop_start (Hl : L !! l = Some ([] ++ n :: y :: ys)).
  destruct Hsy as [Hy Hsy]. pose proof (heap_rep_obj _ _ _ _ HR Hy).
  assert (n ≠ y) by set_solver.
  assert (n ≠ default y (last ys)) by (destruct (last_elem_of y ys) as [?|[-> ->]]; set_solver).
  eexists. split; [unfold list_pop; sbody|]. split; [finish|slookup].
  - split; cbn; rewrite ?last_cons_or; try done. solve_seg.
  - set_solver.
Qed.

Lemma list_pop_back l n xs x :
  L !! l = Some ((xs ++ [x]) ++ [n]) →
  ∃ H', list_pop l n H = Some (n, H') ∧ heap_rep H' (<[l := xs ++ [x]]> L) ∧
    nodes H' !! n = Some (ListNode NULL NULL).
Proof.
  intros Hl. pop_start Hl. rewrite app_nil_r in *.
  pose proof (dlseg_last _ _ _ _ _ Hsx) as Hx. pose proof (heap_rep_obj _ _ _ _ HR Hx).
  assert (n ≠ x) by set_solver.
  assert (n ≠ default x (head xs)) by (destruct (head_elem_of x xs) as [?|[-> ->]]; set_solver).
  eexists. split; [unfold list_pop; sbody|]. split; [finish|slookup].
  - split; cbn; rewrite ?last_snoc, ?head_app_or; try done.
    solve_seg.
  - set_solver.
Qed.

Lemma list_pop_middle l n xs x y ys :
  L !! l = Some ((xs ++ [x]) ++ n :: y :: ys) →
  ∃ H', list_pop l n H = Some (n, H') ∧ heap_rep H' (<[l := (xs ++ [x]) ++ y :: ys]> L) ∧
    nodes H' !! n = Some (ListNode NULL NULL).
Proof.
  intros Hl. pop_start Hl. destruct Hsy as [Hy Hsy].
  pose proof (dlseg_last _ _ _ _ _ Hsx) as Hx.
  pose proof (heap_rep_obj _ _ _ _ HR Hx). pose proof (heap_rep_obj _ _ _ _ HR Hy).
  assert (n ≠ x) by set_solver. assert (n ≠ y) by set_solver.
  assert (x ≠ y) by (apply NoDup_app in Hnd as (? & ? & ?); set_solver).
  assert (n ≠ default x (head xs)) by (destruct (head_elem_of x xs) as [?|[-> ->]]; set_solver).
  assert (n ≠ default y (last ys)) by (destruct (last_elem_of y ys) as [?|[-> ->]]; set_solver).
  eexists. split; [unfold list_pop; sbody|]. split; [finish|slookup].
  - split; cbn; rewrite ?last_app_or, ?last_cons_or, ?last_snoc, ?head_app_or; try done.
    solve_seg.
  - set_solver.
Qed.

(** [list_pop] takes a node out of any position of its list. *)
Lemma list_pop_ok l n xs ys :
  L !! l = Some (xs ++ n :: ys) →
  ∃ H', list_pop l n H = Some (n, H') ∧ heap_rep H' (<[l := xs ++ ys]> L) ∧
    nodes H' !! n = Some (ListNode NULL NULL).
Proof.
  destruct xs as [|x xs _] using rev_ind; destruct ys as [|y ys].
  - apply list_pop_only.
  - apply list_pop_front.
  - rewrite app_nil_r. apply list_pop_back.
  - apply list_pop_middle.
Qed.

Lemma list_init_ok l :
  is_Some (lists H !! l) →
  ∃ H', list_init l H = Some (tt, H') ∧ heap_rep H' (<[l := []]> L) ∧ nodes H' = nodes H.
Proof.
  intros [[f la c] Hl].
  eexists. split; [unfold list_init; sbody|]. split; [|done]. split; cbn.
  - intros l2 xs [(<- & <-)|(Hne & Hl2)]%lookup_insert_Some.
    + eexists. split; [by rewrite lookup_insert_eq|]. split; cbn; try done. constructor.
    + destruct (hr_lists _ _ HR _ _ Hl2) as (lt & ? & ?). exists lt.
      by rewrite !lookup_insert_ne by done.
  - intros l1 l2 xs1 xs2 n
      [(<- & <-)|(Hne1 & Hl1)]%lookup_insert_Some
      [(<- & <-)|(Hne2 & Hl2)]%lookup_insert_Some; [set_solver|set_solver|set_solver|].
    apply (hr_disj _ _ HR _ _ _ _ n Hl1 Hl2).
  - apply (hr_null _ _ HR).
Qed.

Lemma list_node_init_ok n :
  unlinked L n → is_Some (nodes H !! n) →
  ∃ H', list_node_init n H = Some (tt, H') ∧ heap_rep H' L.
Proof.
  intros Hun [[p0 n0] Hn].
  eexists. split; [unfold list_node_init; sbody|]. split; cbn.
  - intros l xs Hl. destruct (hr_lists _ _ HR _ _ Hl) as (lt & ? & [? ? ? ? ? Hseg]).
    exists lt. split; [done|]. split; try done.
    rewrite !dlseg_insert_ne by (by eapply Hun). done.
  - apply (hr_disj _ _ HR).
  - solve_null.
Qed.

Lemma list_first_ok l xs :
  L !! l = Some xs → list_first l H = Some (default NULL (head xs), H).
Proof.
  intros Hl. destruct (hr_lists _ _ HR _ _ Hl) as (lt & Hlt & Hlr).
  unfold list_first. erewrite get_frist_step by done. by rewrite (lr_frist _ _ _ Hlr).
Qed.
Lemma list_next_ok l n xs ys :
  L !! l = Some (xs ++ n :: ys) → get_next n H = Some (default NULL (head ys), H).
Proof.
  intros Hl. destruct (pop_facts _ _ _ _ Hl) as (ct & ? & ? & ? & ? & ? & ? & ? & ? & Hn & ?).
  by rewrite (get_next_step _ _ _ Hn).
Qed.
Lemma list_count_ok l xs :
  L !! l = Some xs → list_count l H = Some (Z.of_nat (length xs), H).
Proof.
  intros Hl. destruct (hr_lists _ _ HR _ _ Hl) as (lt & Hlt & Hlr).
  unfold list_count. erewrite get_count_step by done. by rewrite (lr_count _ _ _ Hlr).
Qed.
End specs.

(** ** Properties *)

(** C31: Insertion at either end: the family of sequences changes in the one list,
    and stays well formed in both directions. *)
Theorem list_insert_correct H L l xs n :
  heap_rep H L → L !! l = Some xs → unlinked L n → is_Some (nodes H !! n) → Z.of_nat (length xs) < INT_MAX →
  (∃ H', list_insert_last l n H = Some (tt, H') ∧ heap_rep H' (<[l := xs ++ [n]]> L) ∧ same_objs H H') ∧
  (∃ H', list_insert_first l n H = Some (tt, H') ∧ heap_rep H' (<[l := n :: xs]> L) ∧ same_objs H H').
Proof.
  intros HR Hl Hun Hn Hb. split.
  - destruct (list_insert_last_ok H L HR l xs n) as (H' & E & HR'); try done.
    exists H'. split_and!; [done|done|]. by eapply keeps_insert_last.
  - destruct (list_insert_first_ok H L HR l xs n) as (H' & E & HR'); try done.
    exists H'. split_and!; [done|done|]. by eapply keeps_insert_first.
Qed.

(** What a removal of [n] from list [l], left with [xs], promises. *)
Definition removed (L : gmap Z (list Z)) (l n : Z) (xs : list Z) (r : option (Z * lheap)) : Prop :=
  ∃ H', r = Some (n, H') ∧ heap_rep H' (<[l := xs]> L) ∧ nodes H' !! n = Some (ListNode NULL NULL).

(** C32: Removal: list_pop takes a node out of any position of its list, and
    list_pop_first and list_pop_last take the ends; the node comes out with
    null links. On an empty list the two return NULL and change nothing. *)
Theorem list_remove_correct H L l :
  heap_rep H L →
  (∀ xs n ys, L !! l = Some (xs ++ n :: ys) → removed L l n (xs ++ ys) (list_pop l n H)) ∧
  (∀ n xs, L !! l = Some (n :: xs) → removed L l n xs (list_pop_first l H)) ∧
  (∀ n xs, L !! l = Some (xs ++ [n]) → removed L l n xs (list_pop_last l H)) ∧
  (L !! l = Some [] → list_pop_first l H = Some (NULL, H) ∧ list_pop_last l H = Some (NULL, H)).
Proof.
  intros HR. split_and!.
  - intros xs n ys. by apply list_pop_ok.
  - intros n xs. by apply list_pop_first_ok.
  - intros n xs. by apply list_pop_last_ok.
  - intros Hl. split; [by eapply list_pop_first_empty|by eapply list_pop_last_empty].
Qed.

(** A store with one list of two nodes and a free node. *)
Definition demo_heap : lheap := LHeap
  (<[10 := ListNode 0 20]> (<[20 := ListNode 10 0]> {[30 := ListNode 7 7]}))
  {[100 := List 10 20 2]}.
Lemma demo_heap_rep : heap_rep demo_heap {[100 := [10; 20]]}.
Proof.
  split.
  - intros l xs [<- <-]%lookup_singleton_Some. eexists. split; [done|].
    split; try done. by apply (bool_decide_unpack _).
  - by intros l1 l2 xs1 xs2 n [<- _]%lookup_singleton_Some [<- _]%lookup_singleton_Some.
  - done.
Qed.

Lemma list_insert_correct_witness :
  (∃ H', list_insert_last 100 30 demo_heap = Some (tt, H') ∧
     heap_rep H' (<[100 := [10; 20; 30]]> {[100 := [10; 20]]}) ∧ same_objs demo_heap H') ∧
  (∃ H', list_insert_first 100 30 demo_heap = Some (tt, H') ∧
     heap_rep H' (<[100 := [30; 10; 20]]> {[100 := [10; 20]]}) ∧ same_objs demo_heap H').
Proof.
  apply (list_insert_correct demo_heap {[100 := [10; 20]]} 100 [10; 20] 30);
    [apply demo_heap_rep|done| |by eexists|done].
  intros l xs [<- <-]%lookup_singleton_Some. by apply (bool_decide_unpack _).
Defined.

Lemma list_remove_correct_witness :
  removed {[100 := [10; 20]]} 100 10 [20] (list_pop 100 10 demo_heap) ∧
  removed {[100 := [10; 20]]} 100 20 [10] (list_pop_last 100 demo_heap).
Proof.
  destruct (list_remove_correct demo_heap {[100 := [10; 20]]} 100 demo_heap_rep) as (H1 & _ & H2 & _).
  split; [by apply (H1 [] 10 [20])|by apply (H2 20 [10])].
Defined.
