(* ===== verification/Klib.v ===== *)
(** * String and memory routines (kernel/tools/klib.c)

    The routines act on the byte memory of [Mem].  Their failures are values:
    [KLoop], the loop never ends; [KHang msg], the routine prints [msg] on the
    log and then spins in [for(;;){}]; [KVaArg], [va_arg] is called with no
    argument left (undefined in C). *)

From S2P Require Import Prelude Mem.

Inductive kerr : Type :=
| KLoop
| KHang (msg : string)
| KVaArg.

Inductive result (A : Type) : Type :=
| Ok (a : A)
| Err (e : kerr).
Arguments Ok {A} a.
Arguments Err {A} e.

#[export] Instance result_ret : MRet result := λ A a, Ok a.
#[export] Instance result_bind : MBind result := λ A B f r,
  match r with
  | Ok a => f a
  | Err e => Err e
  end.

#[export] Instance kerr_eq_dec : EqDecision kerr.
Proof. solve_decision. Defined.

(** The result of a loop: its exit, or [KLoop]. *)
Definition ended {A} (o : option A) : result A :=
  match o with
  | Some a => Ok a
  | None => Err KLoop
  end.

(** String literals, as the bytes the compiler emits (without the NUL). *)
Definition bytes_of (s : string) : list Z :=
  (λ a, Z.of_nat (Ascii.nat_of_ascii a)) <$> String.list_ascii_of_string s.

(** ** Operations *)

(** void kernel_strcpy(char *dest, const char *src) *)
Definition kernel_strcpy (m : mem) (dest src : Z) : result mem :=
  ended (cwhile (λ '(m, dest, src),
    if load8 m src =? 0 then Brk (store8 m dest 0)
    else Cont (store8 m dest (load8 m src), dest + 1, src + 1))
    (m, dest, src)).

(** uint32_t kernel_strlen(const char *s) *)
Definition kernel_strlen (m : mem) (s : Z) : result Z :=
  ended (cwhile (λ count,
    if load8 m (s + count) =? 0 then Brk count else Cont (u32 (count + 1))) 0).

(** int kernel_str_equal(const char *s1, const char *s2): the loop bound
    [kernel_strlen(s1)] is evaluated again at every turn, on the advanced
    pointer. *)
Definition kernel_str_equal (m : mem) (s1 s2 : Z) : result Z :=
  l1 ← kernel_strlen m s1;
  l2 ← kernel_strlen m s2;
  if negb (l1 =? l2) then Ok 0
  else
    r ← ended (cwhile (λ '(i, s1, s2),
      match kernel_strlen m s1 with
      | Err e => Brk (Err e)
      | Ok n =>
          if i <? n then
            if negb (load8 m s1 =? load8 m s2) then Brk (Ok 0)
            else Cont (u32 (i + 1), s1 + 1, s2 + 1)
          else Brk (Ok 1)
      end) (0, s1, s2));
    r.

(** void kernel_memcpy(void *dest, const void *src, uint32_t size) *)
Definition kernel_memcpy (m : mem) (dest src size : Z) : result mem :=
  if size =? 0 then Ok m
  else
    ended (cwhile (λ '(m, dest_, src_, size),
      if size =? 0 then Brk m
      else Cont (store8 m dest_ (load8 m src_), dest_ + 1, src_ + 1, u32 (size - 1)))
      (m, dest, src, size)).

(** int kernel_mem_equal(const void *d1, const void *d2, uint32_t size) *)
Definition kernel_mem_equal (m : mem) (d1 d2 size : Z) : result Z :=
  ended (cwhile (λ '(i, p1, p2),
    if i <? size then
      if negb (load8 m p1 =? load8 m p2) then Brk 0
      else Cont (u32 (i + 1), p1 + 1, p2 + 1)
    else Brk 1) (0, d1, d2)).

(** void kernel_memset(void *dest, uint8_t c, uint32_t size): [dest_] is not
    advanced. *)
Definition kernel_memset (m : mem) (dest c size : Z) : result mem :=
  ended (cwhile (λ '(m, size),
    if size =? 0 then Brk m
    else Cont (store8 m dest c, u32 (size - 1))) (m, size)).

(** static const char *num2ch *)
Definition num2ch : list Z := bytes_of "0123456789ABCDEF".

(** The swap loop at the end of kernel_itoa. *)
Definition itoa_reverse (m : mem) (start end_ : Z) : result mem :=
  ended (cwhile (λ '(m, start, end_),
    if start <? end_ then
      let ch := load8 m start in
      let m := store8 m start (load8 m end_) in
      let m := store8 m end_ ch in
      Cont (m, start + 1, end_ - 1)
    else Brk m) (m, start, end_)).

(** The digit loop of kernel_itoa ([do ... while (num)]). *)
Definition itoa_digit (num base : Z) : Z :=
  nth (Z.to_nat (if 0 <? num then Z.rem num base else - Z.rem num base)) num2ch 0.
Definition itoa_digits (m : mem) (p num base : Z) : result (mem * Z) :=
  ended (cwhile (λ '(m, p, num),
    let m := store8 m p (itoa_digit num base) in
    let num := Z.quot num base in
    if num =? 0 then Brk (m, p + 1) else Cont (m, p + 1, num)) (m, p, num)).

(** char *kernel_itoa(char *buf, int num, int base) *)
Definition kernel_itoa (m : mem) (buf num base : Z) : result (mem * Z) :=
  if negb (base =? 2) && negb (base =? 10) && negb (base =? 16) then
    Err (KHang "kernel_itoa: base is a invalid value")
  else if (num <? 0) && (base =? 16) then
    Err (KHang "kernel_itoa: base16 when num < 0")
  else
    let p := buf in
    let flag := 0 in
    let '(flag, m, p) :=
      if (num <? 0) && (base =? 10) then (1, store8 m p 45, p + 1)
      else (flag, m, p) in
    '(m, p) ← itoa_digits m p num base;
    m ← itoa_reverse m (buf + flag) (p - 1);
    Ok (m, p).

(** The states of the format automaton. *)
Inductive fmt_state : Type := NORMAL | READ_FMT.

(** va_arg: the arguments are the 32-bit words pushed by the caller. *)
Definition va_arg (args : list Z) : result (Z * list Z) :=
  match args with
  | a :: args' => Ok (a, args')
  | [] => Err KVaArg
  end.

(** The copy loop of the [%s] case. *)
Definition copy_str (m : mem) (current str len : Z) : result (mem * Z) :=
  ended (cwhile (λ '(m, current, str, len),
    if len =? 0 then Brk (m, current)
    else Cont (store8 m current (load8 m str), current + 1, str + 1, u32 (len - 1)))
    (m, current, str, len)).

(** One character after a [%]. *)
Definition vsprintf_conv (m : mem) (current ch : Z) (args : list Z)
    : result (mem * Z * list Z) :=
  if ch =? 115 (* 's' *) then
    '(str, args) ← va_arg args;
    len ← kernel_strlen m str;
    '(m, current) ← copy_str m current str len;
    Ok (m, current, args)
  else if ch =? 100 (* 'd' *) then
    '(num, args) ← va_arg args;
    '(m, current) ← kernel_itoa m current (i32 num) 10;
    Ok (m, current, args)
  else if ch =? 120 (* 'x' *) then
    '(num, args) ← va_arg args;
    '(m, current) ← kernel_itoa m current (i32 num) 16;
    Ok (m, current, args)
  else if ch =? 99 (* 'c' *) then
    '(c, args) ← va_arg args;
    Ok (store8 m current c, current + 1, args)
  else if ch =? 37 (* '%' *) then
    Ok (store8 m current 37, current + 1, args)
  else
    Ok (store8 m current 63 (* '?' *), current + 1, args).

(** void kernel_vsprintf(char *buf, const char *fmt, va_list args) *)
Definition kernel_vsprintf (m : mem) (buf fmt : Z) (args : list Z) : result mem :=
  r ← ended (cwhile (λ '(m, state, current, fmt, args),
    let ch := load8 m fmt in
    if ch =? 0 then Brk (Ok (store8 m current 0))
    else
      match state with
      | NORMAL =>
          if ch =? 37 then Cont (m, READ_FMT, current, fmt + 1, args)
          else Cont (store8 m current ch, NORMAL, current + 1, fmt + 1, args)
      | READ_FMT =>
          match vsprintf_conv m current ch args with
          | Ok (m, current, args) => Cont (m, NORMAL, current, fmt + 1, args)
          | Err e => Brk (Err e)
          end
      end) (m, NORMAL, buf, fmt, args));
  r.

(** void kernel_sprintf(char *buf, const char *fmt, ...) *)
Definition kernel_sprintf (m : mem) (buf fmt : Z) (args : list Z) : result mem :=
  kernel_vsprintf m buf fmt args.

(** Concrete runs: [sprintf("Hello %d%% 0x%x %s")], the half-length
    comparison, and [memset] of four bytes. *)
Section examples.
Let m0 : mem := stores (stores ∅ 100 (bytes_of "Hello %d%% 0x%x %s" ++ [0]))
                  200 (bytes_of "abcd" ++ [0] ++ bytes_of "abXY" ++ [0]).
Let read (r : result mem) (a : Z) (n : nat) : list Z :=
  match r with Ok m => (λ i, load8 m (a + Z.of_nat i)) <$> seq 0 n | Err _ => [] end.

Example sprintf_run :
  read (kernel_sprintf m0 1000 100 [u32 (-12); 3000; 200]) 1000 20 =
  bytes_of "Hello -12% 0xBB8 abc".
Proof. vm_compute. reflexivity. Qed.
Example str_equal_half : kernel_str_equal m0 200 205 = Ok 1.
Proof. vm_compute. reflexivity. Qed.
Example memset_first : read (kernel_memset m0 200 7 4) 200 4 = 7 :: bytes_of "bcd".
Proof. vm_compute. reflexivity. Qed.
End examples.

(** ** Strings and blocks *)

(** Run one iteration of a loop whose body reduces by the hypotheses. *)
Ltac loop_cont := eapply steps_cont; [cbn beta iota|].
Ltac loop_brk := eapply steps_brk; cbn beta iota.
(** Decide a boolean comparison in the goal by arithmetic. *)
Ltac zdecide :=
  repeat match goal with
  | |- context [?a =? ?b] =>
      first [ rewrite (proj2 (Z.eqb_eq a b)) by (solve [done | lia])
            | rewrite (proj2 (Z.eqb_neq a b)) by (solve [done | lia]) ]
  | |- context [?a <? ?b] =>
      first [ rewrite (proj2 (Z.ltb_lt a b)) by lia
            | rewrite (proj2 (Z.ltb_ge a b)) by lia ]
  end;
  cbn [negb andb orb].

Section strings.
Implicit Types (m : mem) (bs cs : list Z).

Lemma strlen_steps m s bs k :
  cstr_at m (s + k) bs → 0 <= k → k + len bs < 0x100000000 →
  steps (λ count, if load8 m (s + count) =? 0 then Brk count else Cont (u32 (count + 1)))
    (len bs + 1) k (k + len bs).
Proof.
  revert k. induction bs as [|b bs IH]; intros k Hs Hk Hb.
  - apply cstr_at_nil in Hs. loop_brk. rewrite Hs. cbn. f_equal. lia.
  - apply cstr_at_cons in Hs as (Hb1 & Hb2 & Hs). cbn [length] in *.
    replace (Z.of_nat (S (length bs)) + 1) with (len bs + 1 + 1) by lia.
    loop_cont; [rewrite Hb1; zdecide; rewrite u32_small by lia; done|].
    replace (k + Z.of_nat (S (length bs))) with (k + 1 + len bs) by lia.
    apply IH; [|lia..]. by replace (s + (k + 1)) with (s + k + 1) by lia.
Qed.

Lemma strlen_ok m s bs :
  cstr_at m s bs → len bs < 0x100000000 → kernel_strlen m s = Ok (len bs).
Proof.
  intros Hs Hb. unfold kernel_strlen. erewrite cwhile_steps; [done| |].
  - apply (strlen_steps m s bs 0); rewrite ?Z.add_0_r; done || lia.
  - lia.
Qed.

(** Copying forward is right unless the destination starts inside the
    source string. *)
Lemma strcpy_ok m d s bs :
  cstr_at m s bs → d <= s ∨ s + len bs < d → len bs < 0x100000000 →
  kernel_strcpy m d s = Ok (stores m d (bs ++ [0])).
Proof.
  intros Hs Hd Hb. unfold kernel_strcpy.
  erewrite (cwhile_steps _ (len bs + 1)); [done| |lia]. clear Hb.
  revert m d s Hs Hd. induction bs as [|b bs IH]; intros m d s Hs Hd.
  - apply cstr_at_nil in Hs. loop_brk. by rewrite Hs.
  - apply cstr_at_cons in Hs as (Hb1 & Hb2 & Hs). cbn [length app stores] in *.
    replace (Z.of_nat (S (length bs)) + 1) with (len bs + 1 + 1) by lia.
    loop_cont; [rewrite Hb1; zdecide; done|].
    apply IH; [|lia].
    apply (cstr_at_stores_out m d [b]); [|done]. unfold disjoint_ranges. cbn. lia.
Qed.

Lemma memcpy_ok m d s bs :
  bytes_at m s bs → d <= s ∨ s + len bs <= d → len bs < 0x100000000 →
  kernel_memcpy m d s (len bs) = Ok (stores m d bs).
Proof.
  intros Hs Hd Hb. unfold kernel_memcpy. destruct (Z.eqb_spec (len bs) 0) as [Hz|_].
  { by destruct bs. }
  erewrite (cwhile_steps _ (len bs + 1)); [done| |lia].
  revert m d s Hs Hd. induction bs as [|b bs IH]; intros m d s Hs Hd.
  - by loop_brk.
  - destruct Hs as [Hb1 Hs]. cbn [length stores] in *.
    replace (Z.of_nat (S (length bs)) + 1) with (len bs + 1 + 1) by lia.
    loop_cont; [zdecide; rewrite Hb1, u32_small by lia; done|].
    replace (Z.of_nat (S (length bs)) - 1) with (len bs) by lia.
    apply IH; [lia| |lia].
    apply (bytes_at_stores_out m d [b]); [|done]. unfold disjoint_ranges. cbn. lia.
Qed.

Lemma mem_equal_steps m p q bs cs n :
  bytes_at m p bs → bytes_at m q cs → length bs = length cs → len bs <= n < 0x100000000 →
  ∃ k, k <= len bs + 1 ∧ steps (λ '(i, p1, p2),
    if i <? n then
      if negb (load8 m p1 =? load8 m p2) then Brk 0 else Cont (u32 (i + 1), p1 + 1, p2 + 1)
    else Brk 1) k (n - len bs, p, q) (if decide (bs = cs) then 1 else 0).
Proof.
  revert p q cs. induction bs as [|b bs IH]; intros p q [|c cs] Hp Hq Hl Hle; try done.
  - exists 1. split; [cbn; lia|]. loop_brk. cbn in *. by zdecide.
  - destruct Hp as [Hb1 Hp], Hq as [Hc1 Hq]. injection Hl as Hl. cbn [length] in *.
    destruct (decide (b = c)) as [->|Hne].
    + destruct (IH _ _ _ Hp Hq Hl) as (k & Hk & Hst); [lia|].
      exists (k + 1). split; [lia|]. loop_cont.
      { zdecide. rewrite u32_small by lia. done. }
      replace (n - Z.of_nat (S (length bs)) + 1) with (n - len bs) by lia.
      destruct (decide (bs = cs)); destruct (decide (c :: bs = c :: cs)); congruence.
    + exists 1. split; [lia|]. loop_brk. zdecide.
      destruct (decide (b :: bs = c :: cs)); congruence.
Qed.

Lemma mem_equal_ok m p q bs cs :
  bytes_at m p bs → bytes_at m q cs → length bs = length cs → len bs < 0x100000000 →
  kernel_mem_equal m p q (len bs) = Ok (if decide (bs = cs) then 1 else 0).
Proof.
  intros Hp Hq Hl Hb.
  destruct (mem_equal_steps m p q bs cs (len bs)) as (k & ? & Hk); [done..|lia|].
  rewrite Z.sub_diag in Hk. unfold kernel_mem_equal.
  erewrite cwhile_steps; [done|exact Hk|lia].
Qed.

Lemma memset_steps m d c (n : nat) :
  Z.of_nat n < 0x100000000 →
  steps (λ '(m, size), if size =? 0 then Brk m else Cont (store8 m d c, u32 (size - 1)))
    (Z.of_nat n + 1) (m, Z.of_nat n) (if Z.of_nat n =? 0 then m else store8 m d c).
Proof.
  revert m. induction n as [|n IH]; intros m Hn; [by loop_brk|].
  replace (Z.of_nat (S n) + 1) with (Z.of_nat n + 1 + 1) by lia.
  loop_cont; [zdecide; by rewrite u32_small by lia|].
  replace (Z.of_nat (S n) - 1) with (Z.of_nat n) by lia.
  specialize (IH (store8 m d c)). rewrite store_store_eq in IH. zdecide.
  destruct (Z.of_nat n =? 0); apply IH; lia.
Qed.

(** Only the first byte is written, however large the block. *)
Lemma memset_ok m d c n :
  0 <= n < 0x100000000 →
  kernel_memset m d c n = Ok (if n =? 0 then m else store8 m d c).
Proof.
  intros Hn. unfold kernel_memset. pose proof (memset_steps m d c (Z.to_nat n)) as Hs.
  rewrite Z2Nat.id in Hs by lia. erewrite cwhile_steps; [done|apply Hs; lia|lia].
Qed.

(** The comparison stops half way: [i < strlen(s1 + i)]. *)
Lemma str_equal_steps m p q bs cs n :
  cstr_at m p bs → cstr_at m q cs → length bs = length cs →
  Z.of_nat n + len bs < 0x100000000 →
  ∃ k, k <= len bs + 1 ∧ steps (λ '(i, s1, s2),
    match kernel_strlen m s1 with
    | Err e => Brk (Err e)
    | Ok n =>
        if i <? n then
          if negb (load8 m s1 =? load8 m s2) then Brk (Ok 0)
          else Cont (u32 (i + 1), s1 + 1, s2 + 1)
        else Brk (Ok 1)
    end) k (Z.of_nat n, p, q)
    (Ok (if decide (take ((length bs + 1 - n) / 2) bs = take ((length bs + 1 - n) / 2) cs)
         then 1 else 0)).
Proof.
  revert p q cs n. induction bs as [|b bs IH]; intros p q [|c cs] n Hp Hq Hl Hn; try done.
  - exists 1. split; [cbn; lia|]. loop_brk. rewrite (strlen_ok _ _ []) by (done || cbn; lia).
    cbn [length]. zdecide. by rewrite !take_nil.
  - rewrite (cstr_at_cons _ q) in Hq. destruct Hq as (Hc1 & Hc2 & Hq).
    pose proof Hp as Hp0. apply cstr_at_cons in Hp as (Hb1 & Hb2 & Hp).
    injection Hl as Hl. cbn [length] in *.
    destruct (decide (S (length bs) <= n)%nat) as [Hge|Hlt].
    { exists 1. split; [lia|]. loop_brk. rewrite (strlen_ok _ _ _ Hp0) by (cbn; lia).
      cbn [length]. zdecide. rewrite Nat.div_small by lia. done. }
    assert (∃ j, (S (length bs) + 1 - n) / 2 = S j ∧ j = (length bs + 1 - S n) / 2)%nat
      as (j & Hj & Hj').
    { exists ((S (length bs) + 1 - n) / 2 - 1)%nat.
      pose proof (Nat.div_mod_eq (S (length bs) + 1 - n) 2).
      pose proof (Nat.mod_upper_bound (S (length bs) + 1 - n) 2).
      pose proof (Nat.div_mod_eq (length bs + 1 - S n) 2).
      pose proof (Nat.mod_upper_bound (length bs + 1 - S n) 2). lia. }
    rewrite Hj. cbn [take].
    destruct (decide (b = c)) as [->|Hne].
    + destruct (IH _ _ _ (S n) Hp Hq Hl) as (k & Hk & Hst); [lia|].
      exists (k + 1). split; [lia|]. loop_cont.
      { rewrite (strlen_ok _ _ _ Hp0) by (cbn; lia). cbn [length].
        zdecide. rewrite u32_small by lia. done. }
      replace (Z.of_nat n + 1) with (Z.of_nat (S n)) by lia. rewrite <- Hj' in Hst.
      destruct (decide (take j bs = take j cs));
        destruct (decide (c :: take j bs = c :: take j cs)); congruence.
    + exists 1. split; [lia|]. loop_brk. rewrite (strlen_ok _ _ _ Hp0) by (cbn; lia).
      cbn [length]. zdecide.
      destruct (decide (b :: take j bs = c :: take j cs)); congruence.
Qed.

Lemma str_equal_ok m p q bs cs :
  cstr_at m p bs → cstr_at m q cs → len bs < 0x100000000 → len cs < 0x100000000 →
  kernel_str_equal m p q =
    Ok (if decide (length bs = length cs ∧
                   take ((length bs + 1) / 2) bs = take ((length bs + 1) / 2) cs)
        then 1 else 0).
Proof.
  intros Hp Hq Hb Hc. unfold kernel_str_equal.
  rewrite (strlen_ok _ _ _ Hp), (strlen_ok _ _ _ Hq) by done. unfold mbind, result_bind.
  destruct (Z.eqb_spec (len bs) (len cs)) as [Hl|Hl]; cbn [negb].
  - apply Nat2Z.inj in Hl.
    destruct (str_equal_steps m p q bs cs 0 Hp Hq Hl) as (k & ? & Hk); [lia|].
    rewrite Nat.sub_0_r in Hk. erewrite cwhile_steps; [cbn [ended]|exact Hk|lia].
    repeat case_decide; naive_solver.
  - rewrite decide_False; [done|]. naive_solver.
Qed.
End strings.

(** ** Numbers *)

(** The digits of [n], least significant first. *)
Fixpoint digits (fuel : nat) (base n : Z) : list Z :=
  match fuel with
  | O => []
  | S f => n mod base :: (if n / base =? 0 then [] else digits f base (n / base))
  end.

Definition digit_char (d : Z) : Z := nth (Z.to_nat d) num2ch 0.
Definition char_digit (c : Z) : Z := if c <? 65 then c - 48 else c - 55.

(** The numeral written by kernel_itoa: 32 digits are enough for [int]. *)
Definition itoa_str (num base : Z) : list Z :=
  (if (num <? 0) && (base =? 10) then [45] else []) ++
  rev (digit_char <$> digits 32 base (Z.abs num)).

(** The value of a list of digits, and of a numeral with an optional minus
    sign: the specification side of the round trip. *)
Fixpoint digits_value (base : Z) (ds : list Z) : Z :=
  match ds with
  | [] => 0
  | d :: ds' => d + base * digits_value base ds'
  end.
Definition parse_num (base : Z) (s : list Z) : Z :=
  match s with
  | 45 :: s' => - digits_value base (char_digit <$> rev s')
  | _ => digits_value base (char_digit <$> rev s)
  end.

Section numbers.
Implicit Types (m : mem) (bs : list Z).

Lemma char_digit_char d : 0 <= d < 16 → char_digit (digit_char d) = d.
Proof.
  intros Hd. assert (d ∈ seqZ 0 16) as Hin by (apply elem_of_seqZ; lia).
  clear Hd. revert d Hin. apply Forall_forall. repeat constructor.
Qed.
Lemma digit_char_range d : 0 <= d < 16 → 48 <= digit_char d < 71.
Proof.
  intros Hd. assert (d ∈ seqZ 0 16) as Hin by (apply elem_of_seqZ; lia).
  clear Hd. revert d Hin. apply Forall_forall. repeat constructor; done.
Qed.

Lemma digits_range fuel base n : 0 < base → Forall (λ d, 0 <= d < base) (digits fuel base n).
Proof.
  intros Hb. revert n. induction fuel as [|f IH]; intros n; cbn; constructor.
  - by apply Z.mod_pos_bound.
  - destruct (n / base =? 0); [constructor|apply IH].
Qed.

Lemma digits_value_digits fuel base n :
  2 <= base → 0 <= n < base ^ Z.of_nat fuel → digits_value base (digits fuel base n) = n.
Proof.
  intros Hb. revert n. induction fuel as [|f IH]; intros n Hn; cbn [digits digits_value].
  - cbn in Hn. lia.
  - rewrite Nat2Z.inj_succ, Z.pow_succ_r in Hn by lia.
    pose proof (Z.div_mod n base). pose proof (Z.mod_pos_bound n base).
    destruct (Z.eqb_spec (n / base) 0) as [Hz|Hz]; cbn [digits_value]; [nia|].
    rewrite IH; [lia|]. split; [apply Z.div_pos; lia|]. apply Z.div_lt_upper_bound; lia.
Qed.

(** No superfluous zero in front: the most significant digit is not zero,
    except in "0" itself. *)
Lemma digits_last fuel base n :
  2 <= base → 0 < n < base ^ Z.of_nat fuel → ∃ d, last (digits fuel base n) = Some d ∧ 0 < d.
Proof.
  intros Hb. revert n. induction fuel as [|f IH]; intros n Hn; cbn [digits].
  - cbn in Hn. lia.
  - rewrite Nat2Z.inj_succ, Z.pow_succ_r in Hn by lia.
    pose proof (Z.div_mod n base). pose proof (Z.mod_pos_bound n base).
    destruct (Z.eqb_spec (n / base) 0) as [Hz|Hz].
    + eexists. split; [done|]. lia.
    + destruct (IH (n / base)) as (d & Hd & ?).
      * assert (0 <= n / base) by (apply Z.div_pos; lia).
        split; [lia|]. apply Z.div_lt_upper_bound; lia.
      * exists d. split; [|done]. by rewrite last_cons, Hd.
Qed.

Lemma digits_length fuel base n : (length (digits fuel base n) <= fuel)%nat.
Proof.
  revert n. induction fuel as [|f IH]; intros n; cbn; [lia|].
  destruct (n / base =? 0); cbn; [lia|]. specialize (IH (n / base)). lia.
Qed.
(** A number below [base ^ k] has at most [k] digits. *)
Lemma digits_short fuel base n (k : nat) :
  2 <= base → (1 <= k)%nat → 0 <= n < base ^ Z.of_nat k → (length (digits fuel base n) <= k)%nat.
Proof.
  intros Hb. revert n k. induction fuel as [|f IH]; intros n [|k] Hk Hn; cbn [digits length]; try lia.
  rewrite Nat2Z.inj_succ, Z.pow_succ_r in Hn by lia.
  destruct (Z.eqb_spec (n / base) 0) as [Hz|Hz]; cbn [length]; [lia|].
  assert (0 <= n / base < base ^ Z.of_nat k) as Hq
    by (split; [apply Z.div_pos; lia|apply Z.div_lt_upper_bound; lia]).
  destruct k as [|k]; [cbn in Hq; lia|]. specialize (IH (n / base) (S k) ltac:(lia) Hq). lia.
Qed.
Lemma digits_nonempty fuel base n : (0 < fuel)%nat → (1 <= length (digits fuel base n))%nat.
Proof. destruct fuel; cbn; lia. Qed.

(** Signed division in C truncates: on absolute values it is [/] and [mod]. *)
Lemma itoa_digit_abs num base :
  0 < base → itoa_digit num base = digit_char (Z.abs num mod base).
Proof.
  intros Hb. unfold itoa_digit, digit_char. do 2 f_equal.
  destruct (Z.ltb_spec 0 num).
  - rewrite Z.rem_mod_nonneg by lia. by rewrite Z.abs_eq by lia.
  - rewrite <- Z.rem_opp_l by lia. rewrite Z.rem_mod_nonneg by lia.
    by rewrite Z.abs_neq by lia.
Qed.
Lemma quot_abs num base : 0 < base → Z.abs (Z.quot num base) = Z.abs num / base.
Proof.
  intros Hb. rewrite <- Z.quot_abs by lia. rewrite (Z.abs_eq base) by lia.
  apply Z.quot_div_nonneg; lia.
Qed.

Lemma itoa_digits_steps fuel m p num base :
  2 <= base → (0 < fuel)%nat → Z.abs num < base ^ Z.of_nat fuel →
  let ds := digit_char <$> digits fuel base (Z.abs num) in
  steps (λ '(m, p, num),
    let m := store8 m p (itoa_digit num base) in
    let num := Z.quot num base in
    if num =? 0 then Brk (m, p + 1) else Cont (m, p + 1, num))
    (len ds) (m, p, num) (stores m p ds, p + len ds).
Proof.
  intros Hb Hf. destruct fuel as [|fuel]; [lia|]. clear Hf.
  revert m p num. induction fuel as [|fuel IH]; intros m p num Hn ds; subst ds;
    rewrite Nat2Z.inj_succ, Z.pow_succ_r in Hn by lia.
  - assert (Z.abs num / base = 0) as Hq by (apply Z.div_small; cbn in Hn; lia).
    cbn [digits]. rewrite Hq. cbn [Z.eqb fmap list_fmap length stores].
    loop_brk. rewrite itoa_digit_abs by lia.
    assert (Z.quot num base = 0) as -> by (rewrite <- quot_abs in Hq by lia; lia). done.
  - remember (S fuel) as fuel' eqn:Hfuel. cbn [digits fmap list_fmap].
    pose proof (quot_abs num base ltac:(lia)) as Hq.
    destruct (Z.eqb_spec (Z.abs num / base) 0) as [Hz|Hz].
    + cbn [fmap list_fmap length stores]. loop_brk. rewrite itoa_digit_abs by lia.
      assert (Z.quot num base = 0) as -> by lia. done.
    + cbn [fmap list_fmap length stores].
      rewrite !Nat2Z.inj_succ. unfold Z.succ. loop_cont.
      { rewrite itoa_digit_abs by lia. zdecide. done. }
      rewrite <- Hq.
      rewrite (Z.add_comm (len (digit_char <$> _)) 1), Z.add_assoc. apply IH.
      rewrite Hq. apply Z.div_lt_upper_bound; lia.
Qed.

(** Swapping inwards from both ends reverses the block. *)
Lemma itoa_reverse_steps m s bs :
  Forall byte bs →
  ∃ k, k <= len bs + 1 ∧ steps (λ '(m, start, end_),
    if start <? end_ then
      let ch := load8 m start in
      let m := store8 m start (load8 m end_) in
      let m := store8 m end_ ch in
      Cont (m, start + 1, end_ - 1)
    else Brk m) k (stores m s bs, s, s + len bs - 1) (stores m s (rev bs)).
Proof.
  remember (length bs) as n eqn:Hn. revert m s bs Hn.
  induction (lt_wf n) as [n _ IH]. intros m s bs -> Hbs.
  destruct bs as [|b bs]; [exists 1; split; [cbn; lia|]; loop_brk; cbn [length app]; by zdecide|].
  destruct bs as [|e bs _] using rev_ind; [exists 1; split; [cbn; lia|]; loop_brk; cbn [length app]; by zdecide|].
  apply Forall_cons in Hbs as [Hb [Hbs He%Forall_singleton]%Forall_app].
  set (m1 := store8 (store8 m s e) (s + 1 + len bs) b).
  destruct (IH (length bs) ltac:(cbn; rewrite length_app; cbn; lia) m1 (s + 1) bs eq_refl Hbs)
    as (k & Hk & Hst).
  exists (k + 1). cbn [length rev app]. rewrite length_app. cbn [length].
  split; [lia|].
  assert (s + Z.of_nat (S (length bs + 1)) - 1 = s + 1 + len bs) as -> by lia.
  apply (steps_cont _ k _ (stores m1 (s + 1) bs, s + 1, s + 1 + len bs - 1)).
  - cbn beta iota. zdecide. cbn [stores]. rewrite stores_snoc.
    rewrite load_store_eq, load_store_ne by lia. rewrite load_stores_out by lia.
    rewrite load_store_eq, !store_u8.
    rewrite (store_store_ne _ (s + 1 + len bs)) by lia.
    rewrite store_store_eq, !store_stores_comm, store_store_eq by lia. reflexivity.
  - rewrite rev_app_distr. cbn [rev app stores].
    assert (stores (store8 m s e) (s + 1) (rev bs ++ [b]) = stores m1 (s + 1) (rev bs)) as ->.
    { rewrite stores_snoc, length_rev. apply store_stores_comm. rewrite length_rev. lia. }
    exact Hst.
Qed.
End numbers.

Section itoa.
Implicit Types (m : mem) (bs : list Z).

Definition itoa_base (base : Z) : Prop := base = 2 ∨ base = 10 ∨ base = 16.

Lemma pow_32_int base num : 2 <= base → INT_MIN <= num <= INT_MAX → Z.abs num < base ^ 32.
Proof.
  intros Hb Hn. apply Z.lt_le_trans with (2 ^ 32); [|by apply Z.pow_le_mono_l].
  unfold INT_MIN, INT_MAX in *. lia.
Qed.

(** The digits and the swap loop together, at any position. *)
Lemma itoa_body_ok m s num base :
  2 <= base → INT_MIN <= num <= INT_MAX → base <= 16 →
  let ds := digit_char <$> digits 32 base (Z.abs num) in
  itoa_digits m s num base = Ok (stores m s ds, s + len ds) ∧
  itoa_reverse (stores m s ds) s (s + len ds - 1) = Ok (stores m s (rev ds)).
Proof.
  intros Hb Hn Hb16 ds.
  assert (1 <= len ds <= 32) as Hl.
  { unfold ds. rewrite length_fmap. pose proof (digits_length 32 base (Z.abs num)).
    pose proof (digits_nonempty 32 base (Z.abs num)). lia. }
  split.
  - unfold itoa_digits. erewrite cwhile_steps; [done| |].
    + apply (itoa_digits_steps 32); [done|lia|by apply pow_32_int].
    + fold ds. lia.
  - unfold itoa_reverse. destruct (itoa_reverse_steps m s ds) as (k & Hk & Hst).
    + unfold ds. apply Forall_fmap. eapply Forall_impl; [apply digits_range; lia|].
      cbn beta. intros d Hd. pose proof (digit_char_range d ltac:(lia)) as Hr.
      unfold byte, compose. lia.
    + erewrite cwhile_steps; [done|exact Hst|lia].
Qed.

Lemma itoa_ok m buf num base :
  itoa_base base → INT_MIN <= num <= INT_MAX → ¬ (num < 0 ∧ base = 16) →
  kernel_itoa m buf num base =
    Ok (stores m buf (itoa_str num base), buf + len (itoa_str num base)).
Proof.
  intros Hb Hn Hneg. unfold kernel_itoa, itoa_str.
  assert (2 <= base <= 16) as Hb' by (unfold itoa_base in Hb; lia).
  assert (negb (base =? 2) && negb (base =? 10) && negb (base =? 16) = false) as ->.
  { destruct Hb as [->|[->| ->]]; done. }
  assert ((num <? 0) && (base =? 16) = false) as ->.
  { apply andb_false_iff. rewrite Z.ltb_ge, Z.eqb_neq. lia. }
  unfold mbind, result_bind.
  destruct ((num <? 0) && (base =? 10)); cbn [app length stores].
  - destruct (itoa_body_ok (store8 m buf 45) (buf + 1) num base) as [H1 H2]; [lia..|].
    rewrite H1, H2. rewrite length_rev. do 2 f_equal. lia.
  - destruct (itoa_body_ok m buf num base) as [H1 H2]; [lia..|].
    rewrite H1, Z.add_0_r, H2. by rewrite length_rev.
Qed.

Lemma itoa_str_bytes num base :
  2 <= base <= 16 → Forall byte (itoa_str num base) ∧ 1 <= len (itoa_str num base) <= 33.
Proof.
  intros Hb. unfold itoa_str. rewrite length_app, length_rev, length_fmap.
  pose proof (digits_length 32 base (Z.abs num)).
  pose proof (digits_nonempty 32 base (Z.abs num)). split.
  - apply Forall_app. split; [by destruct (_ && _); repeat constructor|].
    apply Forall_rev, Forall_fmap. eapply Forall_impl; [apply digits_range; lia|].
    cbn beta. intros d Hd. pose proof (digit_char_range d). unfold byte, compose. lia.
  - destruct (_ && _); cbn [length]; lia.
Qed.

(** The numerals of an int. *)
Lemma itoa_str_dec n : INT_MIN <= n <= INT_MAX → len (itoa_str n 10) <= 11.
Proof.
  unfold INT_MIN, INT_MAX. intros Hn. unfold itoa_str. rewrite length_app, length_rev, length_fmap.
  pose proof (digits_short 32 10 (Z.abs n) 10 ltac:(lia) ltac:(lia) ltac:(cbn; lia)) as Hd.
  destruct (_ && _); cbn [length]; lia.
Qed.
Lemma itoa_str_hex n : 0 <= n <= INT_MAX → len (itoa_str n 16) <= 8.
Proof.
  unfold INT_MAX. intros Hn. unfold itoa_str. rewrite length_app, length_rev, length_fmap, andb_false_r.
  pose proof (digits_short 32 16 (Z.abs n) 8 ltac:(lia) ltac:(lia) ltac:(cbn; lia)) as Hd. cbn [length]. lia.
Qed.

Lemma digit_value_chars base ds :
  Forall (λ d, 0 <= d < 16) ds →
  digits_value base (char_digit <$> (digit_char <$> ds)) = digits_value base ds.
Proof.
  induction 1; cbn [fmap list_fmap digits_value]; [done|].
  rewrite char_digit_char by done. congruence.
Qed.

Lemma itoa_str_digits num base :
  2 <= base <= 16 → INT_MIN <= num <= INT_MAX →
  digits_value base (char_digit <$> (digit_char <$> digits 32 base (Z.abs num))) = Z.abs num.
Proof.
  intros Hb Hn. rewrite digit_value_chars.
  - apply digits_value_digits; [lia|]. split; [lia|]. apply (pow_32_int base); [lia|done].
  - eapply Forall_impl; [apply digits_range; lia|]. cbn beta. lia.
Qed.

Lemma itoa_str_parse num base :
  2 <= base <= 16 → INT_MIN <= num <= INT_MAX →
  parse_num base (itoa_str num base) = if base =? 10 then num else Z.abs num.
Proof.
  intros Hb Hn. unfold itoa_str.
  destruct ((num <? 0) && (base =? 10)) eqn:E.
  - apply andb_true_iff in E as [E1%Z.ltb_lt E2]. cbn [app parse_num].
    rewrite rev_involutive, itoa_str_digits by lia. rewrite E2. lia.
  - cbn [app]. unfold parse_num.
    assert (∀ x, x ∈ rev (digit_char <$> digits 32 base (Z.abs num)) → x ≠ 45) as Hne.
    { intros x Hx. apply list_elem_of_In, in_rev, list_elem_of_In in Hx.
      apply list_elem_of_fmap in Hx as (d & -> & Hd).
      pose proof (digits_range 32 base (Z.abs num) ltac:(lia)) as Hr.
      rewrite Forall_forall in Hr. specialize (Hr _ Hd).
      pose proof (digit_char_range d). lia. }
    assert (digits_value base (char_digit <$>
      rev (rev (digit_char <$> digits 32 base (Z.abs num)))) =
      if base =? 10 then num else Z.abs num) as Hv.
    { rewrite rev_involutive, itoa_str_digits by lia.
      destruct (base =? 10); [|done]. rewrite andb_true_r in E. apply Z.ltb_ge in E. lia. }
    destruct (rev _) as [|c s]; [done|].
    specialize (Hne c ltac:(set_solver)).
    destruct c as [|p|p]; [exact Hv| |exact Hv].
    do 6 (destruct p as [p|p|]; try (exact Hv)). by destruct Hne.
Qed.
End itoa.

(** ** Formatting: a reference renderer and its refinement *)

Section format.
(** The contents of the strings the arguments point to. *)
Context (str_of : Z → list Z).

(** What one conversion produces. *)
Definition render_conv (ch : Z) (args : list Z) : result (list Z * list Z) :=
  if ch =? 115 then '(p, args) ← va_arg args; Ok (str_of p, args)
  else if ch =? 100 then '(a, args) ← va_arg args; Ok (itoa_str (i32 a) 10, args)
  else if ch =? 120 then
    '(a, args) ← va_arg args;
    if i32 a <? 0 then Err (KHang "kernel_itoa: base16 when num < 0")
    else Ok (itoa_str (i32 a) 16, args)
  else if ch =? 99 then '(c, args) ← va_arg args; Ok ([c], args)
  else if ch =? 37 then Ok ([37], args)
  else Ok ([63], args).

(** The text produced, and the failure that ends it, if any. *)
Fixpoint render (st : fmt_state) (fmt args : list Z) : list Z * option kerr :=
  match fmt with
  | [] => ([], None)
  | ch :: fmt' =>
      match st with
      | NORMAL =>
          if ch =? 37 then render READ_FMT fmt' args
          else let '(o, e) := render NORMAL fmt' args in (ch :: o, e)
      | READ_FMT =>
          match render_conv ch args with
          | Ok (s, args') => let '(o, e) := render NORMAL fmt' args' in (s ++ o, e)
          | Err e => ([], Some e)
          end
      end
  end.

(** The pointers consumed by [%s]. *)
Fixpoint str_args (st : fmt_state) (fmt args : list Z) : list Z :=
  match fmt with
  | [] => []
  | ch :: fmt' =>
      match st with
      | NORMAL => str_args (if ch =? 37 then READ_FMT else NORMAL) fmt' args
      | READ_FMT =>
          if ch =? 115 then
            match args with p :: args' => p :: str_args NORMAL fmt' args' | [] => [] end
          else if (ch =? 100) || (ch =? 120) || (ch =? 99) then
            match args with _ :: args' => str_args NORMAL fmt' args' | [] => [] end
          else str_args NORMAL fmt' args
      end
  end.

Lemma copy_str_ok m cur s bs :
  cstr_at m s bs → disjoint_ranges cur (len bs) s (len bs + 1) → len bs < 0x100000000 →
  copy_str m cur s (len bs) = Ok (stores m cur bs, cur + len bs).
Proof.
  intros Hs Hd Hb. unfold copy_str. erewrite (cwhile_steps _ (len bs + 1)); [done| |lia].
  revert m cur s Hs Hd. induction bs as [|b bs IH]; intros m cur s Hs Hd.
  - loop_brk. cbn. by rewrite Z.add_0_r.
  - apply cstr_at_cons in Hs as (Hb1 & Hb2 & Hs). cbn [length stores] in *.
    replace (Z.of_nat (S (length bs)) + 1) with (len bs + 1 + 1) by lia.
    loop_cont; [zdecide; rewrite Hb1, u32_small by lia; done|].
    replace (Z.of_nat (S (length bs)) - 1) with (len bs) by lia.
    replace (cur + Z.of_nat (S (length bs))) with (cur + 1 + len bs) by lia.
    unfold disjoint_ranges in *. apply IH; [lia| |lia].
    apply (cstr_at_stores_out m cur [b]); [|done]. unfold disjoint_ranges. cbn. lia.
Qed.

Lemma i32_range v : INT_MIN <= i32 v <= INT_MAX.
Proof.
  unfold i32, INT_MIN, INT_MAX.
  pose proof (Z.mod_pos_bound (v + 0x80000000) 0x100000000). lia.
Qed.

(** One conversion in memory. *)
Lemma conv_ok m cur ch args :
  (∀ p args', ch = 115 → args = p :: args' →
    cstr_at m p (str_of p) ∧ len (str_of p) < 0x100000000 ∧
    disjoint_ranges cur (len (str_of p)) p (len (str_of p) + 1)) →
  vsprintf_conv m cur ch args =
    match render_conv ch args with
    | Ok (s, args') => Ok (stores m cur s, cur + len s, args')
    | Err e => Err e
    end.
Proof.
  intros Hs. unfold vsprintf_conv, render_conv, mbind, result_bind.
  destruct (Z.eqb_spec ch 115) as [H115|_].
  { destruct args as [|p args]; cbn [va_arg]; [done|].
    destruct (Hs p args H115 eq_refl) as (Hp & Hl & Hd).
    rewrite (strlen_ok _ _ _ Hp Hl), (copy_str_ok _ _ _ _ Hp Hd Hl). done. }
  destruct (ch =? 100).
  { destruct args as [|a args]; cbn [va_arg]; [done|].
    rewrite itoa_ok; [done|by right; left|apply i32_range|lia]. }
  destruct (ch =? 120).
  { destruct args as [|a args]; cbn [va_arg]; [done|].
    destruct (Z.ltb_spec (i32 a) 0) as [Hneg|Hpos].
    - unfold kernel_itoa. zdecide. done.
    - rewrite itoa_ok; [done|by right; right|apply i32_range|lia]. }
  destruct (ch =? 99); [by destruct args|]. by destruct (ch =? 37).
Qed.

(** The conditions on the memory for rendering [fmt] at [cur]. *)
Definition strings_ready (m : mem) (buf n : Z) (ps : list Z) : Prop :=
  ∀ p, p ∈ ps → cstr_at m p (str_of p) ∧ len (str_of p) < 0x100000000 ∧
    disjoint_ranges buf n p (len (str_of p) + 1).

Local Notation vs_body := (λ '(m, state, current, fmt, args),
  let ch := load8 m fmt in
  if ch =? 0 then Brk (Ok (store8 m current 0))
  else
    match state with
    | NORMAL =>
        if ch =? 37 then Cont (m, READ_FMT, current, fmt + 1, args)
        else Cont (store8 m current ch, NORMAL, current + 1, fmt + 1, args)
    | READ_FMT =>
        match vsprintf_conv m current ch args with
        | Ok (m, current, args) => Cont (m, NORMAL, current, fmt + 1, args)
        | Err e => Brk (Err e)
        end
    end).

Definition vs_result (m : mem) (cur : Z) (r : list Z * option kerr) : result mem :=
  match r.2 with
  | None => Ok (stores m cur (r.1 ++ [0]))
  | Some e => Err e
  end.

Lemma str_args_conv ch fmt args s args' :
  render_conv ch args = Ok (s, args') →
  str_args READ_FMT (ch :: fmt) args =
    (if ch =? 115 then match args with p :: _ => [p] | [] => [] end else [])
    ++ str_args NORMAL fmt args'.
Proof.
  unfold render_conv, mbind, result_bind. cbn [str_args].
  destruct (ch =? 115), (ch =? 100), (ch =? 120), (ch =? 99), (ch =? 37);
    cbn [orb app]; destruct args as [|a args]; cbn [va_arg]; try case_match;
    by intros [= <- <-].
Qed.

(** The memory is ready for rendering [fmt], stored at [f], to [cur]; and
    what rendering it means for the loop. *)
Definition vs_ready (m : mem) (st : fmt_state) (cur f : Z) (fmt args : list Z) : Prop :=
  cstr_at m f fmt ∧
  disjoint_ranges cur (len (render st fmt args).1 + 1) f (len fmt + 1) ∧
  strings_ready m cur (len (render st fmt args).1 + 1) (str_args st fmt args).
Definition vs_runs (m : mem) (st : fmt_state) (cur f : Z) (fmt args : list Z) : Prop :=
  ∃ k, k <= len fmt + 1 ∧
    steps vs_body k (m, st, cur, f, args) (vs_result m cur (render st fmt args)).

(** The common step: [o] is written at [cur], the rest follows. *)
Lemma vsprintf_emit m st cur f ch fmt args o args' :
  (∀ m cur, vs_ready m NORMAL cur (f + 1) fmt args' → vs_runs m NORMAL cur (f + 1) fmt args') →
  cstr_at m (f + 1) fmt →
  disjoint_ranges cur (len (render st (ch :: fmt) args).1 + 1) f (len (ch :: fmt) + 1) →
  strings_ready m cur (len (render st (ch :: fmt) args).1 + 1) (str_args st (ch :: fmt) args) →
  render st (ch :: fmt) args =
    (o ++ (render NORMAL fmt args').1, (render NORMAL fmt args').2) →
  (∀ p, p ∈ str_args NORMAL fmt args' → p ∈ str_args st (ch :: fmt) args) →
  vs_body (m, st, cur, f, args) = Cont (stores m cur o, NORMAL, cur + len o, f + 1, args') →
  vs_runs m st cur f (ch :: fmt) args.
Proof.
  intros IH Hf Hd Hs Hr Hsub Hbody. unfold vs_runs. rewrite Hr in *. cbn [fst] in *.
  rewrite length_app in *. cbn [length] in *. unfold disjoint_ranges in Hd.
  destruct (IH (stores m cur o) (cur + len o)) as (k & Hk & Hst).
  - unfold vs_ready, disjoint_ranges. split_and!; [|lia|].
    + apply cstr_at_stores_out; [unfold disjoint_ranges; lia|done].
    + intros p Hp. destruct (Hs p (Hsub p Hp)) as (? & ? & Hdp). unfold disjoint_ranges in *.
      split_and!; [|done|lia]. apply cstr_at_stores_out; [unfold disjoint_ranges; lia|done].
  - exists (k + 1). split; [lia|]. eapply steps_cont; [exact Hbody|].
    unfold vs_result in *. cbn [fst snd] in *.
    destruct (render NORMAL fmt args').2; [done|]. by rewrite <- app_assoc, stores_app.
Qed.

Lemma vsprintf_steps m st cur f fmt args :
  vs_ready m st cur f fmt args → vs_runs m st cur f fmt args.
Proof.
  revert m st cur f args. induction fmt as [|ch fmt IH]; intros m st cur f args (Hf & Hd & Hs).
  { apply cstr_at_nil in Hf. exists 1. split; [cbn; lia|].
    loop_brk. rewrite Hf. by destruct st. }
  apply cstr_at_cons in Hf as (Hch & Hnz & Hf). destruct st.
  - destruct (Z.eqb_spec ch 37) as [H37|H37].
    + unfold vs_runs. cbn [render str_args] in Hs, Hd |- *. rewrite H37 in *.
      cbn [Z.eqb Pos.eqb] in *. unfold disjoint_ranges in Hd. cbn [length] in *.
      destruct (IH m READ_FMT cur (f + 1) args) as (k & Hk & Hst).
      * split_and!; [done| |done]. unfold disjoint_ranges. lia.
      * exists (k + 1). split; [lia|]. loop_cont; [|exact Hst]. by rewrite Hch.
    + apply (vsprintf_emit m NORMAL cur f ch fmt args [ch] args); [by eauto|done..| | |].
      * cbn [render]. zdecide. by destruct (render NORMAL fmt args).
      * cbn [str_args]. by zdecide.
      * cbn beta iota zeta. rewrite Hch. zdecide. reflexivity.
  - pose proof (conv_ok m cur ch args) as Hconv.
    destruct (render_conv ch args) as [[s args']|e] eqn:Hrc.
    + apply (vsprintf_emit m READ_FMT cur f ch fmt args s args'); [by eauto|done..| | |].
      * cbn [render]. rewrite Hrc. by destruct (render NORMAL fmt args').
      * intros p Hp. rewrite (str_args_conv _ _ _ _ _ Hrc). set_solver.
      * cbn beta iota zeta. rewrite Hch. zdecide. rewrite Hconv; [done|].
        intros p args2 -> ->. cbn [render_conv va_arg] in Hrc. injection Hrc as <- <-.
        destruct (Hs p) as (? & ? & Hdp); [cbn; set_solver|]. split_and!; [done..|].
        cbn [render render_conv] in Hdp. cbn in Hdp.
        destruct (render NORMAL fmt args2). unfold disjoint_ranges in *. cbn in Hdp.
        rewrite length_app in Hdp. lia.
    + exists 1. split; [cbn [length]; lia|]. loop_brk. cbn zeta. rewrite Hch. zdecide.
      rewrite Hconv.
      * cbn [render]. by rewrite Hrc.
      * intros p args2 -> ->. done.
Qed.

Lemma vsprintf_ok m buf f fmt args :
  cstr_at m f fmt → len fmt < 0x100000000 →
  disjoint_ranges buf (len (render NORMAL fmt args).1 + 1) f (len fmt + 1) →
  strings_ready m buf (len (render NORMAL fmt args).1 + 1) (str_args NORMAL fmt args) →
  kernel_vsprintf m buf f args = vs_result m buf (render NORMAL fmt args).
Proof.
  intros Hf Hl Hd Hs.
  destruct (vsprintf_steps m NORMAL buf f fmt args (conj Hf (conj Hd Hs))) as (k & Hk & Hst).
  unfold kernel_vsprintf. erewrite cwhile_steps; [done|exact Hst|lia].
Qed.
End format.

(** ** Properties *)

(** kernel_strcpy leaves the source string at the destination, terminated,
    and changes nothing else; the destination may overlap the source unless it
    starts inside it. kernel_strlen then measures the copy. *)
Theorem strcpy_correct m d s bs :
  cstr_at m s bs → d <= s ∨ s + len bs < d → len bs < 0x100000000 →
  kernel_strlen m s = Ok (len bs) ∧
  ∃ m', kernel_strcpy m d s = Ok m' ∧ cstr_at m' d bs ∧ kernel_strlen m' d = Ok (len bs) ∧
    ∀ x, x < d ∨ d + len bs < x → load8 m' x = load8 m x.
Proof.
  intros Hs Hd Hl. split; [by apply strlen_ok|]. rewrite (strcpy_ok _ _ _ _ Hs Hd Hl).
  eexists. split; [done|]. destruct Hs as [Hnz Hbs].
  assert (cstr_at (stores m d (bs ++ [0])) d bs) as Hc.
  { split; [done|]. by eapply bytes_at_stores, bytes_at_byte. }
  split_and!; [done|by apply strlen_ok|]. intros x Hx. apply load_stores_out.
  rewrite length_app. cbn. lia.
Qed.

(** kernel_memcpy copies the block and nothing else, the block and its copy
    then compare equal; kernel_mem_equal decides equality of two blocks. *)
Theorem memcpy_correct m d s bs :
  bytes_at m s bs → d <= s ∨ s + len bs <= d → len bs < 0x100000000 →
  (∃ m', kernel_memcpy m d s (len bs) = Ok m' ∧ bytes_at m' d bs ∧
    (∀ x, x < d ∨ d + len bs <= x → load8 m' x = load8 m x) ∧
    (disjoint_ranges d (len bs) s (len bs) → kernel_mem_equal m' d s (len bs) = Ok 1)) ∧
  ∀ q cs, bytes_at m q cs → length bs = length cs →
    kernel_mem_equal m s q (len bs) = Ok (if decide (bs = cs) then 1 else 0).
Proof.
  intros Hs Hd Hl. split.
  - rewrite (memcpy_ok _ _ _ _ Hs Hd Hl). eexists. split; [done|].
    assert (bytes_at (stores m d bs) d bs) as Hc by (by eapply bytes_at_stores, bytes_at_byte).
    split_and!; [done|intros x; apply load_stores_out|]. intros Hdis.
    rewrite (mem_equal_ok _ d s bs bs); [by rewrite decide_True|done| |done|done].
    by apply bytes_at_stores_out.
  - intros q cs Hq Hlen. by apply mem_equal_ok.
Qed.

(** kernel_memset terminates for every size, sets the first byte of a block
    that is not empty, and leaves every other byte alone. *)
Theorem memset_first_byte m d c n :
  0 <= n < 0x100000000 →
  ∃ m', kernel_memset m d c n = Ok m' ∧ (0 < n → load8 m' d = u8 c) ∧
    (n = 0 → m' = m) ∧ ∀ x, x ≠ d → load8 m' x = load8 m x.
Proof.
  intros Hn. rewrite memset_ok by done. eexists. split; [done|].
  destruct (Z.eqb_spec n 0); split_and!; try done; try lia.
  - intros _. apply load_store_eq.
  - intros x Hx. by apply load_store_ne.
Qed.

(** kernel_str_equal answers 0 for strings of different lengths, and compares
    only the first half, rounded up, of strings of the same length. *)
Theorem str_equal_half_length m p q bs cs :
  cstr_at m p bs → cstr_at m q cs → len bs < 0x100000000 → len cs < 0x100000000 →
  kernel_str_equal m p q =
    Ok (if decide (length bs = length cs ∧
                   take ((length bs + 1) / 2) bs = take ((length bs + 1) / 2) cs)
        then 1 else 0).
Proof. apply str_equal_ok. Qed.

(** C34: kernel_itoa writes a numeral, of at most 33 characters, that reads back
    as the number in base 10, and as its absolute value in bases 2 and 16; the
    result points past it. An invalid base, or a negative number in base 16,
    hangs the routine. *)
Theorem itoa_roundtrip m buf num base :
  INT_MIN <= num <= INT_MAX →
  (itoa_base base → ¬ (num < 0 ∧ base = 16) →
    ∃ m' str, kernel_itoa m buf num base = Ok (m', buf + len str) ∧
      bytes_at m' buf str ∧ 1 <= len str <= 33 ∧
      parse_num base str = (if base =? 10 then num else Z.abs num) ∧
      ∀ x, x < buf ∨ buf + len str <= x → load8 m' x = load8 m x) ∧
  (¬ itoa_base base → ∃ msg, kernel_itoa m buf num base = Err (KHang msg)) ∧
  (num < 0 → ∃ msg, kernel_itoa m buf num 16 = Err (KHang msg)).
Proof.
  intros Hn. split_and!.
  - intros Hb Hneg. rewrite itoa_ok by done. exists (stores m buf (itoa_str num base)), (itoa_str num base).
    assert (2 <= base <= 16) as Hb16 by (unfold itoa_base in Hb; lia).
    destruct (itoa_str_bytes num base Hb16) as [Hby Hlen].
    split_and!; [done|by apply bytes_at_stores|lia|lia|by apply itoa_str_parse|].
    intros x. apply load_stores_out.
  - intros Hb. unfold kernel_itoa, itoa_base in *. zdecide. by eexists.
  - intros Hneg. unfold kernel_itoa. zdecide. by eexists.
Qed.

(** C33: kernel_vsprintf terminates and writes exactly the text of the reference
    renderer, with its terminator, or fails where the renderer fails, for every
    format string and argument list whose strings do not overlap the buffer. *)
Theorem vsprintf_renders str_of m buf f fmt args :
  cstr_at m f fmt → len fmt < 0x100000000 →
  let out := render str_of NORMAL fmt args in
  disjoint_ranges buf (len out.1 + 1) f (len fmt + 1) →
  strings_ready str_of m buf (len out.1 + 1) (str_args NORMAL fmt args) →
  kernel_vsprintf m buf f args =
    match out.2 with
    | None => Ok (stores m buf (out.1 ++ [0]))
    | Some e => Err e
    end.
Proof. apply vsprintf_ok. Qed.

(** Concrete memories. *)
Definition demo_mem : mem :=
  stores (stores ∅ 100 (bytes_of "%s=%d" ++ [0])) 200 (bytes_of "tick" ++ [0]).

Lemma demo_tick : cstr_at demo_mem 200 (bytes_of "tick").
Proof. split; [by apply (bool_decide_unpack _)|vm_compute; done]. Qed.
Lemma demo_fmt : cstr_at demo_mem 100 (bytes_of "%s=%d").
Proof. split; [by apply (bool_decide_unpack _)|vm_compute; done]. Qed.

Lemma strcpy_correct_witness :
  ∃ m', kernel_strcpy demo_mem 198 200 = Ok m' ∧ kernel_strlen m' 198 = Ok 4.
Proof.
  destruct (strcpy_correct demo_mem 198 200 (bytes_of "tick") demo_tick) as (_ & m' & E & _ & E' & _);
    [left; done|done|]. by exists m'.
Defined.
Lemma memcpy_correct_witness :
  ∃ m', kernel_memcpy demo_mem 300 200 4 = Ok m' ∧ kernel_mem_equal m' 300 200 4 = Ok 1.
Proof.
  destruct (memcpy_correct demo_mem 300 200 (bytes_of "tick")) as ((m' & E & _ & _ & E') & _);
    [by vm_compute|right; done|done|]. exists m'. split; [exact E|]. apply E'. by right.
Defined.
Lemma memset_first_byte_witness :
  ∃ m', kernel_memset demo_mem 200 0 104 = Ok m' ∧ load8 m' 201 = 105.
Proof.
  destruct (memset_first_byte demo_mem 200 0 104) as (m' & E & _ & _ & Ho); [lia|].
  exists m'. split; [exact E|]. rewrite Ho by done. vm_compute. reflexivity.
Defined.
Lemma str_equal_half_length_witness :
  let m := stores (stores ∅ 200 (bytes_of "abcd" ++ [0])) 300 (bytes_of "abXY" ++ [0]) in
  kernel_str_equal m 200 300 = Ok 1.
Proof.
  intros m. rewrite (str_equal_half_length m 200 300 (bytes_of "abcd") (bytes_of "abXY"));
    [vm_compute; reflexivity| | |done|done];
    (split; [by apply (bool_decide_unpack _)|vm_compute; done]).
Defined.
Lemma itoa_roundtrip_witness :
  ∃ m' str, kernel_itoa ∅ 100 (-120) 10 = Ok (m', 100 + len str) ∧ parse_num 10 str = -120.
Proof.
  destruct (itoa_roundtrip ∅ 100 (-120) 10) as (Hok & _); [unfold INT_MIN, INT_MAX; lia|].
  destruct Hok as (m' & str & E & _ & _ & Hp & _); [by right; left|lia|]. by exists m', str.
Defined.
Lemma vsprintf_renders_witness :
  kernel_vsprintf demo_mem 500 100 [200; u32 (-3)] = Ok (stores demo_mem 500 (bytes_of "tick=-3" ++ [0])).
Proof.
  rewrite (vsprintf_renders (λ _, bytes_of "tick") demo_mem 500 100 (bytes_of "%s=%d") [200; u32 (-3)]);
    [vm_compute; reflexivity|apply demo_fmt|done|right; vm_compute; done|].
  intros p Hp. assert (p = 200) as -> by (vm_compute in Hp; set_solver).
  split_and!; [apply demo_tick|done|right; vm_compute; done].
Defined.
