(* ===== verification/Machine.v ===== *)
(** * The machine: kernel state, statements, processor instructions

    [kstate] holds every global object of the kernel.  A C function of the
    kernel is a value of [M A]: a state transformer that ends normally
    ([Done]), stops for ever ([Stop]) or reaches the far jump to a task state
    segment ([Switch]).  A switch keeps the rest of the function as a
    continuation: it runs, on whatever the state is by then, when the task is
    switched back in.  The instructions of comm/cpuistr.h are the primitives. *)

From S2P Require Import Prelude Mem DList Klib.

(** ** Objects of the kernel *)

(** enum task_state (core/task.h) *)
Inductive task_state : Type :=
| TASK_CREATED
| TASK_RUNNING
| TASK_SLEEP
| TASK_READY
| TASK_WAITTING.

(** struct _task_t: the scalar members.  The name and the TSS are bytes of the
    memory, the three list nodes live in the node store, all at the offsets
    below from the address of the task. *)
Record task_t : Type := Task {
  t_state : task_state;
  t_slice_ticks : Z;
  t_time_ticks : Z;
  t_sleep_ticks : Z;
  t_tss_sel : Z
}.

(** struct _segment_desc_t (cpu/cpu.h) *)
Record segment_desc_t : Type := SegDesc {
  limit15_0 : Z;
  base15_0 : Z;
  base23_16 : Z;
  attr : Z;
  base31_24 : Z
}.

(** struct _int_gate_desc_t (cpu/irq.h) *)
Record gate_desc_t : Type := GateDesc {
  offset15_0 : Z;
  selector : Z;
  gattr : Z;
  offset31_16 : Z
}.

(** struct _rein_mutex_t (ipc/mutex.h): [wait_list] is the list header at
    offset 8. *)
Record rein_mutex_t : Type := Mutex { owner : Z; locker : Z }.

(** struct _sem_t (ipc/sem.h): [wait_list] is the list header at offset 4. *)
Record sem_t : Type := Sem { s_count : Z }.

(** Port traffic, most recent first. *)
Inductive io : Type :=
| Outb (port v : Z)
| Inb (port v : Z).

(** The registers the kernel manages. *)
Record cpu_t : Type := Cpu {
  eflags : Z;
  tr : Z;
  gdtr : Z * Z;
  idtr : Z * Z
}.

Record kstate : Type := KState {
  k_mem : mem;
  k_heap : lheap;
  k_tasks : gmap Z task_t;
  k_curr : Z;                       (* task_manager.curr_task *)
  k_mutexes : gmap Z rein_mutex_t;
  k_sems : gmap Z sem_t;
  k_gdt : list segment_desc_t;      (* gdt_table *)
  k_idt : list gate_desc_t;         (* idt_table *)
  k_sys_tick : Z;                   (* sys_tick *)
  k_cpu : cpu_t;
  k_io : list io
}.

#[export] Instance task_state_eq_dec : EqDecision task_state.
Proof. solve_decision. Defined.
#[export] Instance task_eq_dec : EqDecision task_t.
Proof. solve_decision. Defined.
#[export] Instance segdesc_eq_dec : EqDecision segment_desc_t.
Proof. solve_decision. Defined.
#[export] Instance gate_eq_dec : EqDecision gate_desc_t.
Proof. solve_decision. Defined.
#[export] Instance io_eq_dec : EqDecision io.
Proof. solve_decision. Defined.

(** ** What the kernel does not define

    The addresses the linker gives to the symbols, and the devices behind the
    I/O ports, whose answer may depend on all earlier traffic. *)
Class Platform : Type := {
  symbol : string → Z;
  device_inb : list io → Z → Z
}.

(** ** Outcomes *)

(** Why a function never returns. *)
Inductive halt : Type :=
| HNull                 (* access through a pointer to no object *)
| HRange                (* array index out of range *)
| HPanic (file : string) (line : Z) (func cond : string)  (* failed ASSERT *)
| HKlib (e : kerr)      (* a routine of klib.c failed *)
| HSpin.                (* an endless loop *)

Inductive res (A : Type) : Type :=
| Done (a : A) (s : kstate)
| Stop (h : halt) (s : kstate)
| Switch (sel : Z) (s : kstate) (k : kstate → res A).
Arguments Done {A} a s.
Arguments Stop {A} h s.
Arguments Switch {A} sel s k.

Fixpoint rbind {A B} (r : res A) (f : A → kstate → res B) : res B :=
  match r with
  | Done a s => f a s
  | Stop h s => Stop h s
  | Switch sel s k => Switch sel s (λ s', rbind (k s') f)
  end.

Definition M (A : Type) : Type := kstate → res A.
#[export] Instance M_ret : MRet M := λ A a s, Done a s.
#[export] Instance M_bind : MBind M := λ A B f m s, rbind (m s) f.

Definition stop {A} (h : halt) : M A := λ s, Stop h s.
Definition gets {A} (f : kstate → A) : M A := λ s, Done (f s) s.
Definition modify (f : kstate → kstate) : M unit := λ s, Done tt (f s).

(** Loops whose body is a statement; the bound is the one of [cwhile]. *)
Fixpoint mloopn {S R} (n : nat) (body : S → M (flow S R)) (s : S) : M (flow S R) :=
  match n with
  | O => body s
  | S n' =>
      r ← mloopn n' body s;
      match r with
      | Cont s' => mloopn n' body s'
      | Brk r => mret (Brk r)
      end
  end.
Definition mwhile {S R} (body : S → M (flow S R)) (s : S) : M R :=
  r ← mloopn loop_depth body s;
  match r with
  | Brk r => mret r
  | Cont _ => stop HSpin
  end.

(** ** Field updates *)

Definition with_mem (m : mem) (s : kstate) : kstate :=
  KState m (k_heap s) (k_tasks s) (k_curr s) (k_mutexes s) (k_sems s) (k_gdt s)
    (k_idt s) (k_sys_tick s) (k_cpu s) (k_io s).
Definition with_heap (h : lheap) (s : kstate) : kstate :=
  KState (k_mem s) h (k_tasks s) (k_curr s) (k_mutexes s) (k_sems s) (k_gdt s)
    (k_idt s) (k_sys_tick s) (k_cpu s) (k_io s).
Definition with_tasks (t : gmap Z task_t) (s : kstate) : kstate :=
  KState (k_mem s) (k_heap s) t (k_curr s) (k_mutexes s) (k_sems s) (k_gdt s)
    (k_idt s) (k_sys_tick s) (k_cpu s) (k_io s).
Definition with_curr (c : Z) (s : kstate) : kstate :=
  KState (k_mem s) (k_heap s) (k_tasks s) c (k_mutexes s) (k_sems s) (k_gdt s)
    (k_idt s) (k_sys_tick s) (k_cpu s) (k_io s).
Definition with_mutexes (m : gmap Z rein_mutex_t) (s : kstate) : kstate :=
  KState (k_mem s) (k_heap s) (k_tasks s) (k_curr s) m (k_sems s) (k_gdt s)
    (k_idt s) (k_sys_tick s) (k_cpu s) (k_io s).
Definition with_sems (m : gmap Z sem_t) (s : kstate) : kstate :=
  KState (k_mem s) (k_heap s) (k_tasks s) (k_curr s) (k_mutexes s) m (k_gdt s)
    (k_idt s) (k_sys_tick s) (k_cpu s) (k_io s).
Definition with_gdt (g : list segment_desc_t) (s : kstate) : kstate :=
  KState (k_mem s) (k_heap s) (k_tasks s) (k_curr s) (k_mutexes s) (k_sems s) g
    (k_idt s) (k_sys_tick s) (k_cpu s) (k_io s).
Definition with_idt (i : list gate_desc_t) (s : kstate) : kstate :=
  KState (k_mem s) (k_heap s) (k_tasks s) (k_curr s) (k_mutexes s) (k_sems s) (k_gdt s)
    i (k_sys_tick s) (k_cpu s) (k_io s).
Definition with_sys_tick (t : Z) (s : kstate) : kstate :=
  KState (k_mem s) (k_heap s) (k_tasks s) (k_curr s) (k_mutexes s) (k_sems s) (k_gdt s)
    (k_idt s) t (k_cpu s) (k_io s).
Definition with_cpu (c : cpu_t) (s : kstate) : kstate :=
  KState (k_mem s) (k_heap s) (k_tasks s) (k_curr s) (k_mutexes s) (k_sems s) (k_gdt s)
    (k_idt s) (k_sys_tick s) c (k_io s).
Definition with_io (l : list io) (s : kstate) : kstate :=
  KState (k_mem s) (k_heap s) (k_tasks s) (k_curr s) (k_mutexes s) (k_sems s) (k_gdt s)
    (k_idt s) (k_sys_tick s) (k_cpu s) l.
Definition with_eflags (v : Z) (s : kstate) : kstate :=
  with_cpu (Cpu v (tr (k_cpu s)) (gdtr (k_cpu s)) (idtr (k_cpu s))) s.

(** ** Lifting *)

Definition on_heap {A} (p : LM A) : M A := λ s,
  match p (k_heap s) with
  | Some (a, h) => Done a (with_heap h s)
  | None => Stop HNull s
  end.
Definition on_mem {A} (p : mem → result (mem * A)) : M A := λ s,
  match p (k_mem s) with
  | Ok (m, a) => Done a (with_mem m s)
  | Err e => Stop (HKlib e) s
  end.
Definition run_mem (p : mem → result mem) : M unit :=
  on_mem (λ m, m ← p m; Ok (m, tt)).
Definition read_mem {A} (p : mem → result A) : M A :=
  on_mem (λ m, a ← p m; Ok (m, a)).

(** Member access through a task pointer. *)
Definition get_task (t : Z) : M task_t := λ s,
  match k_tasks s !! t with
  | Some tk => Done tk s
  | None => Stop HNull s
  end.
Definition put_task (t : Z) (tk : task_t) : M unit :=
  _ ← get_task t; modify (λ s, with_tasks (<[t := tk]> (k_tasks s)) s).
Definition upd_task (t : Z) (f : task_t → task_t) : M unit :=
  tk ← get_task t; put_task t (f tk).

Definition task_set_state (t : Z) (st : task_state) : M unit :=
  upd_task t (λ tk, Task st (t_slice_ticks tk) (t_time_ticks tk) (t_sleep_ticks tk) (t_tss_sel tk)).
Definition task_set_slice (t v : Z) : M unit :=
  upd_task t (λ tk, Task (t_state tk) v (t_time_ticks tk) (t_sleep_ticks tk) (t_tss_sel tk)).
Definition task_set_time (t v : Z) : M unit :=
  upd_task t (λ tk, Task (t_state tk) (t_slice_ticks tk) v (t_sleep_ticks tk) (t_tss_sel tk)).
Definition task_set_sleep_ticks (t v : Z) : M unit :=
  upd_task t (λ tk, Task (t_state tk) (t_slice_ticks tk) (t_time_ticks tk) v (t_tss_sel tk)).
Definition task_set_tss_sel (t v : Z) : M unit :=
  upd_task t (λ tk, Task (t_state tk) (t_slice_ticks tk) (t_time_ticks tk) (t_sleep_ticks tk) v).

(** ** Processor instructions (comm/cpuistr.h) *)

(** EFLAGS bits (cpu/cpu.h). *)
Definition EFLAGS_DEFAULT : Z := Z.shiftl 1 1.
Definition ELFAGS_IF : Z := Z.shiftl 1 9.

Definition cli : M unit := modify (λ s, with_eflags (Z.ldiff (eflags (k_cpu s)) ELFAGS_IF) s).
Definition sti : M unit := modify (λ s, with_eflags (Z.lor (eflags (k_cpu s)) ELFAGS_IF) s).
Definition read_eflags : M Z := gets (λ s, eflags (k_cpu s)).
Definition write_eflags (v : Z) : M unit := modify (with_eflags v).

(** hlt goes on after the next interrupt, which is a step of its own; with
    interrupts masked it never does. *)
Definition hlt : M unit := λ s,
  if Z.testbit (eflags (k_cpu s)) 9 then Done tt s else Stop HSpin s.

Section instructions.
Context `{Platform}.

Definition outb (port v : Z) : M unit :=
  modify (λ s, with_io (Outb (u16 port) (u8 v) :: k_io s) s).
Definition inb (port : Z) : M Z := λ s,
  let v := u8 (device_inb (k_io s) (u16 port)) in
  Done v (with_io (Inb (u16 port) v :: k_io s) s).
End instructions.

(** The 6-byte operand of lgdt and lidt: limit, then the base in two halves. *)
Definition table_operand (start_addr size : Z) : Z * Z :=
  let start32_16 := u16 (Z.shiftr start_addr 16) in
  let start15_0 := Z.land start_addr 0xFFFF in
  (u16 (size - 1), Z.lor (Z.shiftl start32_16 16) start15_0).
Definition lgdt (start_addr size : Z) : M unit :=
  modify (λ s, with_cpu (Cpu (eflags (k_cpu s)) (tr (k_cpu s))
    (table_operand start_addr size) (idtr (k_cpu s))) s).
Definition lidt (start_addr size : Z) : M unit :=
  modify (λ s, with_cpu (Cpu (eflags (k_cpu s)) (tr (k_cpu s))
    (gdtr (k_cpu s)) (table_operand start_addr size)) s).
Definition write_tr (tss_sel : Z) : M unit :=
  modify (λ s, with_cpu (Cpu (eflags (k_cpu s)) (u16 tss_sel)
    (gdtr (k_cpu s)) (idtr (k_cpu s))) s).

(** ljmpl to a TSS selector: control leaves for the other task.  The rest of
    the function is the continuation. *)
Definition far_jump (sel offset : Z) : M unit := λ s, Switch sel s (λ s', Done tt s').

(** ** Reasoning about statements *)

Section bind_facts.
Context {A B : Type}.
Implicit Types (m : M A) (f : A → M B).

Lemma bind_done m f s a s' : m s = Done a s' → (m ≫= f) s = f a s'.
Proof. intros Hm. unfold mbind, M_bind. by rewrite Hm. Qed.
Lemma bind_stop m f s h s' : m s = Stop h s' → (m ≫= f) s = Stop h s'.
Proof. intros Hm. unfold mbind, M_bind. by rewrite Hm. Qed.
Lemma bind_switch m f s sel s' k :
  m s = Switch sel s' k → (m ≫= f) s = Switch sel s' (λ s'', rbind (k s'') f).
Proof. intros Hm. unfold mbind, M_bind. by rewrite Hm. Qed.
(** The same under one more bind: statements nested on the left. *)
Lemma bind2_done {C} m f (g : B → M C) s a s' :
  m s = Done a s' → ((m ≫= f) ≫= g) s = (f a ≫= g) s'.
Proof. intros Hm. unfold mbind, M_bind. by rewrite Hm. Qed.
Lemma bind_step m f s a s' r : m s = Done a s' → f a s' = r → (m ≫= f) s = r.
Proof. intros Hm <-. by apply bind_done. Qed.
End bind_facts.

(** The run of a loop of statements. *)
Inductive msteps {S R} (body : S → M (flow S R)) : Z → S → kstate → R → kstate → Prop :=
| msteps_brk x s r s' : body x s = Done (Brk r) s' → msteps body 1 x s r s'
| msteps_cont k x s x' s' r s'' :
    body x s = Done (Cont x') s' → msteps body k x' s' r s'' →
    msteps body (k + 1) x s r s''.

Section loop_facts.
Context {S R : Type} (body : S → M (flow S R)).

Lemma msteps_pos k x s r s' : msteps body k x s r s' → 1 <= k.
Proof. induction 1; lia. Qed.

Lemma mloopn_steps n k x s r s' :
  msteps body k x s r s' →
  (k <= 2 ^ Z.of_nat n → mloopn n body x s = Done (Brk r) s') ∧
  (2 ^ Z.of_nat n < k → ∃ x1 s1, mloopn n body x s = Done (Cont x1) s1 ∧
     msteps body (k - 2 ^ Z.of_nat n) x1 s1 r s').
Proof.
  revert k x s r s'. induction n as [|n IH]; intros k x s r s' Hst.
  - cbn [mloopn]. change (2 ^ Z.of_nat 0) with 1. split.
    + intros ?. inversion Hst as [|k' ????? ? Hb Hs]; subst; [done|].
      apply msteps_pos in Hs. lia.
    + intros ?. inversion Hst as [|k' ?? x1 s1 ?? Hb Hs]; subst; [lia|].
      exists x1, s1. split; [done|]. by replace (k' + 1 - 1) with k' by lia.
  - cbn [mloopn]. rewrite Nat2Z.inj_succ, Z.pow_succ_r by lia.
    set (p := 2 ^ Z.of_nat n) in *.
    destruct (IH _ _ _ _ _ Hst) as [IH1 IH2].
    destruct (decide (k <= p)) as [Hle|Hgt].
    + erewrite bind_done by (by apply IH1). cbn. split; [done|].
      apply msteps_pos in Hst. lia.
    + destruct IH2 as (x1 & s1 & E & Hs'); [lia|].
      erewrite bind_done by exact E. cbn.
      destruct (IH _ _ _ _ _ Hs') as [IH3 IH4]. split.
      * intros ?. apply IH3. lia.
      * intros ?. destruct IH4 as (x2 & s2 & E2 & Hs''); [lia|].
        exists x2, s2. split; [done|]. by replace (k - 2 * p) with (k - p - p) by lia.
Qed.

Lemma mwhile_steps k x s r s' :
  msteps body k x s r s' → k <= 2 ^ 40 → mwhile body x s = Done r s'.
Proof.
  intros Hst Hk. unfold mwhile.
  erewrite bind_done by (exact (proj1 (mloopn_steps loop_depth _ _ _ _ _ Hst) Hk)). done.
Qed.
End loop_facts.

(** for (int i = lo; i < hi; i++) body *)
Definition mfor (lo hi : Z) (body : Z → M unit) : M unit :=
  mwhile (λ i,
    if i <? hi then body i;; mret (Cont (i32 (i + 1)))
    else mret (Brk tt)) lo.

(** The rule for a counted loop: an invariant indexed by the counter. *)
Lemma mfor_rule (P : Z → kstate → Prop) lo hi body s :
  INT_MIN <= lo <= hi → hi <= INT_MAX →
  (∀ i s, lo <= i < hi → P i s → ∃ s', body i s = Done tt s' ∧ P (i + 1) s') →
  P lo s → ∃ s', mfor lo hi body s = Done tt s' ∧ P hi s'.
Proof.
  intros Hlo Hhi Hbody HP.
  assert (∀ (n : nat) i s, hi - i = Z.of_nat n → lo <= i → P i s →
    ∃ s', msteps (λ i,
      if i <? hi then body i;; mret (Cont (i32 (i + 1)))
      else mret (Brk tt)) (Z.of_nat n + 1) i s tt s' ∧ P hi s') as Hrun.
  { clear s HP. induction n as [|n IH]; intros i s Hn Hi HP.
    - exists s. assert (i = hi) as -> by lia. split; [|done].
      apply msteps_brk. by rewrite Z.ltb_irrefl.
    - destruct (Hbody i s ltac:(lia) HP) as (s1 & E1 & HP1).
      destruct (IH (i + 1) s1 ltac:(lia) ltac:(lia) HP1) as (s2 & Hst & HP2).
      exists s2. split; [|done]. replace (Z.of_nat (S n) + 1) with (Z.of_nat n + 1 + 1) by lia.
      eapply msteps_cont; [|exact Hst]. rewrite (proj2 (Z.ltb_lt i hi)) by lia.
      erewrite bind_done by exact E1. by rewrite i32_small by lia. }
  destruct (Hrun (Z.to_nat (hi - lo)) lo s) as (s' & Hst & HP'); [lia|lia|done|].
  exists s'. split; [|done]. unfold mfor. eapply mwhile_steps; [exact Hst|].
  unfold INT_MIN, INT_MAX in *. lia.
Qed.

(** ** A concrete machine

    Addresses for the objects of the kernel and silent devices, on which the
    theorems of the other files are tried. *)

Definition demo_addresses : list (string * Z) := [
  ("boot_info", 0xF000);
  ("task_manager", 0x20000);
  ("new_task", 0x21000);
  ("new_task_stack", 0x22000);
  ("idle_task_stack", 0x24000);
  ("notify_task_print", 0x28000);
  ("cpu.mutex", 0x28100);
  ("mutex", 0x28200);
  ("gdt_table", 0x29000);
  ("idt_table", 0x2A000);
  ("literal:idle_task", 0x2B000);
  ("literal:main", 0x2B100);
  ("literal:my new task", 0x2B200);
  ("literal:sending notify: %d", 0x2B300);
  ("literal:recv notify: %d", 0x2B400);
  ("literal:assert failed: %s", 0x2C000);
  ("literal:file:%s", 0x2C100);
  ("literal:line:%d", 0x2C200);
  ("literal:func:%s", 0x2C300);
  ("literal:__FILE__ in mutex.c", 0x2C400);
  ("literal:rein_mutex_unlock", 0x2C500);
  ("literal:lock->locker != 0", 0x2C600);
  ("literal:lock->owner == curr_task", 0x2C700)]%string.
Definition demo_symbol (name : string) : Z :=
  default 0x10000 (snd <$> (snd <$> list_find (λ p, p.1 = name) demo_addresses)).
Definition demo_platform : Platform := {| symbol := demo_symbol; device_inb := λ _ _, 0 |}.

(** The kernel before it runs, with the objects given. *)
Definition demo_kernel (m : mem) (h : lheap) (ts : gmap Z task_t) (mxs : gmap Z rein_mutex_t)
    (sems : gmap Z sem_t) : kstate :=
  KState m h ts 0 mxs sems (replicate 256 (SegDesc 0 0 0 0 0)) (replicate 128 (GateDesc 0 0 0 0)) 0
    (Cpu 0x202 0 (0, 0) (0, 0)) [].
Definition demo_bare : kstate := demo_kernel ∅ (LHeap ∅ ∅) ∅ ∅ ∅.
