(* ===== verification/Irq.v ===== *)
(** * Interrupts (kernel/cpu/irq.c, cpu/irq.h)

    The gate descriptors of the IDT, the two 8259 controllers, and the nested
    protection of critical sections through EFLAGS. *)

From S2P Require Import Prelude Mem DList Klib Machine.

(** ** Constants (cpu/irq.h, os_cfg.h) *)

Definition IRQ0_DE : Z := 0.
Definition IRQ1_DB : Z := 1.
Definition IRQ2_NMI : Z := 2.
Definition IRQ3_BP : Z := 3.
Definition IRQ4_OF : Z := 4.
Definition IRQ5_BR : Z := 5.
Definition IRQ6_UD : Z := 6.
Definition IRQ7_NM : Z := 7.
Definition IRQ8_DF : Z := 8.
Definition IRQ9_CSO : Z := 9.
Definition IRQ10_TS : Z := 10.
Definition IRQ11_NP : Z := 11.
Definition IRQ12_SS : Z := 12.
Definition IRQ13_GP : Z := 13.
Definition IRQ14_PF : Z := 14.
Definition IRQ16_MF : Z := 16.
Definition IRQ17_AC : Z := 17.
Definition IRQ18_MC : Z := 18.
Definition IRQ19_XM : Z := 19.
Definition IRQ20_VE : Z := 20.
Definition IRQ21_CPE : Z := 21.
Definition IRQ0_TIMER : Z := 0x20.
Definition IDT_TABLE_NR : Z := 128.

Definition GATE_TYPE_INT : Z := Z.shiftl 0xE 8.
Definition GATE_P_PRESENT : Z := Z.shiftl 1 15.
Definition GATE_DPL0 : Z := Z.shiftl 0 13.

Definition PIC0_ICW1 : Z := 0x20.
Definition PIC0_ICW2 : Z := 0x21.
Definition PIC0_ICW3 : Z := 0x21.
Definition PIC0_ICW4 : Z := 0x21.
Definition PIC0_OCW2 : Z := 0x20.
Definition PIC0_IMR : Z := 0x21.
Definition PIC1_ICW1 : Z := 0xa0.
Definition PIC1_ICW2 : Z := 0xa1.
Definition PIC1_ICW3 : Z := 0xa1.
Definition PIC1_ICW4 : Z := 0xa1.
Definition PIC1_OCW2 : Z := 0xa0.
Definition PIC1_IMR : Z := 0xa1.
Definition PIC_OCW2_EOI : Z := Z.shiftl 1 5.
Definition IRQ_PIC_START : Z := 0x20.

Definition KERNEL_SELECTOR_CODE : Z := 1 * 8.
Definition KERNEL_SELECTOR_DATA : Z := 2 * 8.

(** ** Nested protection *)

Definition irq_disable_global : M unit := cli.
Definition irq_enable_global : M unit := sti.

(** irq_state_t irq_enter_protection(void) *)
Definition irq_enter_protection : M Z :=
  state ← read_eflags;
  irq_disable_global;;
  mret state.

(** void irq_leave_protection(irq_state_t state) *)
Definition irq_leave_protection (state : Z) : M unit := write_eflags state.

(** ** The interrupt descriptor table *)

(** static void gate_desc_set(gate_desc_t *desc, ...) *)
Definition gate_desc_set (sel offset att : Z) : gate_desc_t :=
  GateDesc (Z.land offset 0xFFFF) (u16 sel) (u16 att)
    (Z.land (Z.shiftr offset 16) 0xFFFF).

(** idt_table + i, for writing. *)
Definition idt_put (i : Z) (d : gate_desc_t) : M unit := λ s,
  if (0 <=? i) && (i <? len (k_idt s)) then
    Done tt (with_idt (<[Z.to_nat i := d]> (k_idt s)) s)
  else Stop HRange s.

(** void irq_install(int irq_num, uint32_t pointer_as_handler) *)
Definition irq_install (irq_num pointer_as_handler : Z) : M unit :=
  idt_put irq_num
    (gate_desc_set KERNEL_SELECTOR_CODE pointer_as_handler
       (Z.lor (Z.lor GATE_P_PRESENT GATE_DPL0) GATE_TYPE_INT)).

Section irq.
Context `{Platform}.

(** void pic_send_eoi(int irq_num) *)
Definition pic_send_eoi (irq_num : Z) : M unit :=
  let irq_num := i32 (irq_num - IRQ_PIC_START) in
  (if 8 <=? irq_num then outb PIC1_OCW2 PIC_OCW2_EOI else mret tt);;
  outb PIC0_OCW2 PIC_OCW2_EOI.

(** void irq_enable(int irq_num) *)
Definition irq_enable (irq_num : Z) : M unit :=
  if (irq_num <? IRQ_PIC_START) || (IRQ_PIC_START + 15 <? irq_num) then mret tt
  else
    let irq_num := irq_num - IRQ_PIC_START in
    if irq_num <? 8 then
      v ← inb PIC0_IMR;
      let mask := u8 (Z.land v (Z.lnot (Z.shiftl 1 irq_num))) in
      outb PIC0_IMR mask
    else
      let irq_num := irq_num - 8 in
      v ← inb PIC1_IMR;
      let mask := u8 (Z.land v (Z.lnot (Z.shiftl 1 irq_num))) in
      outb PIC1_IMR mask.

(** void irq_disable(int irq_num) *)
Definition irq_disable (irq_num : Z) : M unit :=
  if (irq_num <? IRQ_PIC_START) || (IRQ_PIC_START + 15 <? irq_num) then mret tt
  else
    let irq_num := irq_num - IRQ_PIC_START in
    if irq_num <? 8 then
      v ← inb PIC0_IMR;
      let mask := u8 (Z.lor v (Z.shiftl 1 irq_num)) in
      outb PIC0_IMR mask
    else
      let irq_num := irq_num - 8 in
      v ← inb PIC1_IMR;
      let mask := u8 (Z.lor v (Z.shiftl 1 irq_num)) in
      outb PIC1_IMR mask.

(** static void pic_init(void) *)
Definition pic_init : M unit :=
  outb PIC0_ICW1 0x11;;
  outb PIC1_ICW1 0x11;;
  outb PIC0_ICW2 IRQ_PIC_START;;
  outb PIC1_ICW2 (IRQ_PIC_START + 8);;
  outb PIC0_ICW3 (Z.shiftl 1 2);;
  outb PIC1_ICW3 2;;
  outb PIC0_ICW4 0x01;;
  outb PIC1_ICW4 0x01;;
  outb PIC0_IMR (Z.land 0xFF (Z.lnot (Z.shiftl 1 2)));;
  outb PIC1_IMR 0xFF.

(** void irq_init(void) *)
Definition irq_init : M unit :=
  mfor 0 IDT_TABLE_NR (λ i,
    idt_put i (gate_desc_set KERNEL_SELECTOR_CODE (symbol "exception_handler_unknown")
      (Z.lor (Z.lor GATE_P_PRESENT GATE_DPL0) GATE_TYPE_INT)));;
  irq_install IRQ0_DE (symbol "exception_handler_divider");;
  irq_install IRQ1_DB (symbol "exception_handler_Debug");;
  irq_install IRQ2_NMI (symbol "exception_handler_NMI");;
  irq_install IRQ3_BP (symbol "exception_handler_breakpoint");;
  irq_install IRQ4_OF (symbol "exception_handler_overflow");;
  irq_install IRQ5_BR (symbol "exception_handler_bound_range");;
  irq_install IRQ6_UD (symbol "exception_handler_invalid_opcode");;
  irq_install IRQ7_NM (symbol "exception_handler_device_unavailable");;
  irq_install IRQ8_DF (symbol "exception_handler_double_fault");;
  irq_install IRQ9_CSO (symbol "exception_handler_coprocessor_segment_overrun");;
  irq_install IRQ10_TS (symbol "exception_handler_invalid_tss");;
  irq_install IRQ11_NP (symbol "exception_handler_segment_not_present");;
  irq_install IRQ12_SS (symbol "exception_handler_stack_segment_fault");;
  irq_install IRQ13_GP (symbol "exception_handler_general_protection");;
  irq_install IRQ14_PF (symbol "exception_handler_page_fault");;
  irq_install IRQ16_MF (symbol "exception_handler_fpu_error");;
  irq_install IRQ17_AC (symbol "exception_handler_alignment_check");;
  irq_install IRQ18_MC (symbol "exception_handler_machine_check");;
  irq_install IRQ19_XM (symbol "exception_handler_smd_exception");;
  irq_install IRQ20_VE (symbol "exception_handler_virtual_exception");;
  irq_install IRQ21_CPE (symbol "exception_handler_control_protection_exception");;
  lidt (symbol "idt_table") (IDT_TABLE_NR * 8);;
  pic_init.
End irq.

(** ** What the processor reads back from a gate *)

Definition gate_offset (d : gate_desc_t) : Z :=
  Z.lor (offset15_0 d) (Z.shiftl (offset31_16 d) 16).
Definition gate_present (d : gate_desc_t) : bool := Z.testbit (gattr d) 15.
Definition gate_dpl (d : gate_desc_t) : Z := Z.land (Z.shiftr (gattr d) 13) 3.
Definition gate_type (d : gate_desc_t) : Z := Z.land (Z.shiftr (gattr d) 8) 0x1F.

Lemma gate_offset_ok sel off att :
  0 <= off < 2 ^ 32 → gate_offset (gate_desc_set sel off att) = off.
Proof. intros Hoff. unfold gate_offset, gate_desc_set. cbn. bitwise; try (f_equal; lia).
  by rewrite (testbit_small off 32) by lia.
Qed.

(** The base and the limit lgdt and lidt load. *)
Lemma table_operand_ok a size :
  0 <= a < 2 ^ 32 → 1 <= size <= 0x10000 → table_operand a size = (size - 1, a).
Proof.
  intros Ha Hs. unfold table_operand. rewrite u16_small by lia. f_equal.
  bitwise; rewrite ?orb_false_r; try done.
  - f_equal. lia.
  - by rewrite (testbit_small a 32) by lia.
Qed.

(** ** The table irq_init builds *)

Section irq_facts.
Context `{Platform}.

(** The routine of start.S that serves vector [i]. *)
Definition handlers : list (Z * string) := [
  (IRQ0_DE, "exception_handler_divider");
  (IRQ1_DB, "exception_handler_Debug");
  (IRQ2_NMI, "exception_handler_NMI");
  (IRQ3_BP, "exception_handler_breakpoint");
  (IRQ4_OF, "exception_handler_overflow");
  (IRQ5_BR, "exception_handler_bound_range");
  (IRQ6_UD, "exception_handler_invalid_opcode");
  (IRQ7_NM, "exception_handler_device_unavailable");
  (IRQ8_DF, "exception_handler_double_fault");
  (IRQ9_CSO, "exception_handler_coprocessor_segment_overrun");
  (IRQ10_TS, "exception_handler_invalid_tss");
  (IRQ11_NP, "exception_handler_segment_not_present");
  (IRQ12_SS, "exception_handler_stack_segment_fault");
  (IRQ13_GP, "exception_handler_general_protection");
  (IRQ14_PF, "exception_handler_page_fault");
  (IRQ16_MF, "exception_handler_fpu_error");
  (IRQ17_AC, "exception_handler_alignment_check");
  (IRQ18_MC, "exception_handler_machine_check");
  (IRQ19_XM, "exception_handler_smd_exception");
  (IRQ20_VE, "exception_handler_virtual_exception");
  (IRQ21_CPE, "exception_handler_control_protection_exception")]%string.
Definition handler_of (i : Z) : string :=
  default "exception_handler_unknown"%string
    (snd <$> (snd <$> list_find (λ p, p.1 = i) handlers)).

(** A 32-bit interrupt gate to [name]. *)
Definition int_gate (name : string) : gate_desc_t :=
  gate_desc_set KERNEL_SELECTOR_CODE (symbol name) 0x8E00.

Definition idt_wf (s : kstate) : Prop := len (k_idt s) = IDT_TABLE_NR.

Lemma idt_put_done s i d :
  idt_wf s → 0 <= i < IDT_TABLE_NR →
  idt_put i d s = Done tt (with_idt (<[Z.to_nat i := d]> (k_idt s)) s).
Proof.
  unfold idt_wf. intros Hs Hi. unfold idt_put.
  by rewrite (proj2 (Z.leb_le 0 i)), (proj2 (Z.ltb_lt i _)) by lia.
Qed.
Lemma irq_install_done s i name :
  idt_wf s → 0 <= i < IDT_TABLE_NR →
  irq_install i (symbol name) s =
    Done tt (with_idt (<[Z.to_nat i := int_gate name]> (k_idt s)) s).
Proof. apply idt_put_done. Qed.
Lemma irq_install_range s i p :
  i < 0 ∨ len (k_idt s) <= i → irq_install i p s = Stop HRange s.
Proof.
  intros Hi. unfold irq_install, idt_put.
  destruct (Z.leb_spec 0 i), (Z.ltb_spec i (len (k_idt s))); cbn; try done; lia.
Qed.

Lemma idt_fill_done s :
  idt_wf s →
  mfor 0 IDT_TABLE_NR (λ i, idt_put i (int_gate "exception_handler_unknown")) s =
    Done tt (with_idt (replicate 128 (int_gate "exception_handler_unknown")) s).
Proof.
  intros Hg. set (d := int_gate _).
  destruct (mfor_rule (λ i s', ∃ g, s' = with_idt g s ∧ len g = IDT_TABLE_NR ∧
      take (Z.to_nat i) g = replicate (Z.to_nat i) d)
    0 IDT_TABLE_NR (λ i, idt_put i d) s) as (s' & -> & g & -> & Hlen & Ht).
  - unfold INT_MIN, IDT_TABLE_NR. lia.
  - unfold INT_MAX, IDT_TABLE_NR. lia.
  - intros i s' Hi (g & -> & Hlen & Ht). eexists. split; [by apply idt_put_done|].
    cbn. eexists. split; [done|]. unfold IDT_TABLE_NR in *. split; [by rewrite length_insert|].
    replace (Z.to_nat (i + 1)) with (S (Z.to_nat i)) by lia.
    erewrite take_S_r by (apply list_lookup_insert_eq; lia).
    rewrite take_insert_ge by done. rewrite Ht. by rewrite replicate_S_end.
  - exists (k_idt s). split_and!; try done. by destruct s.
  - rewrite take_ge in Ht by (unfold IDT_TABLE_NR in *; lia). by subst g.
Qed.

(** The traffic of pic_init, oldest first: both controllers get ICW1 to ICW4,
    then every line is masked but the cascade. *)
Definition pic_init_trace : list io := [
  Outb 0x20 0x11; Outb 0xa0 0x11; Outb 0x21 0x20; Outb 0xa1 0x28;
  Outb 0x21 4; Outb 0xa1 2; Outb 0x21 1; Outb 0xa1 1;
  Outb 0x21 0xFB; Outb 0xa1 0xFF].

Lemma pic_init_ok s : pic_init s = Done tt (with_io (reverse pic_init_trace ++ k_io s) s).
Proof. done. Qed.

Definition boot_idt : list gate_desc_t := (λ i, int_gate (handler_of (Z.of_nat i))) <$> seq 0 128.

(** A sequence of irq_install. *)
Definition install_all (l : list (Z * string)) (k : M unit) : M unit :=
  foldr (λ p k, irq_install p.1 (symbol p.2);; k) k l.
Definition installed {G} (gate : string → G) (l : list (Z * string)) (g : list G) : list G :=
  foldl (λ g p, <[Z.to_nat p.1 := gate p.2]> g) g l.

Lemma install_all_done l k s :
  idt_wf s → Forall (λ p, 0 <= p.1 < IDT_TABLE_NR) l →
  install_all l k s = k (with_idt (installed int_gate l (k_idt s)) s).
Proof.
  intros Hs Hl. revert s Hs. induction Hl as [|[i name] l Hi _ IH]; intros s Hs.
  - cbn. by destruct s.
  - cbn [install_all foldr fst snd].
    erewrite bind_done by (by apply irq_install_done). cbn beta.
    etrans; [apply IH|done]. unfold idt_wf in *. cbn. by rewrite length_insert.
Qed.
Lemma boot_idt_eq :
  installed int_gate handlers (replicate 128 (int_gate "exception_handler_unknown")) = boot_idt.
Proof. unfold boot_idt. generalize int_gate. intros g. vm_compute. reflexivity. Qed.

Lemma irq_init_ok s :
  idt_wf s →
  irq_init s = Done tt (with_io (reverse pic_init_trace ++ k_io s)
    (with_cpu (Cpu (eflags (k_cpu s)) (tr (k_cpu s)) (gdtr (k_cpu s))
      (table_operand (symbol "idt_table") (IDT_TABLE_NR * 8)))
    (with_idt boot_idt s))).
Proof.
  intros Hs. unfold irq_init. erewrite bind_done by (by apply idt_fill_done). cbn beta.
  rewrite <- boot_idt_eq.
  set (rest := lidt (symbol "idt_table") (IDT_TABLE_NR * 8);; pic_init).
  transitivity (install_all handlers rest
    (with_idt (replicate 128 (int_gate "exception_handler_unknown")) s)).
  { unfold install_all, handlers. cbn [foldr fst snd]. reflexivity. }
  rewrite install_all_done; [done|done|].
  { unfold handlers. repeat (apply Forall_cons; split; [done|]). constructor. }
Qed.
End irq_facts.

(** ** The interrupt masks *)

Section masks.
Context `{Platform}.

(** The mask register and the bit of a line of the two controllers. *)
Definition imr_port (irq_num : Z) : Z := if irq_num <? 0x28 then PIC0_IMR else PIC1_IMR.
Definition imr_bit (irq_num : Z) : Z := (irq_num - 0x20) mod 8.
Definition pic_line (irq_num : Z) : Prop := 0x20 <= irq_num <= 0x2F.

Definition read_imr (s : kstate) (irq_num : Z) : Z := u8 (device_inb (k_io s) (imr_port irq_num)).

Lemma imr_bit_range irq_num : 0 <= imr_bit irq_num < 8.
Proof. apply Z.mod_pos_bound. lia. Qed.

(** Reading a mask register and writing it back changed. *)
Lemma imr_update s port (f : Z → Z) :
  0 <= port < 0x10000 →
  (v ← inb port; outb port (u8 (f v))) s = Done tt (with_io
    (Outb port (u8 (f (u8 (device_inb (k_io s) port)))) ::
     Inb port (u8 (device_inb (k_io s) port)) :: k_io s) s).
Proof.
  intros Hp. unfold inb, outb, modify, mbind, M_bind. cbn [rbind].
  by rewrite u8_u8, !u16_small by done.
Qed.

Lemma irq_enable_line s irq_num :
  pic_line irq_num →
  irq_enable irq_num s = Done tt (with_io
    (Outb (imr_port irq_num) (u8 (Z.land (read_imr s irq_num) (Z.lnot (Z.shiftl 1 (imr_bit irq_num)))))
     :: Inb (imr_port irq_num) (read_imr s irq_num) :: k_io s) s).
Proof.
  unfold pic_line. intros Hi. unfold irq_enable, IRQ_PIC_START, read_imr, imr_port, imr_bit.
  rewrite (proj2 (Z.ltb_ge irq_num _)), (proj2 (Z.ltb_ge _ irq_num)) by lia. cbn [orb].
  destruct (Z.ltb_spec (irq_num - 0x20) 8), (Z.ltb_spec irq_num 0x28); try lia.
  - rewrite Z.mod_small by lia. by rewrite imr_update.
  - replace ((irq_num - 0x20) mod 8) with (irq_num - 0x20 - 8)
      by (Z.to_euclidean_division_equations; lia).
    by rewrite imr_update.
Qed.
Lemma irq_disable_line s irq_num :
  pic_line irq_num →
  irq_disable irq_num s = Done tt (with_io
    (Outb (imr_port irq_num) (u8 (Z.lor (read_imr s irq_num) (Z.shiftl 1 (imr_bit irq_num))))
     :: Inb (imr_port irq_num) (read_imr s irq_num) :: k_io s) s).
Proof.
  unfold pic_line. intros Hi. unfold irq_disable, IRQ_PIC_START, read_imr, imr_port, imr_bit.
  rewrite (proj2 (Z.ltb_ge irq_num _)), (proj2 (Z.ltb_ge _ irq_num)) by lia. cbn [orb].
  destruct (Z.ltb_spec (irq_num - 0x20) 8), (Z.ltb_spec irq_num 0x28); try lia.
  - rewrite Z.mod_small by lia. by rewrite imr_update.
  - replace ((irq_num - 0x20) mod 8) with (irq_num - 0x20 - 8)
      by (Z.to_euclidean_division_equations; lia).
    by rewrite imr_update.
Qed.
Lemma irq_other_line s irq_num :
  ¬ pic_line irq_num → irq_enable irq_num s = Done tt s ∧ irq_disable irq_num s = Done tt s.
Proof.
  unfold pic_line. intros Hi. unfold irq_enable, irq_disable, IRQ_PIC_START.
  destruct (Z.ltb_spec irq_num 0x20), (Z.ltb_spec (0x20 + 15) irq_num); cbn; try done; lia.
Qed.

(** The bits of the mask written. *)
Lemma mask_clear_bit v k i :
  0 <= k < 8 → 0 <= i < 8 →
  Z.testbit (u8 (Z.land (u8 v) (Z.lnot (Z.shiftl 1 k)))) i = Z.testbit (u8 v) i && negb (i =? k).
Proof.
  intros Hk Hi. unfold u8 at 1. change 0x100 with (2 ^ 8).
  rewrite Z.mod_pow2_bits_low, Z.land_spec, Z.lnot_spec by lia.
  rewrite Z.shiftl_1_l, Z.pow2_bits_eqb by lia. by rewrite Z.eqb_sym.
Qed.
Lemma mask_set_bit v k i :
  0 <= k < 8 → 0 <= i < 8 →
  Z.testbit (u8 (Z.lor (u8 v) (Z.shiftl 1 k))) i = Z.testbit (u8 v) i || (i =? k).
Proof.
  intros Hk Hi. unfold u8 at 1. change 0x100 with (2 ^ 8).
  rewrite Z.mod_pow2_bits_low, Z.lor_spec by lia.
  rewrite Z.shiftl_1_l, Z.pow2_bits_eqb by lia. by rewrite Z.eqb_sym.
Qed.
End masks.

(** ** Properties *)

Section irq_properties.
Context `{Platform}.

Lemma boot_idt_lookup i :
  0 <= i < IDT_TABLE_NR → boot_idt !! Z.to_nat i = Some (int_gate (handler_of i)).
Proof.
  unfold IDT_TABLE_NR, boot_idt. intros Hi. rewrite list_lookup_fmap, lookup_seq_lt by lia.
  cbn. by rewrite Z2Nat.id by lia.
Qed.

(** C30: After irq_init every vector of the table is a present 32-bit interrupt
    gate of ring 0 in the kernel code segment, whose offset is the routine of
    start.S for that vector, or the one for unknown exceptions; IDTR covers
    the table, and both interrupt controllers are programmed with vectors
    0x20 and 0x28 and all lines masked but the cascade. *)
Theorem irq_init_vectors s :
  idt_wf s → (∀ name, 0 <= symbol name < 2 ^ 32) →
  ∃ s', irq_init s = Done tt s' ∧
    idtr (k_cpu s') = (IDT_TABLE_NR * 8 - 1, symbol "idt_table") ∧
    k_io s' = reverse pic_init_trace ++ k_io s ∧
    ∀ i, 0 <= i < IDT_TABLE_NR → ∃ d, k_idt s' !! Z.to_nat i = Some d ∧
      gate_present d = true ∧ gate_dpl d = 0 ∧ gate_type d = 0xE ∧
      selector d = KERNEL_SELECTOR_CODE ∧ gate_offset d = symbol (handler_of i).
Proof.
  intros Hs Hsym. rewrite irq_init_ok by done. eexists. split; [done|]. split_and!.
  - cbn. by rewrite table_operand_ok.
  - done.
  - intros i Hi. exists (int_gate (handler_of i)). split; [by apply boot_idt_lookup|].
    split_and!; try done. by apply gate_offset_ok.
Qed.

(** irq_enable and irq_disable read the mask register of the controller of
    the line and write it back with exactly the bit of the line cleared or
    set; other vectors than 0x20 to 0x2F are ignored. *)
Theorem irq_mask_correct s n :
  pic_line n →
  let done_with v := Done tt (with_io
    (Outb (imr_port n) v :: Inb (imr_port n) (read_imr s n) :: k_io s) s) in
  (∃ v, irq_enable n s = done_with v ∧ ∀ i, 0 <= i < 8 →
    Z.testbit v i = Z.testbit (read_imr s n) i && negb (i =? imr_bit n)) ∧
  (∃ v, irq_disable n s = done_with v ∧ ∀ i, 0 <= i < 8 →
    Z.testbit v i = Z.testbit (read_imr s n) i || (i =? imr_bit n)) ∧
  ∀ k, ¬ pic_line k → irq_enable k s = Done tt s ∧ irq_disable k s = Done tt s.
Proof.
  intros Hn done_with. pose proof (imr_bit_range n) as Hb. split_and!.
  - eexists. split; [by apply irq_enable_line|]. intros i Hi. by apply mask_clear_bit.
  - eexists. split; [by apply irq_disable_line|]. intros i Hi. by apply mask_set_bit.
  - intros k. apply irq_other_line.
Qed.
End irq_properties.

Lemma demo_symbol_range name : 0 <= demo_symbol name < 2 ^ 32.
Proof.
  unfold demo_symbol. destruct (list_find _ _) as [[i p]|] eqn:E; cbn; [|done].
  apply list_find_Some in E as (Hp & _ & _). apply list_elem_of_lookup_2 in Hp.
  assert (Forall (λ p : string * Z, 0 <= p.2 < 2 ^ 32) demo_addresses) as Hall
    by (apply (bool_decide_unpack _); vm_compute; done).
  by apply (proj1 (Forall_forall _ _) Hall).
Qed.

Lemma irq_init_vectors_witness :
  ∃ s' d, irq_init (H := demo_platform) demo_bare = Done tt s' ∧ k_idt s' !! 14%nat = Some d ∧
    gate_offset d = demo_symbol "exception_handler_page_fault".
Proof.
  destruct (irq_init_vectors (H := demo_platform) demo_bare eq_refl demo_symbol_range)
    as (s' & E & _ & _ & Hv).
  destruct (Hv 14) as (d & Hd & _ & _ & _ & _ & Ho); [unfold IDT_TABLE_NR; lia|].
  exists s', d. split; [exact E|]. split; [exact Hd|exact Ho].
Defined.
Lemma irq_mask_correct_witness :
  ∃ v, irq_enable (H := demo_platform) 0x2C demo_bare =
      Done tt (with_io [Outb 0xa1 v; Inb 0xa1 0] demo_bare) ∧ Z.testbit v 4 = false.
Proof.
  destruct (irq_mask_correct (H := demo_platform) demo_bare 0x2C) as ((v & E & Hv) & _); [done|].
  exists v. split; [exact E|]. rewrite Hv by lia. vm_compute. reflexivity.
Defined.
