(* ===== verification/Sched.v ===== *)
(** * The scheduler (kernel/core/task.c, core/task.h)

    The task manager's three lists, the state of a task, dispatching, yielding,
    sleeping and the timer tick.  Creation of tasks is in [TaskInit]. *)

From S2P Require Import Prelude Mem DList Klib Machine Irq.

(** ** Layout (core/task.h, i386 alignment; tss_t is packed) *)

Definition TASK_NAME_MAX_IN_SIZE : Z := 32.
Definition TASK_TIME_SLICE_DEFAULT : Z := 10.
Definition OS_TICKS_MS : Z := 10.

(** Offsets in task_t of the members whose address is taken. *)
Definition OFF_task_name : Z := 0.
Definition OFF_run_node : Z := 36.
Definition OFF_all_node : Z := 44.
Definition OFF_wait_node : Z := 52.
Definition OFF_tss : Z := 76.
Definition sizeof_tss : Z := 104.
Definition sizeof_task : Z := 184.

Definition run_node (t : Z) : Z := t + OFF_run_node.
Definition all_node (t : Z) : Z := t + OFF_all_node.
Definition wait_node (t : Z) : Z := t + OFF_wait_node.

(** CONTAINER_OF(node_ptr, parent_type, name) (tools/list.h) *)
Definition CONTAINER_OF (node_ptr offset : Z) : Z := u32 (node_ptr - offset).

Section sched.
Context `{Platform}.

(** task_manager_t task_manager *)
Definition task_manager : Z := symbol "task_manager".
Definition ready_list : Z := task_manager.
Definition task_list : Z := task_manager + 12.
Definition sleep_list : Z := task_manager + 24.
Definition main_task : Z := task_manager + 40.
Definition idle_task : Z := task_manager + 40 + sizeof_task.

(** task_t *task_main_task(void) *)
Definition task_main_task : M Z := mret main_task.

(** void switch_to_tss(int tss_sel) (cpu/cpu.c) *)
Definition switch_to_tss (tss_sel : Z) : M unit := far_jump tss_sel 0.

(** void task_switch_from_to(task_t *from, task_t *to) *)
Definition task_switch_from_to (from to : Z) : M unit :=
  tk ← get_task to;
  switch_to_tss (t_tss_sel tk).

(** void task_set_ready(task_t *task) *)
Definition task_set_ready (task : Z) : M unit :=
  on_heap (list_insert_last ready_list (run_node task));;
  task_set_state task TASK_READY.

(** void task_set_block(task_t *task) *)
Definition task_set_block (task : Z) : M unit :=
  _ ← on_heap (list_pop ready_list (run_node task));
  mret tt.

(** task_t *task_current(void) *)
Definition task_current : M Z := gets k_curr.

(** void task_dispatch(void) *)
Definition task_dispatch : M unit :=
  state ← irq_enter_protection;
  node ← on_heap (list_first ready_list);
  from ← task_current;
  (if node =? NULL then
     let to := idle_task in
     if negb (to =? from) then
       modify (with_curr idle_task);;
       task_switch_from_to from idle_task
     else mret tt
   else
     let to := CONTAINER_OF node OFF_run_node in
     if negb (to =? from) then
       modify (with_curr to);;
       task_set_state to TASK_RUNNING;;
       task_switch_from_to from to
     else mret tt);;
  irq_leave_protection state.

(** void sys_sched_yield(void) *)
Definition sys_sched_yield : M unit :=
  state ← irq_enter_protection;
  n ← on_heap (list_count ready_list);
  (if 1 <? n then
     curr_task ← task_current;
     task_set_block curr_task;;
     task_set_ready curr_task;;
     task_dispatch
   else mret tt);;
  irq_leave_protection state.

(** void task_set_sleep(task_t *task, uint32_t ticks) *)
Definition task_set_sleep (task ticks : Z) : M unit :=
  if ticks =? 0 then mret tt
  else
    task_set_sleep_ticks task (i32 ticks);;
    task_set_state task TASK_SLEEP;;
    on_heap (list_insert_last sleep_list (run_node task)).

(** void task_set_wakeup(task_t *task) *)
Definition task_set_wakeup (task : Z) : M unit :=
  _ ← on_heap (list_pop sleep_list (run_node task));
  mret tt.

(** The ticks sys_sleep asks for, in uint32_t arithmetic. *)
Definition sleep_ticks_of (ms : Z) : Z :=
  u32 (u32 (u32 (ms + OS_TICKS_MS) - 1) / OS_TICKS_MS + 1).

(** void sys_sleep(uint32_t ms) *)
Definition sys_sleep (ms : Z) : M unit :=
  state ← irq_enter_protection;
  curr ← gets k_curr;
  task_set_block curr;;
  task_set_sleep curr (sleep_ticks_of ms);;
  task_dispatch;;
  irq_leave_protection state.

(** The end of the time slice, in task_time_tick. *)
Definition tick_slice (curr : Z) : M unit :=
  tk ← get_task curr;
  let slice := i32 (t_slice_ticks tk - 1) in
  task_set_slice curr slice;;
  if slice =? 0 then
    task_set_slice curr (t_time_ticks tk);;
    task_set_block curr;;
    task_set_ready curr
  else mret tt.

(** One turn of the loop over the sleep list in task_time_tick. *)
Definition tick_sleeper (curr_node : Z) : M (flow Z unit) :=
  if curr_node =? NULL then mret (Brk tt)
  else
    next_node ← on_heap (get_next curr_node);
    let task := CONTAINER_OF curr_node OFF_run_node in
    tk ← get_task task;
    let ticks := i32 (t_sleep_ticks tk - 1) in
    task_set_sleep_ticks task ticks;;
    (if ticks =? 0 then
       task_set_wakeup task;;
       task_set_ready task
     else mret tt);;
    mret (Cont next_node).

(** void task_time_tick(void) *)
Definition task_time_tick : M unit :=
  curr ← task_current;
  (if negb (curr =? idle_task) then tick_slice curr else mret tt);;
  curr_node ← on_heap (list_first sleep_list);
  mwhile tick_sleeper curr_node;;
  task_dispatch.
End sched.
