(* ===== verification/SchedSpec.v ===== *)
(** * Abstract scheduler and its representation

    [asched] is what the scheduler promises: three sequences of tasks, the
    waiters of every wait list, and the current task.  [krep s a] says that
    the kernel state [s] represents [a]; the lemmas below refine every
    primitive of core/task.c to an operation on sequences. *)

From S2P Require Import Prelude Mem DList Klib Machine Irq Sched.

(** ** The abstract state *)

Record asched : Type := ASched {
  a_ready : list Z;              (* tasks of ready_list, in order *)
  a_sleep : list (Z * Z);        (* tasks of sleep_list, with the ticks left *)
  a_all : list Z;                (* tasks of task_list *)
  a_wait : gmap Z (list Z);      (* wait-list header -> its tasks *)
  a_curr : Z
}.

Definition a_set_ready (r : list Z) (a : asched) : asched :=
  ASched r (a_sleep a) (a_all a) (a_wait a) (a_curr a).
Definition a_set_sleep (l : list (Z * Z)) (a : asched) : asched :=
  ASched (a_ready a) l (a_all a) (a_wait a) (a_curr a).
Definition a_set_wait (w : Z) (l : list Z) (a : asched) : asched :=
  ASched (a_ready a) (a_sleep a) (a_all a) (<[w := l]> (a_wait a)) (a_curr a).
Definition a_set_curr (c : Z) (a : asched) : asched :=
  ASched (a_ready a) (a_sleep a) (a_all a) (a_wait a) c.

(** ** Placement of tasks in memory *)

(** Two task objects do not overlap. *)
Definition apart (t u : Z) : Prop := t = u ∨ sizeof_task <= Z.abs (t - u).

Record tasks_placed (ts : gmap Z task_t) : Prop := {
  tp_range : ∀ t, is_Some (ts !! t) → 0 < t ∧ t + sizeof_task <= 0x100000000;
  tp_apart : ∀ t u, is_Some (ts !! t) → is_Some (ts !! u) → apart t u
}.

(** Nodes of different tasks, or of different kinds, are different. *)
Lemma node_inj t u : run_node t = run_node u → t = u.
Proof. unfold run_node. lia. Qed.
Lemma all_node_inj t u : all_node t = all_node u → t = u.
Proof. unfold all_node. lia. Qed.
Lemma wait_node_inj t u : wait_node t = wait_node u → t = u.
Proof. unfold wait_node. lia. Qed.
#[export] Instance run_node_Inj : Inj (=) (=) run_node := node_inj.
#[export] Instance all_node_Inj : Inj (=) (=) all_node := all_node_inj.
#[export] Instance wait_node_Inj : Inj (=) (=) wait_node := wait_node_inj.

Section nodes.
Context (ts : gmap Z task_t) (Hts : tasks_placed ts).
Context (t u : Z) (Ht : is_Some (ts !! t)) (Hu : is_Some (ts !! u)).

Lemma run_all_ne : run_node t ≠ all_node u.
Proof.
  pose proof (tp_apart _ Hts t u Ht Hu) as [->|Ha];
    unfold run_node, all_node, OFF_run_node, OFF_all_node, sizeof_task in *; lia.
Qed.
Lemma run_wait_ne : run_node t ≠ wait_node u.
Proof.
  pose proof (tp_apart _ Hts t u Ht Hu) as [->|Ha];
    unfold run_node, wait_node, OFF_run_node, OFF_wait_node, sizeof_task in *; lia.
Qed.
Lemma all_wait_ne : all_node t ≠ wait_node u.
Proof.
  pose proof (tp_apart _ Hts t u Ht Hu) as [->|Ha];
    unfold all_node, wait_node, OFF_all_node, OFF_wait_node, sizeof_task in *; lia.
Qed.

(** CONTAINER_OF recovers the task from the address of its node. *)
Lemma container_run : CONTAINER_OF (run_node t) OFF_run_node = t.
Proof.
  pose proof (tp_range _ Hts t Ht). unfold CONTAINER_OF, run_node, sizeof_task in *.
  rewrite Z.add_simpl_r. apply u32_small. lia.
Qed.
Lemma container_wait : CONTAINER_OF (wait_node t) OFF_wait_node = t.
Proof.
  pose proof (tp_range _ Hts t Ht). unfold CONTAINER_OF, wait_node, sizeof_task in *.
  rewrite Z.add_simpl_r. apply u32_small. lia.
Qed.
Lemma run_node_nonnull : run_node t ≠ NULL.
Proof. pose proof (tp_range _ Hts t Ht). unfold run_node, OFF_run_node, NULL. lia. Qed.
End nodes.

(** ** The representation relation *)

(** The three headers of the task manager are different objects. *)
Ltac header_ne := unfold ready_list, sleep_list, task_list; lia.

Section rep.
Context `{Platform}.

(** The family of node sequences behind an abstract state. *)
Definition alists (a : asched) : gmap Z (list Z) :=
  <[ready_list := run_node <$> a_ready a]>
    (<[sleep_list := run_node <$> (a_sleep a).*1]>
      (<[task_list := all_node <$> a_all a]>
        ((λ l : list Z, wait_node <$> l) <$> a_wait a))).

Record krep (s : kstate) (a : asched) : Prop := {
  kr_heap : heap_rep (k_heap s) (alists a);
  kr_curr : k_curr s = a_curr a;
  kr_placed : tasks_placed (k_tasks s);
  kr_idle : is_Some (k_tasks s !! idle_task);
  kr_nodes : ∀ t, is_Some (k_tasks s !! t) →
    is_Some (nodes (k_heap s) !! run_node t) ∧
    is_Some (nodes (k_heap s) !! all_node t) ∧
    is_Some (nodes (k_heap s) !! wait_node t);
  kr_ready : ∀ t, t ∈ a_ready a → is_Some (k_tasks s !! t);
  kr_all : ∀ t, t ∈ a_all a → is_Some (k_tasks s !! t);
  kr_waiters : ∀ w l t, a_wait a !! w = Some l → t ∈ l → is_Some (k_tasks s !! t);
  kr_sleep : ∀ t n, (t, n) ∈ a_sleep a →
    ∃ tk, k_tasks s !! t = Some tk ∧ t_sleep_ticks tk = n;
  kr_headers : a_wait a !! ready_list = None ∧ a_wait a !! sleep_list = None ∧
    a_wait a !! task_list = None
}.

(** *** Looking up and updating the family *)

Lemma alists_ready a : alists a !! ready_list = Some (run_node <$> a_ready a).
Proof. apply lookup_insert_eq. Qed.
Lemma alists_sleep a : alists a !! sleep_list = Some (run_node <$> (a_sleep a).*1).
Proof.
  unfold alists.
  by rewrite lookup_insert_ne, lookup_insert_eq by header_ne.
Qed.
Lemma alists_task a : alists a !! task_list = Some (all_node <$> a_all a).
Proof.
  unfold alists.
  by rewrite !lookup_insert_ne, lookup_insert_eq by header_ne.
Qed.
Lemma alists_wait s a w l :
  krep s a → a_wait a !! w = Some l → alists a !! w = Some (wait_node <$> l).
Proof.
  intros HR Hw. pose proof (kr_headers _ _ HR) as (H1 & H2 & H3). unfold alists.
  rewrite !lookup_insert_ne by (intros <-; congruence). by rewrite lookup_fmap, Hw.
Qed.

Lemma alists_set_ready r a :
  alists (a_set_ready r a) = <[ready_list := run_node <$> r]> (alists a).
Proof. unfold alists. by rewrite insert_insert_eq. Qed.
Lemma alists_set_sleep l a :
  alists (a_set_sleep l a) = <[sleep_list := run_node <$> l.*1]> (alists a).
Proof.
  unfold alists. cbn.
  rewrite (insert_insert_ne _ sleep_list ready_list) by header_ne. by rewrite insert_insert_eq.
Qed.
Lemma alists_set_wait s w l a :
  krep s a → is_Some (a_wait a !! w) →
  alists (a_set_wait w l a) = <[w := wait_node <$> l]> (alists a).
Proof.
  intros HR [l0 Hw]. pose proof (kr_headers _ _ HR) as (H1 & H2 & H3).
  unfold alists. cbn. rewrite fmap_insert.
  rewrite (insert_insert_ne _ w ready_list) by (intros ->; congruence).
  rewrite (insert_insert_ne _ w sleep_list) by (intros ->; congruence).
  by rewrite (insert_insert_ne _ w task_list) by (intros ->; congruence).
Qed.
Lemma alists_set_curr c a : alists (a_set_curr c a) = alists a.
Proof. done. Qed.

(** *** Where a node is not linked *)

Lemma alists_cases a l xs :
  alists a !! l = Some xs →
  xs = run_node <$> a_ready a ∨ xs = run_node <$> (a_sleep a).*1 ∨
  xs = all_node <$> a_all a ∨
  ∃ ws, a_wait a !! l = Some ws ∧ xs = wait_node <$> ws.
Proof.
  unfold alists. rewrite !lookup_insert_Some, lookup_fmap_Some. naive_solver.
Qed.

Lemma kr_sleeper s a t : krep s a → t ∈ (a_sleep a).*1 → is_Some (k_tasks s !! t).
Proof.
  intros HR ([t' n] & -> & Hin)%list_elem_of_fmap.
  destruct (kr_sleep _ _ HR _ _ Hin) as (tk & ? & _). by exists tk.
Qed.

Lemma run_unlinked s a t :
  krep s a → is_Some (k_tasks s !! t) → t ∉ a_ready a → t ∉ (a_sleep a).*1 →
  unlinked (alists a) (run_node t).
Proof.
  intros HR Ht Hr Hs l xs Hl Hin. pose proof (kr_placed _ _ HR) as Hp.
  destruct (alists_cases _ _ _ Hl) as [->|[->|[->|(ws & Hws & ->)]]];
    apply list_elem_of_fmap in Hin as (u & Heq & Hu).
  - apply node_inj in Heq as ->. done.
  - apply node_inj in Heq as ->. done.
  - apply (run_all_ne _ Hp t u) in Heq; [done|done|]. by apply (kr_all _ _ HR).
  - apply (run_wait_ne _ Hp t u) in Heq; [done|done|]. by eapply (kr_waiters _ _ HR).
Qed.

Lemma wait_unlinked s a t :
  krep s a → is_Some (k_tasks s !! t) →
  (∀ w l, a_wait a !! w = Some l → t ∉ l) →
  unlinked (alists a) (wait_node t).
Proof.
  intros HR Ht Hw l xs Hl Hin. pose proof (kr_placed _ _ HR) as Hp.
  destruct (alists_cases _ _ _ Hl) as [->|[->|[->|(ws & Hws & ->)]]];
    apply list_elem_of_fmap in Hin as (u & Heq & Hu); symmetry in Heq.
  - apply (run_wait_ne _ Hp u t) in Heq; [done| |done]. by apply (kr_ready _ _ HR).
  - apply (run_wait_ne _ Hp u t) in Heq; [done| |done]. by eapply kr_sleeper.
  - apply (all_wait_ne _ Hp u t) in Heq; [done| |done]. by apply (kr_all _ _ HR).
  - apply wait_node_inj in Heq as ->. by eapply Hw.
Qed.
End rep.

(** ** Frames *)

(** The parts of the state the scheduler never touches, and the scalar members
    of tasks it keeps. *)
Record same_env (s s' : kstate) : Prop := {
  se_mem : k_mem s' = k_mem s;
  se_gdt : k_gdt s' = k_gdt s;
  se_idt : k_idt s' = k_idt s;
  se_tick : k_sys_tick s' = k_sys_tick s;
  se_io : k_io s' = k_io s;
  se_tr : tr (k_cpu s') = tr (k_cpu s);
  se_tasks : ∀ t, option_map t_tss_sel (k_tasks s' !! t) = option_map t_tss_sel (k_tasks s !! t);
  se_times : ∀ t, option_map t_time_ticks (k_tasks s' !! t) = option_map t_time_ticks (k_tasks s !! t);
  se_slices : ∀ t, option_map t_slice_ticks (k_tasks s' !! t) = option_map t_slice_ticks (k_tasks s !! t);
  se_objs : same_objs (k_heap s) (k_heap s')
}.

#[export] Instance same_env_pre : PreOrder same_env.
Proof.
  split; [by split|].
  intros s1 s2 s3 [] []. split; intros; etrans; eauto.
Qed.

Lemma same_env_dom s s' t : same_env s s' → is_Some (k_tasks s' !! t) ↔ is_Some (k_tasks s !! t).
Proof.
  intros HE. pose proof (se_tasks _ _ HE t) as Ht.
  destruct (k_tasks s' !! t), (k_tasks s !! t); cbn in Ht; try done; naive_solver.
Qed.

Lemma on_heap_done {A} (p : LM A) s a h :
  p (k_heap s) = Some (a, h) → on_heap p s = Done a (with_heap h s).
Proof. intros Hp. unfold on_heap. by rewrite Hp. Qed.
Lemma on_heap_read {A} (p : LM A) s a :
  p (k_heap s) = Some (a, k_heap s) → on_heap p s = Done a s.
Proof. intros Hp. erewrite on_heap_done by done. by destruct s. Qed.

Lemma get_task_done s t tk : k_tasks s !! t = Some tk → get_task t s = Done tk s.
Proof. intros Ht. unfold get_task. by rewrite Ht. Qed.
Lemma upd_task_done s t f tk :
  k_tasks s !! t = Some tk →
  upd_task t f s = Done tt (with_tasks (<[t := f tk]> (k_tasks s)) s).
Proof.
  intros Ht. unfold upd_task, put_task.
  erewrite bind_done by (by apply get_task_done). cbn beta.
  erewrite bind_done by (by apply get_task_done). done.
Qed.

Definition with_state (st : task_state) (tk : task_t) : task_t :=
  Task st (t_slice_ticks tk) (t_time_ticks tk) (t_sleep_ticks tk) (t_tss_sel tk).
Definition with_sleep_ticks (n : Z) (tk : task_t) : task_t :=
  Task (t_state tk) (t_slice_ticks tk) (t_time_ticks tk) n (t_tss_sel tk).
Definition with_slice (n : Z) (tk : task_t) : task_t :=
  Task (t_state tk) n (t_time_ticks tk) (t_sleep_ticks tk) (t_tss_sel tk).

(** Updating one task keeps selectors and slices of all of them. *)
Lemma same_env_task s h t tk tk' :
  k_tasks s !! t = Some tk → t_tss_sel tk' = t_tss_sel tk → t_time_ticks tk' = t_time_ticks tk →
  t_slice_ticks tk' = t_slice_ticks tk →
  same_objs (k_heap s) h →
  same_env s (with_tasks (<[t := tk']> (k_tasks s)) (with_heap h s)).
Proof.
  intros Ht Hsel Htime Hsl Ho. split; try done; intros u; cbn;
    rewrite lookup_insert; case_decide; subst; rewrite ?Ht; cbn; congruence.
Qed.
Lemma same_env_upd s t tk tk' :
  k_tasks s !! t = Some tk → t_tss_sel tk' = t_tss_sel tk → t_time_ticks tk' = t_time_ticks tk →
  t_slice_ticks tk' = t_slice_ticks tk →
  same_env s (with_tasks (<[t := tk']> (k_tasks s)) s).
Proof.
  intros Ht Hsel Htime Hsl. split; try done; intros u; cbn;
    rewrite lookup_insert; case_decide; subst; rewrite ?Ht; cbn; congruence.
Qed.
Lemma same_env_heap s h : same_objs (k_heap s) h → same_env s (with_heap h s).
Proof. by split. Qed.

(** ** Refinement of the primitives *)

Section primitives.
Context `{Platform}.

(** Rebuilding the representation after a step. *)
Lemma krep_step s s' a a' :
  krep s a → heap_rep (k_heap s') (alists a') → same_env s s' →
  k_curr s' = a_curr a' →
  (∀ t, t ∈ a_ready a' → is_Some (k_tasks s !! t)) →
  a_all a' = a_all a →
  (∀ w l t, a_wait a' !! w = Some l → t ∈ l → is_Some (k_tasks s !! t)) →
  (∀ t n, (t, n) ∈ a_sleep a' → ∃ tk, k_tasks s' !! t = Some tk ∧ t_sleep_ticks tk = n) →
  (∀ w, a_wait a !! w = None → a_wait a' !! w = None) →
  krep s' a'.
Proof.
  intros HR Hh HE Hc Hr Ha Hw Hs Hd.
  pose proof (λ t, same_env_dom s s' t HE) as Hdom.
  pose proof (kr_headers _ _ HR) as (H1 & H2 & H3).
  split; try done.
  - destruct (kr_placed _ _ HR) as [Hrg Hap].
    split; [intros t Ht|intros t u Ht Hu]; rewrite Hdom in *; eauto.
  - apply Hdom, (kr_idle _ _ HR).
  - intros t Ht. rewrite Hdom in Ht. destruct (kr_nodes _ _ HR t Ht) as (? & ? & ?).
    destruct (se_objs _ _ HE) as [Hn _]. rewrite !Hn. done.
  - intros t Ht. apply Hdom. auto.
  - intros t Ht. apply Hdom, (kr_all _ _ HR). congruence.
  - intros w l t Hl Ht. apply Hdom. eauto.
  - split_and!; auto.
Qed.

Lemma task_set_ready_ok s a t tk :
  krep s a → k_tasks s !! t = Some tk → t ∉ a_ready a → t ∉ (a_sleep a).*1 →
  len (a_ready a) < INT_MAX →
  ∃ s', task_set_ready t s = Done tt s' ∧ krep s' (a_set_ready (a_ready a ++ [t]) a) ∧
    same_env s s' ∧ k_tasks s' = <[t := with_state TASK_READY tk]> (k_tasks s) ∧
    k_cpu s' = k_cpu s ∧ k_mutexes s' = k_mutexes s ∧ k_sems s' = k_sems s.
Proof.
  intros HR Ht Hr Hsl Hlen. assert (is_Some (k_tasks s !! t)) as Ht' by eauto.
  destruct (list_insert_last_ok (k_heap s) (alists a) (kr_heap _ _ HR) ready_list
    (run_node <$> a_ready a) (run_node t)) as (h & Hins & Hh).
  - apply alists_ready.
  - by eapply run_unlinked.
  - by apply (kr_nodes _ _ HR).
  - by rewrite length_fmap.
  - pose proof (keeps_insert_last _ _ _ _ _ Hins) as Ho.
    assert (same_env s (with_tasks (<[t := with_state TASK_READY tk]> (k_tasks s))
      (with_heap h s))) as HE by (by eapply same_env_task).
    eexists. split; [|split; [|split; [exact HE|done]]].
    + unfold task_set_ready. erewrite bind_done by (by apply on_heap_done).
      unfold task_set_state. by erewrite upd_task_done.
    + eapply krep_step; [exact HR| |exact HE| | | | | |]; cbn.
      * rewrite alists_set_ready, fmap_app. exact Hh.
      * apply (kr_curr _ _ HR).
      * intros u [Hu| ->%list_elem_of_singleton]%elem_of_app; [by apply (kr_ready _ _ HR)|done].
      * done.
      * apply (kr_waiters _ _ HR).
      * intros u n Hu. destruct (kr_sleep _ _ HR u n Hu) as (tku & Htu & Hn).
        destruct (decide (u = t)) as [->|Hne].
        -- destruct Hsl. apply list_elem_of_fmap. by exists (t, n).
        -- exists tku. by rewrite lookup_insert_ne.
      * done.
Qed.

Lemma task_set_block_ok s a t xs ys :
  krep s a → a_ready a = xs ++ t :: ys →
  ∃ h, task_set_block t s = Done tt (with_heap h s) ∧
    krep (with_heap h s) (a_set_ready (xs ++ ys) a) ∧ same_env s (with_heap h s).
Proof.
  intros HR Hr.
  destruct (list_pop_ok (k_heap s) (alists a) (kr_heap _ _ HR) ready_list (run_node t)
    (run_node <$> xs) (run_node <$> ys)) as (h & Hpop & Hh & _).
  { by rewrite alists_ready, Hr, fmap_app. }
  exists h. pose proof (same_env_heap s h (keeps_pop _ _ _ _ _ Hpop)) as HE.
  split; [|split; [|exact HE]].
  - unfold task_set_block. by erewrite bind_done by (by apply on_heap_done).
  - eapply krep_step; [exact HR| |exact HE| | | | | |]; cbn.
    + rewrite alists_set_ready, fmap_app. exact Hh.
    + apply (kr_curr _ _ HR).
    + intros u Hu. apply (kr_ready _ _ HR). rewrite Hr. set_solver.
    + done.
    + apply (kr_waiters _ _ HR).
    + apply (kr_sleep _ _ HR).
    + done.
Qed.

Lemma task_set_sleep_ok s a t tk n :
  krep s a → k_tasks s !! t = Some tk → t ∉ a_ready a → t ∉ (a_sleep a).*1 →
  len (a_sleep a) < INT_MAX → 0 < n <= INT_MAX →
  ∃ s', task_set_sleep t n s = Done tt s' ∧
    krep s' (a_set_sleep (a_sleep a ++ [(t, n)]) a) ∧ same_env s s' ∧
    k_tasks s' = <[t := with_state TASK_SLEEP (with_sleep_ticks n tk)]> (k_tasks s) ∧
    k_cpu s' = k_cpu s ∧ k_mutexes s' = k_mutexes s ∧ k_sems s' = k_sems s.
Proof.
  intros HR Ht Hr Hsl Hlen Hn. assert (is_Some (k_tasks s !! t)) as Ht' by eauto.
  destruct (list_insert_last_ok (k_heap s) (alists a) (kr_heap _ _ HR) sleep_list
    (run_node <$> (a_sleep a).*1) (run_node t)) as (h & Hins & Hh).
  - apply alists_sleep.
  - by eapply run_unlinked.
  - by apply (kr_nodes _ _ HR).
  - by rewrite !length_fmap.
  - pose proof (keeps_insert_last _ _ _ _ _ Hins) as Ho.
    set (tk' := with_state TASK_SLEEP (with_sleep_ticks n tk)).
    assert (same_env s (with_tasks (<[t := tk']> (k_tasks s)) (with_heap h s))) as HE
      by (by eapply same_env_task).
    eexists. split; [|split; [|split; [exact HE|done]]].
    + unfold task_set_sleep. rewrite (proj2 (Z.eqb_neq n 0)) by lia.
      rewrite i32_small by (unfold INT_MIN; lia).
      unfold task_set_sleep_ticks, task_set_state.
      erewrite bind_done by (by apply upd_task_done).
      erewrite bind_done by (apply upd_task_done; cbn; by rewrite lookup_insert_eq).
      erewrite on_heap_done by exact Hins. cbn. by rewrite insert_insert_eq.
    + eapply krep_step; [exact HR| |exact HE| | | | | |]; cbn.
      * rewrite alists_set_sleep, !fmap_app. exact Hh.
      * apply (kr_curr _ _ HR).
      * apply (kr_ready _ _ HR).
      * done.
      * apply (kr_waiters _ _ HR).
      * intros u k [Hu|Hu%list_elem_of_singleton]%elem_of_app.
        -- destruct (kr_sleep _ _ HR u k Hu) as (tku & Htu & Hk).
           destruct (decide (u = t)) as [->|Hne].
           ++ destruct Hsl. apply list_elem_of_fmap. by exists (t, k).
           ++ exists tku. by rewrite lookup_insert_ne.
        -- injection Hu as -> ->. eexists. by rewrite lookup_insert_eq.
      * done.
Qed.

Lemma task_set_wakeup_ok s a t xs n ys :
  krep s a → a_sleep a = xs ++ (t, n) :: ys →
  ∃ h, task_set_wakeup t s = Done tt (with_heap h s) ∧
    krep (with_heap h s) (a_set_sleep (xs ++ ys) a) ∧ same_env s (with_heap h s).
Proof.
  intros HR Hr.
  destruct (list_pop_ok (k_heap s) (alists a) (kr_heap _ _ HR) sleep_list (run_node t)
    (run_node <$> xs.*1) (run_node <$> ys.*1)) as (h & Hpop & Hh & _).
  { by rewrite alists_sleep, Hr, !fmap_app. }
  exists h. pose proof (same_env_heap s h (keeps_pop _ _ _ _ _ Hpop)) as HE.
  split; [|split; [|exact HE]].
  - unfold task_set_wakeup. by erewrite bind_done by (by apply on_heap_done).
  - eapply krep_step; [exact HR| |exact HE| | | | | |]; cbn.
    + rewrite alists_set_sleep, !fmap_app. exact Hh.
    + apply (kr_curr _ _ HR).
    + apply (kr_ready _ _ HR).
    + done.
    + apply (kr_waiters _ _ HR).
    + intros u k Hu. apply (kr_sleep _ _ HR). rewrite Hr. set_solver.
    + done.
Qed.

(** Waiting lists, for mutexes and semaphores. *)
Lemma wait_insert_ok s a w l t :
  krep s a → a_wait a !! w = Some l → is_Some (k_tasks s !! t) →
  (∀ w l, a_wait a !! w = Some l → t ∉ l) → len l < INT_MAX →
  ∃ h, on_heap (list_insert_last w (wait_node t)) s = Done tt (with_heap h s) ∧
    krep (with_heap h s) (a_set_wait w (l ++ [t]) a) ∧ same_env s (with_heap h s).
Proof.
  intros HR Hw Ht Hun Hlen.
  destruct (list_insert_last_ok (k_heap s) (alists a) (kr_heap _ _ HR) w
    (wait_node <$> l) (wait_node t)) as (h & Hins & Hh).
  - by eapply alists_wait.
  - by eapply wait_unlinked.
  - by apply (kr_nodes _ _ HR).
  - by rewrite length_fmap.
  - exists h. pose proof (same_env_heap s h (keeps_insert_last _ _ _ _ _ Hins)) as HE.
    split; [by apply on_heap_done|]. split; [|exact HE].
    eapply krep_step; [exact HR| |exact HE| | | | | |]; cbn.
    + erewrite alists_set_wait by eauto. by rewrite fmap_app.
    + apply (kr_curr _ _ HR).
    + apply (kr_ready _ _ HR).
    + done.
    + intros w' l' u [(<- & <-)|(? & Hw')]%lookup_insert_Some;
        [|by eapply (kr_waiters _ _ HR)].
      intros [Hu| ->%list_elem_of_singleton]%elem_of_app; [by eapply (kr_waiters _ _ HR)|done].
    + apply (kr_sleep _ _ HR).
    + intros w' Hw'. rewrite lookup_insert_ne by congruence. done.
Qed.

Lemma wait_pop_ok s a w t l :
  krep s a → a_wait a !! w = Some (t :: l) →
  ∃ h, on_heap (list_pop_first w) s = Done (wait_node t) (with_heap h s) ∧
    krep (with_heap h s) (a_set_wait w l a) ∧ same_env s (with_heap h s).
Proof.
  intros HR Hw.
  destruct (list_pop_first_ok (k_heap s) (alists a) (kr_heap _ _ HR) w (wait_node t)
    (wait_node <$> l)) as (h & Hpop & Hh & _).
  { by rewrite (alists_wait _ _ _ _ HR Hw). }
  exists h. pose proof (same_env_heap s h (keeps_pop_first _ _ _ _ Hpop)) as HE.
  split; [by apply on_heap_done|]. split; [|exact HE].
  eapply krep_step; [exact HR| |exact HE| | | | | |]; cbn.
  - erewrite alists_set_wait by eauto. exact Hh.
  - apply (kr_curr _ _ HR).
  - apply (kr_ready _ _ HR).
  - done.
  - intros w' l' u [(<- & <-)|(? & Hw')]%lookup_insert_Some Hu;
      eapply (kr_waiters _ _ HR); eauto. set_solver.
  - apply (kr_sleep _ _ HR).
  - intros w' Hw'. rewrite lookup_insert_ne by congruence. done.
Qed.

Lemma wait_count_ok s a w l :
  krep s a → a_wait a !! w = Some l → on_heap (list_count w) s = Done (len l) s.
Proof.
  intros HR Hw. apply on_heap_read.
  rewrite (list_count_ok _ _ (kr_heap _ _ HR) _ _ (alists_wait _ _ _ _ HR Hw)).
  by rewrite length_fmap.
Qed.
End primitives.

(** ** Dispatching *)

Section dispatch.
Context `{Platform}.

(** The task that must run: the head of the ready list, else the idle task. *)
Definition a_next (a : asched) : Z := default idle_task (head (a_ready a)).
Definition a_dispatch (a : asched) : asched := a_set_curr (a_next a) a.

(** The TSS selector of a task. *)
Definition sel_of (s : kstate) (t : Z) : Z :=
  match k_tasks s !! t with Some tk => t_tss_sel tk | None => 0 end.

(** EFLAGS inside a critical section. *)
Definition masked (s : kstate) : Z := Z.ldiff (eflags (k_cpu s)) ELFAGS_IF.

(** The state in which control leaves for the next task. *)
Definition dispatched (s : kstate) (a : asched) : kstate :=
  let s := with_curr (a_next a) (with_eflags (masked s) s) in
  match a_ready a with
  | [] => s
  | t :: _ => with_tasks (alter (with_state TASK_RUNNING) t (k_tasks s)) s
  end.

(** How a kernel call that dispatches and leaves the critical section opened
    with EFLAGS [fl] ends: it returns with [fl] restored, or control leaves
    for the next task and [fl] is restored when the caller runs again. *)
Definition outcome (fl : Z) (s : kstate) (a : asched) : res unit :=
  if decide (a_next a = k_curr s) then Done tt (with_eflags fl s)
  else Switch (sel_of s (a_next a)) (dispatched s a) (λ s', Done tt (with_eflags fl s')).

Lemma with_eflags_eflags v w s : with_eflags v (with_eflags w s) = with_eflags v s.
Proof. done. Qed.
Lemma with_eflags_same s : with_eflags (eflags (k_cpu s)) s = s.
Proof. by destruct s as [? ? ? ? ? ? ? ? ? [] ?]. Qed.

Lemma krep_eflags s a v : krep s a → krep (with_eflags v s) a.
Proof. by intros []. Qed.

Lemma krep_dispatched s a : krep s a → krep (dispatched s a) (a_dispatch a).
Proof.
  intros HR. destruct HR as [Hh Hc [Hrg Hap] Hi Hn Hr Hal Hw Hs Hhd].
  unfold dispatched, a_dispatch. destruct (a_ready a) as [|t r] eqn:Er.
  - split; try done. cbn. by rewrite Er.
  - assert (∀ u, is_Some (alter (with_state TASK_RUNNING) t (k_tasks s) !! u) ↔
      is_Some (k_tasks s !! u)) as Hdom.
    { intros u. rewrite lookup_alter. case_decide; subst; [|done].
      by rewrite fmap_is_Some. }
    split; cbn; try done.
    + split; [intros u Hu|intros u v Hu Hv]; rewrite Hdom in *; eauto.
    + by rewrite Hdom.
    + intros u Hu. rewrite Hdom in Hu. eauto.
    + intros u Hu. rewrite Hdom. apply Hr. congruence.
    + intros u Hu. rewrite Hdom. eauto.
    + intros w l u Hl Hu. rewrite Hdom. eauto.
    + intros u n Hu. destruct (Hs u n Hu) as (tk & Htk & Hn').
      rewrite lookup_alter. case_decide; subst.
      * rewrite Htk. by eexists.
      * by exists tk.
Qed.

Lemma sel_of_env s s1 t :
  (∀ t, option_map t_tss_sel (k_tasks s1 !! t) = option_map t_tss_sel (k_tasks s !! t)) →
  sel_of s1 t = sel_of s t.
Proof.
  intros Hs. specialize (Hs t). unfold sel_of.
  destruct (k_tasks s1 !! t), (k_tasks s !! t); cbn in Hs; congruence.
Qed.
Lemma dispatched_env s a : same_env s (dispatched s a).
Proof.
  unfold dispatched. destruct (a_ready a) as [|t r]; [by split|].
  split; try done; intros u; cbn; rewrite lookup_alter; case_decide; subst; try done;
    by destruct (k_tasks s !! _).
Qed.

Lemma dispatched_curr s a : k_curr (dispatched s a) = a_next a.
Proof. unfold dispatched. by destruct (a_ready a). Qed.

Lemma dispatch_ok s a : krep s a → task_dispatch s = outcome (eflags (k_cpu s)) s a.
Proof.
  intros HR. unfold outcome, dispatched, a_next, sel_of.
  assert (list_first ready_list (k_heap s) =
    Some (default NULL (head (run_node <$> a_ready a)), k_heap s)) as Hfirst.
  { apply list_first_ok with (L := alists a); [apply (kr_heap _ _ HR)|apply alists_ready]. }
  set (s1 := with_eflags (masked s) s).
  assert (∀ k : Z → M unit, (irq_enter_protection ≫= k) s = k (eflags (k_cpu s)) s1) as Henter
    by done.
  unfold task_dispatch. rewrite Henter.
  erewrite bind_done by (apply on_heap_read; exact Hfirst). cbn beta.
  erewrite bind_done by done. cbn beta.
  change (k_curr s1) with (k_curr s).
  destruct (a_ready a) as [|t r] eqn:Er; cbn [fmap list_fmap head default from_option id].
  - rewrite (proj2 (Z.eqb_eq NULL NULL)) by done. cbn beta zeta.
    destruct (Z.eqb_spec idle_task (k_curr s)) as [Heq|Hne]; cbn [negb].
    + rewrite decide_True by done. unfold mbind, M_bind. cbn. done.
    + rewrite decide_False by done. destruct (kr_idle _ _ HR) as [tk Htk].
      unfold task_switch_from_to, get_task, mbind, M_bind. cbn. rewrite Htk. done.
  - assert (is_Some (k_tasks s !! t)) as Ht by (apply (kr_ready _ _ HR); rewrite Er; set_solver).
    rewrite (proj2 (Z.eqb_neq _ NULL)) by (eapply run_node_nonnull; eauto using kr_placed).
    cbn zeta. rewrite (container_run _ (kr_placed _ _ HR)) by done.
    destruct (Z.eqb_spec t (k_curr s)) as [Heq|Hne]; cbn [negb].
    + rewrite decide_True by done. unfold mbind, M_bind. cbn. done.
    + rewrite decide_False by done. destruct Ht as [tk Htk].
      unfold task_set_state, upd_task, put_task, task_switch_from_to, get_task, mbind, M_bind.
      cbn. repeat (rewrite Htk; cbn). rewrite lookup_insert_eq. cbn.
      rewrite (alter_as_insert _ _ _ _ Htk). done.
Qed.

(** task_dispatch, followed by the exit of the caller's critical section. *)
Lemma dispatch_leave_ok s a fl :
  krep s a → (task_dispatch;; irq_leave_protection fl) s = outcome fl s a.
Proof.
  intros HR. unfold mbind, M_bind. rewrite (dispatch_ok s a HR). unfold outcome.
  by destruct (decide (a_next a = k_curr s)).
Qed.
End dispatch.
