(* ===== verification/SchedOps.v ===== *)
(** * Kernel calls of the scheduler refine operations on sequences

    The well-formedness of the abstract scheduler, the abstract calls, and the
    refinement of sys_sched_yield, sys_sleep and task_time_tick. *)

From S2P Require Import Prelude Mem DList Klib Machine Irq Sched SchedSpec.

(** ** Well-formed abstract states *)

(** All the tasks blocked on some wait list. *)
Definition waiters (a : asched) : list Z := mjoin (map_to_list (a_wait a)).*2.

Section wf.
Context `{Platform}.

(** Every created task is in exactly one place: ready, asleep or waiting.
    The task that runs is the first ready one, else the idle task. *)
Record awf (a : asched) : Prop := {
  aw_place : a_ready a ++ (a_sleep a).*1 ++ waiters a ≡ₚ a_all a;
  aw_nodup : NoDup (a_all a);
  aw_idle : idle_task ∉ a_all a;
  aw_curr : a_curr a = a_next a;
  aw_sleep : Forall (λ p, 0 < p.2 <= INT_MAX) (a_sleep a);
  aw_bound : len (a_all a) < INT_MAX
}.

Lemma awf_places a : awf a → NoDup (a_ready a ++ (a_sleep a).*1 ++ waiters a).
Proof. intros Ha. rewrite (aw_place _ Ha). apply (aw_nodup _ Ha). Qed.

Lemma elem_of_waiters a t :
  t ∈ waiters a ↔ ∃ w l, a_wait a !! w = Some l ∧ t ∈ l.
Proof.
  unfold waiters. rewrite list_elem_of_join. split.
  - intros (l & Ht & ([w l'] & -> & Hin)%list_elem_of_fmap).
    apply elem_of_map_to_list in Hin. eauto.
  - intros (w & l & Hl & Ht). exists l. split; [done|].
    apply list_elem_of_fmap. exists (w, l). split; [done|]. by apply elem_of_map_to_list.
Qed.

(** Replacing the waiters of one list. *)
Lemma waiters_set w l l' a :
  a_wait a !! w = Some l → waiters (a_set_wait w l' a) ++ l ≡ₚ waiters a ++ l'.
Proof.
  intros Hw. unfold waiters. cbn.
  assert (∀ k, mjoin (map_to_list (<[w := k]> (a_wait a))).*2 ≡ₚ
    k ++ mjoin (map_to_list (delete w (a_wait a))).*2) as Hk.
  { intros k. rewrite <- insert_delete_eq. rewrite map_to_list_insert by apply lookup_delete_eq.
    done. }
  pose proof (Hk l) as Hl. rewrite (insert_id _ _ _ Hw) in Hl.
  specialize (Hk l'). perm_solve.
Qed.
Lemma waiters_disjoint a w l t :
  awf a → a_wait a !! w = Some l → t ∈ l → t ∉ a_ready a ∧ t ∉ (a_sleep a).*1.
Proof.
  intros Ha Hw Ht. pose proof (awf_places _ Ha) as Hnd.
  assert (t ∈ waiters a) by (apply elem_of_waiters; eauto).
  apply NoDup_app in Hnd as (? & Hd & (? & Hd2 & ?)%NoDup_app). set_solver.
Qed.
Lemma waiters_unique a w1 w2 l1 l2 t :
  awf a → a_wait a !! w1 = Some l1 → a_wait a !! w2 = Some l2 → t ∈ l1 → t ∈ l2 → w1 = w2.
Proof.
  intros Ha H1 H2 Ht1 Ht2. destruct (decide (w1 = w2)) as [|Hne]; [done|exfalso].
  pose proof (awf_places _ Ha) as Hnd.
  apply NoDup_app in Hnd as (_ & _ & (_ & _ & Hnd)%NoDup_app).
  pose proof (waiters_set w1 l1 [] a H1) as Hp. rewrite app_nil_r in Hp.
  rewrite <- Hp in Hnd. apply NoDup_app in Hnd as (_ & Hd & _).
  apply (Hd t); [|done]. apply elem_of_waiters. exists w2, l2. cbn.
  by rewrite lookup_insert_ne.
Qed.
Lemma waiters_nodup a w l : awf a → a_wait a !! w = Some l → NoDup l.
Proof.
  intros Ha Hw. pose proof (awf_places _ Ha) as Hnd.
  apply NoDup_app in Hnd as (_ & _ & (_ & _ & Hnd)%NoDup_app).
  pose proof (waiters_set w l [] a Hw) as Hp. rewrite app_nil_r in Hp.
  rewrite <- Hp in Hnd. by apply NoDup_app in Hnd as (_ & _ & ?).
Qed.

(** Every sequence is bounded by the number of tasks. *)
Lemma awf_len_ready a : awf a → len (a_ready a) < INT_MAX.
Proof.
  intros Ha. pose proof (aw_bound _ Ha). rewrite <- (Permutation_length (aw_place _ Ha)) in *.
  rewrite !length_app in *. lia.
Qed.
Lemma awf_len_sleep a : awf a → len (a_sleep a) < INT_MAX.
Proof.
  intros Ha. pose proof (aw_bound _ Ha). rewrite <- (Permutation_length (aw_place _ Ha)) in *.
  rewrite !length_app, length_fmap in *. lia.
Qed.
Lemma awf_len_wait a w l : awf a → a_wait a !! w = Some l → len l < INT_MAX.
Proof.
  intros Ha Hw. pose proof (aw_bound _ Ha). rewrite <- (Permutation_length (aw_place _ Ha)) in *.
  pose proof (Permutation_length (waiters_set w l [] a Hw)) as Hp.
  rewrite !length_app in *. cbn in Hp. lia.
Qed.
End wf.

(** ** Abstract calls *)

Section calls.
Context `{Platform}.

(** sys_sched_yield: the caller goes to the tail, unless it is alone. *)
Definition a_yield (a : asched) : asched :=
  match a_ready a with
  | c :: d :: r => a_dispatch (a_set_ready (d :: r ++ [c]) a)
  | _ => a
  end.

(** sys_sleep for [n] ticks. *)
Definition a_sleep_for (n : Z) (a : asched) : asched :=
  match a_ready a with
  | c :: r => a_dispatch (a_set_sleep (a_sleep a ++ [(c, n)]) (a_set_ready r a))
  | [] => a
  end.

(** Blocking the caller at the tail of a wait list. *)
Definition a_block_on (w : Z) (a : asched) : asched :=
  match a_ready a, a_wait a !! w with
  | c :: r, Some l => a_dispatch (a_set_wait w (l ++ [c]) (a_set_ready r a))
  | _, _ => a
  end.

(** Waking the first waiter of a list. *)
Definition a_wake (w : Z) (a : asched) : asched :=
  match a_wait a !! w with
  | Some (t :: l) => a_set_ready (a_ready a ++ [t]) (a_set_wait w l a)
  | _ => a
  end.

(** The timer tick: the running task goes to the tail when its slice is
    over, sleepers count down, those that reach zero become ready in their
    order in the sleep list, then the head runs. *)
Definition a_rotate (a : asched) : asched :=
  match a_ready a with
  | c :: r => a_set_ready (r ++ [c]) a
  | [] => a
  end.
Definition due (p : Z * Z) : Prop := p.2 = 1.
#[global] Instance due_dec p : Decision (due p).
Proof. unfold due. apply _. Defined.
Definition a_wake_sleepers (a : asched) : asched :=
  a_set_sleep ((λ p, (p.1, p.2 - 1)) <$> filter (λ p, ¬ due p) (a_sleep a))
    (a_set_ready (a_ready a ++ (filter due (a_sleep a)).*1) a).
Definition a_tick (expired : bool) (a : asched) : asched :=
  a_dispatch (a_wake_sleepers (if expired then a_rotate a else a)).

(** *** They preserve well-formedness *)

Lemma awf_dispatch a :
  a_ready a ++ (a_sleep a).*1 ++ waiters a ≡ₚ a_all a → NoDup (a_all a) →
  idle_task ∉ a_all a → Forall (λ p, 0 < p.2 <= INT_MAX) (a_sleep a) →
  len (a_all a) < INT_MAX → awf (a_dispatch a).
Proof. by split. Qed.

Lemma awf_yield a : awf a → awf (a_yield a).
Proof.
  intros Ha. unfold a_yield. destruct (a_ready a) as [|c [|d r]] eqn:Er; [done..|].
  pose proof (aw_place _ Ha) as Hp. rewrite Er in Hp.
  apply awf_dispatch; [|apply Ha..].
  unfold waiters in *. cbn [a_ready a_sleep a_wait a_all a_set_ready] in *. perm_solve.
Qed.

Lemma awf_sleep_for n a : awf a → 0 < n <= INT_MAX → awf (a_sleep_for n a).
Proof.
  intros Ha Hn. unfold a_sleep_for. destruct (a_ready a) as [|c r] eqn:Er; [done|].
  pose proof (aw_place _ Ha) as Hp. rewrite Er in Hp.
  apply awf_dispatch; [|apply Ha|apply Ha| |apply Ha].
  - unfold waiters in *. cbn [a_ready a_sleep a_wait a_all a_set_ready a_set_sleep] in *.
    rewrite fmap_app. cbn [fmap list_fmap fst]. perm_solve.
  - cbn. apply Forall_app. split; [apply Ha|]. by apply Forall_singleton.
Qed.

Lemma awf_block_on w a : awf a → awf (a_block_on w a).
Proof.
  intros Ha. unfold a_block_on. destruct (a_ready a) as [|c r] eqn:Er; [done|].
  destruct (a_wait a !! w) as [l|] eqn:Ew; [|done].
  pose proof (aw_place _ Ha) as Hp. rewrite Er in Hp.
  apply awf_dispatch; [|apply Ha..].
  pose proof (waiters_set w l (l ++ [c]) (a_set_ready r a) Ew) as Hw.
  unfold waiters in *. cbn [a_ready a_sleep a_wait a_all a_set_ready a_set_wait] in *.
  perm_solve.
Qed.

Lemma a_next_app r t a : a_ready a ≠ [] → a_next (a_set_ready (a_ready a ++ r) t) = a_next a.
Proof. intros Hr. unfold a_next. cbn. by destruct (a_ready a). Qed.

Lemma awf_wake_place w a :
  awf a →
  a_ready (a_wake w a) ++ (a_sleep (a_wake w a)).*1 ++ waiters (a_wake w a)
    ≡ₚ a_all (a_wake w a).
Proof.
  intros Ha. unfold a_wake. pose proof (aw_place _ Ha) as Hp.
  destruct (a_wait a !! w) as [[|t l]|] eqn:Ew; [done| |done].
  pose proof (waiters_set w (t :: l) l a Ew) as Hw.
  unfold waiters in *. cbn [a_ready a_sleep a_wait a_all a_set_ready a_set_wait] in *.
  perm_solve.
Qed.
Lemma awf_wake w a : awf a → awf (a_dispatch (a_wake w a)).
Proof.
  intros Ha. pose proof (awf_wake_place w a Ha) as Hp.
  unfold a_wake in *. destruct (a_wait a !! w) as [[|t l]|]; (apply awf_dispatch; [done|apply Ha..]).
Qed.

Lemma awf_rotate_place a :
  a_ready (a_rotate a) ++ (a_sleep (a_rotate a)).*1 ++ waiters (a_rotate a) ≡ₚ
  a_ready a ++ (a_sleep a).*1 ++ waiters a.
Proof.
  unfold a_rotate, waiters. destruct (a_ready a) as [|c r] eqn:Er; [by rewrite Er|].
  cbn. perm_solve.
Qed.

Lemma sleep_split (l : list (Z * Z)) :
  (filter due l).*1 ++ ((λ p, (p.1, p.2 - 1)) <$> filter (λ p, ¬ due p) l).*1 ≡ₚ l.*1.
Proof.
  induction l as [|[t n] l IH]; [done|]. rewrite !filter_cons. cbn.
  destruct (decide (due (t, n))) as [Hd|Hd];
    [rewrite (decide_False (P := ¬ due (t, n))) by tauto
    |rewrite (decide_True (P := ¬ due (t, n))) by done]; cbn; perm_solve.
Qed.

Lemma awf_tick e a : awf a → awf (a_tick e a).
Proof.
  intros Ha. unfold a_tick. set (b := if e then a_rotate a else a).
  assert (a_sleep b = a_sleep a ∧ a_all b = a_all a) as [Hs Hal].
  { unfold b, a_rotate. destruct e; [|done]. by destruct (a_ready a). }
  assert (a_ready b ++ (a_sleep b).*1 ++ waiters b ≡ₚ a_all a) as Hp.
  { rewrite <- (aw_place _ Ha). unfold b. destruct e; [apply awf_rotate_place|done]. }
  apply awf_dispatch; cbn; rewrite ?Hal; try apply Ha.
  - pose proof (sleep_split (a_sleep b)) as Hsp. unfold waiters in *. cbn. perm_solve.
  - apply Forall_fmap, Forall_forall. intros [t n] [Hd Hin]%list_elem_of_filter.
    pose proof (aw_sleep _ Ha) as Hall. rewrite Hs in Hin. rewrite Forall_forall in Hall.
    specialize (Hall _ Hin). unfold due in Hd. cbn in *. lia.
Qed.
End calls.

(** ** Refinement *)

Section refinement.
Context `{Platform}.

(** A kernel call started in [s] implements the abstract step to [a']: it
    reaches a state that represents the step and ends by [outcome]. [Q] tells
    what else is known of that state. *)
Definition rcall (s : kstate) (r : res unit) (a' : asched) (Q : kstate → Prop) : Prop :=
  ∃ s1 a1, r = outcome (eflags (k_cpu s)) s1 a1 ∧ krep s1 a1 ∧ a_dispatch a1 = a' ∧
    same_env s s1 ∧ k_curr s1 = k_curr s ∧ Q s1.

(** Entering the critical section. *)
Definition entered (s : kstate) : kstate := with_eflags (masked s) s.
Lemma enter_done {A} (f : Z → M A) s :
  (irq_enter_protection ≫= f) s = f (eflags (k_cpu s)) (entered s).
Proof. done. Qed.
Lemma krep_entered s a : krep s a → krep (entered s) a.
Proof. apply krep_eflags. Qed.
Lemma entered_env s : same_env s (entered s).
Proof. by split. Qed.

(** A call that ends without dispatching. *)
Lemma outcome_stay fl s a :
  krep s a → a_curr a = a_next a → outcome fl s a = Done tt (with_eflags fl s).
Proof. intros HR Hc. unfold outcome. rewrite decide_True; [done|]. by rewrite (kr_curr _ _ HR). Qed.

Lemma a_dispatch_wf a : a_curr a = a_next a → a_dispatch a = a.
Proof. destruct a. unfold a_dispatch, a_set_curr. cbn. by intros <-. Qed.

Lemma rcall_stay s s1 a :
  krep s1 a → a_curr a = a_next a → same_env s s1 → k_curr s1 = k_curr s →
  rcall s (irq_leave_protection (eflags (k_cpu s)) s1) a (λ s', s' = s1).
Proof.
  intros HR Hc HE Hk. exists s1, a. rewrite (outcome_stay _ _ _ HR Hc).
  split_and!; [done|done|by apply a_dispatch_wf|done|done|done].
Qed.

Lemma rcall_weaken s r a' (Q Q' : kstate → Prop) :
  (∀ s1, Q s1 → Q' s1) → rcall s r a' Q → rcall s r a' Q'.
Proof. intros HQ (s1 & a1 & ? & ? & ? & ? & ? & ?). exists s1, a1. eauto 10. Qed.

(** The body of a call, up to the dispatch. *)
Lemma rcall_dispatch s s1 a1 :
  krep s1 a1 → same_env s s1 → k_curr s1 = k_curr s →
  rcall s ((task_dispatch;; irq_leave_protection (eflags (k_cpu s))) s1) (a_dispatch a1)
    (λ s', s' = s1).
Proof.
  intros HR HE Hk. exists s1, a1. rewrite (dispatch_leave_ok s1 a1) by done. done.
Qed.

Lemma krep_entry_facts s a c r :
  krep s a → awf a → a_ready a = c :: r →
  ∃ tk, k_tasks s !! c = Some tk ∧ (c ∉ r) ∧ c ∉ (a_sleep a).*1 ∧
    (∀ w l, a_wait a !! w = Some l → c ∉ l) ∧ k_curr s = c.
Proof.
  intros HR Ha Hr. pose proof (awf_places _ Ha) as Hnd. rewrite Hr in Hnd.
  apply NoDup_app in Hnd as ([Hc _]%NoDup_cons & Hd & _).
  assert (is_Some (k_tasks s !! c)) as [tk Htk]
    by (apply (kr_ready _ _ HR); rewrite Hr; set_solver).
  exists tk. split_and!; [done|done|set_solver| |].
  - intros w l Hw Hin. eapply (Hd c); [set_solver|]. apply elem_of_app. right.
    apply elem_of_waiters. eauto.
  - rewrite (kr_curr _ _ HR), (aw_curr _ Ha). unfold a_next. by rewrite Hr.
Qed.

Lemma ready_count_ok s a :
  krep s a → on_heap (list_count ready_list) s = Done (len (a_ready a)) s.
Proof.
  intros HR. apply on_heap_read.
  rewrite (list_count_ok _ _ (kr_heap _ _ HR) _ _ (alists_ready a)). by rewrite length_fmap.
Qed.

Definition keeps_locks (s s' : kstate) : Prop :=
  k_mutexes s' = k_mutexes s ∧ k_sems s' = k_sems s.

#[export] Instance keeps_locks_pre : PreOrder keeps_locks.
Proof. split; [by split|]. intros s1 s2 s3 [] []. split; congruence. Qed.

(** The running task goes from the head of the ready list to its tail. *)
Lemma requeue_ok s a c r :
  krep s a → awf a → a_ready a = c :: r →
  ∃ h s', task_set_block c s = Done tt (with_heap h s) ∧
    task_set_ready c (with_heap h s) = Done tt s' ∧
    krep s' (a_set_ready (r ++ [c]) a) ∧ same_env s s' ∧ keeps_locks s s' ∧
    k_cpu s' = k_cpu s ∧
    k_tasks s' = alter (with_state TASK_READY) c (k_tasks s).
Proof.
  intros HR Ha Hr. destruct (krep_entry_facts s a c r HR Ha Hr) as (tk & Htk & Hc & Hcs & _ & _).
  destruct (task_set_block_ok s a c [] r HR Hr) as (h & Hb & HR1 & HE1).
  destruct (task_set_ready_ok (with_heap h s) (a_set_ready r a) c tk)
    as (s' & Hs' & HR2 & HE2 & Htk' & Hcpu & Hm & Hse); try done.
  { pose proof (awf_len_ready _ Ha) as Hl. rewrite Hr in Hl. cbn in *. lia. }
  exists h, s'. split_and!; try done.
  - by etrans.
  - rewrite Htk'. symmetry. by apply alter_as_insert.
Qed.

Lemma sys_sched_yield_ok s a :
  krep s a → awf a → rcall s (sys_sched_yield s) (a_yield a) (keeps_locks s).
Proof.
  intros HR Ha. unfold sys_sched_yield. rewrite enter_done.
  pose proof (krep_entered _ _ HR) as HR1.
  erewrite bind_done by (by apply ready_count_ok). cbn beta.
  unfold a_yield. destruct (a_ready a) as [|c [|d r]] eqn:Er.
  1, 2: eapply rcall_weaken; [|apply (rcall_stay s (entered s) a); [done|apply Ha|apply entered_env|done]];
    by intros ? ->.
  cbn [length]. rewrite (proj2 (Z.ltb_lt 1 _)) by lia.
  destruct (krep_entry_facts _ _ c (d :: r) HR1 Ha Er) as (tk & _ & _ & _ & _ & Hcurr).
  erewrite bind2_done by done. cbn beta. rewrite Hcurr.
  destruct (requeue_ok _ _ c (d :: r) HR1 Ha Er)
    as (h & s' & Hb & Hs' & HR3 & HE3 & HL3 & _ & _).
  erewrite bind2_done by exact Hb. erewrite bind2_done by exact Hs'.
  eapply rcall_weaken; [|apply rcall_dispatch; [exact HR3| |]].
  - intros s1 ->. apply HL3.
  - etrans; [apply entered_env|done].
  - by rewrite (kr_curr _ _ HR3), (kr_curr _ _ HR).
Qed.

(** The ticks sys_sleep asks for are positive and fit the counter. *)
Lemma sleep_ticks_range ms : 0 <= ms < 2 ^ 32 → 0 < sleep_ticks_of ms <= INT_MAX.
Proof.
  intros Hms. unfold sleep_ticks_of, OS_TICKS_MS.
  pose proof (u32_bound (ms + 10)) as H1.
  pose proof (u32_bound (u32 (ms + 10) - 1)) as H2. revert H1 H2.
  generalize (u32 (u32 (ms + 10) - 1)). intros v H1 H2.
  assert (0 <= v / 10 < 429496730) by
    (split; [apply Z.div_pos; lia|apply Z.div_lt_upper_bound; lia]).
  rewrite u32_small; unfold INT_MAX; lia.
Qed.

Lemma sys_sleep_ok s a ms :
  krep s a → awf a → a_ready a ≠ [] → 0 <= ms < 2 ^ 32 →
  rcall s (sys_sleep ms s) (a_sleep_for (sleep_ticks_of ms) a) (keeps_locks s).
Proof.
  intros HR Ha Hne Hms. pose proof (sleep_ticks_range ms Hms) as Hn.
  unfold sys_sleep. rewrite enter_done.
  pose proof (krep_entered _ _ HR) as HR1.
  unfold a_sleep_for. destruct (a_ready a) as [|c r] eqn:Er; [done|].
  destruct (krep_entry_facts _ _ c r HR1 Ha Er) as (tk & Htk & Hc & Hcs & _ & Hcurr).
  erewrite bind_done by done. cbn beta. rewrite Hcurr.
  destruct (task_set_block_ok _ _ c [] r HR1 Er) as (h & Hb & HR2 & HE2).
  erewrite bind_done by exact Hb. cbn beta.
  destruct (task_set_sleep_ok _ _ c tk (sleep_ticks_of ms) HR2)
    as (s' & Hs' & HR3 & HE3 & _ & _ & Hm & Hse); [done..| |lia|].
  { pose proof (awf_len_sleep _ Ha). cbn. lia. }
  erewrite bind_done by exact Hs'. cbn beta.
  eapply rcall_weaken; [|apply rcall_dispatch; [exact HR3| |]].
  - intros s1 ->. done.
  - etrans; [apply entered_env|]. etrans; [exact HE2|done].
  - by rewrite (kr_curr _ _ HR3), (kr_curr _ _ HR).
Qed.
End refinement.

(** ** The timer tick *)

Section tick.
Context `{Platform}.

(** Updating the scalars of a task that stay out of the representation. *)
Lemma krep_upd_task s a t tk tk' :
  krep s a → k_tasks s !! t = Some tk → t_sleep_ticks tk' = t_sleep_ticks tk →
  krep (with_tasks (<[t := tk']> (k_tasks s)) s) a.
Proof.
  intros HR Ht Hsl. destruct HR as [Hh Hc [Hrg Hap] Hi Hn Hr Hal Hw Hs Hhd].
  assert (∀ u, is_Some (<[t := tk']> (k_tasks s) !! u) ↔ is_Some (k_tasks s !! u)) as Hdom.
  { intros u. rewrite lookup_insert. case_decide; subst; [|done]. rewrite Ht. naive_solver. }
  split; cbn; try done.
  - split; [intros u Hu|intros u v Hu Hv]; rewrite Hdom in *; eauto.
  - by rewrite Hdom.
  - intros u Hu. rewrite Hdom in Hu. eauto.
  - intros u Hu. rewrite Hdom. eauto.
  - intros u Hu. rewrite Hdom. eauto.
  - intros w l u Hl Hu. rewrite Hdom. eauto.
  - intros u n Hu. destruct (Hs u n Hu) as (tku & Htu & Hn').
    rewrite lookup_insert. case_decide; subst; [|eauto].
    eexists. split; [done|]. rewrite Ht in Htu. injection Htu as ->. done.
Qed.

(** One sleeper counts down. *)
Lemma krep_count_down s a K t n R tk :
  krep s a → a_sleep a = K ++ (t, n) :: R → NoDup (a_sleep a).*1 →
  k_tasks s !! t = Some tk →
  krep (with_tasks (<[t := with_sleep_ticks (n - 1) tk]> (k_tasks s)) s)
    (a_set_sleep (K ++ (t, n - 1) :: R) a).
Proof.
  intros HR Hsl Hnd Ht. destruct HR as [Hh Hc [Hrg Hap] Hi Hn Hr Hal Hw Hs Hhd].
  assert (∀ u, is_Some (<[t := with_sleep_ticks (n - 1) tk]> (k_tasks s) !! u) ↔
    is_Some (k_tasks s !! u)) as Hdom.
  { intros u. rewrite lookup_insert. case_decide; subst; [|done]. rewrite Ht. naive_solver. }
  split; cbn; try done.
  - rewrite alists_set_sleep. cbn. rewrite fmap_app. cbn.
    assert (run_node <$> K.*1 ++ t :: R.*1 = run_node <$> (a_sleep a).*1) as ->
      by (by rewrite Hsl, (fmap_app fst)).
    rewrite insert_id; [done|]. apply alists_sleep.
  - split; [intros u Hu|intros u v Hu Hv]; rewrite Hdom in *; eauto.
  - by rewrite Hdom.
  - intros u Hu. rewrite Hdom in Hu. eauto.
  - intros u Hu. rewrite Hdom. eauto.
  - intros u Hu. rewrite Hdom. eauto.
  - intros w l u Hl Hu. rewrite Hdom. eauto.
  - intros u k Hu. rewrite Hsl, fmap_app in Hnd. cbn in Hnd.
    apply NoDup_app in Hnd as (_ & Hd & [Ht2 _]%NoDup_cons).
    rewrite lookup_insert. apply elem_of_app in Hu as [Hu|[Hu|Hu]%elem_of_cons].
    + case_decide; subst.
      * destruct (Hd u); [|set_solver]. apply list_elem_of_fmap. by exists (u, k).
      * apply Hs. rewrite Hsl. set_solver.
    + injection Hu as -> ->. rewrite decide_True by done. by eexists.
    + case_decide; subst.
      * destruct Ht2. apply list_elem_of_fmap. by exists (u, k).
      * apply Hs. rewrite Hsl. set_solver.
Qed.

(** What the loop needs of the sequences, and keeps. *)
Definition loop_inv (a : asched) : Prop :=
  NoDup (a_ready a ++ (a_sleep a).*1) ∧ len (a_ready a ++ (a_sleep a).*1) < INT_MAX.

(** One sleeper of the loop, not due: it counts down and stays. *)
Lemma tick_sleeper_stay s a K t n R :
  krep s a → loop_inv a → a_sleep a = K ++ (t, n) :: R → 1 < n <= INT_MAX →
  ∃ s', tick_sleeper (run_node t) s = Done (Cont (default NULL (head (run_node <$> R.*1)))) s' ∧
    krep s' (a_set_sleep (K ++ (t, n - 1) :: R) a) ∧
    same_env s s' ∧ keeps_locks s s' ∧ k_cpu s' = k_cpu s.
Proof.
  intros HR [Hnd _] Hsl Hn.
  destruct (kr_sleep _ _ HR t n) as (tk & Htk & Hticks); [rewrite Hsl; set_solver|].
  assert (alists a !! sleep_list =
    Some ((run_node <$> K.*1) ++ run_node t :: (run_node <$> R.*1))) as Hal
    by (by rewrite alists_sleep, Hsl, !fmap_app).
  apply NoDup_app in Hnd as (_ & _ & Hnd).
  eexists. split_and!; [| by eapply krep_count_down | by eapply same_env_upd | done | done ].
  - unfold tick_sleeper.
    rewrite (proj2 (Z.eqb_neq _ NULL)) by (eapply (run_node_nonnull _ (kr_placed _ _ HR)); eauto).
    erewrite bind_done by (apply on_heap_read, (list_next_ok _ _ (kr_heap _ _ HR) _ _ _ _ Hal)).
    cbn zeta. rewrite (container_run _ (kr_placed _ _ HR)) by eauto.
    erewrite bind_done by (by apply get_task_done). cbn beta. rewrite Hticks.
    rewrite i32_small by (unfold INT_MIN; lia).
    unfold task_set_sleep_ticks. erewrite bind_done by (by apply upd_task_done). cbn beta.
    rewrite (proj2 (Z.eqb_neq (n - 1) 0)) by lia. by erewrite bind_done by done.
Qed.

(** One sleeper of the loop, due: it is woken at the tail of the ready list. *)
Lemma tick_sleeper_due s a K t R :
  krep s a → loop_inv a → a_sleep a = K ++ (t, 1) :: R →
  ∃ s', tick_sleeper (run_node t) s = Done (Cont (default NULL (head (run_node <$> R.*1)))) s' ∧
    krep s' (a_set_ready (a_ready a ++ [t]) (a_set_sleep (K ++ R) a)) ∧
    same_env s s' ∧ keeps_locks s s' ∧ k_cpu s' = k_cpu s.
Proof.
  intros HR [Hnd Hlen] Hsl.
  destruct (kr_sleep _ _ HR t 1) as (tk & Htk & Hticks); [rewrite Hsl; set_solver|].
  assert (alists a !! sleep_list =
    Some ((run_node <$> K.*1) ++ run_node t :: (run_node <$> R.*1))) as Hal
    by (by rewrite alists_sleep, Hsl, (fmap_app fst), fmap_app).
  apply NoDup_app in Hnd as (_ & Hd & Hnd).
  set (tk1 := with_sleep_ticks (1 - 1) tk).
  set (s1 := with_tasks (<[t := tk1]> (k_tasks s)) s).
  pose proof (krep_count_down s a K t 1 R tk HR Hsl Hnd Htk) as HR1. fold tk1 s1 in HR1.
  destruct (task_set_wakeup_ok s1 _ t K (1 - 1) R HR1 eq_refl) as (h & Hw & HR2 & HE2).
  rewrite Hsl, (fmap_app fst) in Hnd, Hd. cbn in Hnd, Hd.
  apply NoDup_app in Hnd as (_ & HKR & [HtR _]%NoDup_cons).
  destruct (task_set_ready_ok (with_heap h s1) _ t tk1 HR2)
    as (s' & Hr & HR3 & HE3 & Htk' & Hcpu & Hm & Hse); cbn.
  { apply lookup_insert_eq. }
  { intros Hin. apply (Hd t Hin). set_solver. }
  { rewrite (fmap_app fst). intros [Hin|Hin]%elem_of_app; [|done]. apply (HKR t); [done|set_solver]. }
  { rewrite length_app in Hlen. lia. }
  exists s'. split_and!.
  - unfold tick_sleeper.
    rewrite (proj2 (Z.eqb_neq _ NULL)) by (eapply (run_node_nonnull _ (kr_placed _ _ HR)); eauto).
    erewrite bind_done by (apply on_heap_read, (list_next_ok _ _ (kr_heap _ _ HR) _ _ _ _ Hal)).
    cbn zeta. rewrite (container_run _ (kr_placed _ _ HR)) by eauto.
    erewrite bind_done by (by apply get_task_done). cbn beta. rewrite Hticks.
    unfold task_set_sleep_ticks. erewrite bind_done by (by apply upd_task_done). cbn beta.
    rewrite i32_small by (unfold INT_MIN, INT_MAX; lia).
    rewrite (proj2 (Z.eqb_eq (1 - 1) 0)) by done.
    erewrite bind2_done by exact Hw. by erewrite bind_done by exact Hr.
  - exact HR3.
  - etrans; [|exact HE3]. etrans; [|exact HE2]. by eapply same_env_upd.
  - by split.
  - exact Hcpu.
Qed.

(** The sequences after the loop over the sleepers [R], those of [K] being
    already treated. *)
Definition count_down (R : list (Z * Z)) : list (Z * Z) :=
  (λ p, (p.1, p.2 - 1)) <$> filter (λ p, ¬ due p) R.

Lemma count_down_cons_due t R : count_down ((t, 1) :: R) = count_down R.
Proof. unfold count_down. by rewrite filter_cons_False by (intros Hn; by apply Hn). Qed.
Lemma count_down_cons_stay t n R :
  n ≠ 1 → count_down ((t, n) :: R) = (t, n - 1) :: count_down R.
Proof. intros Hn. unfold count_down. by rewrite filter_cons_True by done. Qed.

Lemma loop_inv_perm a b :
  a_ready a ++ (a_sleep a).*1 ≡ₚ a_ready b ++ (a_sleep b).*1 → loop_inv a → loop_inv b.
Proof. intros Hp [Hnd Hl]. unfold loop_inv. by rewrite <- Hp. Qed.

Lemma tick_loop_ok R s a K :
  krep s a → loop_inv a → a_sleep a = K ++ R → Forall (λ p, 0 < p.2 <= INT_MAX) R →
  ∃ s', msteps tick_sleeper (len R + 1) (default NULL (head (run_node <$> R.*1))) s tt s' ∧
    krep s' (a_set_sleep (K ++ count_down R)
      (a_set_ready (a_ready a ++ (filter due R).*1) a)) ∧
    same_env s s' ∧ keeps_locks s s' ∧ k_cpu s' = k_cpu s.
Proof.
  revert s a K. induction R as [|[t n] R IH]; intros s a K HR Hinv Hsl Hrange.
  - exists s. split_and!; try done.
    + by apply msteps_brk.
    + cbn. rewrite !app_nil_r in *. destruct a; cbn in *. by subst.
  - apply Forall_cons in Hrange as [Hn Hrange]. cbn [snd] in Hn.
    destruct (decide (n = 1)) as [->|Hn1].
    + destruct (tick_sleeper_due s a K t R HR Hinv Hsl)
        as (s1 & Hrun & HR1 & HE1 & HL1 & Hc1).
      destruct (IH s1 _ K HR1) as (s2 & Hst & HR2 & HE2 & HL2 & Hc2); [|done|done|].
      { eapply loop_inv_perm; [|exact Hinv]. cbn. rewrite Hsl, !(fmap_app fst). cbn. perm_solve. }
      exists s2. split_and!; try by etrans.
      * cbn [length]. replace (Z.of_nat (S (length R)) + 1) with (len R + 1 + 1) by lia.
        by eapply msteps_cont.
      * rewrite count_down_cons_due, filter_cons_True by done. cbn in *.
        by rewrite <- app_assoc in HR2.
    + destruct (tick_sleeper_stay s a K t n R HR Hinv Hsl ltac:(lia))
        as (s1 & Hrun & HR1 & HE1 & HL1 & Hc1).
      destruct (IH s1 _ (K ++ [(t, n - 1)]) HR1) as (s2 & Hst & HR2 & HE2 & HL2 & Hc2);
        [|by cbn; rewrite <- app_assoc|done|].
      { eapply loop_inv_perm; [|exact Hinv]. cbn. by rewrite Hsl, !(fmap_app fst). }
      exists s2. split_and!; try by etrans.
      * cbn [length]. replace (Z.of_nat (S (length R)) + 1) with (len R + 1 + 1) by lia.
        by eapply msteps_cont.
      * rewrite count_down_cons_stay, filter_cons_False by done. cbn in *.
        by rewrite <- app_assoc in HR2.
Qed.

(** The slice of the running task: whether it ends now, and what is left. *)
Definition expired (s : kstate) (a : asched) : bool :=
  match a_ready a with
  | c :: _ => match k_tasks s !! c with Some tk => t_slice_ticks tk =? 1 | None => false end
  | [] => false
  end.
Definition slice_step (tk : task_t) : task_t :=
  with_slice (if t_slice_ticks tk =? 1 then t_time_ticks tk else t_slice_ticks tk - 1) tk.
Definition slice_ticked (s : kstate) (a : asched) : kstate :=
  match a_ready a with
  | c :: _ => with_tasks (alter slice_step c (k_tasks s)) s
  | [] => s
  end.
Definition slice_positive (s : kstate) (a : asched) : Prop :=
  ∀ c r tk, a_ready a = c :: r → k_tasks s !! c = Some tk → 1 <= t_slice_ticks tk <= INT_MAX.

Lemma tick_slice_ok s a c r :
  krep s a → awf a → slice_positive s a → a_ready a = c :: r →
  ∃ s', tick_slice c s = Done tt s' ∧ krep s' (if expired s a then a_rotate a else a) ∧
    same_env (slice_ticked s a) s' ∧ keeps_locks s s' ∧ k_cpu s' = k_cpu s.
Proof.
  intros HR Ha Hsp Hr. destruct (krep_entry_facts s a c r HR Ha Hr) as (tk & Htk & _ & _ & _ & _).
  specialize (Hsp c r tk Hr Htk).
  unfold tick_slice, task_set_slice, expired, slice_ticked. rewrite Hr, Htk.
  erewrite bind_done by (by apply get_task_done). cbn beta zeta.
  erewrite bind_done by (by apply upd_task_done). cbn beta.
  rewrite i32_small by (unfold INT_MIN; lia).
  set (tk1 := with_slice (t_slice_ticks tk - 1) tk).
  set (s1 := with_tasks (<[c := tk1]> (k_tasks s)) s).
  assert (krep s1 a) as HR1 by (by eapply krep_upd_task).
  assert (k_tasks s1 !! c = Some tk1) as Htk1 by apply lookup_insert_eq.
  destruct (Z.eqb_spec (t_slice_ticks tk) 1) as [H1|H1].
  - rewrite (proj2 (Z.eqb_eq _ 0)) by lia.
    erewrite bind_done by (by apply upd_task_done). cbn beta.
    set (tk2 := with_slice (t_time_ticks tk) tk1).
    assert (with_tasks (<[c := tk2]> (k_tasks s1)) s1 = slice_ticked s a) as Hs2.
    { unfold slice_ticked. rewrite Hr, (alter_as_insert _ _ _ _ Htk). unfold slice_step.
      rewrite (proj2 (Z.eqb_eq _ 1)) by done. cbn. by rewrite insert_insert_eq. }
    pose proof (krep_upd_task s1 a c tk1 tk2 HR1 Htk1 eq_refl) as HR2.
    destruct (requeue_ok _ a c r HR2 Ha Hr) as (h & s' & Hb & Hs' & HR3 & HE3 & HL3 & Hcpu & _).
    exists s'. split_and!.
    + erewrite bind_done by exact Hb. exact Hs'.
    + unfold a_rotate. by rewrite Hr.
    + unfold slice_ticked in Hs2. rewrite Hr in Hs2. by rewrite <- Hs2.
    + exact HL3.
    + exact Hcpu.
  - rewrite (proj2 (Z.eqb_neq _ 0)) by lia.
    exists s1. split_and!; try done.
    assert (s1 = with_tasks (alter slice_step c (k_tasks s)) s) as <-; [|done].
    unfold s1. rewrite (alter_as_insert _ _ _ _ Htk). unfold slice_step.
    by rewrite (proj2 (Z.eqb_neq _ 1)) by done.
Qed.

Lemma idle_not_ready a c r : awf a → a_ready a = c :: r → c ≠ idle_task.
Proof.
  intros Ha Hr ->. apply (aw_idle _ Ha). rewrite <- (aw_place _ Ha), Hr. set_solver.
Qed.

Lemma a_wake_sleepers_eq a :
  a_wake_sleepers a = a_set_sleep (count_down (a_sleep a))
    (a_set_ready (a_ready a ++ (filter due (a_sleep a)).*1) a).
Proof. done. Qed.

(** The loop over the whole sleep list. *)
Lemma tick_sleepers_ok s a :
  krep s a → loop_inv a → Forall (λ p, 0 < p.2 <= INT_MAX) (a_sleep a) →
  ∃ n s', on_heap (list_first sleep_list) s = Done n s ∧
    mwhile tick_sleeper n s = Done tt s' ∧ krep s' (a_wake_sleepers a) ∧ same_env s s' ∧ keeps_locks s s' ∧ k_cpu s' = k_cpu s.
Proof.
  intros HR Hinv Hsl.
  destruct (tick_loop_ok (a_sleep a) s a [] HR Hinv eq_refl Hsl)
    as (s' & Hst & HR' & HE & HL & Hc).
  eexists _, s'. split; [|split; [|split_and!; done]].
  { apply on_heap_read, (list_first_ok _ _ (kr_heap _ _ HR) _ _ (alists_sleep a)). }
  eapply mwhile_steps; [exact Hst|]. destruct Hinv as [_ Hlen].
  rewrite length_app, length_fmap in Hlen. unfold INT_MAX in *. lia.
Qed.

Lemma awf_loop_inv a : awf a → loop_inv a.
Proof.
  intros Ha. pose proof (awf_places _ Ha) as Hnd. rewrite app_assoc in Hnd.
  apply NoDup_app in Hnd as (Hnd & _). split; [done|].
  pose proof (aw_bound _ Ha) as Hb. rewrite <- (Permutation_length (aw_place _ Ha)) in Hb.
  rewrite !length_app in *. lia.
Qed.

Lemma task_time_tick_ok s a :
  krep s a → awf a → slice_positive s a →
  rcall (slice_ticked s a) (task_time_tick s) (a_tick (expired s a) a) (keeps_locks s).
Proof.
  intros HR Ha Hsp. unfold task_time_tick.
  erewrite bind_done by done. rewrite (kr_curr _ _ HR), (aw_curr _ Ha).
  assert (∃ s1, (if negb (a_next a =? idle_task) then tick_slice (a_next a) else mret tt) s
      = Done tt s1 ∧ krep s1 (if expired s a then a_rotate a else a) ∧
      same_env (slice_ticked s a) s1 ∧ keeps_locks s s1 ∧ k_cpu s1 = k_cpu s)
    as (s1 & Hrun & HR1 & HE1 & HL1 & Hc1).
  { unfold a_next. destruct (a_ready a) as [|c r] eqn:Er; cbn.
    - rewrite (proj2 (Z.eqb_eq idle_task _)) by done. exists s.
      unfold expired, slice_ticked. by rewrite Er.
    - rewrite (proj2 (Z.eqb_neq c _)) by (by eapply idle_not_ready).
      by eapply tick_slice_ok. }
  erewrite bind_done by exact Hrun. cbn beta.
  set (b := if expired s a then a_rotate a else a) in *.
  assert (a_sleep b = a_sleep a) as Hsb
    by (unfold b, a_rotate; destruct (expired s a), (a_ready a); done).
  destruct (tick_sleepers_ok s1 b HR1) as (n & s2 & Hfirst & Hloop & HR2 & HE2 & HL2 & Hc2).
  { eapply loop_inv_perm, awf_loop_inv, Ha. rewrite Hsb. unfold b.
    destruct (expired s a); [|done]. unfold a_rotate. destruct (a_ready a) eqn:E; cbn; rewrite ?E; perm_solve. }
  { rewrite Hsb. apply Ha. }
  assert (k_curr s2 = k_curr s) as Hk2.
  { rewrite (kr_curr _ _ HR2), (kr_curr _ _ HR). cbn. unfold b, a_rotate.
    by destruct (expired s a), (a_ready a). }
  exists s2, (a_wake_sleepers b). split_and!; try done.
  - erewrite bind_done by exact Hfirst. erewrite bind_done by exact Hloop.
    rewrite (dispatch_ok _ _ HR2), Hc2, Hc1. unfold slice_ticked. by destruct (a_ready a).
  - by etrans.
  - rewrite Hk2. unfold slice_ticked. by destruct (a_ready a).
  - by etrans.
Qed.
End tick.

(** ** Blocking on a wait list and waking from it *)

Section waiting.
Context `{Platform}.

(** The tail of every blocking call: the running task leaves the ready list,
    joins the wait list, and the scheduler dispatches. *)
Lemma block_on_ok s s1 a w l :
  krep s1 a → awf a → a_ready a ≠ [] → a_wait a !! w = Some l → same_env s s1 →
  k_curr s1 = k_curr s →
  rcall s
    (((task_set_block (k_curr s1);;
       on_heap (list_insert_last w (wait_node (k_curr s1)));;
       task_dispatch);;
      irq_leave_protection (eflags (k_cpu s))) s1)
    (a_block_on w a) (keeps_locks s1).
Proof.
  intros HR Ha Hne Hw HE Hk. unfold a_block_on. rewrite Hw.
  destruct (a_ready a) as [|c r] eqn:Er; [done|].
  destruct (krep_entry_facts _ _ c r HR Ha Er) as (tk & Htk & _ & _ & Hcw & Hcc).
  rewrite Hcc.
  destruct (task_set_block_ok _ _ c [] r HR Er) as (h & Hb & HR2 & HE2).
  destruct (wait_insert_ok (with_heap h s1) _ w l c HR2 Hw) as (h2 & Hi & HR3 & HE3).
  { by exists tk. }
  { exact Hcw. }
  { by eapply awf_len_wait. }
  erewrite bind2_done by exact Hb. erewrite bind2_done by exact Hi.
  eapply rcall_weaken; [|apply rcall_dispatch; [exact HR3| |]].
  - intros s2 ->. by split.
  - etrans; [exact HE|]. etrans; [exact HE2|exact HE3].
  - by rewrite (kr_curr _ _ HR3), <- Hk, (kr_curr _ _ HR).
Qed.

(** Taking the first waiter off its list and making it ready. *)
Lemma wake_ok s a w t l :
  krep s a → awf a → a_wait a !! w = Some (t :: l) →
  ∃ h s', on_heap (list_pop_first w) s = Done (wait_node t) (with_heap h s) ∧
    CONTAINER_OF (wait_node t) OFF_wait_node = t ∧
    task_set_ready t (with_heap h s) = Done tt s' ∧
    krep s' (a_wake w a) ∧ same_env s s' ∧ keeps_locks s s' ∧ k_cpu s' = k_cpu s ∧
    k_curr s' = k_curr s.
Proof.
  intros HR Ha Hw.
  destruct (wait_pop_ok s a w t l HR Hw) as (h & Hp & HR2 & HE2).
  assert (t ∈ t :: l) as Ht by set_solver.
  destruct (kr_waiters _ _ HR _ _ _ Hw Ht) as [tk Htk].
  destruct (waiters_disjoint a w _ t Ha Hw Ht) as [Hnr Hns].
  destruct (task_set_ready_ok (with_heap h s) _ t tk HR2)
    as (s' & Hr & HR3 & HE3 & _ & Hcpu & Hm & Hse); [done..| |].
  { by apply (awf_len_ready _ Ha). }
  exists h, s'. split_and!; try done.
  - apply (container_wait _ (kr_placed _ _ HR)). by exists tk.
  - unfold a_wake. by rewrite Hw.
  - by etrans.
  - rewrite (kr_curr _ _ HR3), (kr_curr _ _ HR). done.
Qed.

(** Waking never takes the processor from the running task. *)
Lemma a_wake_curr w a : awf a → a_ready a ≠ [] → a_dispatch (a_wake w a) = a_wake w a.
Proof.
  intros Ha Hne. apply a_dispatch_wf. unfold a_wake.
  destruct (a_wait a !! w) as [[|t l]|]; [apply Ha| |apply Ha].
  rewrite a_next_app by done. apply (aw_curr _ Ha).
Qed.
End waiting.

(** ** Properties *)

Section sched_properties.
Context `{Platform}.

(** C16: sys_sched_yield implements the rotation of the ready list: the caller
    goes behind the other ready tasks and the first of them runs, or nothing
    happens when it is alone. The result is well formed, and mutexes,
    semaphores, memory and tables are untouched. *)
Theorem yield_refines s a :
  krep s a → awf a →
  rcall s (sys_sched_yield s) (a_yield a) (keeps_locks s) ∧ awf (a_yield a) ∧
  (∀ c d r, a_ready a = c :: d :: r →
    a_ready (a_yield a) = d :: r ++ [c] ∧ a_curr (a_yield a) = d).
Proof.
  intros HR Ha. split_and!; [by apply sys_sched_yield_ok|by apply awf_yield|].
  intros c d r Hr. unfold a_yield. by rewrite Hr.
Qed.

(** C17: sys_sleep moves the caller from the ready list to the end of the sleep
    list and runs the next ready task, or the idle task. The ticks asked for
    last at least [ms] milliseconds, and less than one tick more plus the
    tick under way; from 2^32 - 9 milliseconds on the sum overflows and one
    tick is asked for. *)
Theorem sleep_refines s a ms :
  krep s a → awf a → a_ready a ≠ [] → 0 <= ms < 2 ^ 32 →
  let n := sleep_ticks_of ms in
  rcall s (sys_sleep ms s) (a_sleep_for n a) (keeps_locks s) ∧ awf (a_sleep_for n a) ∧
  0 < n <= INT_MAX ∧
  (ms <= 2 ^ 32 - 11 → ms <= (n - 1) * OS_TICKS_MS < ms + OS_TICKS_MS) ∧
  (2 ^ 32 - 9 <= ms → n = 1).
Proof.
  intros HR Ha Hne Hms n. destruct (sleep_ticks_range ms Hms) as [H1 H2].
  split_and!; [by apply sys_sleep_ok|apply awf_sleep_for; [done|by split]|done|done| |];
    unfold n, sleep_ticks_of, OS_TICKS_MS; change (2 ^ 32) with 0x100000000 in *; intros Hb.
  - rewrite (u32_small (ms + 10)), (u32_small (ms + 10 - 1)) by lia.
    rewrite u32_small by (Z.to_euclidean_division_equations; lia).
    Z.to_euclidean_division_equations. lia.
  - replace (u32 (ms + 10)) with (ms + 10 - 0x100000000)
      by (unfold u32; Z.to_euclidean_division_equations; lia).
    rewrite (u32_small (_ - 1)) by lia. rewrite Z.div_small by lia. done.
Qed.

(** C15: task_time_tick implements the abstract tick, whatever the number of
    sleeping tasks: the running task goes to the tail when its slice ends,
    every sleeper counts down, those that reach zero become ready in the
    order of the sleep list, then the head of the ready list runs. The slice
    of the running task is decremented, or reset when it ends. *)
Theorem time_tick_refines s a :
  krep s a → awf a → slice_positive s a →
  rcall (slice_ticked s a) (task_time_tick s) (a_tick (expired s a) a) (keeps_locks s) ∧
  awf (a_tick (expired s a) a) ∧
  a_ready (a_tick (expired s a) a) =
    (if expired s a then tail (a_ready a) ++ take 1 (a_ready a) else a_ready a) ++
    (filter due (a_sleep a)).*1 ∧
  a_sleep (a_tick (expired s a) a) =
    (λ p, (p.1, p.2 - 1)) <$> filter (λ p, ¬ due p) (a_sleep a).
Proof.
  intros HR Ha Hs. split_and!; [by apply task_time_tick_ok|by apply awf_tick|..];
    unfold a_tick, a_rotate; destruct (expired s a); cbn; try done; destruct (a_ready a) eqn:E; cbn; by rewrite ?E.
Qed.
End sched_properties.
