(* ===== verification/Mutex.v ===== *)
(** * Reentrant mutex (kernel/ipc/mutex.c, ipc/mutex.h) *)

From S2P Require Import Prelude Mem DList Klib Machine Irq Sched SchedSpec SchedOps.

Definition mutex_wait_list (lock : Z) : Z := lock + 8.

Definition get_mutex (lock : Z) : M rein_mutex_t := λ s,
  match k_mutexes s !! lock with
  | Some mx => Done mx s
  | None => Stop HNull s
  end.
Definition put_mutex (lock : Z) (mx : rein_mutex_t) : M unit :=
  _ ← get_mutex lock; modify (λ s, with_mutexes (<[lock := mx]> (k_mutexes s)) s).
Definition set_owner (lock v : Z) : M unit :=
  mx ← get_mutex lock; put_mutex lock (Mutex v (locker mx)).
Definition set_locker (lock v : Z) : M unit :=
  mx ← get_mutex lock; put_mutex lock (Mutex (owner mx) v).

(** ASSERT(expr) (tools/klib.h, RELEASE not defined). [file] names the source;
    the string __FILE__ is the path it is compiled under (Panic). *)
Definition ASSERT (file : string) (line : Z) (func cond : string) (b : bool) : M unit :=
  if b then mret tt else stop (HPanic file line func cond).

Section mutex.
Context `{Platform}.

(** void rein_mutex_init(rein_mutex_t *lock) *)
Definition rein_mutex_init (lock : Z) : M unit :=
  set_locker lock 0;;
  set_owner lock NULL;;
  on_heap (list_init (mutex_wait_list lock)).

(** void rein_mutex_lock(rein_mutex_t *lock) *)
Definition rein_mutex_lock (lock : Z) : M unit :=
  state ← irq_enter_protection;
  curr_task ← task_current;
  mx ← get_mutex lock;
  (if locker mx =? 0 then
     set_locker lock (i32 (locker mx + 1));;
     set_owner lock curr_task
   else if owner mx =? curr_task then
     set_locker lock (i32 (locker mx + 1))
   else
     task_set_block curr_task;;
     on_heap (list_insert_last (mutex_wait_list lock) (wait_node curr_task));;
     task_dispatch);;
  irq_leave_protection state.

(** Handing the mutex to the first waiter, in rein_mutex_unlock. *)
Definition mutex_hand_over (lock : Z) : M unit :=
  n ← on_heap (list_count (mutex_wait_list lock));
  if n =? 0 then mret tt
  else
    node_new_owner ← on_heap (list_pop_first (mutex_wait_list lock));
    let new_owner := CONTAINER_OF node_new_owner OFF_wait_node in
    task_set_ready new_owner;;
    set_owner lock new_owner;;
    mx ← get_mutex lock;
    set_locker lock (i32 (locker mx + 1)).

(** void rein_mutex_unlock(rein_mutex_t *lock) *)
Definition rein_mutex_unlock (lock : Z) : M unit :=
  state ← irq_enter_protection;
  curr_task ← task_current;
  mx ← get_mutex lock;
  ASSERT "mutex.c" 37 "rein_mutex_unlock" "lock->locker != 0" (negb (locker mx =? 0));;
  ASSERT "mutex.c" 38 "rein_mutex_unlock" "lock->owner == curr_task" (owner mx =? curr_task);;
  (if owner mx =? curr_task then
     let l := i32 (locker mx - 1) in
     set_locker lock l;;
     if l =? 0 then
       set_owner lock NULL;;
       mutex_hand_over lock
     else mret tt
   else mret tt);;
  irq_leave_protection state.
End mutex.

(** ** Refinement *)

Section mutex_refinement.
Context `{Platform}.

(** The state after a change of the mutex [m] alone. *)
Definition mutex_set (m : Z) (mx : rein_mutex_t) (s : kstate) : kstate :=
  with_mutexes (<[m := mx]> (k_mutexes s)) s.

Lemma get_mutex_done s m mx : k_mutexes s !! m = Some mx → get_mutex m s = Done mx s.
Proof. intros Hm. unfold get_mutex. by rewrite Hm. Qed.
Lemma set_owner_done s m mx v :
  k_mutexes s !! m = Some mx →
  set_owner m v s = Done tt (mutex_set m (Mutex v (locker mx)) s).
Proof.
  intros Hm. unfold set_owner, put_mutex.
  do 2 (erewrite bind_done by (by apply get_mutex_done); cbn beta). done.
Qed.
Lemma set_locker_done s m mx v :
  k_mutexes s !! m = Some mx →
  set_locker m v s = Done tt (mutex_set m (Mutex (owner mx) v) s).
Proof.
  intros Hm. unfold set_locker, put_mutex.
  do 2 (erewrite bind_done by (by apply get_mutex_done); cbn beta). done.
Qed.
Lemma krep_mutexes s a m mx : krep s a → krep (mutex_set m mx s) a.
Proof. by intros []. Qed.

Lemma mutex_set_set m mx mx' s : mutex_set m mx' (mutex_set m mx s) = mutex_set m mx' s.
Proof. unfold mutex_set. cbn. by rewrite insert_insert_eq. Qed.
Lemma mutex_set_lookup m mx s : k_mutexes (mutex_set m mx s) !! m = Some mx.
Proof. apply lookup_insert_eq. Qed.

Lemma mutex_step s a m mx :
  krep s a → awf a →
  rcall s (irq_leave_protection (eflags (k_cpu s)) (mutex_set m mx (entered s))) a
    (λ s', k_mutexes s' = <[m := mx]> (k_mutexes s) ∧ k_sems s' = k_sems s).
Proof.
  intros HR Ha. eapply rcall_weaken; [|apply rcall_stay; [|apply Ha| |done]].
  - by intros s1 ->.
  - by apply krep_mutexes, krep_entered.
  - by split.
Qed.

(** What lock does to the mutex, when it does not block. *)
Definition mutex_lock_step (curr : Z) (mx : rein_mutex_t) : option rein_mutex_t :=
  if locker mx =? 0 then Some (Mutex curr (i32 (locker mx + 1)))
  else if owner mx =? curr then Some (Mutex (owner mx) (i32 (locker mx + 1)))
  else None.

Lemma rein_mutex_lock_ok s a m mx l :
  krep s a → awf a → a_ready a ≠ [] →
  k_mutexes s !! m = Some mx → a_wait a !! mutex_wait_list m = Some l →
  rcall s (rein_mutex_lock m s)
    (match mutex_lock_step (a_curr a) mx with
     | Some _ => a | None => a_block_on (mutex_wait_list m) a end)
    (λ s', k_sems s' = k_sems s ∧
      k_mutexes s' = match mutex_lock_step (a_curr a) mx with
                     | Some mx' => <[m := mx']> (k_mutexes s)
                     | None => k_mutexes s end).
Proof.
  intros HR Ha Hne Hm Hw. unfold rein_mutex_lock, mutex_lock_step. rewrite enter_done.
  erewrite bind_done by done. cbn beta.
  erewrite bind_done by (by apply (get_mutex_done (entered s) m mx)). cbn beta.
  change (k_curr (entered s)) with (k_curr s). rewrite (kr_curr _ _ HR).
  destruct (locker mx =? 0); [|destruct (Z.eqb_spec (owner mx) (a_curr a)) as [Ho|_]].
  - erewrite bind2_done by (by apply set_locker_done). cbn beta.
    erewrite bind_done by (eapply set_owner_done, mutex_set_lookup). cbn beta.
    rewrite mutex_set_set. cbn [locker].
    eapply rcall_weaken; [|by apply mutex_step]. cbn. tauto.
  - erewrite bind_done by (by apply set_locker_done). cbn beta.
    eapply rcall_weaken; [|by apply mutex_step]. cbn. tauto.
  - rewrite <- (kr_curr _ _ HR).
    eapply rcall_weaken; [|by eapply (block_on_ok s (entered s)); try apply krep_entered].
    intros s1 []. done.
Qed.

(** unlock by a task that does not hold the mutex fails its assertion. *)
Definition misuse (mx : rein_mutex_t) : Z * string :=
  if locker mx =? 0 then (37, "lock->locker != 0"%string) else (38, "lock->owner == curr_task"%string).
Lemma rein_mutex_unlock_panic s m mx :
  k_mutexes s !! m = Some mx → locker mx = 0 ∨ owner mx ≠ k_curr s →
  rein_mutex_unlock m s =
    Stop (HPanic "mutex.c" (misuse mx).1 "rein_mutex_unlock" (misuse mx).2) (entered s).
Proof.
  intros Hm Hbad. unfold rein_mutex_unlock, misuse. rewrite enter_done.
  erewrite bind_done by done. cbn beta.
  erewrite bind_done by (by apply (get_mutex_done (entered s) m mx)). cbn beta.
  change (k_curr (entered s)) with (k_curr s).
  destruct (Z.eqb_spec (locker mx) 0) as [|Hl]; cbn [negb ASSERT].
  - by erewrite bind_stop by done.
  - erewrite bind_done by done. cbn beta.
    rewrite (proj2 (Z.eqb_neq (owner mx) _)) by tauto. cbn [ASSERT].
    by erewrite bind_stop by done.
Qed.

(** What unlock does to a mutex held by the caller, given the waiters. *)
Definition mutex_unlock_step (mx : rein_mutex_t) (l : list Z) : rein_mutex_t :=
  if i32 (locker mx - 1) =? 0 then
    match l with
    | [] => Mutex NULL 0
    | t :: _ => Mutex t 1
    end
  else Mutex (owner mx) (i32 (locker mx - 1)).

Lemma hand_over_ok s a m l mx fl :
  krep s a → awf a → a_wait a !! mutex_wait_list m = Some l →
  k_mutexes s !! m = Some mx → locker mx = 0 → owner mx = NULL →
  ∃ s', (mutex_hand_over m;; irq_leave_protection fl) s = irq_leave_protection fl s' ∧
    krep s' (match l with [] => a | _ => a_wake (mutex_wait_list m) a end) ∧
    same_env s s' ∧ k_sems s' = k_sems s ∧
    k_mutexes s' = <[m := match l with [] => Mutex NULL 0 | t :: _ => Mutex t 1 end]> (k_mutexes s).
Proof.
  intros HR Ha Hw Hm Hl Ho. unfold mutex_hand_over.
  erewrite bind2_done by (by apply (wait_count_ok _ a _ l)). cbn beta.
  destruct l as [|t l].
  - cbn [length]. rewrite (proj2 (Z.eqb_eq _ 0)) by done. erewrite bind_done by done.
    exists s. split_and!; try done. rewrite insert_id; [done|].
    rewrite Hm. destruct mx; cbn in *; by subst.
  - cbn [length]. rewrite (proj2 (Z.eqb_neq _ 0)) by lia.
    destruct (wake_ok _ a _ t l HR Ha Hw) as
      (h & s1 & Hpop & Hco & Hr & HR2 & HE2 & [Hmm Hse] & _ & _).
    erewrite bind2_done by exact Hpop. cbn zeta. rewrite Hco.
    erewrite bind2_done by exact Hr. cbn beta. rewrite <- Hmm in Hm.
    erewrite bind2_done by (by apply set_owner_done). cbn beta.
    erewrite bind2_done by (eapply get_mutex_done, mutex_set_lookup). cbn beta.
    erewrite bind_done by (eapply set_locker_done, mutex_set_lookup). cbn beta.
    rewrite mutex_set_set. cbn [locker owner]. rewrite Hl.
    exists (mutex_set m (Mutex t 1) s1). split_and!; try done.
    + by apply krep_mutexes.
    + etrans; [exact HE2|]. by split.
    + cbn. by rewrite Hmm.
Qed.

Lemma rein_mutex_unlock_ok s a m mx l :
  krep s a → awf a → a_ready a ≠ [] →
  k_mutexes s !! m = Some mx → a_wait a !! mutex_wait_list m = Some l →
  locker mx ≠ 0 → owner mx = a_curr a →
  rcall s (rein_mutex_unlock m s)
    (if i32 (locker mx - 1) =? 0 then
       match l with [] => a | _ => a_wake (mutex_wait_list m) a end
     else a)
    (λ s', k_sems s' = k_sems s ∧
      k_mutexes s' = <[m := mutex_unlock_step mx l]> (k_mutexes s)).
Proof.
  intros HR Ha Hne Hm Hw Hl Ho. unfold rein_mutex_unlock, mutex_unlock_step. rewrite enter_done.
  erewrite bind_done by done. cbn beta.
  erewrite bind_done by (by apply (get_mutex_done (entered s) m mx)). cbn beta.
  change (k_curr (entered s)) with (k_curr s). rewrite (kr_curr _ _ HR), Ho.
  rewrite (proj2 (Z.eqb_neq (locker mx) 0)) by done. cbn [negb ASSERT].
  erewrite bind_done by done. cbn beta.
  rewrite Z.eqb_refl. cbn [ASSERT]. erewrite bind_done by done. cbn beta zeta.
  erewrite bind2_done by (by apply set_locker_done). cbn beta.
  destruct (Z.eqb_spec (i32 (locker mx - 1)) 0) as [Hz|Hz].
  - erewrite bind2_done by (eapply set_owner_done, mutex_set_lookup). cbn beta.
    rewrite mutex_set_set. cbn [locker]. rewrite Hz.
    destruct (hand_over_ok (mutex_set m (Mutex NULL 0) (entered s)) a m l (Mutex NULL 0)
      (eflags (k_cpu s))) as (s' & -> & HR2 & HE2 & Hse & Hmm); try done.
    { by apply krep_mutexes, krep_entered. }
    { apply mutex_set_lookup. }
    eapply rcall_weaken; [|apply rcall_stay; [exact HR2| | |]].
    + intros s1 ->. split; [done|]. rewrite Hmm. cbn. by rewrite insert_insert_eq.
    + destruct l; [apply Ha|]. by rewrite <- (a_wake_curr _ _ Ha Hne).
    + etrans; [|exact HE2]. by split.
    + rewrite (kr_curr _ _ HR2), (kr_curr _ _ HR). unfold a_wake. by destruct l; rewrite ?Hw.
  - erewrite bind_done by done. cbn beta.
    eapply rcall_weaken; [|by apply mutex_step]. cbn. rewrite Ho. tauto.
Qed.
End mutex_refinement.

(** ** The uncontended case

    A free mutex is taken and given back without any change to the scheduler,
    whoever the current task is; before the first task runs it is null. *)

Section uncontended.
Context `{Platform}.

Definition mutex_free (s : kstate) (m : Z) : Prop :=
  k_mutexes s !! m = Some (Mutex NULL 0) ∧
  list_count (mutex_wait_list m) (k_heap s) = Some (0, k_heap s).

Lemma leave_entered s s' :
  k_cpu s' = k_cpu (entered s) → irq_leave_protection (eflags (k_cpu s)) s' =
    Done tt (with_cpu (k_cpu s) s').
Proof.
  intros Hc. unfold irq_leave_protection, write_eflags, modify, with_eflags.
  rewrite Hc. by destruct (k_cpu s) eqn:E; cbn; rewrite E.
Qed.
Lemma with_cpu_same s : with_cpu (k_cpu s) s = s.
Proof. by destruct s. Qed.

Lemma lock_free s m :
  k_mutexes s !! m = Some (Mutex NULL 0) →
  rein_mutex_lock m s = Done tt (mutex_set m (Mutex (k_curr s) 1) s).
Proof.
  intros Hm. unfold rein_mutex_lock. rewrite enter_done.
  erewrite bind_done by done. cbn beta.
  erewrite bind_done by (by apply (get_mutex_done (entered s) m (Mutex NULL 0))). cbn [locker].
  rewrite Z.eqb_refl.
  erewrite bind2_done by (by apply set_locker_done). cbn beta.
  erewrite bind_done by (eapply set_owner_done, mutex_set_lookup). cbn beta.
  rewrite mutex_set_set, leave_entered by done. by destruct s.
Qed.

Lemma unlock_free s m :
  k_mutexes s !! m = Some (Mutex (k_curr s) 1) →
  list_count (mutex_wait_list m) (k_heap s) = Some (0, k_heap s) →
  rein_mutex_unlock m s = Done tt (mutex_set m (Mutex NULL 0) s).
Proof.
  intros Hm Hw. unfold rein_mutex_unlock. rewrite enter_done.
  erewrite bind_done by done. cbn beta.
  erewrite bind_done by (by apply (get_mutex_done (entered s) m _)). cbn [locker owner].
  change (k_curr (entered s)) with (k_curr s). cbn [Z.eqb negb ASSERT].
  erewrite bind_done by done. cbn beta. rewrite Z.eqb_refl. cbn [ASSERT].
  erewrite bind_done by done. cbn beta zeta.
  erewrite bind2_done by (by apply set_locker_done). cbn beta.
  change (i32 (1 - 1)) with 0. rewrite Z.eqb_refl.
  erewrite bind2_done by (eapply set_owner_done, mutex_set_lookup). cbn beta.
  rewrite mutex_set_set. cbn [locker]. unfold mutex_hand_over.
  erewrite bind2_done by (by apply on_heap_read). cbn beta. rewrite Z.eqb_refl.
  erewrite bind_done by done. rewrite leave_entered by done. by destruct s.
Qed.

Lemma mutex_set_free s m :
  k_mutexes s !! m = Some (Mutex NULL 0) → mutex_set m (Mutex NULL 0) s = s.
Proof. intros Hm. unfold mutex_set. rewrite insert_id by done. by destruct s. Qed.
End uncontended.

(** ** Properties *)

Section mutex_properties.
Context `{Platform}.
Context (s : kstate) (a : asched) (m : Z) (mx : rein_mutex_t) (l : list Z).

(** What the kernel state must satisfy when a task uses the mutex [m]. *)
Definition mutex_in_use : Prop :=
  krep s a ∧ awf a ∧ a_ready a ≠ [] ∧
  k_mutexes s !! m = Some mx ∧ a_wait a !! mutex_wait_list m = Some l.

(** The call implements the abstract step to [a'], which is well formed; the
    mutex becomes [mx'] and nothing else changes outside the scheduler. *)
Definition mutex_call (r : res unit) (a' : asched) (mx' : rein_mutex_t) : Prop :=
  rcall s r a' (λ s', k_sems s' = k_sems s ∧ k_mutexes s' = <[m := mx']> (k_mutexes s)) ∧ awf a'.

(** C18: rein_mutex_lock: a free mutex is taken; the owner takes it once more; any
    other task goes to the tail of the wait list, leaving the mutex as it
    is, and the next task runs. *)
Theorem mutex_lock_refines :
  mutex_in_use →
  (locker mx = 0 → mutex_call (rein_mutex_lock m s) a (Mutex (a_curr a) 1)) ∧
  (locker mx ≠ 0 → owner mx = a_curr a →
    mutex_call (rein_mutex_lock m s) a (Mutex (owner mx) (i32 (locker mx + 1)))) ∧
  (locker mx ≠ 0 → owner mx ≠ a_curr a →
    mutex_call (rein_mutex_lock m s) (a_block_on (mutex_wait_list m) a) mx).
Proof.
  intros (HR & Ha & Hne & Hm & Hw). pose proof (rein_mutex_lock_ok s a m mx l HR Ha Hne Hm Hw) as Hr.
  unfold mutex_lock_step in Hr. split_and!.
  - intros H0. rewrite H0 in Hr. by split.
  - intros H0 Ho. rewrite (proj2 (Z.eqb_neq _ _) H0), (proj2 (Z.eqb_eq _ _) Ho) in Hr. by split.
  - intros H0 Ho. rewrite (proj2 (Z.eqb_neq _ _) H0), (proj2 (Z.eqb_neq _ _) Ho) in Hr.
    split; [|by apply awf_block_on]. by rewrite (insert_id _ _ _ Hm).
Qed.

(** C19: rein_mutex_unlock by the owner: an outer lock keeps the mutex; the last
    one frees it, or hands it to the first waiter, which becomes ready and
    owns it locked once. The caller goes on running. *)
Theorem mutex_unlock_refines :
  mutex_in_use → locker mx ≠ 0 → owner mx = a_curr a → 0 < locker mx <= INT_MAX →
  (locker mx ≠ 1 → mutex_call (rein_mutex_unlock m s) a (Mutex (owner mx) (locker mx - 1))) ∧
  (locker mx = 1 → l = [] → mutex_call (rein_mutex_unlock m s) a (Mutex NULL 0)) ∧
  (∀ t l', locker mx = 1 → l = t :: l' →
    mutex_call (rein_mutex_unlock m s) (a_wake (mutex_wait_list m) a) (Mutex t 1) ∧
    a_ready (a_wake (mutex_wait_list m) a) = a_ready a ++ [t] ∧
    a_curr (a_wake (mutex_wait_list m) a) = a_curr a).
Proof.
  intros (HR & Ha & Hne & Hm & Hw) H0 Ho Hb.
  pose proof (rein_mutex_unlock_ok s a m mx l HR Ha Hne Hm Hw H0 Ho) as Hr.
  unfold mutex_unlock_step in Hr. rewrite i32_small in Hr by (unfold INT_MIN, INT_MAX in *; lia).
  split_and!.
  - intros H1. rewrite (proj2 (Z.eqb_neq _ 0)) in Hr by lia. by split.
  - intros H1 ->. rewrite (proj2 (Z.eqb_eq _ 0)) in Hr by lia. by split.
  - intros t l' H1 ->. rewrite (proj2 (Z.eqb_eq _ 0)) in Hr by lia.
    split; [|by unfold a_wake; rewrite Hw]. split; [done|].
    rewrite <- (a_wake_curr _ _ Ha Hne). by apply awf_wake.
Qed.
End mutex_properties.

Section mutex_misuse.
Context `{Platform}.

(** rein_mutex_unlock on a mutex that is free, or held by another task, fails
    one of its two assertions with interrupts masked, and changes nothing. *)
Theorem mutex_unlock_misuse s m mx :
  k_mutexes s !! m = Some mx → locker mx = 0 ∨ owner mx ≠ k_curr s →
  ∃ line cond, rein_mutex_unlock m s =
    Stop (HPanic "mutex.c" line "rein_mutex_unlock" cond)
      (with_eflags (Z.ldiff (eflags (k_cpu s)) ELFAGS_IF) s).
Proof. intros Hm Hbad. eexists _, _. by apply rein_mutex_unlock_panic. Qed.
End mutex_misuse.
