(* ===== verification/Sem.v ===== *)
(** * Counting semaphore (kernel/ipc/sem.c, ipc/sem.h) *)

From S2P Require Import Prelude Mem DList Klib Machine Irq Sched SchedSpec SchedOps.

Definition sem_wait_list (sem : Z) : Z := sem + 4.

Definition get_sem (sem : Z) : M sem_t := λ s,
  match k_sems s !! sem with
  | Some sm => Done sm s
  | None => Stop HNull s
  end.
Definition set_sem_count (sem v : Z) : M unit :=
  _ ← get_sem sem; modify (λ s, with_sems (<[sem := Sem v]> (k_sems s)) s).

Section sem.
Context `{Platform}.

(** void sem_init(sem_t *sem, int init_count) *)
Definition sem_init (sem init_count : Z) : M unit :=
  set_sem_count sem init_count;;
  on_heap (list_init (sem_wait_list sem)).

(** void sem_wait(sem_t *sem) *)
Definition sem_wait (sem : Z) : M unit :=
  state ← irq_enter_protection;
  sm ← get_sem sem;
  (if 0 <? s_count sm then
     set_sem_count sem (i32 (s_count sm - 1))
   else
     curr ← task_current;
     task_set_block curr;;
     on_heap (list_insert_last (sem_wait_list sem) (wait_node curr));;
     task_dispatch);;
  irq_leave_protection state.

(** void sem_notify(sem_t *sem) *)
Definition sem_notify (sem : Z) : M unit :=
  state ← irq_enter_protection;
  n ← on_heap (list_count (sem_wait_list sem));
  (if negb (n =? 0) then
     node ← on_heap (list_pop_first (sem_wait_list sem));
     let task := CONTAINER_OF node OFF_wait_node in
     task_set_ready task;;
     task_dispatch
   else
     sm ← get_sem sem;
     set_sem_count sem (i32 (s_count sm + 1)));;
  irq_leave_protection state.

(** int sem_count(sem_t *sem) *)
Definition sem_count (sem : Z) : M Z :=
  state ← irq_enter_protection;
  sm ← get_sem sem;
  let cnt := s_count sm in
  irq_leave_protection state;;
  mret cnt.
End sem.

(** ** Refinement *)

Section sem_refinement.
Context `{Platform}.

Lemma get_sem_done s p sm : k_sems s !! p = Some sm → get_sem p s = Done sm s.
Proof. intros Hp. unfold get_sem. by rewrite Hp. Qed.
Lemma set_sem_count_done s p sm v :
  k_sems s !! p = Some sm →
  set_sem_count p v s = Done tt (with_sems (<[p := Sem v]> (k_sems s)) s).
Proof.
  intros Hp. unfold set_sem_count. by erewrite bind_done by (by apply get_sem_done).
Qed.
Lemma krep_sems s a m : krep s a → krep (with_sems m s) a.
Proof. by intros []. Qed.

(** Changing the counter only. *)
Lemma sem_count_step s a p sm v :
  krep s a → awf a → k_sems s !! p = Some sm →
  rcall s ((set_sem_count p v;; irq_leave_protection (eflags (k_cpu s))) (entered s)) a
    (λ s', k_sems s' = <[p := Sem v]> (k_sems s) ∧ k_mutexes s' = k_mutexes s).
Proof.
  intros HR Ha Hp.
  erewrite bind_done by (by apply (set_sem_count_done (entered s) p sm)).
  eapply rcall_weaken; [|apply rcall_stay; [|apply Ha| |done]].
  - intros s1 ->. done.
  - by apply krep_sems, krep_entered.
  - by split.
Qed.

Lemma sem_wait_ok s a p sm l :
  krep s a → awf a → a_ready a ≠ [] →
  k_sems s !! p = Some sm → a_wait a !! sem_wait_list p = Some l →
  rcall s (sem_wait p s)
    (if 0 <? s_count sm then a else a_block_on (sem_wait_list p) a)
    (λ s', k_mutexes s' = k_mutexes s ∧
      k_sems s' = if 0 <? s_count sm then <[p := Sem (i32 (s_count sm - 1))]> (k_sems s)
                  else k_sems s).
Proof.
  intros HR Ha Hne Hp Hw. unfold sem_wait. rewrite enter_done.
  erewrite bind_done by (by apply (get_sem_done (entered s) p sm)). cbn beta.
  destruct (0 <? s_count sm).
  - eapply rcall_weaken; [|by eapply sem_count_step]. cbn. tauto.
  - erewrite bind2_done by done.
    eapply rcall_weaken; [|by eapply (block_on_ok s (entered s)); try apply krep_entered].
    intros s1 []. done.
Qed.

Lemma sem_notify_ok s a p sm l :
  krep s a → awf a → a_ready a ≠ [] →
  k_sems s !! p = Some sm → a_wait a !! sem_wait_list p = Some l →
  rcall s (sem_notify p s)
    (match l with [] => a | _ => a_wake (sem_wait_list p) a end)
    (λ s', k_mutexes s' = k_mutexes s ∧
      k_sems s' = match l with
                  | [] => <[p := Sem (i32 (s_count sm + 1))]> (k_sems s)
                  | _ => k_sems s
                  end).
Proof.
  intros HR Ha Hne Hp Hw. unfold sem_notify. rewrite enter_done.
  pose proof (krep_entered _ _ HR) as HR1.
  erewrite bind_done by (by apply (wait_count_ok _ a _ l)). cbn beta.
  destruct l as [|t l].
  - cbn [length]. rewrite (proj2 (Z.eqb_eq _ 0)) by done. cbn [negb].
    erewrite bind2_done by (by apply (get_sem_done (entered s) p sm)).
    eapply rcall_weaken; [|by eapply sem_count_step]. cbn. tauto.
  - cbn [length]. rewrite (proj2 (Z.eqb_neq _ 0)) by lia. cbn [negb].
    destruct (wake_ok _ a _ t l HR1 Ha Hw) as
      (h & s' & Hpop & Hco & Hr & HR2 & HE2 & [Hm Hse] & _ & _).
    erewrite bind2_done by exact Hpop. cbn zeta. rewrite Hco.
    erewrite bind2_done by exact Hr.
    rewrite <- (a_wake_curr _ _ Ha Hne).
    eapply rcall_weaken; [|apply rcall_dispatch; [exact HR2| |]].
    + intros s1 ->. done.
    + etrans; [apply entered_env|exact HE2].
    + rewrite (kr_curr _ _ HR2), (kr_curr _ _ HR). unfold a_wake. by rewrite Hw.
Qed.
End sem_refinement.

(** ** Properties *)

Section sem_properties.
Context `{Platform}.
Context (s : kstate) (a : asched) (p : Z) (sm : sem_t) (l : list Z).

(** What the kernel state must satisfy when a task uses the semaphore [p]. *)
Definition sem_in_use : Prop :=
  krep s a ∧ awf a ∧ a_ready a ≠ [] ∧
  k_sems s !! p = Some sm ∧ a_wait a !! sem_wait_list p = Some l.
Definition sem_call (r : res unit) (a' : asched) (n : Z) : Prop :=
  rcall s r a' (λ s', k_mutexes s' = k_mutexes s ∧ k_sems s' = <[p := Sem n]> (k_sems s)) ∧ awf a'.

(** C22: sem_wait takes a unit if there is one; otherwise the caller joins the
    tail of the wait list and the count stays. *)
Theorem sem_wait_refines :
  sem_in_use → INT_MIN < s_count sm <= INT_MAX →
  (0 < s_count sm → sem_call (sem_wait p s) a (s_count sm - 1)) ∧
  (s_count sm <= 0 → sem_call (sem_wait p s) (a_block_on (sem_wait_list p) a) (s_count sm)).
Proof.
  intros (HR & Ha & Hne & Hp & Hw) Hb. pose proof (sem_wait_ok s a p sm l HR Ha Hne Hp Hw) as Hr.
  unfold sem_call. split; intros Hc.
  - rewrite (proj2 (Z.ltb_lt _ _) Hc), i32_small in Hr by (unfold INT_MIN, INT_MAX in *; lia). done.
  - rewrite (proj2 (Z.ltb_ge _ _) Hc) in Hr. split; [|by apply awf_block_on].
    rewrite insert_id; [done|]. rewrite Hp. by destruct sm.
Qed.

(** C23: sem_notify makes the first waiter ready, without counting, or counts one
    unit when nobody waits; the caller goes on running. *)
Theorem sem_notify_refines :
  sem_in_use → INT_MIN <= s_count sm < INT_MAX →
  (l = [] → sem_call (sem_notify p s) a (s_count sm + 1)) ∧
  (∀ t l', l = t :: l' →
    sem_call (sem_notify p s) (a_wake (sem_wait_list p) a) (s_count sm) ∧
    a_ready (a_wake (sem_wait_list p) a) = a_ready a ++ [t] ∧
    a_curr (a_wake (sem_wait_list p) a) = a_curr a).
Proof.
  intros (HR & Ha & Hne & Hp & Hw) Hb. pose proof (sem_notify_ok s a p sm l HR Ha Hne Hp Hw) as Hr.
  unfold sem_call. split.
  - intros ->. rewrite i32_small in Hr by (unfold INT_MIN, INT_MAX in *; lia). done.
  - intros t l' ->. split; [|by unfold a_wake; rewrite Hw].
    split; [|rewrite <- (a_wake_curr _ _ Ha Hne); by apply awf_wake].
    rewrite insert_id; [done|]. rewrite Hp. by destruct sm.
Qed.
End sem_properties.
