(* ===== verification/Cpu.v ===== *)
(** * Segment descriptors and the GDT (kernel/cpu/cpu.c, cpu/cpu.h) *)

From S2P Require Import Prelude Mem DList Klib Machine Irq Sched SchedSpec SchedOps Mutex.

(** ** Constants (cpu/cpu.h, os_cfg.h) *)

Definition GDT_TABLE_SIZE : Z := 256.
Definition sizeof_segment_desc : Z := 8.
Definition SEG_G_GRANULARITY_4K : Z := Z.shiftl 1 15.
Definition SEG_DB_DOUBLE_BYTE : Z := Z.shiftl 1 14.
Definition SEG_P_PRESENT : Z := Z.shiftl 1 7.
Definition SEG_DPL_0 : Z := Z.shiftl 0 5.
Definition SEG_DPL_3 : Z := Z.shiftl 3 5.
Definition SEG_S_SYSTEM : Z := Z.shiftl 0 4.
Definition SEG_S_NORMAL : Z := Z.shiftl 1 4.
Definition SEG_TYPE_CODE : Z := Z.shiftl 1 3.
Definition SEG_TYPE_DATA : Z := Z.shiftl 0 3.
Definition SEG_TYPE_TSS : Z := Z.shiftl 9 0.
Definition SEG_TYPE_RW : Z := Z.shiftl 1 1.

(** ** Operations *)

(** The descriptor segment_desc_set writes: a limit of more than 20 bits is
    counted in pages. *)
Definition seg_desc (base limit att : Z) : segment_desc_t :=
  let '(att, limit) :=
    if 0xFFFFF <? limit then (u16 (Z.lor att SEG_G_GRANULARITY_4K), limit / 0x1000)
    else (att, limit) in
  SegDesc
    (Z.land limit 0xFFFF)
    (Z.land base 0xFFFF)
    (Z.land (Z.shiftr base 16) 0xFF)
    (u16 (Z.lor att (Z.shiftl (Z.land (Z.shiftr limit 16) 0xF) 8)))
    (Z.land (Z.shiftr base 24) 0xFF).

(** gdt_table + i, for reading and writing. *)
Definition gdt_get (i : Z) : M segment_desc_t := λ s,
  if (0 <=? i) && (i <? GDT_TABLE_SIZE) then
    match k_gdt s !! Z.to_nat i with
    | Some d => Done d s
    | None => Stop HRange s
    end
  else Stop HRange s.
Definition gdt_put (i : Z) (d : segment_desc_t) : M unit :=
  _ ← gdt_get i; modify (λ s, with_gdt (<[Z.to_nat i := d]> (k_gdt s)) s).

(** void segment_desc_set(int selector, uint32_t base, uint32_t limit, uint16_t attr) *)
Definition segment_desc_set (sel base limit att : Z) : M unit :=
  gdt_put (u32 sel / sizeof_segment_desc) (seg_desc base limit att).

Section cpu.
Context `{Platform}.

(** static rein_mutex_t mutex *)
Definition cpu_mutex : Z := symbol "cpu.mutex".
Definition gdt_table : Z := symbol "gdt_table".

(** void gdt_init(void) *)
Definition gdt_init : M unit :=
  mfor 0 GDT_TABLE_SIZE (λ i, segment_desc_set (i * sizeof_segment_desc) 0 0 0);;
  segment_desc_set KERNEL_SELECTOR_CODE 0 0xFFFFFFFF
    (Z.lor (Z.lor (Z.lor (Z.lor SEG_P_PRESENT SEG_DPL_0) SEG_S_NORMAL) SEG_TYPE_CODE)
      SEG_DB_DOUBLE_BYTE);;
  segment_desc_set KERNEL_SELECTOR_DATA 0 0xFFFFFFFF
    (Z.lor (Z.lor (Z.lor (Z.lor (Z.lor SEG_P_PRESENT SEG_DPL_0) SEG_S_NORMAL) SEG_TYPE_DATA)
      SEG_TYPE_RW) SEG_DB_DOUBLE_BYTE);;
  lgdt gdt_table (GDT_TABLE_SIZE * sizeof_segment_desc).

(** gdt_table[i].attr = v *)
Definition gdt_set_attr (i v : Z) : M unit :=
  desc ← gdt_get i;
  gdt_put i (SegDesc (limit15_0 desc) (base15_0 desc) (base23_16 desc) v (base31_24 desc)).

(** One turn of the search of get_alloc_desc. *)
Definition alloc_try (i : Z) : M (flow Z Z) :=
  if i <? GDT_TABLE_SIZE then
    desc ← gdt_get i;
    if attr desc =? 0 then
      gdt_set_attr i SEG_P_PRESENT;;
      rein_mutex_unlock cpu_mutex;;
      mret (Brk (i * sizeof_segment_desc))
    else mret (Cont (i32 (i + 1)))
  else
    rein_mutex_unlock cpu_mutex;;
    mret (Brk (-1)).

(** int get_alloc_desc(void) *)
Definition get_alloc_desc : M Z :=
  rein_mutex_lock cpu_mutex;;
  mwhile alloc_try 1.

(** void cpu_init(void) *)
Definition cpu_init : M unit :=
  rein_mutex_init cpu_mutex;;
  gdt_init;;
  irq_init.
End cpu.

(** ** What the processor reads back *)

Definition seg_base (d : segment_desc_t) : Z :=
  Z.lor (Z.lor (base15_0 d) (Z.shiftl (base23_16 d) 16)) (Z.shiftl (base31_24 d) 24).
(** The 20-bit limit and the granularity bit, and the last valid offset. *)
Definition seg_limit20 (d : segment_desc_t) : Z :=
  Z.lor (limit15_0 d) (Z.shiftl (Z.land (Z.shiftr (attr d) 8) 0xF) 16).
Definition seg_granular (d : segment_desc_t) : bool := Z.testbit (attr d) 15.
Definition seg_limit (d : segment_desc_t) : Z :=
  if seg_granular d then seg_limit20 d * 0x1000 + 0xFFF else seg_limit20 d.
Definition seg_present (d : segment_desc_t) : bool := Z.testbit (attr d) 7.
Definition seg_system (d : segment_desc_t) : bool := negb (Z.testbit (attr d) 4).
Definition seg_type (d : segment_desc_t) : Z := Z.land (attr d) 0xF.

(** Bits of an attribute word that segment_desc_set leaves to the caller. *)
Definition attr_mask : Z := 0x70FF.

Example kernel_code_desc :
  seg_desc 0 0xFFFFFFFF (Z.lor (Z.lor (Z.lor (Z.lor SEG_P_PRESENT SEG_DPL_0) SEG_S_NORMAL)
    SEG_TYPE_CODE) SEG_DB_DOUBLE_BYTE) = SegDesc 0xFFFF 0 0 0xCF98 0.
Proof. reflexivity. Qed.

Lemma granularity_bit i : i ≠ 15 → Z.testbit SEG_G_GRANULARITY_4K i = false.
Proof. intros Hi. change SEG_G_GRANULARITY_4K with (2 ^ 15). by apply Z.pow2_bits_false. Qed.
Lemma attr_mask_bit i : 8 <= i < 12 ∨ 15 <= i → Z.testbit attr_mask i = false.
Proof.
  intros Hi. unfold attr_mask. destruct (Z.lt_ge_cases i 16).
  - assert (i = 8 ∨ i = 9 ∨ i = 10 ∨ i = 11 ∨ i = 15) as Hc by lia. by destruct_or! Hc; subst.
  - apply (testbit_small _ 16); lia.
Qed.

(** Disjoint bits: [lor] is addition. *)
Lemma lor_shiftl_add x y n :
  0 <= n → 0 <= x < 2 ^ n → Z.lor x (Z.shiftl y n) = x + y * 2 ^ n.
Proof.
  intros Hn Hx. rewrite <- Z.shiftl_mul_pow2 by done.
  assert (Z.land x (Z.shiftl y n) = 0) as H0.
  { bitwise; rewrite ?Z.bits_0; try done. by rewrite (testbit_small x n) by lia. }
  pose proof (Z.add_lor_land x (Z.shiftl y n)). lia.
Qed.

Section seg_desc_facts.
Context (base limit att : Z).
Context (Hbase : 0 <= base < 2 ^ 32) (Hlimit : 0 <= limit < 2 ^ 32).

Lemma seg_desc_eq :
  seg_desc base limit att =
    let big := 0xFFFFF <? limit in
    let lim := if big then limit / 0x1000 else limit in
    SegDesc (Z.land lim 0xFFFF) (Z.land base 0xFFFF) (Z.land (Z.shiftr base 16) 0xFF)
      (u16 (Z.lor (Z.lor att (if big then SEG_G_GRANULARITY_4K else 0))
        (Z.shiftl (Z.land (Z.shiftr lim 16) 0xF) 8)))
      (Z.land (Z.shiftr base 24) 0xFF).
Proof using Hbase Hlimit.
  unfold seg_desc. cbn zeta. destruct (0xFFFFF <? limit).
  - f_equal. bitwise; done.
  - by rewrite Z.lor_0_r.
Qed.

Lemma seg_base_ok : seg_base (seg_desc base limit att) = base.
Proof using Hbase Hlimit.
  rewrite seg_desc_eq. unfold seg_base. cbn. bitwise; try (f_equal; lia).
  by rewrite (testbit_small base 32) by lia.
Qed.

Context (Hfree : Z.land att attr_mask = att).

(** The attribute bits the limit is stored in are clear. *)
Lemma attr_free i : 8 <= i < 12 ∨ 15 <= i → Z.testbit att i = false.
Proof using Hfree.
  intros Hi. by rewrite <- Hfree, Z.land_spec, attr_mask_bit, andb_false_r.
Qed.

Lemma seg_granular_ok : seg_granular (seg_desc base limit att) = (0xFFFFF <? limit).
Proof using Hbase Hlimit Hfree.
  rewrite seg_desc_eq. unfold seg_granular. cbn zeta. cbn [attr]. mask_norm.
  rewrite Z.land_spec, !Z.lor_spec, (attr_free 15) by lia.
  rewrite (Z.shiftl_spec _ 8) by lia. rewrite Z.land_spec.
  destruct (0xFFFFF <? limit); [done|]. cbn. by rewrite andb_false_r.
Qed.

Lemma seg_limit20_ok :
  seg_limit20 (seg_desc base limit att) = if 0xFFFFF <? limit then limit / 0x1000 else limit.
Proof using Hbase Hlimit Hfree.
  rewrite seg_desc_eq. unfold seg_limit20. cbn zeta. cbn [limit15_0 attr].
  set (lim := if 0xFFFFF <? limit then limit / 0x1000 else limit).
  assert (0 <= lim < 2 ^ 20) as Hl.
  { change (2 ^ 20) with 0x100000. change (2 ^ 32) with 0x100000000 in Hlimit. unfold lim.
    destruct (Z.ltb_spec 0xFFFFF limit); Z.to_euclidean_division_equations; lia. }
  clearbody lim. bitwise.
  all: rewrite ?attr_free, ?granularity_bit, ?Z.bits_0 by lia.
  all: rewrite ?(testbit_small lim 20) by lia.
  all: cbn [orb]; try done; f_equal; lia.
Qed.

(** The last valid offset: the requested limit, rounded up to a page end
    when it needs more than 20 bits. *)
Lemma seg_limit_ok :
  seg_limit (seg_desc base limit att) = if 0xFFFFF <? limit then Z.lor limit 0xFFF else limit.
Proof using Hbase Hlimit Hfree.
  unfold seg_limit. rewrite seg_granular_ok, seg_limit20_ok.
  destruct (0xFFFFF <? limit); [|done].
  change 0x1000 with (2 ^ 12). rewrite Z.add_comm, <- lor_shiftl_add by done.
  rewrite <- Z.shiftr_div_pow2 by done.
  change 0xFFF with (Z.ones 12). bitwise; rewrite ?orb_true_r; try done. f_equal. lia.
Qed.

(** The attribute bits come back, and say what the masks of cpu.h mean. *)
Lemma seg_attr_ok : Z.land (attr (seg_desc base limit att)) attr_mask = att.
Proof using Hbase Hlimit Hfree.
  rewrite seg_desc_eq. cbn zeta. cbn [attr]. rewrite <- Hfree at 2. bitwise.
  all: destruct (decide (8 <= i < 12 ∨ 15 <= i));
    [by rewrite attr_mask_bit, ?andb_false_r by lia|].
  all: rewrite ?granularity_bit, ?Z.bits_0, ?orb_false_r by lia; try done.
  all: exfalso; lia.
Qed.
End seg_desc_facts.

(** ** The table *)

(** The members of the state a table operation leaves alone. *)
Definition gdt_wf (s : kstate) : Prop := len (k_gdt s) = GDT_TABLE_SIZE.

(** The descriptor 0: nothing, free for get_alloc_desc. *)
Definition null_desc : segment_desc_t := SegDesc 0 0 0 0 0.

Section table.
Lemma gdt_get_done s i d :
  gdt_wf s → 0 <= i < GDT_TABLE_SIZE → k_gdt s !! Z.to_nat i = Some d →
  gdt_get i s = Done d s.
Proof.
  intros Hg Hi Hd. unfold gdt_get.
  rewrite (proj2 (Z.leb_le 0 i)), (proj2 (Z.ltb_lt i _)) by lia. cbn. by rewrite Hd.
Qed.
Lemma gdt_lookup s i :
  gdt_wf s → 0 <= i < GDT_TABLE_SIZE → is_Some (k_gdt s !! Z.to_nat i).
Proof. unfold gdt_wf. intros Hg Hi. apply lookup_lt_is_Some. lia. Qed.
Lemma gdt_put_done s i d :
  gdt_wf s → 0 <= i < GDT_TABLE_SIZE →
  gdt_put i d s = Done tt (with_gdt (<[Z.to_nat i := d]> (k_gdt s)) s).
Proof.
  intros Hg Hi. destruct (gdt_lookup s i Hg Hi) as [d0 Hd]. unfold gdt_put.
  by erewrite bind_done by (by eapply gdt_get_done).
Qed.
Definition with_attr (v : Z) (d : segment_desc_t) : segment_desc_t :=
  SegDesc (limit15_0 d) (base15_0 d) (base23_16 d) v (base31_24 d).
Lemma gdt_set_attr_done s i v d :
  gdt_wf s → 0 <= i < GDT_TABLE_SIZE → k_gdt s !! Z.to_nat i = Some d →
  gdt_set_attr i v s = Done tt (with_gdt (<[Z.to_nat i := with_attr v d]> (k_gdt s)) s).
Proof.
  intros Hg Hi Hd. unfold gdt_set_attr. erewrite bind_done by (by eapply gdt_get_done).
  by apply gdt_put_done.
Qed.
Lemma gdt_wf_insert s i d : gdt_wf s → gdt_wf (with_gdt (<[i := d]> (k_gdt s)) s).
Proof. unfold gdt_wf. cbn. by rewrite length_insert. Qed.

Lemma segment_desc_set_done s i base limit att :
  gdt_wf s → 0 <= i < GDT_TABLE_SIZE →
  segment_desc_set (i * sizeof_segment_desc) base limit att s =
    Done tt (with_gdt (<[Z.to_nat i := seg_desc base limit att]> (k_gdt s)) s).
Proof.
  intros Hg Hi. unfold segment_desc_set, sizeof_segment_desc, GDT_TABLE_SIZE in *.
  rewrite u32_small by lia. rewrite Z.div_mul by done. by apply gdt_put_done.
Qed.

Lemma segment_desc_set_range s sel base limit att :
  INT_MIN <= sel <= INT_MAX → sel < 0 ∨ GDT_TABLE_SIZE * sizeof_segment_desc <= sel →
  segment_desc_set sel base limit att s = Stop HRange s.
Proof.
  unfold INT_MIN, INT_MAX. intros Hr Hs. unfold segment_desc_set, gdt_put.
  erewrite bind_stop; [done|]. unfold gdt_get.
  rewrite (proj2 (Z.ltb_ge _ GDT_TABLE_SIZE)); [by rewrite andb_false_r|].
  unfold GDT_TABLE_SIZE, sizeof_segment_desc, u32 in *.
  Z.to_euclidean_division_equations. lia.
Qed.
End table.

Section cpu_facts.
Context `{Platform}.

Lemma gdt_clear_done s :
  gdt_wf s →
  mfor 0 GDT_TABLE_SIZE (λ i, segment_desc_set (i * sizeof_segment_desc) 0 0 0) s =
    Done tt (with_gdt (replicate 256 null_desc) s).
Proof.
  intros Hg.
  destruct (mfor_rule (λ i s', ∃ g, s' = with_gdt g s ∧ len g = GDT_TABLE_SIZE ∧
      take (Z.to_nat i) g = replicate (Z.to_nat i) null_desc)
    0 GDT_TABLE_SIZE (λ i, segment_desc_set (i * sizeof_segment_desc) 0 0 0) s)
    as (s' & -> & g & -> & Hlen & Ht).
  - unfold INT_MIN, GDT_TABLE_SIZE. lia.
  - unfold INT_MAX, GDT_TABLE_SIZE. lia.
  - intros i s' Hi (g & -> & Hlen & Ht). eexists. split.
    + by apply segment_desc_set_done.
    + cbn. eexists. split; [done|]. unfold GDT_TABLE_SIZE in *. split; [by rewrite length_insert|].
      replace (Z.to_nat (i + 1)) with (S (Z.to_nat i)) by lia.
      erewrite take_S_r by (apply list_lookup_insert_eq; lia).
      rewrite take_insert_ge by done. rewrite Ht. by rewrite replicate_S_end.
  - exists (k_gdt s). split_and!; try done. by destruct s.
  - rewrite take_ge in Ht by (unfold GDT_TABLE_SIZE in *; lia). by subst g.
Qed.

(** The table gdt_init leaves. *)
Definition boot_gdt : list segment_desc_t :=
  null_desc :: SegDesc 0xFFFF 0 0 0xCF98 0 :: SegDesc 0xFFFF 0 0 0xCF92 0 ::
  replicate 253 null_desc.

Lemma gdt_init_ok s :
  gdt_wf s →
  gdt_init s = lgdt gdt_table (GDT_TABLE_SIZE * sizeof_segment_desc) (with_gdt boot_gdt s).
Proof.
  intros Hg. unfold gdt_init. erewrite bind_done by (by apply gdt_clear_done). cbn beta.
  change KERNEL_SELECTOR_CODE with (1 * sizeof_segment_desc).
  change KERNEL_SELECTOR_DATA with (2 * sizeof_segment_desc).
  erewrite bind_done by (by apply segment_desc_set_done).
  erewrite bind_done by (by apply segment_desc_set_done). done.
Qed.

(** The first free descriptor after the null one. *)
Definition free_desc (g : list segment_desc_t) : option nat :=
  fst <$> list_find (λ d, attr d = 0) (drop 1 g).

(** The search, from descriptor [i] on, by a task that holds the mutex. *)
Lemma alloc_search s g n i :
  gdt_wf s → 0 <= i → i + Z.of_nat n = GDT_TABLE_SIZE →
  drop (Z.to_nat i) (k_gdt s) = g →
  match list_find (λ d, attr d = 0) g with
  | Some (j, d) => ∃ k, k <= Z.of_nat n + 1 ∧
      ∀ r s', alloc_try (i + Z.of_nat j) s = Done (Brk r) s' → msteps alloc_try k i s r s'
  | None => ∃ k, k <= Z.of_nat n + 1 ∧
      ∀ r s', alloc_try GDT_TABLE_SIZE s = Done (Brk r) s' → msteps alloc_try k i s r s'
  end.
Proof.
  intros Hg. revert i g. induction n as [|n IH]; intros i g Hi Hn Hd.
  - assert (i = GDT_TABLE_SIZE) as -> by lia.
    rewrite drop_ge in Hd by (unfold gdt_wf in Hg; lia). subst g. cbn.
    exists 1. split; [lia|]. intros r s' Hb. by apply msteps_brk.
  - destruct (gdt_lookup s i Hg) as [d Hlk]; [lia|].
    rewrite (drop_S _ _ _ Hlk) in Hd. subst g.
    specialize (IH (i + 1) (drop (S (Z.to_nat i)) (k_gdt s)) ltac:(lia) ltac:(lia)).
    replace (Z.to_nat (i + 1)) with (S (Z.to_nat i)) in IH by lia. specialize (IH eq_refl).
    cbn [list_find]. destruct (decide (attr d = 0)) as [Ha|Ha].
    + exists 1. split; [lia|]. intros r s' Hb. apply msteps_brk. by rewrite Z.add_0_r in Hb.
    + assert (alloc_try i s = Done (Cont (i + 1)) s) as Hstep.
      { unfold alloc_try. rewrite (proj2 (Z.ltb_lt i _)) by lia.
        erewrite bind_done by (eapply gdt_get_done; [done|lia|done]). cbn beta.
        rewrite (proj2 (Z.eqb_neq _ 0)) by done.
        rewrite i32_small by (unfold INT_MIN, INT_MAX, GDT_TABLE_SIZE in *; lia). done. }
      destruct (list_find _ (drop _ _)) as [[j d']|]; cbn [fmap option_fmap option_map prod_map fst];
        destruct IH as (k & Hk & IH); exists (k + 1); (split; [lia|]); intros r s' Hb;
        (eapply msteps_cont; [exact Hstep|]); apply IH; [|done].
      by replace (i + 1 + Z.of_nat j) with (i + Z.of_nat (S j)) by lia.
Qed.

(** get_alloc_desc while the mutex is free. *)
Lemma get_alloc_desc_free s :
  gdt_wf s → mutex_free s cpu_mutex →
  get_alloc_desc s =
    match free_desc (k_gdt s) with
    | Some j => Done ((Z.of_nat j + 1) * sizeof_segment_desc)
        (with_gdt (alter (λ d, SegDesc (limit15_0 d) (base15_0 d) (base23_16 d)
           SEG_P_PRESENT (base31_24 d)) (S j) (k_gdt s)) s)
    | None => Done (-1) s
    end.
Proof.
  intros Hg [Hm Hw]. unfold get_alloc_desc. erewrite bind_done by (by apply lock_free).
  cbn beta. set (s1 := mutex_set cpu_mutex (Mutex (k_curr s) 1) s).
  pose proof (alloc_search s1 _ 255 1 Hg ltac:(lia) eq_refl eq_refl) as Hs.
  change (k_gdt s1) with (k_gdt s) in Hs. change (Z.to_nat 1) with 1%nat in Hs.
  unfold free_desc. destruct (list_find _ (drop 1 (k_gdt s))) as [[j d]|] eqn:Ef.
  - apply list_find_Some in Ef as (Hj & Ha & _). rewrite lookup_drop in Hj.
    assert (S j < 256)%nat as Hlt.
    { apply lookup_lt_Some in Hj. unfold gdt_wf, GDT_TABLE_SIZE in Hg. lia. }
    destruct Hs as (k & Hk & Hs). cbn [fmap option_fmap option_map fst].
    eapply mwhile_steps; [apply Hs|etrans; [exact Hk|done]]. unfold alloc_try.
    rewrite (proj2 (Z.ltb_lt _ GDT_TABLE_SIZE)) by (unfold GDT_TABLE_SIZE; lia).
    replace (1 + Z.of_nat j) with (Z.of_nat (S j)) by lia.
    erewrite bind_done by (eapply gdt_get_done; [done|unfold GDT_TABLE_SIZE; lia|
      by rewrite Nat2Z.id]). cbn beta. rewrite Ha, Z.eqb_refl.
    erewrite bind_done by (apply gdt_set_attr_done with (d := d);
      [done|unfold GDT_TABLE_SIZE; lia|by rewrite Nat2Z.id]). cbn beta.
    rewrite Nat2Z.id.
    erewrite bind_done by (apply unlock_free; [apply mutex_set_lookup|exact Hw]).
    replace (Z.of_nat j + 1) with (Z.of_nat (S j)) by lia.
    cbn beta. unfold mret, M_ret. f_equal.
    unfold mutex_set, s1, mutex_set. cbn. rewrite insert_insert_eq, insert_id by done.
    rewrite (alter_as_list_insert _ _ _ d) by done. by destruct s.
  - destruct Hs as (k & Hk & Hs). cbn [fmap option_fmap option_map].
    eapply mwhile_steps; [apply Hs|etrans; [exact Hk|done]]. unfold alloc_try. rewrite Z.ltb_irrefl.
    erewrite bind_done by (apply unlock_free; [apply mutex_set_lookup|exact Hw]).
    unfold s1. rewrite mutex_set_set. by rewrite mutex_set_free.
Qed.
End cpu_facts.

(** ** Properties *)

(** C28: segment_desc_set writes the descriptor of its selector and no other, and
    the processor reads back from it the base, the attribute bits, and the
    limit, which is rounded up to the end of a page, with the granularity bit
    set, exactly when it needs more than 20 bits. *)
Theorem segment_desc_roundtrip s i base limit att :
  gdt_wf s → 0 <= i < GDT_TABLE_SIZE → 0 <= base < 2 ^ 32 → 0 <= limit < 2 ^ 32 →
  Z.land att attr_mask = att →
  ∃ d, segment_desc_set (i * sizeof_segment_desc) base limit att s =
      Done tt (with_gdt (<[Z.to_nat i := d]> (k_gdt s)) s) ∧
    seg_base d = base ∧ Z.land (attr d) attr_mask = att ∧
    seg_granular d = (0xFFFFF <? limit) ∧
    seg_limit d = (if 0xFFFFF <? limit then Z.lor limit 0xFFF else limit).
Proof.
  intros Hg Hi Hb Hl Ha. eexists. split; [by apply segment_desc_set_done|].
  split_and!; [by apply seg_base_ok|by apply seg_attr_ok|by apply seg_granular_ok|by apply seg_limit_ok].
Qed.

Section cpu_properties.
Context `{Platform}.

(** gdt_init leaves a flat model: the code and the data segment of ring 0
    span the 4 GB address space, every other descriptor is free, and GDTR
    covers the table. *)
Theorem gdt_init_flat s :
  gdt_wf s → 0 <= gdt_table < 2 ^ 32 →
  ∃ s' code data, gdt_init s = Done tt s' ∧
    gdtr (k_cpu s') = (GDT_TABLE_SIZE * sizeof_segment_desc - 1, gdt_table) ∧
    k_gdt s' !! Z.to_nat (KERNEL_SELECTOR_CODE / 8) = Some code ∧
    k_gdt s' !! Z.to_nat (KERNEL_SELECTOR_DATA / 8) = Some data ∧
    Forall (λ d, seg_base d = 0 ∧ seg_limit d = 0xFFFFFFFF ∧ seg_present d = true ∧
      seg_system d = false) [code; data] ∧
    Z.testbit (attr code) 3 = true ∧ Z.testbit (attr data) 3 = false ∧ Z.testbit (attr data) 1 = true ∧
    ∀ i d, k_gdt s' !! i = Some d → i ≠ 1%nat → i ≠ 2%nat → attr d = 0.
Proof.
  intros Hg Ht. rewrite gdt_init_ok by done. eexists _, (SegDesc 0xFFFF 0 0 0xCF98 0), (SegDesc 0xFFFF 0 0 0xCF92 0).
  split; [done|]. split_and!; try done.
  - cbn. by rewrite table_operand_ok.
  - repeat (apply Forall_cons; split; [done|]). constructor.
  - intros [|[|[|i]]] d; cbn [k_gdt with_cpu with_gdt boot_gdt lookup list_lookup];
      [by intros [= <-]|done|done|].
    intros Hd _ _. change (replicate 253 null_desc !! i = Some d) in Hd.
    by apply lookup_replicate in Hd as [-> _].
Qed.

(** get_alloc_desc searches the descriptors from 1 on: it marks the first
    free one present and returns its selector, or returns -1 and changes
    nothing when none is free. The mutex is free again in both cases. *)
Theorem get_alloc_desc_correct s :
  gdt_wf s → mutex_free s cpu_mutex →
  (∃ i d, (1 <= i < 256)%nat ∧ k_gdt s !! i = Some d ∧ attr d = 0 ∧
    (∀ j e, (1 <= j < i)%nat → k_gdt s !! j = Some e → attr e ≠ 0) ∧
    get_alloc_desc s = Done (Z.of_nat i * sizeof_segment_desc)
      (with_gdt (<[i := SegDesc (limit15_0 d) (base15_0 d) (base23_16 d) SEG_P_PRESENT
        (base31_24 d)]> (k_gdt s)) s)) ∨
  ((∀ j e, (1 <= j)%nat → k_gdt s !! j = Some e → attr e ≠ 0) ∧ get_alloc_desc s = Done (-1) s).
Proof.
  intros Hg Hm. rewrite get_alloc_desc_free by done. unfold free_desc.
  destruct (list_find (λ d, attr d = 0) (drop 1 (k_gdt s))) as [[j d]|] eqn:Ef; cbn; [left|right].
  - apply list_find_Some in Ef as (Hj & Ha & Hlt). rewrite lookup_drop in Hj.
    exists (S j), d. split_and!; [lia| |exact Hj|done| |].
    + apply lookup_lt_Some in Hj. unfold gdt_wf, GDT_TABLE_SIZE in Hg. lia.
    + intros [|k] e Hk He; [lia|]. apply (Hlt k); [by rewrite lookup_drop|lia].
    + rewrite (alter_as_list_insert _ _ _ d) by exact Hj.
      by replace (Z.of_nat j + 1) with (Z.of_nat (S j)) by lia.
  - split; [|done]. apply list_find_None in Ef. intros [|k] e Hk He; [lia|].
    rewrite Forall_forall in Ef. apply Ef. apply list_elem_of_lookup. exists k. by rewrite lookup_drop.
Qed.
End cpu_properties.

(** A kernel with the mutex of the table free. *)
Definition demo_unlocked : kstate :=
  demo_kernel ∅ (LHeap ∅ {[0x28108 := List 0 0 0]}) ∅ {[0x28100 := Mutex NULL 0]} ∅.

Lemma segment_desc_roundtrip_witness :
  ∃ d, segment_desc_set 24 0x2004C 104 0x89 demo_bare =
      Done tt (with_gdt (<[3%nat := d]> (k_gdt demo_bare)) demo_bare) ∧ seg_base d = 0x2004C.
Proof.
  destruct (segment_desc_roundtrip demo_bare 3 0x2004C 104 0x89) as (d & E & Hb & _);
    [done|done|done|done|done|]. exists d. split; [exact E|exact Hb].
Defined.
Lemma gdt_init_flat_witness :
  ∃ s', gdt_init (H := demo_platform) demo_bare = Done tt s' ∧ gdtr (k_cpu s') = (2047, 0x29000).
Proof.
  destruct (gdt_init_flat (H := demo_platform) demo_bare eq_refl ltac:(done)) as (s' & _ & _ & E & Hr & _).
  exists s'. split; [exact E|exact Hr].
Defined.
Lemma get_alloc_desc_correct_witness :
  ∃ i s', get_alloc_desc (H := demo_platform) demo_unlocked = Done (Z.of_nat i * 8) s' ∧ i = 1%nat.
Proof.
  destruct (get_alloc_desc_correct (H := demo_platform) demo_unlocked eq_refl ltac:(done))
    as [(i & d & Hi & Hd & Ha & Hlt & E)|(Hall & _)].
  - exists i. eexists. split; [exact E|]. clear E. destruct i as [|[|i]]; [lia|reflexivity|].
    destruct (Hlt 1%nat (SegDesc 0 0 0 0 0)); [lia|reflexivity|reflexivity].
  - destruct (Hall 1%nat (SegDesc 0 0 0 0 0)); [lia|reflexivity|reflexivity].
Defined.
