(* ===== verification/TaskInit.v ===== *)
(** * Creation of tasks (kernel/core/task.c: tss_init, task_init,
    task_manager_init, task_main_init) *)

From S2P Require Import Prelude Mem DList Klib Machine Irq Sched SchedSpec SchedOps Mutex Cpu.

(** ** Layout of tss_t (cpu/cpu.h, packed) *)

Definition TSS_esp0 : Z := 4.
Definition TSS_ss0 : Z := 8.
Definition TSS_eip : Z := 32.
Definition TSS_eflags : Z := 36.
Definition TSS_esp : Z := 56.
Definition TSS_es : Z := 72.
Definition TSS_cs : Z := 76.
Definition TSS_ss : Z := 80.
Definition TSS_ds : Z := 84.
Definition TSS_fs : Z := 88.
Definition TSS_gs : Z := 92.

Definition IDLE_TASK_STACK_SIZE : Z := 1024.
Definition IDLE_TASK_NAME : string := "idle_task".

(** static void idle_task_entry(void), for the first [n] turns of its loop *)
Fixpoint idle_task_entry (n : nat) : M unit :=
  match n with
  | O => mret tt
  | S n => hlt;; idle_task_entry n
  end.
(** The idle task makes no calls: halting changes nothing. *)
Lemma idle_task_halts n s : Z.testbit (eflags (k_cpu s)) 9 = true → idle_task_entry n s = Done tt s.
Proof.
  intros Hif. induction n as [|n IH]; [done|]. cbn [idle_task_entry].
  erewrite bind_done; [exact IH|]. unfold hlt. by rewrite Hif.
Qed.

(** task->tss.member = v *)
Definition tss_put (task off v : Z) : M unit :=
  modify (λ s, with_mem (store32 (k_mem s) (task + OFF_tss + off) v) s).

Section create.
Context `{Platform}.

(** The address of a string literal. *)
Definition literal (text : string) : Z := symbol ("literal:" +:+ text).

(** The rest of tss_init once it has a descriptor. *)
Definition tss_fill (task entry esp tss_sel : Z) : M unit :=
  segment_desc_set tss_sel (u32 (task + OFF_tss)) sizeof_tss
    (Z.lor (Z.lor SEG_P_PRESENT SEG_DPL_0) SEG_TYPE_TSS);;
  run_mem (λ m, kernel_memset m (task + OFF_tss) 0 sizeof_tss);;
  tss_put task TSS_eip entry;;
  tss_put task TSS_esp0 esp;;
  tss_put task TSS_esp esp;;
  tss_put task TSS_ss0 KERNEL_SELECTOR_DATA;;
  tss_put task TSS_ss KERNEL_SELECTOR_DATA;;
  tss_put task TSS_gs KERNEL_SELECTOR_DATA;;
  tss_put task TSS_fs KERNEL_SELECTOR_DATA;;
  tss_put task TSS_ds KERNEL_SELECTOR_DATA;;
  tss_put task TSS_es KERNEL_SELECTOR_DATA;;
  tss_put task TSS_cs KERNEL_SELECTOR_CODE;;
  tss_put task TSS_eflags (Z.lor ELFAGS_IF EFLAGS_DEFAULT);;
  task_set_tss_sel task tss_sel.

(** static int tss_init(task_t *task, uint32_t entry, uint32_t esp) *)
Definition tss_init (task entry esp : Z) : M Z :=
  tss_sel ← get_alloc_desc;
  if tss_sel <? 0 then mret (-1)
  else
    tss_fill task entry esp tss_sel;;
    mret 0.

(** task_init between tss_init and its critical section: whether the name is
    good. *)
Definition task_prepare (task task_name : Z) : M bool :=
  n ← read_mem (λ m, kernel_strlen m task_name);
  let task_name_length := i32 n in
  if (task_name_length =? 0) || (TASK_NAME_MAX_IN_SIZE <? task_name_length) then mret false
  else
    run_mem (λ m, kernel_strcpy m (task + OFF_task_name) task_name);;
    task_set_state task TASK_CREATED;;
    task_set_sleep_ticks task 0;;
    task_set_time task TASK_TIME_SLICE_DEFAULT;;
    tk ← get_task task;
    task_set_slice task (t_time_ticks tk);;
    on_heap (list_node_init (all_node task));;
    on_heap (list_node_init (run_node task));;
    on_heap (list_node_init (wait_node task));;
    mret true.

(** The critical section of task_init. *)
Definition task_publish (task : Z) : M unit :=
  state ← irq_enter_protection;
  task_set_ready task;;
  on_heap (list_insert_last task_list (all_node task));;
  irq_leave_protection state.

(** int task_init(task_t *task, const char *task_name, uint32_t entry, uint32_t esp) *)
Definition task_init (task task_name entry esp : Z) : M Z :=
  _ ← tss_init task entry esp;
  named ← task_prepare task task_name;
  if negb named then mret (-1)
  else
    (if negb (task =? idle_task) then task_publish task else mret tt);;
    mret 0.

(** void task_manager_init() *)
Definition task_manager_init : M unit :=
  on_heap (list_init ready_list);;
  on_heap (list_init task_list);;
  on_heap (list_init sleep_list);;
  modify (with_curr NULL);;
  _ ← task_init idle_task (literal IDLE_TASK_NAME) (symbol "idle_task_entry")
    (u32 (symbol "idle_task_stack" + IDLE_TASK_STACK_SIZE));
  mret tt.

(** void task_main_init(void) *)
Definition task_main_init : M unit :=
  _ ← task_init main_task (literal "main") 0 0;
  tk ← get_task main_task;
  write_tr (t_tss_sel tk);;
  modify (with_curr main_task).
End create.

(** ** tss_init *)

Section tss.
Context `{Platform}.

(** The words tss_init writes, in order, and the memory it leaves. *)
Definition tss_words (entry esp : Z) : list (Z * Z) := [
  (TSS_eip, entry); (TSS_esp0, esp); (TSS_esp, esp);
  (TSS_ss0, KERNEL_SELECTOR_DATA); (TSS_ss, KERNEL_SELECTOR_DATA);
  (TSS_gs, KERNEL_SELECTOR_DATA); (TSS_fs, KERNEL_SELECTOR_DATA);
  (TSS_ds, KERNEL_SELECTOR_DATA); (TSS_es, KERNEL_SELECTOR_DATA);
  (TSS_cs, KERNEL_SELECTOR_CODE); (TSS_eflags, Z.lor ELFAGS_IF EFLAGS_DEFAULT)].
Definition tss_store (base : Z) (ws : list (Z * Z)) (m : mem) : mem :=
  foldl (λ m p, store32 m (base + p.1) p.2) m ws.
Definition tss_image (task entry esp : Z) (m : mem) : mem :=
  tss_store (task + OFF_tss) (tss_words entry esp) (store8 m (task + OFF_tss) 0).

(** The descriptor of the TSS of a task: available, 32 bits, ring 0. *)
Definition tss_desc (task : Z) : segment_desc_t := seg_desc (u32 (task + OFF_tss)) sizeof_tss 0x89.
Definition with_tss_sel (sel : Z) (tk : task_t) : task_t :=
  Task (t_state tk) (t_slice_ticks tk) (t_time_ticks tk) (t_sleep_ticks tk) sel.

(** The state after tss_init; its failure changes nothing. *)
Definition tss_ready (task entry esp : Z) (s : kstate) : kstate :=
  match free_desc (k_gdt s) with
  | Some j =>
      with_tasks (alter (with_tss_sel ((Z.of_nat j + 1) * 8)) task (k_tasks s))
        (with_mem (tss_image task entry esp (k_mem s))
          (with_gdt (<[S j := tss_desc task]> (k_gdt s)) s))
  | None => s
  end.

Lemma free_desc_range g j : free_desc g = Some j → (S j < length g)%nat.
Proof.
  unfold free_desc. destruct (list_find _ _) as [[k d]|] eqn:Ef; [|done].
  intros [= <-]. apply list_find_Some in Ef as (Hj & _). rewrite lookup_drop in Hj.
  by apply lookup_lt_Some in Hj.
Qed.

(** tss_fill, for the descriptor [i]. *)
Definition tss_filled (task entry esp : Z) (i : nat) (s : kstate) : kstate :=
  with_tasks (alter (with_tss_sel (Z.of_nat i * 8)) task (k_tasks s))
    (with_mem (tss_image task entry esp (k_mem s)) (with_gdt (<[i := tss_desc task]> (k_gdt s)) s)).

Lemma tss_fill_ok s task tk entry esp i :
  gdt_wf s → k_tasks s !! task = Some tk → (i < length (k_gdt s))%nat →
  tss_fill task entry esp (Z.of_nat i * sizeof_segment_desc) s = Done tt (tss_filled task entry esp i s).
Proof.
  intros Hg Ht Hlt. unfold tss_fill, tss_filled, gdt_wf in *.
  erewrite bind_done by (apply segment_desc_set_done; unfold gdt_wf; lia).
  erewrite bind_done by (unfold run_mem, on_mem; cbn [k_mem with_gdt];
    rewrite memset_ok by done; done).
  do 11 (erewrite bind_done by done). cbn beta.
  unfold task_set_tss_sel. erewrite upd_task_done by exact Ht.
  rewrite (alter_as_insert _ _ _ _ Ht), Nat2Z.id. done.
Qed.

Lemma tss_init_ok s task tk entry esp :
  gdt_wf s → mutex_free s cpu_mutex → k_tasks s !! task = Some tk →
  tss_init task entry esp s =
    Done (if free_desc (k_gdt s) then 0 else -1) (tss_ready task entry esp s).
Proof.
  intros Hg Hm Ht. unfold tss_init, tss_ready.
  pose proof (get_alloc_desc_free s Hg Hm) as Ha.
  destruct (free_desc (k_gdt s)) as [j|] eqn:Ef; [|by erewrite bind_done by exact Ha].
  erewrite bind_done by exact Ha. cbn beta. unfold sizeof_segment_desc at 1.
  rewrite (proj2 (Z.ltb_ge _ 0)) by lia. pose proof (free_desc_range _ _ Ef) as Hlt.
  replace (Z.of_nat j + 1) with (Z.of_nat (S j)) by lia.
  erewrite bind_done by (apply (tss_fill_ok _ task tk); unfold gdt_wf in *; cbn;
    rewrite ?length_alter; [lia|done|lia]). cbn beta.
  unfold mret, M_ret. f_equal. unfold tss_filled. cbn [k_gdt with_gdt].
  destruct (lookup_lt_is_Some_2 _ _ Hlt) as [d Hd].
  rewrite (alter_as_list_insert _ _ _ _ Hd), list_insert_insert_eq. done.
Qed.
End tss.

(** ** Frames *)

Section frames.
Context `{Platform}.

Lemma bytes_at_ext m m' a bs :
  (∀ x, a <= x < a + len bs → load8 m' x = load8 m x) → bytes_at m a bs → bytes_at m' a bs.
Proof.
  revert a. induction bs as [|b bs IH]; intros a Hx; [done|]. cbn [bytes_at length] in *.
  intros [<- Hb]. split; [apply Hx; lia|]. apply IH; [|done]. intros x ?. apply Hx. lia.
Qed.
Lemma cstr_at_ext m m' a bs :
  (∀ x, a <= x < a + len bs + 1 → load8 m' x = load8 m x) → cstr_at m a bs → cstr_at m' a bs.
Proof.
  intros Hx [Hz Hb]. split; [done|]. eapply bytes_at_ext; [|exact Hb].
  intros x. rewrite length_app. cbn. intros ?. apply Hx. lia.
Qed.

Lemma tss_store_out ws base m x :
  Forall (λ p, 0 <= p.1 ∧ p.1 + 4 <= sizeof_tss) ws → x < base ∨ base + sizeof_tss <= x →
  load8 (tss_store base ws m) x = load8 m x.
Proof.
  intros Hws Hx. unfold tss_store. revert m. induction Hws as [|[o v] ws Ho _ IH]; intros m; [done|].
  cbn [foldl fst snd] in *. rewrite IH. apply load8_store32_ne. lia.
Qed.
Lemma tss_words_range entry esp :
  Forall (λ p, 0 <= p.1 ∧ p.1 + 4 <= sizeof_tss) (tss_words entry esp).
Proof. unfold tss_words. repeat (apply Forall_cons; split; [by split|]). constructor. Qed.
(** tss_init writes inside the TSS only. *)
Lemma tss_image_out task entry esp m x :
  x < task + OFF_tss ∨ task + OFF_tss + sizeof_tss <= x →
  load8 (tss_image task entry esp m) x = load8 m x.
Proof.
  intros Hx. unfold tss_image. rewrite tss_store_out by (done || apply tss_words_range).
  apply load_store_ne. unfold sizeof_tss in *. lia.
Qed.

(** Every word of the TSS that tss_init sets has its value. *)
Lemma tss_store_in ws base m o v :
  (o, v) ∈ ws → ForallOrdPairs (λ p q, disjoint_ranges p.1 4 q.1 4) ws →
  load32 (tss_store base ws m) (base + o) = u32 v.
Proof.
  intros Hin Hd. revert m Hin. unfold tss_store.
  induction Hd as [|p ws Hp _ IH]; intros m Hin; [by apply elem_of_nil in Hin|].
  cbn [foldl]. apply elem_of_cons in Hin as [<-|Hin]; [|by apply IH].
  cbn [fst snd] in *. clear IH. rewrite <- (load32_store32 m (base + o) v).
  generalize (store32 m (base + o) v). induction Hp as [|q ws Hq _ IH]; intros m'; [done|].
  cbn [foldl]. rewrite IH. apply load32_store32_ne. unfold disjoint_ranges in *. cbn in Hq. lia.
Qed.
Lemma tss_words_apart entry esp :
  ForallOrdPairs (λ p q, disjoint_ranges p.1 4 q.1 4) (tss_words entry esp).
Proof.
  unfold tss_words, disjoint_ranges, TSS_eip, TSS_esp0, TSS_esp, TSS_ss0, TSS_ss, TSS_gs,
    TSS_fs, TSS_ds, TSS_es, TSS_cs, TSS_eflags.
  repeat (apply FOP_cons; [repeat (apply List.Forall_cons; [cbn [fst]; lia|]);
    apply List.Forall_nil|]).
  apply FOP_nil.
Qed.
Lemma tss_image_in task entry esp m o v :
  (o, v) ∈ tss_words entry esp →
  load32 (tss_image task entry esp m) (task + OFF_tss + o) = u32 v.
Proof. intros Hin. by apply tss_store_in, tss_words_apart. Qed.

Lemma krep_mem s a m : krep s a → krep (with_mem m s) a.
Proof. by intros []. Qed.
Lemma krep_gdt s a g : krep s a → krep (with_gdt g s) a.
Proof. by intros []. Qed.
(** A task that does not sleep may change every scalar member. *)
Lemma krep_task s a t tk :
  krep s a → is_Some (k_tasks s !! t) → t ∉ (a_sleep a).*1 →
  krep (with_tasks (<[t := tk]> (k_tasks s)) s) a.
Proof.
  intros HR Ht Hns. destruct HR as [Hh Hc [Hrg Hap] Hi Hn Hr Hal Hw Hs Hhd].
  assert (∀ u, is_Some (<[t := tk]> (k_tasks s) !! u) ↔ is_Some (k_tasks s !! u)) as Hdom.
  { intros u. rewrite lookup_insert. case_decide; subst; [|done]. split; [done|by eexists]. }
  split; cbn; try done.
  - split; [intros u Hu|intros u v Hu Hv]; rewrite Hdom in *; eauto.
  - by rewrite Hdom.
  - intros u Hu. rewrite Hdom in Hu. eauto.
  - intros u Hu. rewrite Hdom. eauto.
  - intros u Hu. rewrite Hdom. eauto.
  - intros w l u Hl Hu. rewrite Hdom. eauto.
  - intros u n Hu. rewrite lookup_insert_ne; [by apply Hs|].
    intros ->. apply Hns, list_elem_of_fmap. by exists (u, n).
Qed.

Lemma krep_node_init s a n :
  krep s a → unlinked (alists a) n → is_Some (nodes (k_heap s) !! n) →
  ∃ h, on_heap (list_node_init n) s = Done tt (with_heap h s) ∧ krep (with_heap h s) a ∧
    same_objs (k_heap s) h.
Proof.
  intros HR Hun Hn.
  destruct (list_node_init_ok _ _ (kr_heap _ _ HR) n Hun Hn) as (h & Hi & Hh).
  pose proof (keeps_node_init _ _ _ _ Hi) as Ho.
  exists h. split; [by apply on_heap_done|]. split; [|done].
  eapply krep_step; [exact HR|exact Hh|by apply same_env_heap|..].
  - apply (kr_curr _ _ HR).
  - apply (kr_ready _ _ HR).
  - done.
  - apply (kr_waiters _ _ HR).
  - apply (kr_sleep _ _ HR).
  - done.
Qed.

Lemma all_unlinked s a t :
  krep s a → is_Some (k_tasks s !! t) → t ∉ a_all a → unlinked (alists a) (all_node t).
Proof.
  intros HR Ht Ha l xs Hl Hin. pose proof (kr_placed _ _ HR) as Hp.
  destruct (alists_cases _ _ _ Hl) as [->|[->|[->|(ws & Hws & ->)]]];
    apply list_elem_of_fmap in Hin as (u & Heq & Hu).
  - symmetry in Heq. apply (run_all_ne _ Hp u t) in Heq; [done| |done]. by apply (kr_ready _ _ HR).
  - symmetry in Heq. apply (run_all_ne _ Hp u t) in Heq; [done| |done]. by eapply kr_sleeper.
  - apply all_node_inj in Heq as ->. done.
  - apply (all_wait_ne _ Hp t u) in Heq; [done|done|]. by eapply (kr_waiters _ _ HR).
Qed.
End frames.

(** ** task_init *)

Section task_init.
Context `{Platform}.

(** A created task joins the ready list and the list of all tasks. *)
Definition a_create (t : Z) (a : asched) : asched :=
  ASched (a_ready a ++ [t]) (a_sleep a) (a_all a ++ [t]) (a_wait a) (a_curr a).

Definition fresh_task (sel : Z) : task_t :=
  Task TASK_CREATED TASK_TIME_SLICE_DEFAULT TASK_TIME_SLICE_DEFAULT 0 sel.
Definition name_ok (bs : list Z) : Prop := 1 <= len bs <= TASK_NAME_MAX_IN_SIZE.
#[export] Instance name_ok_dec bs : Decision (name_ok bs) := ltac:(unfold name_ok; apply _).

(** The members set before the task is linked. *)
Definition task_named (t entry esp : Z) (bs : list Z) (s : kstate) : kstate :=
  let s1 := tss_ready t entry esp s in
  with_tasks (<[t := fresh_task (sel_of s1 t)]> (k_tasks s1))
    (with_mem (stores (k_mem s1) t (bs ++ [0])) s1).

(** The memory after that. *)
Definition named_mem (t entry esp : Z) (bs : list Z) (m : mem) : mem :=
  stores (tss_image t entry esp m) t (bs ++ [0]).
Lemma task_named_mem t entry esp bs s :
  is_Some (free_desc (k_gdt s)) →
  k_mem (task_named t entry esp bs s) = named_mem t entry esp bs (k_mem s).
Proof. intros [j Hj]. unfold task_named, tss_ready. by rewrite Hj. Qed.

(** The linking of the task, with which task_init ends. *)
Definition task_link (task : Z) : M Z :=
  on_heap (list_node_init (all_node task));;
  on_heap (list_node_init (run_node task));;
  on_heap (list_node_init (wait_node task));;
  (if negb (task =? idle_task) then task_publish task else mret tt);;
  mret 0.

Lemma tss_ready_tasks t entry esp s tk :
  k_tasks s !! t = Some tk →
  ∃ sel, k_tasks (tss_ready t entry esp s) = <[t := with_tss_sel sel tk]> (k_tasks s).
Proof.
  intros Ht. unfold tss_ready. destruct (free_desc (k_gdt s)) as [j|].
  - eexists. cbn. by apply alter_as_insert.
  - exists (t_tss_sel tk). rewrite insert_id; [done|]. rewrite Ht. by destruct tk.
Qed.

Lemma tss_ready_cstr t entry esp s name bs :
  cstr_at (k_mem s) name bs →
  disjoint_ranges (t + OFF_tss) sizeof_tss name (len bs + 1) →
  cstr_at (k_mem (tss_ready t entry esp s)) name bs.
Proof.
  intros Hs Hd. unfold tss_ready. destruct (free_desc (k_gdt s)); [|done]. cbn.
  eapply cstr_at_ext; [|exact Hs]. intros x Hx. apply tss_image_out.
  unfold disjoint_ranges in Hd. lia.
Qed.

Lemma on_heap_assoc {A B C} (p : LM A) (f : A → M B) (g : B → M C) s :
  ((on_heap p ≫= f) ≫= g) s = (on_heap p ≫= λ a, f a ≫= g) s.
Proof. unfold on_heap, mbind, M_bind, rbind. by destruct (p (k_heap s)) as [[? ?]|]. Qed.
Lemma on_heap_ext {A B} (p : LM A) (f g : A → M B) s :
  (∀ a s', f a s' = g a s') → (on_heap p ≫= f) s = (on_heap p ≫= g) s.
Proof. intros Hfg. unfold on_heap, mbind, M_bind, rbind. by destruct (p (k_heap s)) as [[? ?]|]. Qed.
Lemma with_mem_id s : with_mem (k_mem s) s = s.
Proof. by destruct s. Qed.

Lemma prepare_bad s t name bs :
  cstr_at (k_mem s) name bs → len bs <= INT_MAX → ¬ name_ok bs → task_prepare t name s = Done false s.
Proof.
  unfold name_ok, TASK_NAME_MAX_IN_SIZE, INT_MAX. intros Hs Hl Hn. unfold task_prepare.
  erewrite bind_done by (unfold read_mem, on_mem; rewrite (strlen_ok _ _ bs) by (done || lia); done).
  cbn zeta. rewrite i32_small by (unfold INT_MIN, INT_MAX; lia). rewrite with_mem_id.
  unfold TASK_NAME_MAX_IN_SIZE.
  by destruct (Z.eqb_spec (len bs) 0), (Z.ltb_spec 32 (len bs)); cbn [orb]; try lia.
Qed.

(** task_prepare up to the list nodes, and then. *)
Lemma prepare_split s t tk name bs {B} (g : bool → M B) :
  k_tasks s !! t = Some tk → cstr_at (k_mem s) name bs → name_ok bs →
  disjoint_ranges t sizeof_task name (len bs + 1) →
  (task_prepare t name ≫= g) s =
    (on_heap (list_node_init (all_node t));; on_heap (list_node_init (run_node t));;
     on_heap (list_node_init (wait_node t));; g true)
      (with_tasks (<[t := fresh_task (t_tss_sel tk)]> (k_tasks s))
        (with_mem (stores (k_mem s) t (bs ++ [0])) s)).
Proof.
  intros Ht Hs Hn Hd. unfold name_ok, TASK_NAME_MAX_IN_SIZE in Hn. unfold task_prepare.
  erewrite bind2_done by (unfold read_mem, on_mem; rewrite (strlen_ok _ _ bs) by (done || lia); done).
  cbn zeta. rewrite i32_small by (unfold INT_MIN, INT_MAX; lia).
  rewrite (proj2 (Z.eqb_neq _ 0)), (proj2 (Z.ltb_ge _ _)) by (unfold TASK_NAME_MAX_IN_SIZE; lia).
  cbn [orb]. rewrite with_mem_id.
  assert (kernel_strcpy (k_mem s) (t + OFF_task_name) name = Ok (stores (k_mem s) t (bs ++ [0]))) as Hcpy.
  { unfold OFF_task_name. rewrite Z.add_0_r. apply strcpy_ok; [done| |lia].
    unfold disjoint_ranges, sizeof_task in Hd. lia. }
  erewrite bind2_done by (unfold run_mem, on_mem; rewrite Hcpy; done).
  unfold task_set_state, task_set_sleep_ticks, task_set_time, task_set_slice.
  erewrite bind2_done by (by apply upd_task_done). cbn beta.
  do 2 (erewrite bind2_done by (apply upd_task_done, lookup_insert_eq); cbn beta).
  erewrite bind2_done by (apply get_task_done, lookup_insert_eq). cbn beta.
  erewrite bind2_done by (apply upd_task_done, lookup_insert_eq). cbn beta.
  cbn [k_tasks with_tasks with_mem]. rewrite !insert_insert_eq.
  rewrite on_heap_assoc. apply on_heap_ext. intros _ s2. rewrite on_heap_assoc.
  apply on_heap_ext. intros _ s3. by rewrite on_heap_assoc.
Qed.

(** task_init up to the linking of the nodes. *)
Lemma task_init_split s t tk name bs entry esp :
  gdt_wf s → mutex_free s cpu_mutex → k_tasks s !! t = Some tk →
  cstr_at (k_mem s) name bs → name_ok bs →
  disjoint_ranges t sizeof_task name (len bs + 1) →
  task_init t name entry esp s = task_link t (task_named t entry esp bs s).
Proof.
  intros Hg Hm Ht Hs Hn Hd. unfold name_ok, TASK_NAME_MAX_IN_SIZE in Hn. unfold task_init.
  erewrite bind_done by (by eapply tss_init_ok). cbn beta.
  destruct (tss_ready_tasks t entry esp s tk Ht) as (sel & Hts).
  set (s1 := tss_ready t entry esp s) in *.
  assert (cstr_at (k_mem s1) name bs) as Hs1.
  { apply tss_ready_cstr; [done|]. unfold disjoint_ranges, OFF_tss, sizeof_tss, sizeof_task in *. lia. }
  etrans; [apply (prepare_split s1 t (with_tss_sel sel tk) name bs); try done|].
  { rewrite Hts. apply lookup_insert_eq. }
  unfold task_named, sel_of. cbn zeta. fold s1. by rewrite Hts, lookup_insert_eq.
Qed.

(** A task in no sequence of the scheduler. *)
Record unplaced (t : Z) (a : asched) : Prop := {
  up_ready : t ∉ a_ready a;
  up_sleep : t ∉ (a_sleep a).*1;
  up_all : t ∉ a_all a;
  up_wait : ∀ w l, a_wait a !! w = Some l → t ∉ l
}.

Lemma all_insert_ok s a t :
  krep s a → is_Some (k_tasks s !! t) → t ∉ a_all a → len (a_all a) < INT_MAX →
  ∃ h, on_heap (list_insert_last task_list (all_node t)) s = Done tt (with_heap h s) ∧
    krep (with_heap h s) (ASched (a_ready a) (a_sleep a) (a_all a ++ [t]) (a_wait a) (a_curr a)) ∧
    same_env s (with_heap h s).
Proof.
  intros HR Ht Hun Hlen.
  destruct (list_insert_last_ok (k_heap s) (alists a) (kr_heap _ _ HR) task_list
    (all_node <$> a_all a) (all_node t)) as (h & Hins & Hh).
  - apply alists_task.
  - by eapply all_unlinked.
  - by apply (kr_nodes _ _ HR).
  - by rewrite length_fmap.
  - exists h. pose proof (same_env_heap s h (keeps_insert_last _ _ _ _ _ Hins)) as HE.
    split; [by apply on_heap_done|]. split; [|exact HE].
    destruct HR as [? ? ? ? Hn ? Hal ? ? ?]. split; try done; cbn.
    + replace (alists _) with (<[task_list := (all_node <$> a_all a) ++ [all_node t]]> (alists a));
        [done|].
      unfold alists. cbn. rewrite fmap_app.
      rewrite (insert_insert_ne _ task_list ready_list) by header_ne.
      rewrite (insert_insert_ne _ task_list sleep_list) by header_ne.
      by rewrite insert_insert_eq.
    + intros u Hu. destruct (se_objs _ _ HE) as [Ho _]. cbn in Ho. rewrite !Ho. auto.
    + intros u [Hu| ->%list_elem_of_singleton]%elem_of_app; auto.
Qed.

(** The three list_node_init. *)
Lemma link_nodes_ok {B} (k : M B) s a t :
  krep s a → is_Some (k_tasks s !! t) → unplaced t a →
  ∃ h, (on_heap (list_node_init (all_node t));; on_heap (list_node_init (run_node t));;
      on_heap (list_node_init (wait_node t));; k) s = k (with_heap h s) ∧
    krep (with_heap h s) a ∧ same_env s (with_heap h s).
Proof.
  intros HR Ht [Hr Hs Ha Hw]. destruct (kr_nodes _ _ HR t Ht) as (Hn1 & Hn2 & Hn3).
  destruct (krep_node_init s a (all_node t) HR) as (h1 & E1 & HR1 & Ho1); [|done|].
  { by apply (all_unlinked _ _ _ HR). }
  destruct (krep_node_init _ a (run_node t) HR1) as (h2 & E2 & HR2 & Ho2).
  { by apply (run_unlinked _ _ _ HR). }
  { by apply (proj1 Ho1). }
  destruct (krep_node_init _ a (wait_node t) HR2) as (h3 & E3 & HR3 & Ho3).
  { by apply (wait_unlinked _ _ _ HR). }
  { by apply (proj1 Ho2), (proj1 Ho1). }
  exists h3. split; [|split; [done|]].
  - erewrite bind_done by exact E1. erewrite bind_done by exact E2.
    by erewrite bind_done by exact E3.
  - apply same_env_heap. etrans; [exact Ho1|]. etrans; [exact Ho2|exact Ho3].
Qed.

Lemma task_link_idle s a :
  krep s a → unplaced idle_task a →
  ∃ h, task_link idle_task s = Done 0 (with_heap h s) ∧ krep (with_heap h s) a ∧
    same_env s (with_heap h s).
Proof.
  intros HR Hu. destruct (link_nodes_ok ((if negb (idle_task =? idle_task) then
    task_publish idle_task else mret tt);; mret 0) s a idle_task HR (kr_idle _ _ HR) Hu) as (h & E & HR' & HE).
  exists h. split; [|done]. unfold task_link. rewrite E, Z.eqb_refl. done.
Qed.

Lemma task_publish_ok s a t tk :
  krep s a → k_tasks s !! t = Some tk → unplaced t a →
  len (a_ready a) < INT_MAX → len (a_all a) < INT_MAX →
  ∃ s', task_publish t s = Done tt s' ∧ krep s' (a_create t a) ∧ same_env s s' ∧
    k_tasks s' = <[t := with_state TASK_READY tk]> (k_tasks s) ∧
    k_cpu s' = k_cpu s ∧ keeps_locks s s'.
Proof.
  intros HR Ht Hu Hlr Hla. unfold task_publish. erewrite bind_done by (by apply (enter_done mret)). cbn beta.
  destruct (task_set_ready_ok (entered s) a t tk (krep_entered _ _ HR) Ht)
    as (s2 & E2 & HR2 & HE2 & Ht2 & Hc2 & Hm2 & Hse2); [apply Hu|apply Hu|done|].
  destruct (all_insert_ok s2 _ t HR2) as (h3 & E3 & HR3 & HE3).
  { rewrite Ht2, lookup_insert_eq. by eexists. }
  { apply Hu. }
  { done. }
  erewrite bind_done by exact E2. cbn beta. erewrite bind_done by exact E3. cbn beta.
  exists (with_cpu (k_cpu s) (with_heap h3 s2)). split_and!; try done.
  - apply (leave_entered s). exact Hc2.
  - by destruct HR3.
  - etrans; [apply entered_env|]. etrans; [exact HE2|].
    etrans; [exact HE3|]. split; try done. cbn. by rewrite Hc2.
Qed.

Lemma task_link_ok s a t tk :
  krep s a → k_tasks s !! t = Some tk → t ≠ idle_task → unplaced t a →
  len (a_ready a) < INT_MAX → len (a_all a) < INT_MAX →
  ∃ s', task_link t s = Done 0 s' ∧ krep s' (a_create t a) ∧ same_env s s' ∧
    k_tasks s' = <[t := with_state TASK_READY tk]> (k_tasks s) ∧
    k_cpu s' = k_cpu s ∧ keeps_locks s s'.
Proof.
  intros HR Ht Hi Hu Hlr Hla.
  destruct (link_nodes_ok ((if negb (t =? idle_task) then task_publish t else mret tt);; mret 0)
    s a t HR (mk_is_Some _ _ Ht) Hu) as (h & E & HR1 & HE1).
  unfold task_link. rewrite E, (proj2 (Z.eqb_neq _ _)) by done. cbn [negb].
  destruct (task_publish_ok (with_heap h s) a t tk HR1 Ht Hu Hlr Hla)
    as (s' & E' & HR' & HE' & Ht' & Hc' & Hlk).
  erewrite bind_done by exact E'. cbn beta. exists s'. split_and!; try done. by etrans.
Qed.
End task_init.

Section create_facts.
Context `{Platform}.

Lemma krep_tss_ready s a t tk entry esp :
  krep s a → k_tasks s !! t = Some tk → t ∉ (a_sleep a).*1 → krep (tss_ready t entry esp s) a.
Proof.
  intros HR Ht Hns. unfold tss_ready. destruct (free_desc (k_gdt s)) as [j|]; [|done].
  rewrite (alter_as_insert _ _ _ _ Ht).
  by apply (krep_task (with_mem _ (with_gdt _ s))); [apply krep_mem, krep_gdt|eexists|].
Qed.
Lemma krep_task_named s a t tk entry esp bs :
  krep s a → k_tasks s !! t = Some tk → t ∉ (a_sleep a).*1 → krep (task_named t entry esp bs s) a.
Proof.
  intros HR Ht Hns. unfold task_named. cbn zeta.
  destruct (tss_ready_tasks t entry esp s tk Ht) as (sel & Hts).
  apply (krep_task (with_mem _ (tss_ready t entry esp s))); [|cbn|done].
  - by eapply krep_mem, krep_tss_ready.
  - rewrite Hts, lookup_insert_eq. by eexists.
Qed.
Lemma task_named_tasks s t tk entry esp bs :
  k_tasks s !! t = Some tk →
  k_tasks (task_named t entry esp bs s) =
    <[t := fresh_task (sel_of (tss_ready t entry esp s) t)]> (k_tasks s).
Proof.
  intros Ht. unfold task_named. cbn. destruct (tss_ready_tasks t entry esp s tk Ht) as (sel & ->).
  apply insert_insert_eq.
Qed.
Lemma task_named_rest s t entry esp bs :
  k_cpu (task_named t entry esp bs s) = k_cpu s ∧
  keeps_locks s (task_named t entry esp bs s) ∧ k_heap (task_named t entry esp bs s) = k_heap s ∧
  k_idt (task_named t entry esp bs s) = k_idt s ∧ k_io (task_named t entry esp bs s) = k_io s ∧
  k_sys_tick (task_named t entry esp bs s) = k_sys_tick s.
Proof. unfold task_named, tss_ready. by destruct (free_desc (k_gdt s)). Qed.
Lemma task_named_gdt s t entry esp bs : gdt_wf s → gdt_wf (task_named t entry esp bs s).
Proof.
  unfold task_named, tss_ready, gdt_wf. destruct (free_desc (k_gdt s)); [|done].
  cbn. by rewrite length_insert.
Qed.

Lemma task_named_desc s t entry esp bs j :
  free_desc (k_gdt s) = Some j → k_gdt (task_named t entry esp bs s) = <[S j := tss_desc t]> (k_gdt s).
Proof. intros Hj. unfold task_named, tss_ready. by rewrite Hj. Qed.

(** Creating a task other than the idle task. *)
Lemma task_init_ok s a t tk name bs entry esp :
  krep s a → gdt_wf s → mutex_free s cpu_mutex → k_tasks s !! t = Some tk →
  cstr_at (k_mem s) name bs → name_ok bs →
  disjoint_ranges t sizeof_task name (len bs + 1) →
  t ≠ idle_task → unplaced t a → len (a_ready a) < INT_MAX → len (a_all a) < INT_MAX →
  let s1 := task_named t entry esp bs s in
  ∃ s', task_init t name entry esp s = Done 0 s' ∧ krep s' (a_create t a) ∧
    same_env s1 s' ∧ k_cpu s' = k_cpu s ∧ keeps_locks s s' ∧
    k_tasks s' = <[t := with_state TASK_READY
      (fresh_task (sel_of (tss_ready t entry esp s) t))]> (k_tasks s).
Proof.
  intros HR Hg Hm Ht Hs Hn Hd Hi Hu Hlr Hla s1.
  rewrite (task_init_split s t tk name bs) by done.
  pose proof (krep_task_named s a t tk entry esp bs HR Ht (up_sleep _ _ Hu)) as HR1.
  pose proof (task_named_tasks s t tk entry esp bs Ht) as Hts.
  destruct (task_named_rest s t entry esp bs) as (Hc & Hlk & _).
  destruct (task_link_ok _ a t (fresh_task (sel_of (tss_ready t entry esp s) t)) HR1) as (s' & E & HR' & HE & Ht' & Hc' & Hlk'); try done.
  { rewrite Hts. apply lookup_insert_eq. }
  exists s'. split_and!; try done.
  - congruence.
  - by etrans.
  - by rewrite Ht', Hts, insert_insert_eq.
Qed.

(** A bad name: the task is not created, though its TSS is set up and a
    descriptor is spent. *)
Lemma task_init_bad_name s t tk name bs entry esp :
  gdt_wf s → mutex_free s cpu_mutex → k_tasks s !! t = Some tk →
  cstr_at (k_mem s) name bs → len bs <= INT_MAX → ¬ name_ok bs →
  disjoint_ranges t sizeof_task name (len bs + 1) →
  task_init t name entry esp s = Done (-1) (tss_ready t entry esp s).
Proof.
  intros Hg Hm Ht Hs Hl Hn Hd. unfold task_init.
  erewrite bind_done by (by eapply tss_init_ok). cbn beta.
  assert (cstr_at (k_mem (tss_ready t entry esp s)) name bs) as Hs1.
  { apply tss_ready_cstr; [done|]. unfold disjoint_ranges, OFF_tss, sizeof_tss, sizeof_task in *. lia. }
  by erewrite bind_done by (by apply (prepare_bad _ t name bs)).
Qed.

Lemma awf_create t a :
  awf a → a_ready a ≠ [] → t ≠ idle_task → t ∉ a_all a → len (a_all a) + 1 < INT_MAX →
  awf (a_create t a).
Proof.
  intros Ha Hne Hi Ht Hl. pose proof (aw_place _ Ha) as Hp. split; cbn.
  - unfold waiters in *. cbn. perm_solve.
  - apply NoDup_app. split; [apply Ha|]. split; [set_solver|]. apply NoDup_singleton.
  - pose proof (aw_idle _ Ha). set_solver.
  - rewrite (aw_curr _ Ha). unfold a_next. cbn. by destruct (a_ready a).
  - apply Ha.
  - rewrite length_app. cbn. lia.
Qed.
End create_facts.

(** ** The first tasks *)

Section first_tasks.
Context `{Platform}.

(** The objects of the scheduler before task_manager_init: nothing is linked
    but the empty wait lists [W]. *)
Record boot_objs (s : kstate) (W : gmap Z (list Z)) : Prop := {
  bo_heap : heap_rep (k_heap s) W;
  bo_empty : ∀ w l, W !! w = Some l → l = [];
  bo_headers : W !! ready_list = None ∧ W !! sleep_list = None ∧ W !! task_list = None;
  bo_objs : is_Some (lists (k_heap s) !! ready_list) ∧
    is_Some (lists (k_heap s) !! sleep_list) ∧ is_Some (lists (k_heap s) !! task_list);
  bo_placed : tasks_placed (k_tasks s);
  bo_idle : is_Some (k_tasks s !! idle_task);
  bo_nodes : ∀ t, is_Some (k_tasks s !! t) →
    is_Some (nodes (k_heap s) !! run_node t) ∧
    is_Some (nodes (k_heap s) !! all_node t) ∧
    is_Some (nodes (k_heap s) !! wait_node t)
}.

(** The scheduler with no task. *)
Definition a_none (W : gmap Z (list Z)) : asched := ASched [] [] [] W NULL.

Lemma waits_empty (W : gmap Z (list Z)) :
  (∀ w l, W !! w = Some l → l = []) → (λ l : list Z, wait_node <$> l) <$> W = W.
Proof.
  intros HW. apply map_eq. intros w. rewrite lookup_fmap. destruct (W !! w) as [l|] eqn:E; [|done].
  by rewrite (HW _ _ E).
Qed.

Lemma manager_lists_ok s W :
  boot_objs s W →
  ∃ h, (∀ B (k : M B), (on_heap (list_init ready_list);; on_heap (list_init task_list);;
      on_heap (list_init sleep_list);; modify (with_curr NULL);; k) s =
      k (with_curr NULL (with_heap h s))) ∧
    krep (with_curr NULL (with_heap h s)) (a_none W) ∧ same_objs (k_heap s) h.
Proof.
  intros [Hh He (Hw1 & Hw2 & Hw3) (Ho1 & Ho2 & Ho3) Hp Hi Hn].
  destruct (list_init_ok _ _ Hh ready_list Ho1) as (h1 & E1 & Hh1 & Hn1).
  pose proof (keeps_init _ _ _ _ E1) as Ho1'. pose proof Ho1' as [_ Hk1].
  destruct (list_init_ok _ _ Hh1 task_list) as (h2 & E2 & Hh2 & Hn2); [by apply Hk1|].
  pose proof (keeps_init _ _ _ _ E2) as Ho2'. pose proof Ho2' as [_ Hk2].
  destruct (list_init_ok _ _ Hh2 sleep_list) as (h3 & E3 & Hh3 & Hn3); [by apply Hk2, Hk1|].
  pose proof (keeps_init _ _ _ _ E3) as Ho3'.
  exists h3. split; [|split; [|etrans; [exact Ho1'|]; etrans; [exact Ho2'|exact Ho3']]].
  - intros B k. erewrite bind_done by (by apply on_heap_done).
    erewrite bind_done by (apply on_heap_done; exact E2).
    erewrite bind_done by (apply on_heap_done; exact E3). done.
  - assert (nodes h3 = nodes (k_heap s)) as Hns by congruence.
    split; cbn; rewrite ?Hns; try done.
    + unfold alists, a_none. cbn. rewrite waits_empty by done.
      rewrite (insert_insert_ne _ task_list ready_list) in Hh3 by header_ne.
      rewrite (insert_insert_ne _ sleep_list ready_list) in Hh3 by header_ne.
      exact Hh3.
    + intros t Ht. by apply elem_of_nil in Ht.
    + intros t Ht. by apply elem_of_nil in Ht.
    + intros w l t Hl Ht. rewrite (He _ _ Hl) in Ht. by apply elem_of_nil in Ht.
    + intros t n Ht. by apply elem_of_nil in Ht.
Qed.

Lemma mutex_free_krep s a m :
  krep s a → a_wait a !! mutex_wait_list m = Some [] →
  k_mutexes s !! m = Some (Mutex NULL 0) → mutex_free s m.
Proof.
  intros HR Hw Hm. split; [done|].
  apply (list_count_ok _ _ (kr_heap _ _ HR) _ _ (alists_wait _ _ _ _ HR Hw)).
Qed.

(** What task_init needs besides the scheduler: the mutex of the GDT is free
    and the name of the task is in memory, away from the task. *)
Record can_create (s : kstate) (t name : Z) (bs : list Z) : Prop := {
  cc_gdt : gdt_wf s;
  cc_mutex : k_mutexes s !! cpu_mutex = Some (Mutex NULL 0);
  cc_name : cstr_at (k_mem s) name bs;
  cc_len : name_ok bs;
  cc_apart : disjoint_ranges t sizeof_task name (len bs + 1)
}.
Definition gdt_mutex_idle (W : gmap Z (list Z)) : Prop := W !! mutex_wait_list cpu_mutex = Some [].

(** Neither the lists nor the current task matter to the first half of
    task_init. *)
Lemma task_named_frame t entry esp bs c h s :
  task_named t entry esp bs (with_curr c (with_heap h s)) =
    with_curr c (with_heap h (task_named t entry esp bs s)).
Proof.
  unfold task_named, tss_ready. change (k_gdt (with_curr c (with_heap h s))) with (k_gdt s).
  by destruct (free_desc (k_gdt s)).
Qed.

Definition idle_entry : Z := symbol "idle_task_entry".
Definition idle_esp : Z := u32 (symbol "idle_task_stack" + IDLE_TASK_STACK_SIZE).
Definition idle_named (s : kstate) : kstate :=
  task_named idle_task idle_entry idle_esp (bytes_of IDLE_TASK_NAME) s.

Lemma task_manager_init_ok s W :
  boot_objs s W → gdt_mutex_idle W →
  can_create s idle_task (literal IDLE_TASK_NAME) (bytes_of IDLE_TASK_NAME) →
  ∃ s', task_manager_init s = Done tt s' ∧ krep s' (a_none W) ∧
    same_env (idle_named s) s' ∧ k_tasks s' = k_tasks (idle_named s) ∧
    k_cpu s' = k_cpu s ∧ keeps_locks s s'.
Proof.
  intros Hb HW [Hg Hm Hs Hn Hd]. destruct (manager_lists_ok s W Hb) as (h & E & HR & Ho).
  unfold task_manager_init. rewrite E. set (s1 := with_curr NULL (with_heap h s)) in *.
  destruct (bo_idle _ _ Hb) as [tk Ht].
  pose proof (mutex_free_krep s1 _ _ HR HW Hm) as Hf.
  pose proof (task_init_split s1 idle_task tk _ _ idle_entry idle_esp Hg Hf Ht Hs Hn Hd) as Es.
  pose proof (krep_task_named s1 _ idle_task tk idle_entry idle_esp (bytes_of IDLE_TASK_NAME)
    HR Ht (not_elem_of_nil _)) as HR2.
  destruct (task_link_idle _ _ HR2) as (h2 & E2 & HR3 & HE3).
  { split; cbn; try apply not_elem_of_nil. intros w l Hl. rewrite (bo_empty _ _ Hb _ _ Hl).
    apply not_elem_of_nil. }
  exists (with_heap h2 (task_named idle_task idle_entry idle_esp (bytes_of IDLE_TASK_NAME) s1)).
  destruct (task_named_rest s1 idle_task idle_entry idle_esp (bytes_of IDLE_TASK_NAME))
    as (Hc & Hlk & _).
  split_and!.
  - erewrite bind_done by (etrans; [exact Es|exact E2]). done.
  - exact HR3.
  - etrans; [|exact HE3]. unfold s1, idle_named. rewrite task_named_frame.
    destruct (task_named_rest s idle_task idle_entry idle_esp (bytes_of IDLE_TASK_NAME))
      as (_ & _ & Hh & _).
    split; try done. cbn [k_heap with_curr with_heap]. by rewrite Hh.
  - unfold s1, idle_named. by rewrite task_named_frame.
  - exact Hc.
  - exact Hlk.
Qed.

(** The scheduler once the main task runs. *)
Definition a_main (W : gmap Z (list Z)) : asched := ASched [main_task] [] [main_task] W main_task.

Lemma unplaced_none t W : (∀ w l, W !! w = Some l → l = []) → unplaced t (a_none W).
Proof.
  intros HW. split; cbn; try apply not_elem_of_nil. intros w l Hl. rewrite (HW _ _ Hl).
  apply not_elem_of_nil.
Qed.
Lemma main_not_idle : main_task ≠ idle_task.
Proof. unfold main_task, idle_task, sizeof_task. lia. Qed.
Lemma awf_main W : (∀ w l, W !! w = Some l → l = []) → awf (a_main W).
Proof.
  intros HW. assert (waiters (a_main W) = []) as Hw.
  { destruct (waiters (a_main W)) as [|t ts] eqn:E; [done|].
    assert (t ∈ waiters (a_main W)) as (w & l & Hl & Ht)%elem_of_waiters
      by (rewrite E; set_solver).
    rewrite (HW _ _ Hl) in Ht. by apply elem_of_nil in Ht. }
  split; cbn.
  - by rewrite Hw.
  - apply NoDup_singleton.
  - intros Hi%list_elem_of_singleton. by apply main_not_idle.
  - done.
  - constructor.
  - done.
Qed.
Lemma krep_curr s a c : krep s a → krep (with_curr c s) (a_set_curr c a).
Proof. intros []. by split. Qed.

Definition main_named (s : kstate) : kstate := task_named main_task 0 0 (bytes_of "main") s.

Lemma task_main_init_ok s W :
  krep s (a_none W) → (∀ w l, W !! w = Some l → l = []) → gdt_mutex_idle W →
  is_Some (k_tasks s !! main_task) →
  can_create s main_task (literal "main") (bytes_of "main") →
  let sel := sel_of (tss_ready main_task 0 0 s) main_task in
  ∃ s', task_main_init s = Done tt s' ∧ krep s' (a_main W) ∧
    k_tasks s' = <[main_task := with_state TASK_READY (fresh_task sel)]> (k_tasks s) ∧
    k_cpu s' = Cpu (eflags (k_cpu s)) (u16 sel) (gdtr (k_cpu s)) (idtr (k_cpu s)) ∧
    k_mem s' = k_mem (main_named s) ∧ k_gdt s' = k_gdt (main_named s) ∧
    k_idt s' = k_idt s ∧ k_io s' = k_io s ∧ k_sys_tick s' = k_sys_tick s ∧
    same_objs (k_heap s) (k_heap s') ∧ keeps_locks s s'.
Proof.
  intros HR HW Hmx [tk Ht] [Hg Hm Hs Hn Hd] sel.
  destruct (task_init_ok s _ main_task tk _ _ 0 0 HR Hg (mutex_free_krep s _ _ HR Hmx Hm) Ht
    Hs Hn Hd main_not_idle (unplaced_none _ _ HW)) as (s1 & E & HR1 & HE1 & Hc1 & Hl1 & Ht1); try done.
  destruct (task_named_rest s main_task 0 0 (bytes_of "main"))
    as (Hc & Hlk & Hh & Hidt & Hio & Htick).
  exists (with_curr main_task (with_cpu (Cpu (eflags (k_cpu s)) (u16 sel) (gdtr (k_cpu s))
    (idtr (k_cpu s))) s1)). split_and!.
  - unfold task_main_init. erewrite bind_done by exact E. cbn beta.
    erewrite bind_done by (apply get_task_done; rewrite Ht1; apply lookup_insert_eq). cbn beta.
    unfold write_tr. by rewrite <- Hc1.
  - apply (krep_curr (with_cpu _ s1) (a_create main_task (a_none W))). by destruct HR1.
  - exact Ht1.
  - done.
  - apply (se_mem _ _ HE1).
  - apply (se_gdt _ _ HE1).
  - by rewrite <- Hidt, <- (se_idt _ _ HE1).
  - by rewrite <- Hio, <- (se_io _ _ HE1).
  - by rewrite <- Htick, <- (se_tick _ _ HE1).
  - rewrite <- Hh. apply (se_objs _ _ HE1).
  - exact Hl1.
Qed.
End first_tasks.

(** ** Properties *)

Section create_properties.
Context `{Platform}.

Lemma unplaced_awf t a : awf a → t ∉ a_all a → unplaced t a.
Proof.
  intros Ha Ht. rewrite <- (aw_place _ Ha), !not_elem_of_app in Ht. destruct Ht as (Hr & Hs & Hw).
  split; [done|done| |].
  - rewrite <- (aw_place _ Ha). set_solver.
  - intros w l Hl Hin. apply Hw, elem_of_waiters. eauto.
Qed.

(** C25: task_init, while a descriptor is free: the new task is last on the ready
    list and on the list of tasks, with a full slice, its name, the next free
    descriptor describing its TSS, and in the TSS its entry point, its stack
    and the kernel's segments, interrupts enabled. The scheduler stays well
    formed and the processor, mutexes and semaphores are as before. *)
Theorem task_init_creates s a t tk name bs entry esp j :
  krep s a → awf a → a_ready a ≠ [] → gdt_wf s → mutex_free s cpu_mutex →
  k_tasks s !! t = Some tk → cstr_at (k_mem s) name bs → name_ok bs →
  disjoint_ranges t sizeof_task name (len bs + 1) →
  t ≠ idle_task → t ∉ a_all a → len (a_all a) + 1 < INT_MAX → free_desc (k_gdt s) = Some j →
  let sel := (Z.of_nat j + 1) * 8 in
  ∃ s', task_init t name entry esp s = Done 0 s' ∧
    krep s' (a_create t a) ∧ awf (a_create t a) ∧
    k_tasks s' = <[t := Task TASK_READY TASK_TIME_SLICE_DEFAULT TASK_TIME_SLICE_DEFAULT 0 sel]>
      (k_tasks s) ∧
    k_gdt s' = <[S j := tss_desc t]> (k_gdt s) ∧
    cstr_at (k_mem s') (t + OFF_task_name) bs ∧
    (∀ o v, (o, v) ∈ tss_words entry esp → load32 (k_mem s') (t + OFF_tss + o) = u32 v) ∧
    k_cpu s' = k_cpu s ∧ keeps_locks s s'.
Proof.
  intros HR Ha Hne Hg Hm Ht Hs Hn Hd Hi Hall Hlen Hj sel.
  pose proof (awf_len_ready _ Ha) as Hlr.
  destruct (task_init_ok s a t tk name bs entry esp HR Hg Hm Ht Hs Hn Hd Hi
    (unplaced_awf t a Ha Hall) Hlr (aw_bound _ Ha)) as (s' & E & HR' & HE & Hc & Hlk & Hts).
  assert (sel_of (tss_ready t entry esp s) t = sel) as Hsel.
  { unfold tss_ready, sel_of. rewrite Hj. cbn. by rewrite lookup_alter_eq, Ht. }
  exists s'. split_and!; try done.
  - by apply awf_create.
  - by rewrite Hts, Hsel.
  - rewrite (se_gdt _ _ HE). by apply task_named_desc.
  - rewrite (se_mem _ _ HE). unfold OFF_task_name. rewrite Z.add_0_r. destruct Hs as [Hnz Hb].
    split; [done|]. by eapply bytes_at_stores, bytes_at_byte.
  - intros o v Hov. rewrite (se_mem _ _ HE). unfold task_named. cbn [k_mem with_tasks with_mem].
    pose proof (proj1 (Forall_forall _ _) (tss_words_range entry esp) _ Hov) as Ho. cbn [fst] in Ho.
    unfold name_ok, TASK_NAME_MAX_IN_SIZE in Hn.
    rewrite load32_stores_out by (unfold disjoint_ranges, OFF_tss; rewrite length_app; cbn; lia).
    unfold tss_ready. rewrite Hj. by apply tss_image_in.
Qed.

(** C26: What goes wrong: with an empty name, or one of more than 32 characters,
    task_init returns -1 and links nothing, but the descriptor and the TSS it
    has set up stay; with no descriptor free it goes on, returns 0, and the
    task is ready with the selector the object held before. *)
Theorem task_init_failures s a t tk name bs entry esp :
  gdt_wf s → mutex_free s cpu_mutex → k_tasks s !! t = Some tk →
  cstr_at (k_mem s) name bs → len bs <= INT_MAX →
  disjoint_ranges t sizeof_task name (len bs + 1) →
  (¬ name_ok bs → ∃ s', task_init t name entry esp s = Done (-1) s' ∧
    k_heap s' = k_heap s ∧
    k_gdt s' = match free_desc (k_gdt s) with
               | Some j => <[S j := tss_desc t]> (k_gdt s)
               | None => k_gdt s
               end) ∧
  (name_ok bs → free_desc (k_gdt s) = None → krep s a → awf a → t ≠ idle_task → t ∉ a_all a →
    ∃ s' tk', task_init t name entry esp s = Done 0 s' ∧ krep s' (a_create t a) ∧
      k_tasks s' !! t = Some tk' ∧ t_state tk' = TASK_READY ∧ t_tss_sel tk' = t_tss_sel tk).
Proof.
  intros Hg Hm Ht Hs Hl Hd. split.
  - intros Hn. rewrite (task_init_bad_name s t tk name bs) by done.
    eexists. split; [done|]. unfold tss_ready. by destruct (free_desc (k_gdt s)).
  - intros Hn Hj HR Ha Hi Hall.
    destruct (task_init_ok s a t tk name bs entry esp HR Hg Hm Ht Hs Hn Hd Hi
      (unplaced_awf t a Ha Hall) (awf_len_ready _ Ha) (aw_bound _ Ha))
      as (s' & E & HR' & HE & Hc & Hlk & Hts).
    exists s'. eexists. split_and!; [done|done|by rewrite Hts, lookup_insert_eq|done|].
    unfold tss_ready, sel_of. rewrite Hj. cbn. by rewrite Ht.
Qed.
End create_properties.
