(* ===== verification/Log.v ===== *)
(** * The log on the serial port (kernel/tools/log.c), panic (tools/klib.c) and
    the default exception handlers (cpu/irq.c) *)

From S2P Require Import Prelude Mem DList Klib Machine Irq Sched SchedSpec SchedOps Mutex TaskInit.

Definition COM1_PORT : Z := 0x3F8.

(** exception_frame_t (cpu/irq.h): what the stubs of start.S push. *)
Record exception_frame_t : Type := Frame {
  f_gs : Z; f_fs : Z; f_es : Z; f_ds : Z;
  f_edi : Z; f_esi : Z; f_ebp : Z; f_esp : Z; f_ebx : Z; f_edx : Z; f_ecx : Z; f_eax : Z;
  f_num : Z;
  f_error_code : Z;
  f_eip : Z; f_cs : Z; f_eflags : Z
}.

(** Carriage return, and the end of a line. *)
Definition cr : string := String (Ascii.ascii_of_nat 13) EmptyString.
Definition crlf : string := String (Ascii.ascii_of_nat 13) (String (Ascii.ascii_of_nat 10) EmptyString).

Section log.
Context `{Platform}.

(** rein_mutex_t mutex (log.c) *)
Definition log_mutex : Z := symbol "mutex".

(** void log_init() *)
Definition log_init : M unit :=
  rein_mutex_init log_mutex;;
  outb (COM1_PORT + 1) 0x00;;
  outb (COM1_PORT + 3) 0x80;;
  outb (COM1_PORT + 0) 0x3;;
  outb (COM1_PORT + 1) 0x00;;
  outb (COM1_PORT + 3) 0x03;;
  outb (COM1_PORT + 2) 0xc7;;
  outb (COM1_PORT + 4) 0x0F.

(** while (inb(COM1_PORT + 5) & (1<<6) == 0) {}: [==] binds tighter than [&]. *)
Definition log_wait : M unit :=
  mwhile (λ _ : unit,
    v ← inb (COM1_PORT + 5);
    if Z.land v (if Z.shiftl 1 6 =? 0 then 1 else 0) =? 0 then mret (Brk tt)
    else mret (Cont tt)) tt.

(** One turn of while( *p != '\0') { busy; outb(COM1_PORT, *p++); } *)
Definition log_char (p : Z) : M (flow Z unit) :=
  c ← gets (λ s, load8 (k_mem s) p);
  if c =? 0 then mret (Brk tt)
  else
    log_wait;;
    outb COM1_PORT c;;
    mret (Cont (p + 1)).
Definition log_chars (p : Z) : M unit := mwhile log_char p.

(** void log_println(const char *msg) *)
Definition log_println (msg : Z) : M unit :=
  rein_mutex_lock log_mutex;;
  log_chars msg;;
  outb COM1_PORT 13;;
  outb COM1_PORT 10;;
  rein_mutex_unlock log_mutex.

(** The local buffer of log_printfln: an address in the frame of the call. *)
Context (str_buf : Z).

(** A routine of klib.c that may hang: kernel_itoa then prints its message
    and spins. *)
Definition run_klib (p : mem → result mem) : M unit := λ s,
  match p (k_mem s) with
  | Ok m => Done tt (with_mem m s)
  | Err (KHang msg) => (log_println (literal msg);; stop HSpin) s
  | Err e => Stop (HKlib e) s
  end.

(** void log_printfln(const char *fmt, ...) *)
Definition log_printfln (fmt : Z) (args : list Z) : M unit :=
  run_klib (λ m, kernel_vsprintf m str_buf fmt args);;
  rein_mutex_lock log_mutex;;
  log_chars str_buf;;
  outb COM1_PORT 13;;
  outb COM1_PORT 10;;
  rein_mutex_unlock log_mutex.

(** for(;;) { hlt(); } with interrupts masked *)
Definition hang : M unit := stop HSpin.

(** void panic(const char *file, int line, const char *func, const char *cond) *)
Definition panic (file line func cond : Z) : M unit :=
  log_printfln (literal "assert failed: %s") [cond];;
  log_printfln (literal "file:%s") [file];;
  log_printfln (literal "line:%d") [line];;
  log_printfln (literal "func:%s") [func];;
  hang.

(** static void dump_core_regs(exception_frame_t *frame) *)
Definition dump_core_regs (frame : exception_frame_t) : M unit :=
  log_printfln (literal "IRQ: %d, error code: %d") [f_num frame; f_error_code frame];;
  log_printfln (literal
    ("CS: %d" +:+ crlf +:+ "DS: %d" +:+ crlf +:+ "ES: %d" +:+ crlf +:+
     "SS: %d" +:+ crlf +:+ "FS: %d" +:+ crlf +:+ "GS: %d" +:+ cr))
    [f_cs frame; f_ds frame; f_es frame; f_ds frame; f_fs frame; f_gs frame];;
  log_printfln (literal
    ("EAX: 0x%x" +:+ crlf +:+ "EBX: 0x%x" +:+ crlf +:+ "ECX: 0x%x" +:+ crlf +:+
     "EDX: 0x%x" +:+ crlf +:+ "EDI: 0x%x" +:+ crlf +:+ "ESI: 0x%x" +:+ crlf +:+
     "EBP: 0x%x" +:+ crlf +:+ "ESP: 0x%x" +:+ cr))
    [f_eax frame; f_ebx frame; f_ecx frame; f_edx frame; f_edi frame;
     f_esi frame; f_ebp frame; f_esp frame];;
  log_printfln (literal ("EIP: 0x%x" +:+ crlf +:+ "EFLAGS: 0x%x"))
    [f_eip frame; f_eflags frame].

(** void do_default_handler(exception_frame_t *frame, const char *msg) *)
Definition do_default_handler (frame : exception_frame_t) (msg : Z) : M unit :=
  log_println (literal "-------------");;
  log_printfln (literal "IRQ/EXCEPTION happened: %s") [msg];;
  dump_core_regs frame;;
  log_println (literal "-------------");;
  hang.

Definition do_handler_unknown frame := do_default_handler frame (literal "unknown exception").
Definition do_handler_divider frame := do_default_handler frame (literal "divider exception").
Definition do_handler_Debug frame := do_default_handler frame (literal "Debug exception").
Definition do_handler_NMI frame := do_default_handler frame (literal "NMI exception").
Definition do_handler_breakpoint frame :=
  do_default_handler frame (literal "breakpoint exception").
Definition do_handler_overflow frame := do_default_handler frame (literal "overflow exception").
Definition do_handler_bound_range frame :=
  do_default_handler frame (literal "bound_range exception").
Definition do_handler_invalid_opcode frame :=
  do_default_handler frame (literal "invalid_opcode exception").
Definition do_handler_device_unavailable frame :=
  do_default_handler frame (literal "device_unavailable exception").
Definition do_handler_double_fault frame :=
  do_default_handler frame (literal "double_fault exception").
Definition do_handler_coprocessor_segment_overrun frame :=
  do_default_handler frame (literal "coprocessor_segment_overrun exception").
Definition do_handler_invalid_tss frame :=
  do_default_handler frame (literal "invalid_tss exception").
Definition do_handler_segment_not_present frame :=
  do_default_handler frame (literal "segment_not_present exception").
Definition do_handler_stack_segment_fault frame :=
  do_default_handler frame (literal "stack_segment_fault exception").
Definition do_handler_general_protection frame :=
  do_default_handler frame (literal "general_protection exception").
Definition do_handler_page_fault frame :=
  do_default_handler frame (literal "page_fault exception").
Definition do_handler_fpu_error frame :=
  do_default_handler frame (literal "fpu_fault exception").
Definition do_handler_alignment_check frame :=
  do_default_handler frame (literal "alignment_check exception").
Definition do_handler_machine_check frame :=
  do_default_handler frame (literal "machine_check exception").
Definition do_handler_smd_exception frame :=
  do_default_handler frame (literal "smd_exception exception").
Definition do_handler_virtual_exception frame :=
  do_default_handler frame (literal "virtual_exception exception").
Definition do_handler_control_protection_exception frame :=
  do_default_handler frame (literal "control_protection_exception exception").
End log.

(** ** What reaches the serial line *)

Section log_facts.
Context `{Platform}.

(** The traffic of the text [cs]: the line status is read once before each
    character, and whatever it says the character is sent. *)
Fixpoint log_traffic (tr : list io) (cs : list Z) : list io :=
  match cs with
  | [] => tr
  | c :: cs =>
      log_traffic (Outb COM1_PORT c :: Inb (COM1_PORT + 5) (u8 (device_inb tr (COM1_PORT + 5))) :: tr) cs
  end.
(** A line: the text, carriage return, line feed. *)
Definition log_line (tr : list io) (cs : list Z) : list io :=
  Outb COM1_PORT 10 :: Outb COM1_PORT 13 :: log_traffic tr cs.

(** The bytes sent on the serial line, oldest first. *)
Definition sent (e : io) : list Z :=
  match e with
  | Outb port v => if port =? COM1_PORT then [v] else []
  | Inb _ _ => []
  end.
Fixpoint serial_out (tr : list io) : list Z :=
  match tr with
  | [] => []
  | e :: tr => serial_out tr ++ sent e
  end.

(** The bytes of a line. *)
Definition line (bs : list Z) : list Z := bs ++ [13; 10].

Lemma serial_traffic tr cs : serial_out (log_traffic tr cs) = serial_out tr ++ cs.
Proof.
  revert tr. induction cs as [|c cs IH]; intros tr; cbn [log_traffic].
  - by rewrite app_nil_r.
  - rewrite IH. cbn [serial_out sent]. rewrite Z.eqb_refl, app_nil_r. by rewrite <- app_assoc.
Qed.
Lemma serial_line tr cs : serial_out (log_line tr cs) = serial_out tr ++ line cs.
Proof.
  unfold log_line, line. cbn [serial_out sent]. rewrite Z.eqb_refl, serial_traffic.
  by rewrite <- !app_assoc.
Qed.

Lemma log_wait_done s :
  log_wait s = Done tt (with_io
    (Inb (COM1_PORT + 5) (u8 (device_inb (k_io s) (COM1_PORT + 5))) :: k_io s) s).
Proof.
  unfold log_wait. eapply (mwhile_steps _ 1); [|done]. apply msteps_brk.
  unfold inb, mbind, M_bind. cbn [rbind]. by rewrite Z.land_0_r.
Qed.

Lemma log_char_end s p : cstr_at (k_mem s) p [] → log_char p s = Done (Brk tt) s.
Proof.
  intros Hc%cstr_at_nil. unfold log_char. erewrite bind_done by done. cbn beta. by rewrite Hc.
Qed.
Lemma log_char_next s p c cs :
  cstr_at (k_mem s) p (c :: cs) →
  log_char p s = Done (Cont (p + 1)) (with_io (log_traffic (k_io s) [c]) s) ∧
  cstr_at (k_mem s) (p + 1) cs.
Proof.
  intros (Hc & Hz & Hs)%cstr_at_cons. split; [|done].
  assert (0 <= c < 0x100) as Hb by (rewrite <- Hc; apply load8_byte). unfold log_char.
  erewrite bind_done by done. cbn beta. rewrite Hc, (proj2 (Z.eqb_neq c 0)) by done.
  erewrite bind_done by apply log_wait_done. cbn beta.
  erewrite bind_done by done. cbn [log_traffic]. by rewrite (u8_small c) by done.
Qed.

Lemma log_chars_ok s p cs :
  cstr_at (k_mem s) p cs → len cs <= INT_MAX →
  log_chars p s = Done tt (with_io (log_traffic (k_io s) cs) s).
Proof.
  intros Hs Hl. unfold log_chars. eapply (mwhile_steps _ (len cs + 1));
    [|unfold INT_MAX in Hl; etrans; [apply Z.add_le_mono_r, Hl|done]]. clear Hl.
  revert s p Hs. induction cs as [|c cs IH]; intros s p Hs.
  - apply msteps_brk. rewrite (log_char_end s p Hs). by destruct s.
  - destruct (log_char_next s p c cs Hs) as [E Hs'].
    cbn [length]. replace (Z.of_nat (S (length cs)) + 1) with (len cs + 1 + 1) by lia.
    eapply msteps_cont; [exact E|]. apply (IH (with_io _ s)). exact Hs'.
Qed.

Lemma mutex_free_io s m l : mutex_free s m → mutex_free (with_io l s) m.
Proof. done. Qed.
Lemma mutex_free_mem s m mm : mutex_free s m → mutex_free (with_mem mm s) m.
Proof. done. Qed.

(** The part log_println and log_printfln share. *)
Lemma log_locked_ok s p cs :
  mutex_free s log_mutex → cstr_at (k_mem s) p cs → len cs <= INT_MAX →
  (rein_mutex_lock log_mutex;; log_chars p;; outb COM1_PORT 13;; outb COM1_PORT 10;;
    rein_mutex_unlock log_mutex) s = Done tt (with_io (log_line (k_io s) cs) s).
Proof.
  intros [Hm Hw] Hs Hl. erewrite bind_done by (by apply lock_free). cbn beta.
  erewrite bind_done by (by apply (log_chars_ok (mutex_set _ _ s))). cbn beta.
  do 2 (erewrite bind_done by done; cbn beta).
  etrans; [apply unlock_free; [apply mutex_set_lookup|exact Hw]|].
  f_equal. unfold mutex_set. cbn. rewrite insert_insert_eq, insert_id by done. done.
Qed.

Lemma log_println_ok s msg cs :
  mutex_free s log_mutex → cstr_at (k_mem s) msg cs → len cs <= INT_MAX →
  log_println msg s = Done tt (with_io (log_line (k_io s) cs) s).
Proof. apply log_locked_ok. Qed.

(** log_printfln sends the rendering of its format. *)
Lemma log_printfln_ok str_of str_buf s f fmt args out :
  mutex_free s log_mutex → cstr_at (k_mem s) f fmt → len fmt <= INT_MAX →
  render str_of NORMAL fmt args = (out, None) → Forall (λ c, 0 < c < 0x100) out →
  len out <= INT_MAX →
  disjoint_ranges str_buf (len out + 1) f (len fmt + 1) →
  strings_ready str_of (k_mem s) str_buf (len out + 1) (str_args NORMAL fmt args) →
  log_printfln str_buf f args s = Done tt (with_io (log_line (k_io s) out)
    (with_mem (stores (k_mem s) str_buf (out ++ [0])) s)).
Proof.
  unfold INT_MAX. intros Hm Hf Hlf Hr Hb Hl Hd Hs. unfold log_printfln, run_klib.
  erewrite bind_done; [|rewrite (vsprintf_ok str_of _ _ _ fmt);
    [unfold vs_result; rewrite Hr; reflexivity|done|lia|by rewrite Hr|by rewrite Hr]].
  apply (log_locked_ok (with_mem _ s)); [done| |exact Hl].
  split; [eapply Forall_impl; [exact Hb|intros c [??] ->; done]|]. apply bytes_at_stores, Forall_app. split.
  - eapply Forall_impl; [exact Hb|]. unfold byte. lia.
  - apply Forall_singleton. unfold byte. lia.
Qed.
End log_facts.

(** ** Properties *)

Section log_properties.
Context `{Platform}.

(** log_printfln, called while the log is free, sends on the serial line the
    rendering of its format followed by CR and LF, and nothing else; the
    mutex is free again, the text is left in str_buf, and the scheduler is
    not involved. *)
Theorem log_printfln_sends str_of str_buf s f fmt args out :
  mutex_free s log_mutex → cstr_at (k_mem s) f fmt → len fmt <= INT_MAX →
  render str_of NORMAL fmt args = (out, None) → Forall (λ c, 0 < c < 0x100) out → len out < 128 →
  disjoint_ranges str_buf (len out + 1) f (len fmt + 1) →
  strings_ready str_of (k_mem s) str_buf (len out + 1) (str_args NORMAL fmt args) →
  ∃ s', log_printfln str_buf f args s = Done tt s' ∧
    serial_out (k_io s') = serial_out (k_io s) ++ out ++ [13; 10] ∧
    cstr_at (k_mem s') str_buf out ∧ mutex_free s' log_mutex ∧
    k_heap s' = k_heap s ∧ k_tasks s' = k_tasks s ∧ k_cpu s' = k_cpu s.
Proof.
  intros Hm Hf Hlf Hr Hb Hl Hd Hs. rewrite (log_printfln_ok str_of str_buf s f fmt args out)
    by (done || unfold INT_MAX; lia).
  eexists. split; [done|]. split_and!; try done.
  - apply serial_line.
  - cbn. split; [eapply Forall_impl; [exact Hb|intros c [??] ->; done]|].
    apply bytes_at_stores, Forall_app. split.
    + eapply Forall_impl; [exact Hb|]. unfold byte. lia.
    + apply Forall_singleton. unfold byte. lia.
Qed.
End log_properties.

Lemma log_printfln_sends_witness :
  let s := demo_kernel (stores ∅ 0x30000 (bytes_of "sending notify: %d" ++ [0]))
    (LHeap ∅ {[0x28208 := List 0 0 0]}) ∅ {[0x28200 := Mutex NULL 0]} ∅ in
  ∃ s', log_printfln (H := demo_platform) 0x31000 0x30000 [41] s = Done tt s' ∧
    serial_out (k_io s') = bytes_of "sending notify: 41" ++ [13; 10].
Proof.
  intros s.
  destruct (log_printfln_sends (H := demo_platform) (λ _, []) 0x31000 s 0x30000
    (bytes_of "sending notify: %d") [41] (bytes_of "sending notify: 41")) as (s' & E & Ho & _).
  - split; vm_compute; reflexivity.
  - split; [by apply (bool_decide_unpack _)|vm_compute; done].
  - vm_compute. discriminate.
  - vm_compute. reflexivity.
  - apply (bool_decide_unpack _). vm_compute. done.
  - done.
  - right. vm_compute. discriminate.
  - intros p Hp. vm_compute in Hp. by apply elem_of_nil in Hp.
  - exists s'. split; [exact E|exact Ho].
Defined.
