(* ===== verification/Report.v ===== *)
(** * What an exception handler prints (kernel/cpu/irq.c: do_default_handler,
    dump_core_regs)

    The handlers of the exceptions print the registers on the log and stop.
    The lines are computed by the reference renderer of [Klib]. *)

From S2P Require Import Prelude Mem DList Klib Machine Irq Sched SchedSpec SchedOps Mutex TaskInit Log.

(** ** Rendered texts *)

(** No [%c] in a format: an argument of it may be any byte, NUL included. *)
Fixpoint no_char_conv (st : fmt_state) (fmt : list Z) : bool :=
  match fmt with
  | [] => true
  | ch :: fmt =>
      match st with
      | NORMAL => no_char_conv (if ch =? 37 then READ_FMT else NORMAL) fmt
      | READ_FMT => negb (ch =? 99) && no_char_conv NORMAL fmt
      end
  end.
(** Bytes a C string is made of. *)
Definition text_byte (c : Z) : Prop := 0 < c < 0x100.

Lemma text_stored m a bs : Forall text_byte bs → cstr_at (stores m a (bs ++ [0])) a bs.
Proof.
  intros Ht. split; [eapply Forall_impl; [exact Ht|intros c [??] ->; done]|].
  apply bytes_at_stores, Forall_app. split.
  - eapply Forall_impl; [exact Ht|]. unfold byte, text_byte. lia.
  - apply Forall_singleton. unfold byte. lia.
Qed.
Lemma itoa_text num base : 2 <= base <= 16 → Forall text_byte (itoa_str num base).
Proof.
  intros Hb. unfold itoa_str. apply Forall_app. split; [by destruct (_ && _); repeat constructor|].
  apply Forall_rev, Forall_fmap. eapply Forall_impl; [apply digits_range; lia|].
  cbn beta. intros d Hd. pose proof (digit_char_range d). unfold text_byte, compose. lia.
Qed.

Lemma render_text str_of st fmt args :
  Forall text_byte fmt → no_char_conv st fmt = true →
  (∀ p, p ∈ str_args st fmt args → Forall text_byte (str_of p)) →
  Forall text_byte (render str_of st fmt args).1.
Proof.
  revert st args. induction fmt as [|ch fmt IH]; intros st args Hf Hc Hs; [constructor|].
  apply Forall_cons in Hf as [Hch Hf]. destruct st; cbn [no_char_conv] in Hc.
  - cbn [str_args] in Hs. cbn [render]. destruct (ch =? 37); [by apply IH|].
    specialize (IH NORMAL args Hf Hc Hs). destruct (render str_of NORMAL fmt args). by constructor.
  - apply andb_true_iff in Hc as [Hch99 Hc]. cbn [render].
    destruct (render_conv str_of ch args) as [[s args']|e] eqn:E; [|constructor].
    rewrite (str_args_conv str_of _ _ _ _ _ E) in Hs.
    assert (Forall text_byte (render str_of NORMAL fmt args').1) as Hr.
    { apply IH; [done|done|]. intros p Hp. apply Hs, elem_of_app. by right. }
    destruct (render str_of NORMAL fmt args') as [o e']. cbn in Hr |- *. apply Forall_app. split; [|done].
    unfold render_conv, mbind, result_bind in E.
    destruct (ch =? 115).
    { destruct args as [|p args]; [done|]. cbn in E. injection E as <- <-. apply Hs. set_solver. }
    destruct (ch =? 100).
    { destruct args as [|a args]; [done|]. cbn in E. injection E as <- <-. by apply itoa_text. }
    destruct (ch =? 120).
    { destruct args as [|a args]; [done|]. cbn [va_arg] in E. destruct (i32 a <? 0); [done|].
      injection E as <- <-. by apply itoa_text. }
    destruct (ch =? 99); [done|].
    destruct (ch =? 37); injection E as <- <-; by repeat constructor.
Qed.

(** The conversions of a format that take an argument. *)
Fixpoint convs (st : fmt_state) (fmt : list Z) : list Z :=
  match fmt with
  | [] => []
  | ch :: fmt =>
      match st with
      | NORMAL => convs (if ch =? 37 then READ_FMT else NORMAL) fmt
      | READ_FMT =>
          if (ch =? 115) || (ch =? 100) || (ch =? 120) || (ch =? 99) then ch :: convs NORMAL fmt
          else convs NORMAL fmt
      end
  end.
(** How the first failing conversion fails. *)
Fixpoint conv_error (cs args : list Z) : option kerr :=
  match cs, args with
  | [], _ => None
  | _ :: _, [] => Some KVaArg
  | c :: cs, a :: args =>
      if (c =? 120) && (i32 a <? 0) then Some (KHang "kernel_itoa: base16 when num < 0")
      else conv_error cs args
  end.

Lemma render_error str_of st fmt args :
  (render str_of st fmt args).2 = conv_error (convs st fmt) args.
Proof.
  revert st args. induction fmt as [|ch fmt IH]; intros st args; [done|]. destruct st; cbn [render convs].
  - destruct (ch =? 37); [apply IH|]. rewrite <- IH. by destruct (render str_of NORMAL fmt args).
  - assert (∀ (s : list Z) args', (let '(o, e) := render str_of NORMAL fmt args' in (s ++ o, e)).2 =
      conv_error (convs NORMAL fmt) args') as Hnext.
    { intros s args'. rewrite <- IH. by destruct (render str_of NORMAL fmt args'). }
    unfold render_conv, mbind, result_bind.
    destruct (Z.eqb_spec ch 115) as [->|_]; [by destruct args; [|apply Hnext]|].
    destruct (Z.eqb_spec ch 100) as [->|_]; [by destruct args; [|apply Hnext]|].
    destruct (Z.eqb_spec ch 120) as [->|Hx]; cbn [orb].
    { destruct args as [|a args]; [done|]. cbn [va_arg conv_error].
      rewrite Z.eqb_refl. cbn [andb]. destruct (i32 a <? 0); [done|apply Hnext]. }
    destruct (Z.eqb_spec ch 99) as [->|_]; [by destruct args; [|apply Hnext]|].
    destruct (ch =? 37); apply Hnext.
Qed.

Lemma render_plain str_of lit fmt args :
  Forall (λ c, c ≠ 37) lit →
  render str_of NORMAL (lit ++ fmt) args =
    (lit ++ (render str_of NORMAL fmt args).1, (render str_of NORMAL fmt args).2).
Proof.
  induction 1 as [|c lit Hc _ IH]; cbn [app render]; [by destruct (render _ _ _ _)|].
  rewrite (proj2 (Z.eqb_neq c 37) Hc), IH. done.
Qed.

(** How long a text can be, for strings of at most [k] bytes: 11 characters for
    [%d], 8 for [%x]. *)
Fixpoint width (k : Z) (st : fmt_state) (fmt : list Z) : Z :=
  match fmt with
  | [] => 0
  | ch :: fmt =>
      match st with
      | NORMAL => if ch =? 37 then width k READ_FMT fmt else 1 + width k NORMAL fmt
      | READ_FMT =>
          (if ch =? 115 then k else if ch =? 100 then 11 else if ch =? 120 then 8 else 1) + width k NORMAL fmt
      end
  end.
Lemma width_pos k st fmt : 0 <= k → 0 <= width k st fmt.
Proof.
  intros Hk. revert st. induction fmt as [|ch fmt IH]; intros st; [done|]. destruct st; cbn [width].
  - pose proof (IH READ_FMT). pose proof (IH NORMAL). case_match; lia.
  - pose proof (IH NORMAL). repeat case_match; lia.
Qed.
Lemma render_width k str_of st fmt args :
  0 <= k → (∀ p, p ∈ str_args st fmt args → len (str_of p) <= k) →
  len (render str_of st fmt args).1 <= width k st fmt.
Proof.
  intros Hk. revert st args. induction fmt as [|ch fmt IH]; intros st args Hs; [done|]. destruct st; cbn [render width].
  - cbn [str_args] in Hs. destruct (ch =? 37); [by apply IH|].
    specialize (IH NORMAL args Hs). destruct (render str_of NORMAL fmt args). cbn [fst length] in *. lia.
  - pose proof (width_pos k NORMAL fmt Hk) as Hp.
    destruct (render_conv str_of ch args) as [[s args']|e] eqn:E; [|cbn; repeat case_match; lia].
    rewrite (str_args_conv str_of _ _ _ _ _ E) in Hs.
    assert (len (render str_of NORMAL fmt args').1 <= width k NORMAL fmt) as Hr.
    { apply IH. intros p Hp'. apply Hs, elem_of_app. by right. }
    destruct (render str_of NORMAL fmt args') as [o e']. cbn [fst] in *. rewrite length_app.
    unfold render_conv, mbind, result_bind in E.
    destruct (ch =? 115).
    { destruct args as [|p args]; [done|]. cbn in E. injection E as <- <-.
      assert (len (str_of p) <= k) by (apply Hs, elem_of_app; left; by left). lia. }
    destruct (ch =? 100).
    { destruct args as [|a args]; [done|]. cbn [va_arg] in E. injection E as <- <-.
      pose proof (itoa_str_dec (i32 a) (i32_bound a)). lia. }
    destruct (ch =? 120).
    { destruct args as [|a args]; [done|]. cbn [va_arg] in E. destruct (Z.ltb_spec (i32 a) 0); [done|].
      injection E as <- <-. pose proof (i32_bound a). pose proof (itoa_str_hex (i32 a) ltac:(lia)). lia. }
    destruct (ch =? 99); [destruct args; [done|]; cbn in E; injection E as <- <-; cbn; lia|].
    destruct (ch =? 37); injection E as <- <-; cbn [length]; lia.
Qed.

(** ** The lines of a report *)

Definition dashes : string := "-------------".
Definition fmt_happened : string := "IRQ/EXCEPTION happened: %s".
Definition fmt_number : string := "IRQ: %d, error code: %d".
Definition fmt_segments : string :=
  "CS: %d" +:+ crlf +:+ "DS: %d" +:+ crlf +:+ "ES: %d" +:+ crlf +:+
  "SS: %d" +:+ crlf +:+ "FS: %d" +:+ crlf +:+ "GS: %d" +:+ cr.
Definition fmt_registers : string :=
  "EAX: 0x%x" +:+ crlf +:+ "EBX: 0x%x" +:+ crlf +:+ "ECX: 0x%x" +:+ crlf +:+
  "EDX: 0x%x" +:+ crlf +:+ "EDI: 0x%x" +:+ crlf +:+ "ESI: 0x%x" +:+ crlf +:+
  "EBP: 0x%x" +:+ crlf +:+ "ESP: 0x%x" +:+ cr.
Definition fmt_control : string := "EIP: 0x%x" +:+ crlf +:+ "EFLAGS: 0x%x".
Definition hang_message : string := "kernel_itoa: base16 when num < 0".

Definition segments_of (f : exception_frame_t) : list Z :=
  [f_cs f; f_ds f; f_es f; f_ds f; f_fs f; f_gs f].
Definition registers_of (f : exception_frame_t) : list Z :=
  [f_eax f; f_ebx f; f_ecx f; f_edx f; f_edi f; f_esi f; f_ebp f; f_esp f].
Definition control_of (f : exception_frame_t) : list Z := [f_eip f; f_eflags f].

(** The text a format and its arguments stand for. *)
Definition text_for (text : list Z) (fmt : string) (args : list Z) : list Z :=
  (render (λ _, text) NORMAL (bytes_of fmt) args).1.

(** Up to the segment registers, and the whole report. *)
Definition report_head (f : exception_frame_t) (text : list Z) : list (list Z) :=
  [bytes_of dashes; bytes_of "IRQ/EXCEPTION happened: " ++ text;
   text_for text fmt_number [f_num f; f_error_code f]; text_for text fmt_segments (segments_of f)].
Definition report (f : exception_frame_t) (text : list Z) : list (list Z) :=
  report_head f text ++
  [text_for text fmt_registers (registers_of f); text_for text fmt_control (control_of f);
   bytes_of dashes].

(** Every line but that of the general registers fits the buffer of
    log_printfln. *)
Lemma text_width text f args :
  str_args NORMAL (bytes_of f) args = [] → len (text_for text f args) <= width 0 NORMAL (bytes_of f).
Proof. intros Hs. apply render_width; [done|]. rewrite Hs. intros p Hp. by apply elem_of_nil in Hp. Qed.
Lemma report_fits f text :
  len text < 104 → len (text_for text fmt_registers (registers_of f)) < 128 →
  Forall (λ l, len l < 128) (report f text).
Proof.
  intros Ht Hg. unfold report, report_head.
  pose proof (text_width text fmt_number [f_num f; f_error_code f] eq_refl) as H1.
  pose proof (text_width text fmt_segments (segments_of f) eq_refl) as H2.
  pose proof (text_width text fmt_control (control_of f) eq_refl) as H3.
  change (width 0 NORMAL (bytes_of fmt_number)) with 41 in H1.
  change (width 0 NORMAL (bytes_of fmt_segments)) with 101 in H2.
  change (width 0 NORMAL (bytes_of fmt_control)) with 35 in H3.
  cbn [app]. rewrite !Forall_cons. split_and!; try done; try lia.
  rewrite length_app. change (len (bytes_of "IRQ/EXCEPTION happened: ")) with 24.
  change (length (bytes_of "IRQ/EXCEPTION happened: ")) with 24%nat. lia.
Qed.

(** Some value is negative as an int: [%x] hangs on it. *)
Definition some_negative (args : list Z) : Prop := Exists (λ a, i32 a < 0) args.
#[global] Instance some_negative_dec args : Decision (some_negative args) := _.

(** What is printed: kernel_itoa cuts the report short at the first [%x] line
    with a negative value. *)
Definition printed (f : exception_frame_t) (text : list Z) : list (list Z) :=
  report_head f text ++
  if decide (some_negative (registers_of f)) then [bytes_of hang_message]
  else text_for text fmt_registers (registers_of f) ::
    if decide (some_negative (control_of f)) then [bytes_of hang_message]
    else [text_for text fmt_control (control_of f); bytes_of dashes].

Section report.
Context `{Platform}.
Context (str_buf msg : Z) (text : list Z).

Definition report_literals : list string :=
  [dashes; fmt_happened; fmt_number; fmt_segments; fmt_registers; fmt_control; hang_message].

(** The log is free, and the constants and the message are in memory, away
    from the buffer of log_printfln. *)
Record report_ready (s : kstate) : Prop := {
  rr_mutex : mutex_free s log_mutex;
  rr_literals : ∀ f, f ∈ report_literals → cstr_at (k_mem s) (literal f) (bytes_of f) ∧
    disjoint_ranges str_buf 128 (literal f) (len (bytes_of f) + 1);
  rr_msg : cstr_at (k_mem s) msg text ∧ disjoint_ranges str_buf 128 msg (len text + 1);
  rr_text : Forall text_byte text ∧ len text < 128
}.

Lemma report_ready_io s tr : report_ready s → report_ready (with_io tr s).
Proof. by intros []. Qed.
Lemma report_ready_mem s out :
  len out < 128 → report_ready s → report_ready (with_mem (stores (k_mem s) str_buf (out ++ [0])) s).
Proof.
  intros Hl [Hm Hlit [Hmsg Hd] Ht].
  assert (∀ a bs, cstr_at (k_mem s) a bs → disjoint_ranges str_buf 128 a (len bs + 1) →
    cstr_at (stores (k_mem s) str_buf (out ++ [0])) a bs) as Hkeep.
  { intros a bs Hbs Hdis. apply cstr_at_stores_out; [|done].
    unfold disjoint_ranges in *. rewrite length_app. cbn. lia. }
  split; [done| | |done].
  - intros f Hf. destruct (Hlit f Hf). split; [by apply Hkeep|done].
  - split; [by apply Hkeep|done].
Qed.

Lemma literal_text f :
  f ∈ report_literals →
  Forall text_byte (bytes_of f) ∧ no_char_conv NORMAL (bytes_of f) = true ∧ len (bytes_of f) <= INT_MAX.
Proof.
  unfold report_literals. rewrite !elem_of_cons, elem_of_nil.
  by intros [->|[->|[->|[->|[->|[->|[->|[]]]]]]]]; (split; [by apply (bool_decide_unpack _); vm_compute|]);
    vm_compute.
Qed.

(** One line. *)
Lemma println_line s f :
  report_ready s → f ∈ report_literals →
  ∃ s', log_println (literal f) s = Done tt s' ∧ report_ready s' ∧
    serial_out (k_io s') = serial_out (k_io s) ++ line (bytes_of f).
Proof.
  intros Hr Hf. destruct (rr_literals _ Hr f Hf) as [Hs _].
  eexists. split; [apply log_println_ok; [apply Hr|exact Hs|]|].
  - by apply literal_text.
  - split; [by apply report_ready_io|apply serial_line].
Qed.
Lemma printfln_line s f args out :
  report_ready s → f ∈ report_literals → str_args NORMAL (bytes_of f) args ⊆ [msg] →
  render (λ _, text) NORMAL (bytes_of f) args = (out, None) → len out < 128 →
  ∃ s', log_printfln str_buf (literal f) args s = Done tt s' ∧ report_ready s' ∧
    serial_out (k_io s') = serial_out (k_io s) ++ line out.
Proof.
  intros Hr Hf Ha Hout Hl. destruct (rr_literals _ Hr f Hf) as [Hs Hd].
  destruct (literal_text f Hf) as (Hb & Hc & Hlen).
  destruct (rr_msg _ Hr) as [Hm Hdm]. destruct (rr_text _ Hr) as [Ht Htl].
  eexists. split; [apply (log_printfln_ok (λ _, text) str_buf s _ (bytes_of f) args out)|].
  - apply Hr.
  - done.
  - done.
  - done.
  - change out with (out, None (A := kerr)).1. rewrite <- Hout. by apply render_text.
  - unfold INT_MAX. lia.
  - unfold disjoint_ranges in *. lia.
  - intros p Hp. apply Ha, list_elem_of_singleton in Hp as ->. split; [done|].
    unfold disjoint_ranges in *. lia.
  - split; [|apply serial_line].
    by apply report_ready_io, report_ready_mem.
Qed.

(** *** Renderings *)

Lemma text_for_ok f args :
  conv_error (convs NORMAL (bytes_of f)) args = None →
  render (λ _, text) NORMAL (bytes_of f) args = (text_for text f args, None).
Proof.
  intros He. rewrite <- (render_error (λ _, text)) in He. unfold text_for.
  destruct (render (λ _, text) NORMAL (bytes_of f) args). cbn in *. by subst.
Qed.
Lemma text_happened : text_for text fmt_happened [msg] = bytes_of "IRQ/EXCEPTION happened: " ++ text.
Proof.
  unfold text_for.
  change (bytes_of fmt_happened) with (bytes_of "IRQ/EXCEPTION happened: " ++ [37; 115]).
  rewrite render_plain by (by apply (bool_decide_unpack _); vm_compute). cbn [fst]. f_equal.
  apply app_nil_r.
Qed.

(** A list of [%x] conversions fails on the first negative argument. *)
Lemma hex_error (n : nat) args :
  n = length args →
  conv_error (replicate n 120) args =
    if decide (some_negative args) then Some (KHang hang_message) else None.
Proof.
  intros ->. induction args as [|a args IH]; [by rewrite decide_False by (by intros ?%Exists_nil)|].
  cbn. destruct (Z.ltb_spec (i32 a) 0) as [Ha|Ha].
  - by rewrite decide_True by by left.
  - rewrite IH. apply decide_ext. unfold some_negative. rewrite Exists_cons. split; [by right|]. intros [?|?]; [lia|done].
Qed.
Lemma no_strings f args : str_args NORMAL (bytes_of f) args = [] → str_args NORMAL (bytes_of f) args ⊆ [msg].
Proof. intros ->. apply list_subseteq_nil. Qed.

(** *** The report *)

Lemma report_head_ok f s :
  report_ready s → Forall (λ l, len l < 128) (report_head f text) →
  ∃ s', do_default_handler str_buf f msg s =
      ((log_printfln str_buf (literal fmt_registers) (registers_of f);;
        log_printfln str_buf (literal fmt_control) (control_of f));;
       log_println (literal dashes);; hang) s' ∧
    report_ready s' ∧
    serial_out (k_io s') = serial_out (k_io s) ++ concat (line <$> report_head f text).
Proof.
  intros Hr Hl. unfold report_head in Hl.
  rewrite !Forall_cons in Hl. destruct Hl as (_ & Hl1 & Hl2 & Hl3 & _).
  destruct (println_line s dashes Hr) as (s1 & E1 & Hr1 & Ho1); [unfold report_literals; set_solver|].
  destruct (printfln_line s1 fmt_happened [msg] (text_for text fmt_happened [msg]) Hr1)
    as (s2 & E2 & Hr2 & Ho2);
    [unfold report_literals; set_solver|by vm_compute|by apply text_for_ok|by rewrite text_happened|].
  destruct (printfln_line s2 fmt_number [f_num f; f_error_code f] _ Hr2 ltac:(unfold report_literals; set_solver)
    (no_strings fmt_number [f_num f; f_error_code f] eq_refl) (text_for_ok fmt_number [f_num f; f_error_code f] eq_refl) Hl2)
    as (s3 & E3 & Hr3 & Ho3).
  destruct (printfln_line s3 fmt_segments (segments_of f) _ Hr3 ltac:(unfold report_literals; set_solver)
    (no_strings fmt_segments (segments_of f) eq_refl) (text_for_ok fmt_segments (segments_of f) eq_refl) Hl3)
    as (s4 & E4 & Hr4 & Ho4).
  exists s4. split; [|split; [done|]].
  - unfold do_default_handler, dump_core_regs.
    erewrite bind_done by exact E1. cbn beta. erewrite bind_done by exact E2. cbn beta.
    erewrite bind2_done by exact E3. cbn beta. by erewrite bind2_done by exact E4.
  - rewrite Ho4, Ho3, Ho2, Ho1, text_happened. unfold report_head. cbn [fmap list_fmap concat].
    by rewrite app_nil_r, <- !app_assoc.
Qed.
(** The two lines of dump_core_regs that use [%x]. *)
Lemma text_for_hex f (n : nat) args :
  convs NORMAL (bytes_of f) = replicate n 120 → n = length args →
  ¬ some_negative args →
  render (λ _, text) NORMAL (bytes_of f) args = (text_for text f args, None).
Proof.
  intros Hc Hn Ha. apply text_for_ok. rewrite Hc, (hex_error n args Hn).
  by apply decide_False.
Qed.

Lemma printfln_hang s f (n : nat) args :
  report_ready s → f ∈ report_literals → str_args NORMAL (bytes_of f) args = [] →
  convs NORMAL (bytes_of f) = replicate n 120 → n = length args →
  some_negative args → len (text_for text f args) < 128 →
  ∃ s', log_printfln str_buf (literal f) args s = Stop HSpin s' ∧
    serial_out (k_io s') = serial_out (k_io s) ++ line (bytes_of hang_message).
Proof.
  intros Hr Hf Hs Hc Hn Ha Hl. destruct (rr_literals _ Hr f Hf) as [Hst Hd].
  destruct (println_line s hang_message Hr) as (s' & E & _ & Ho); [unfold report_literals; set_solver|].
  exists s'. split; [|exact Ho]. unfold log_printfln. apply bind_stop. unfold run_klib.
  rewrite (vsprintf_ok (λ _, text) (k_mem s) str_buf (literal f) (bytes_of f)).
  - unfold vs_result.
    assert ((render (λ _, text) NORMAL (bytes_of f) args).2 = Some (KHang hang_message)) as ->.
    { rewrite render_error, Hc, (hex_error n args Hn). by apply decide_True. }
    by erewrite bind_done by exact E.
  - done.
  - destruct (literal_text f Hf) as (_ & _ & Hlen). unfold INT_MAX in Hlen. lia.
  - unfold text_for in Hl. unfold disjoint_ranges in *. lia.
  - rewrite Hs. intros p Hp. by apply elem_of_nil in Hp.
Qed.

(** A [%x] line of dump_core_regs: it is printed, or cut short. *)
Lemma hex_line s f (n : nat) args :
  report_ready s → f ∈ report_literals → str_args NORMAL (bytes_of f) args = [] →
  convs NORMAL (bytes_of f) = replicate n 120 → n = length args → len (text_for text f args) < 128 →
  if decide (some_negative args) then
    ∃ s', log_printfln str_buf (literal f) args s = Stop HSpin s' ∧
      serial_out (k_io s') = serial_out (k_io s) ++ line (bytes_of hang_message)
  else
    ∃ s', log_printfln str_buf (literal f) args s = Done tt s' ∧ report_ready s' ∧
      serial_out (k_io s') = serial_out (k_io s) ++ line (text_for text f args).
Proof.
  intros Hr Hf Hs Hc Hn Hl. destruct (decide (some_negative args)) as [Hx|Hx].
  - by apply (printfln_hang s f n).
  - apply printfln_line; [done|done|by apply no_strings|by apply (text_for_hex f n)|done].
Qed.

(** dump_core_regs after the segment registers, and the end of the handler. *)
Lemma report_tail_ok f s :
  report_ready s → len (text_for text fmt_registers (registers_of f)) < 128 →
  len (text_for text fmt_control (control_of f)) < 128 →
  ∃ s', ((log_printfln str_buf (literal fmt_registers) (registers_of f);;
      log_printfln str_buf (literal fmt_control) (control_of f));;
      log_println (literal dashes);; hang) s = Stop HSpin s' ∧
    serial_out (k_io s') = serial_out (k_io s) ++ concat (line <$>
      (if decide (some_negative (registers_of f)) then [bytes_of hang_message]
      else text_for text fmt_registers (registers_of f) ::
        if decide (some_negative (control_of f)) then [bytes_of hang_message]
        else [text_for text fmt_control (control_of f); bytes_of dashes])).
Proof.
  intros Hr Hl1 Hl2.
  pose proof (hex_line s fmt_registers 8 (registers_of f) Hr ltac:(unfold report_literals; set_solver)
    eq_refl eq_refl eq_refl Hl1) as H1.
  destruct (decide (some_negative (registers_of f))) as [_|_].
  { destruct H1 as (s1 & E1 & Ho1). exists s1. split; [by do 2 apply bind_stop|].
    rewrite Ho1. cbn [fmap list_fmap concat]. by rewrite app_nil_r. }
  destruct H1 as (s1 & E1 & Hr1 & Ho1).
  pose proof (hex_line s1 fmt_control 2 (control_of f) Hr1 ltac:(unfold report_literals; set_solver)
    eq_refl eq_refl eq_refl Hl2) as H2.
  destruct (decide (some_negative (control_of f))) as [_|_].
  { destruct H2 as (s2 & E2 & Ho2). exists s2. split.
    - apply bind_stop. by erewrite bind_done by exact E1.
    - rewrite Ho2, Ho1. cbn [fmap list_fmap concat]. by rewrite app_nil_r, <- app_assoc. }
  destruct H2 as (s2 & E2 & Hr2 & Ho2).
  destruct (println_line s2 dashes Hr2) as (s3 & E3 & _ & Ho3); [unfold report_literals; set_solver|].
  exists s3. split.
  - erewrite bind_done by (erewrite bind_done by exact E1; exact E2). cbn beta.
    by erewrite bind_done by exact E3.
  - rewrite Ho3, Ho2, Ho1. cbn [fmap list_fmap concat]. by rewrite app_nil_r, <- !app_assoc.
Qed.
End report.

(** ** Property *)

(** C35: The default handler of exceptions, while the log is free, for a message
    of fewer than 104 characters and a frame whose line of general registers
    fits the 128 bytes of str_buf, the strings of the report being in memory
    apart from that buffer ([report_ready]): it ends in the halt loop after printing, line
    by line, the dashes, the message, the vector and error code, the segment
    registers, the general registers, EIP and EFLAGS and the dashes; but when a
    general register, or EIP or EFLAGS, is 2^31 or more, the message of
    kernel_itoa takes the place of that line and the report stops there. The
    other lines always fit. The line of general registers has up to 135
    characters: longer than 127, it overruns str_buf, and nothing is claimed. *)
Theorem default_handler_reports `{Platform} str_buf msg text f s :
  report_ready str_buf msg text s → len text < 104 →
  len (text_for text fmt_registers (registers_of f)) < 128 →
  ∃ s', do_default_handler str_buf f msg s = Stop HSpin s' ∧
    serial_out (k_io s') = serial_out (k_io s) ++ concat (line <$> printed f text).
Proof.
  intros Hr Ht Hg. pose proof (report_fits f text Ht Hg) as Hfit. unfold report in Hfit.
  rewrite Forall_app, !Forall_cons in Hfit. destruct Hfit as (Hh & Hl1 & Hl2 & _).
  destruct (report_head_ok str_buf msg text f s Hr Hh) as (s1 & E1 & Hr1 & Ho1).
  destruct (report_tail_ok str_buf msg text f s1 Hr1 Hl1 Hl2) as (s2 & E2 & Ho2).
  exists s2. split.
  - by rewrite E1.
  - rewrite Ho2, Ho1. unfold printed. by rewrite fmap_app, concat_app, app_assoc.
Qed.

(** The registers line has up to 135 characters: more than the 128 bytes of the
    buffer of log_printfln hold. *)
Lemma registers_line_overflows :
  (∀ text f, len (text_for text fmt_registers (registers_of f)) <= 135) ∧
  ∃ f, ¬ some_negative (registers_of f) ∧ len (text_for [] fmt_registers (registers_of f)) = 135.
Proof.
  split; [intros text f; exact (text_width text fmt_registers (registers_of f) eq_refl)|].
  exists (let v := 0x10000000 in Frame 0 0 0 0 v v v v v v v v 13 0 0 0 0).
  split; [by apply (bool_decide_unpack _); vm_compute|by vm_compute].
Qed.

(** A kernel that holds the strings of a report. *)
Definition report_addresses : list (string * Z) :=
  imap (λ i f, ("literal:" +:+ f, 0x40000 + 0x100 * Z.of_nat i)) report_literals.
Definition report_platform : Platform :=
  {| symbol name := default 0x28200 (snd <$> (snd <$> list_find (λ p, p.1 = name) report_addresses));
     device_inb := λ _ _, 0 |}.
#[local] Existing Instance report_platform.
Definition report_state : kstate :=
  demo_kernel (foldl (λ m f, stores m (literal f) (bytes_of f ++ [0]))
      (stores ∅ 0x50000 (bytes_of "double_fault exception" ++ [0])) report_literals)
    (LHeap ∅ {[log_mutex + 8 := List 0 0 0]}) ∅ {[log_mutex := Mutex NULL 0]} ∅.
Definition report_frame (eax : Z) : exception_frame_t :=
  Frame 16 16 16 16 0 0 0x31f00 0x31e00 0 0 0 eax 8 0 0x10123 8 0x202.

Lemma report_state_ready : report_ready 0x60000 0x50000 (bytes_of "double_fault exception") report_state.
Proof.
  split.
  - split; vm_compute; reflexivity.
  - apply Forall_forall.
    repeat (apply Forall_cons; split;
      [split; [split; [by apply (bool_decide_unpack _)|vm_compute; done]|right; by vm_compute]|]).
    constructor.
  - split; [split; [by apply (bool_decide_unpack _)|vm_compute; done]|right; by vm_compute].
  - split; [by apply (bool_decide_unpack _); vm_compute|by vm_compute].
Qed.

(** A double fault is reported in full; with EAX = 0x80000000 the report stops
    after the segment registers. *)
Lemma default_handler_reports_witness :
  (∃ s', do_default_handler 0x60000 (report_frame 1) 0x50000 report_state = Stop HSpin s' ∧
    serial_out (k_io s') = concat (line <$> report (report_frame 1) (bytes_of "double_fault exception"))) ∧
  (∃ s', do_default_handler 0x60000 (report_frame 0x80000000) 0x50000 report_state = Stop HSpin s' ∧
    serial_out (k_io s') = concat (line <$>
      (report_head (report_frame 0) (bytes_of "double_fault exception") ++ [bytes_of hang_message]))).
Proof.
  split.
  - destruct (default_handler_reports 0x60000 0x50000 _ (report_frame 1) _ report_state_ready)
      as (s' & E & Ho); [by vm_compute|by vm_compute|].
    exists s'. split; [exact E|]. rewrite Ho. vm_compute. reflexivity.
  - destruct (default_handler_reports 0x60000 0x50000 _ (report_frame 0x80000000) _ report_state_ready)
      as (s' & E & Ho); [by vm_compute|by vm_compute|].
    exists s'. split; [exact E|]. rewrite Ho. vm_compute. reflexivity.
Defined.
