(* ===== verification/Panic.v ===== *)
(** * Failed assertions (kernel/include/tools/klib.h: ASSERT; kernel/tools/klib.c: panic)

    A failed ASSERT is the outcome [HPanic] of a routine; [with_panic] goes on
    with the call of panic the macro expands to.  panic prints four lines on
    the log, whose mutex it takes like any other printing: what it does when
    another task holds the log is shown here too. *)

From S2P Require Import Prelude Mem DList Klib Machine Irq Sched SchedSpec SchedOps Mutex TaskInit Log Report.

(** Statements after one that switches. *)
Lemma bind_waits {A} (m g h : M unit) (f : unit → kstate → res A) s sel d fl :
  m s = Switch sel d (λ s', Done tt (with_eflags fl s')) →
  rbind (((m;; g);; h) s) f = Switch sel d (λ s', rbind ((g;; h) (with_eflags fl s')) f).
Proof. intros E. unfold mbind, M_bind. by rewrite E. Qed.

(** A task that blocks stops running. *)
Lemma block_leaves `{Platform} w a c r l :
  awf a → a_ready a = c :: r → a_wait a !! w = Some l → a_curr (a_block_on w a) ≠ a_curr a.
Proof.
  intros Ha Hr Hw. rewrite (aw_curr _ Ha). unfold a_block_on, a_next. rewrite Hr, Hw. cbn.
  pose proof (awf_places _ Ha) as Hnd. rewrite Hr in Hnd. cbn in Hnd. apply NoDup_cons in Hnd as [Hnd _].
  destruct r as [|d r]; cbn; intros E.
  - apply (aw_idle _ Ha). rewrite E, <- (aw_place _ Ha), Hr. set_solver.
  - apply Hnd. rewrite E. set_solver.
Qed.

Section panic.
Context `{Platform}.

(** The string __FILE__ stands for in the source [file]: the path the build
    has passed to the compiler, whatever it is. *)
Definition file_literal (file : string) : Z := literal ("__FILE__ in " +:+ file).

(** The buffer of log_printfln in the frame of panic. *)
Context (str_buf : Z).

(** if(!(expr)) panic(__FILE__, __LINE__, __func__, #expr): panic does not
    return. *)
Fixpoint with_panic {A} (r : res A) : res A :=
  match r with
  | Done a s => Done a s
  | Stop (HPanic file line func cond) s =>
      rbind (panic str_buf (file_literal file) line (literal func) (literal cond) s) (λ _, stop HSpin)
  | Stop h s => Stop h s
  | Switch sel s k => Switch sel s (λ s', with_panic (k s'))
  end.

(** *** Printing with the strings of panic *)

Definition fmt_cond : string := "assert failed: %s".
Definition fmt_file : string := "file:%s".
Definition fmt_line : string := "line:%d".
Definition fmt_func : string := "func:%s".

(** The strings [ptrs] hold the bytes [str_of], away from the buffer. *)
Definition strings_at (str_of : Z → list Z) (ptrs : list Z) (s : kstate) : Prop :=
  ∀ p, p ∈ ptrs → cstr_at (k_mem s) p (str_of p) ∧ Forall text_byte (str_of p) ∧ len (str_of p) < 100 ∧
    disjoint_ranges str_buf 128 p (len (str_of p) + 1).

(** The state after a line. *)
Definition buffered (out : list Z) (s : kstate) : kstate :=
  with_mem (stores (k_mem s) str_buf (out ++ [0])) s.
Definition with_line (s : kstate) (out : list Z) : kstate :=
  with_io (log_line (k_io s) out) (buffered out s).

Lemma disjoint_le n k a p m : disjoint_ranges a n p m → k <= n → disjoint_ranges a k p m.
Proof using Type. unfold disjoint_ranges. lia. Qed.

Context (str_of : Z → list Z) (ptrs : list Z).

Lemma buffered_strings out s :
  len out < 128 → strings_at str_of ptrs s → strings_at str_of ptrs (buffered out s).
Proof using Type.
  intros Hl Hs p Hp. destruct (Hs p Hp) as (Hc & Ht & Hlen & Hd). split_and!; try done.
  apply cstr_at_stores_out; [|done]. unfold disjoint_ranges in *. rewrite length_app. cbn. lia.
Qed.

(** A format with one argument at its end. *)
Lemma render_one lit conv a s :
  Forall (λ c, c ≠ 37) lit → render_conv str_of conv [a] = Ok (s, []) →
  render str_of NORMAL (lit ++ [37; conv]) [a] = (lit ++ s, None).
Proof using Type.
  intros Hl Hc. rewrite render_plain by done. cbn [render Z.eqb Pos.eqb]. rewrite Hc. cbn. by rewrite app_nil_r.
Qed.

(** log_printfln once the buffer is filled. *)
Definition log_rest : M unit :=
  log_chars str_buf;; outb COM1_PORT 13;; outb COM1_PORT 10;; rein_mutex_unlock log_mutex.
Definition print_buffer : M unit := rein_mutex_lock log_mutex;; log_rest.

Lemma printfln_one f lit conv a s out :
  strings_at str_of ptrs s →
  literal f ∈ ptrs → str_of (literal f) = lit ++ [37; conv] → Forall (λ c, c ≠ 37) lit →
  render_conv str_of conv [a] = Ok (out, []) → len (lit ++ out) < 128 →
  str_args NORMAL (lit ++ [37; conv]) [a] ⊆ ptrs →
  log_printfln str_buf (literal f) [a] s = print_buffer (buffered (lit ++ out) s).
Proof using Type.
  intros Hs Hf Hlit Hno Hc Hl Ha. destruct (Hs _ Hf) as (Hcs & _ & Hlf & Hd).
  pose proof (render_one lit conv a out Hno Hc) as Hr.
  assert (kernel_vsprintf (k_mem s) str_buf (literal f) [a] =
    Ok (stores (k_mem s) str_buf ((lit ++ out) ++ [0]))) as E.
  { rewrite (vsprintf_ok str_of _ _ _ (str_of (literal f))).
    - rewrite Hlit. unfold vs_result. by rewrite Hr.
    - done.
    - lia.
    - rewrite Hlit, Hr. rewrite Hlit in Hd. cbn [fst]. apply (disjoint_le 128); [exact Hd|lia].
    - rewrite Hlit, Hr. cbn [fst]. intros p Hp%Ha. destruct (Hs p Hp) as (Hcp & _ & Hlp & Hdp).
      split_and!; [done|lia|apply (disjoint_le 128); [exact Hdp|lia]]. }
  unfold log_printfln. refine (bind_step _ _ s tt (buffered (lit ++ out) s) _ _ eq_refl).
  unfold run_klib, buffered. by rewrite E.
Qed.

(** A text in the buffer. *)
Lemma buffered_text out s : Forall text_byte out → cstr_at (k_mem (buffered out s)) str_buf out.
Proof using Type. apply text_stored. Qed.
Lemma print_free out s :
  mutex_free s log_mutex → Forall text_byte out → len out < 128 →
  print_buffer (buffered out s) = Done tt (with_line s out).
Proof using Type.
  intros Hm Ht Hl. apply (log_locked_ok (buffered out s)); [done|by apply buffered_text|unfold INT_MAX; lia].
Qed.
(** The log has been handed over to the caller, and nobody waits for it. *)
Lemma print_held out s :
  k_mutexes s !! log_mutex = Some (Mutex (k_curr s) 1) →
  list_count (mutex_wait_list log_mutex) (k_heap s) = Some (0, k_heap s) →
  cstr_at (k_mem s) str_buf out → len out < 128 →
  log_rest s = Done tt (mutex_set log_mutex (Mutex NULL 0) (with_io (log_line (k_io s) out) s)).
Proof using Type.
  intros Hm Hw Hc Hl. unfold log_rest.
  erewrite bind_done by (apply log_chars_ok; [exact Hc|unfold INT_MAX; lia]). cbn beta.
  do 2 (erewrite bind_done by done; cbn beta). by apply unlock_free.
Qed.

(** The two kinds of lines of panic. *)
Definition prefix_of (f : string) : list Z := take (length (bytes_of f) - 2) (bytes_of f).
Definition formats : list string := [fmt_cond; fmt_file; fmt_line; fmt_func].
Definition literals_at : Prop := Forall (λ f, literal f ∈ ptrs ∧ str_of (literal f) = bytes_of f) formats.

Lemma prefix_facts f :
  f ∈ formats → Forall (λ c, c ≠ 37) (prefix_of f) ∧ Forall text_byte (prefix_of f) ∧ len (prefix_of f) < 20 ∧
    bytes_of f = prefix_of f ++ [37; if decide (f = fmt_line) then 100 else 115].
Proof using Type.
  intros Hf. assert (Forall (λ f, Forall (λ c, c ≠ 37) (prefix_of f) ∧ Forall text_byte (prefix_of f) ∧
    len (prefix_of f) < 20 ∧ bytes_of f = prefix_of f ++ [37; if decide (f = fmt_line) then 100 else 115]) formats) as Hall.
  { unfold text_byte. apply (bool_decide_unpack _). by vm_compute. }
  by apply (proj1 (Forall_forall _ _) Hall).
Qed.
Lemma literal_facts f : literals_at → f ∈ formats → literal f ∈ ptrs ∧ str_of (literal f) = bytes_of f.
Proof using Type. intros Hl. by apply (proj1 (Forall_forall _ _) Hl). Qed.

Lemma args_str lit conv a :
  Forall (λ c, c ≠ 37) lit → str_args NORMAL (lit ++ [37; conv]) [a] = if conv =? 115 then [a] else [].
Proof using Type.
  induction 1 as [|c lit Hc _ IH]; cbn [app str_args].
  - cbn. destruct (conv =? 115); [done|]. by destruct (_ || _).
  - by rewrite (proj2 (Z.eqb_neq c 37) Hc).
Qed.

Definition string_text (f : string) (p : Z) : list Z := prefix_of f ++ str_of p.
Definition number_text (n : Z) : list Z := prefix_of fmt_line ++ itoa_str n 10.

Lemma string_line f p s :
  f ∈ formats → f ≠ fmt_line → literals_at → strings_at str_of ptrs s → p ∈ ptrs →
  log_printfln str_buf (literal f) [p] s = print_buffer (buffered (string_text f p) s) ∧
  Forall text_byte (string_text f p) ∧ len (string_text f p) < 128.
Proof using Type.
  intros Hf Hne Hlit Hs Hp. destruct (prefix_facts f Hf) as (H37 & Htb & Hl & E).
  destruct (literal_facts f Hlit Hf) as [Hin Ebs]. destruct (Hs p Hp) as (_ & Htp & Hlp & _).
  rewrite decide_False in E by done. unfold string_text.
  assert (len (prefix_of f ++ str_of p) < 128) as Hlen by (rewrite length_app; lia).
  split; [|split; [by apply Forall_app|done]]. apply (printfln_one f (prefix_of f) 115); try done.
  - by rewrite Ebs.
  - rewrite args_str by done. cbn. intros q ->%list_elem_of_singleton. done.
Qed.
Lemma number_line n s :
  literals_at → strings_at str_of ptrs s → 0 <= n < 1000 →
  log_printfln str_buf (literal fmt_line) [n] s = print_buffer (buffered (number_text n) s) ∧
  Forall text_byte (number_text n) ∧ len (number_text n) < 128.
Proof using Type.
  intros Hlit Hs Hn. assert (fmt_line ∈ formats) as Hf by (unfold formats; set_solver).
  destruct (prefix_facts fmt_line Hf) as (H37 & Htb & Hl & E).
  destruct (literal_facts fmt_line Hlit Hf) as [Hin Ebs]. rewrite decide_True in E by done.
  unfold number_text. assert (len (prefix_of fmt_line ++ itoa_str n 10) < 128) as Hlen.
  { rewrite length_app. pose proof (itoa_str_bytes n 10). lia. }
  split; [|split; [apply Forall_app; split; [done|apply itoa_text; lia]|done]].
  apply (printfln_one fmt_line (prefix_of fmt_line) 100); try done.
  - unfold render_conv. cbn. by rewrite i32_small by (unfold INT_MIN, INT_MAX; lia).
  - rewrite args_str by done. apply list_subseteq_nil.
Qed.

(** *** panic *)

Context (file func cond : string) (n : Z).

(** Strings that panic prints, and what it prints. *)
Record panic_ready (s : kstate) : Prop := {
  py_strings : strings_at str_of ptrs s;
  py_literals : literals_at;
  py_args : file_literal file ∈ ptrs ∧ literal func ∈ ptrs ∧ literal cond ∈ ptrs;
  py_line : 0 <= n < 1000
}.
Definition panic_text : list (list Z) :=
  [string_text fmt_cond (literal cond); string_text fmt_file (file_literal file); number_text n;
   string_text fmt_func (literal func)].

Lemma panic_ready_line s out : len out < 128 → panic_ready s → panic_ready (with_line s out).
Proof using Type. intros Hl [Hs Hlit Ha Hn]. split; try done. exact (buffered_strings out s Hl Hs). Qed.
Lemma panic_ready_frame s s' : k_mem s' = k_mem s → panic_ready s → panic_ready s'.
Proof using Type. intros Hm [Hs Hlit Ha Hn]. split; try done. unfold strings_at. by rewrite Hm. Qed.

(** panic after its first line. *)
Definition panic_tail : M unit :=
  log_printfln str_buf (literal fmt_file) [file_literal file];;
  log_printfln str_buf (literal fmt_line) [n];;
  log_printfln str_buf (literal fmt_func) [literal func];;
  hang.
(** And after its second. *)
Definition panic_last : M unit :=
  log_printfln str_buf (literal fmt_line) [n];;
  log_printfln str_buf (literal fmt_func) [literal func];;
  hang.

Lemma panic_second s :
  panic_ready s → panic_tail s = (print_buffer;; panic_last) (buffered (string_text fmt_file (file_literal file)) s).
Proof using Type.
  intros [Hs Hlit (Hf & _) _].
  destruct (string_line fmt_file (file_literal file) s) as (E & _); try done; [unfold formats; set_solver|].
  unfold panic_tail, panic_last. unfold mbind at 1, M_bind at 1. rewrite E. reflexivity.
Qed.
Lemma panic_first s :
  panic_ready s →
  panic str_buf (file_literal file) n (literal func) (literal cond) s =
    (print_buffer;; panic_tail) (buffered (string_text fmt_cond (literal cond)) s).
Proof using Type.
  intros [Hs Hlit (_ & _ & Hc) _].
  destruct (string_line fmt_cond (literal cond) s) as (E & _); try done; [unfold formats; set_solver|].
  unfold panic, panic_tail. change "assert failed: %s"%string with fmt_cond. change "file:%s"%string with fmt_file.
  change "line:%d"%string with fmt_line. change "func:%s"%string with fmt_func.
  unfold mbind at 1, M_bind at 1. rewrite E. reflexivity.
Qed.

Lemma panic_tail_ok s :
  mutex_free s log_mutex → panic_ready s →
  panic_tail s = Stop HSpin (foldl with_line s (drop 1 panic_text)).
Proof using Type.
  intros Hm Hr. pose proof Hr as [Hs Hlit (Hfl & Hfn & _) Hn]. unfold panic_tail, panic_text. cbn [drop foldl].
  destruct (string_line fmt_file (file_literal file) s) as (E1 & Ht1 & Hl1); try done; [unfold formats; set_solver|].
  rewrite (print_free _ s Hm Ht1 Hl1) in E1. erewrite bind_done by exact E1. cbn beta.
  set (s1 := with_line s _). assert (panic_ready s1) as Hr1 by (by apply panic_ready_line).
  destruct (number_line n s1 Hlit (py_strings _ Hr1) Hn) as (E2 & Ht2 & Hl2).
  rewrite (print_free _ s1 Hm Ht2 Hl2) in E2. erewrite bind_done by exact E2. cbn beta.
  set (s2 := with_line s1 _). assert (panic_ready s2) as Hr2 by (by apply panic_ready_line).
  destruct (string_line fmt_func (literal func) s2) as (E3 & Ht3 & Hl3);
    try done; [unfold formats; set_solver|apply Hr2|].
  rewrite (print_free _ s2 Hm Ht3 Hl3) in E3. by erewrite bind_done by exact E3.
Qed.

Lemma panic_ok s :
  mutex_free s log_mutex → panic_ready s →
  panic str_buf (file_literal file) n (literal func) (literal cond) s = Stop HSpin (foldl with_line s panic_text).
Proof using Type.
  intros Hm Hr. rewrite (panic_first s Hr). pose proof Hr as [Hs Hlit (_ & _ & Hc) _].
  destruct (string_line fmt_cond (literal cond) s) as (_ & Ht & Hl); try done; [unfold formats; set_solver|].
  erewrite bind_done by (by apply print_free). cbn beta.
  apply (panic_tail_ok (with_line s _)); [done|by apply panic_ready_line].
Qed.

Lemma serial_lines s ls : serial_out (k_io (foldl with_line s ls)) = serial_out (k_io s) ++ concat (line <$> ls).
Proof using Type.
  revert s. induction ls as [|l ls IH]; intros s; cbn [foldl fmap list_fmap concat]; [by rewrite app_nil_r|].
  rewrite IH. cbn [k_io with_line with_io]. by rewrite serial_line, <- app_assoc.
Qed.
Lemma lines_rest s ls :
  k_mutexes (foldl with_line s ls) = k_mutexes s ∧ k_cpu (foldl with_line s ls) = k_cpu s ∧
  k_heap (foldl with_line s ls) = k_heap s ∧ k_tasks (foldl with_line s ls) = k_tasks s.
Proof using Type. revert s. induction ls as [|l ls IH]; intros s; [done|]. apply (IH (with_line s l)). Qed.
Lemma lines_io s s' ls :
  k_io s = k_io s' → k_io (foldl with_line s ls) = k_io (foldl with_line s' ls).
Proof using Type.
  revert s s'. induction ls as [|l ls IH]; intros s s' Hio; [done|]. apply IH. cbn. by rewrite Hio.
Qed.

(** A line, when the log is held by another task: the caller blocks at the end
    of the wait list. *)
Lemma print_blocks {A} (g : M unit) (f : unit → kstate → res A) s a lx l c r :
  krep s a → awf a → a_ready a = c :: r →
  k_mutexes s !! log_mutex = Some lx → locker lx ≠ 0 → owner lx ≠ a_curr a →
  a_wait a !! mutex_wait_list log_mutex = Some l →
  let a' := a_block_on (mutex_wait_list log_mutex) a in
  ∃ s1, rbind ((print_buffer;; g) s) f =
      Switch (sel_of s (a_curr a')) s1 (λ s', rbind ((log_rest;; g) (with_eflags (eflags (k_cpu s)) s')) f) ∧
    krep s1 a' ∧ awf a' ∧ a_curr a' ≠ a_curr a ∧
    k_mutexes s1 = k_mutexes s ∧ k_io s1 = k_io s ∧ k_mem s1 = k_mem s.
Proof using Type.
  intros HR Ha Hrd Hlx Hlk Hown Hw a'.
  destruct (rein_mutex_lock_ok s a log_mutex lx l HR Ha) as (s1 & a1 & E & HR1 & Hd & HE & Hk & _ & Hmx);
    [by rewrite Hrd|done|done|].
  unfold mutex_lock_step in Hd, Hmx.
  rewrite (proj2 (Z.eqb_neq _ 0) Hlk), (proj2 (Z.eqb_neq _ _) Hown) in Hd, Hmx. fold a' in Hd.
  pose proof (block_leaves _ a c r l Ha Hrd Hw) as Hne. fold a' in Hne.
  assert (a_curr a' = a_next a1) as Hcur by (by rewrite <- Hd).
  assert (a_next a1 ≠ k_curr s1) as Hsw by (rewrite Hk, (kr_curr _ _ HR); congruence).
  assert (sel_of s1 (a_next a1) = sel_of s (a_curr a')) as Hsel.
  { rewrite Hcur. apply sel_of_env. apply (se_tasks _ _ HE). }
  pose proof (dispatched_env s1 a1) as HEd.
  unfold outcome in E. rewrite decide_False, Hsel in E by done.
  exists (dispatched s1 a1). split; [exact (bind_waits _ log_rest g f s _ _ _ E)|]. split_and!.
  - rewrite <- Hd. by apply krep_dispatched.
  - by apply awf_block_on.
  - done.
  - etrans; [|exact Hmx]. unfold dispatched. by destruct (a_ready a1).
  - rewrite (se_io _ _ HEd). apply (se_io _ _ HE).
  - rewrite (se_mem _ _ HEd). apply (se_mem _ _ HE).
Qed.

(** The rest of a line, when others wait for the log: the first of them gets
    it, and the caller goes on. *)
Lemma rest_hands_over s a u l c r out :
  krep s a → awf a → a_ready a = c :: r →
  k_mutexes s !! log_mutex = Some (Mutex (a_curr a) 1) →
  a_wait a !! mutex_wait_list log_mutex = Some (u :: l) →
  cstr_at (k_mem s) str_buf out → len out < 128 →
  ∃ s', log_rest s = Done tt s' ∧ krep s' (a_wake (mutex_wait_list log_mutex) a) ∧
    k_mem s' = k_mem s ∧ k_io s' = log_line (k_io s) out ∧
    k_mutexes s' !! log_mutex = Some (Mutex u 1) ∧ ∀ t, sel_of s' t = sel_of s t.
Proof using Type.
  intros HR Ha Hrd Hm Hw Hc Hl. set (s4 := with_io (log_line (k_io s) out) s).
  assert (krep s4 a) as HR4 by (by destruct HR).
  destruct (rein_mutex_unlock_ok s4 a log_mutex (Mutex (a_curr a) 1) (u :: l) HR4 Ha)
    as (s5 & a5 & E & HR5 & Hd & HE & Hk & _ & Hmx); [by rewrite Hrd|done..|].
  change (i32 (locker (Mutex (a_curr a) 1) - 1) =? 0) with true in Hd. cbn beta iota in Hd.
  assert (a_next a5 = a_curr a) as Hn.
  { change (a_next a5) with (a_curr (a_dispatch a5)). rewrite Hd. unfold a_wake. by rewrite Hw. }
  assert (a_curr a5 = a_next a5) as Hc5.
  { rewrite <- (kr_curr _ _ HR5), Hk, Hn. apply (kr_curr _ _ HR). }
  rewrite (a_dispatch_wf _ Hc5) in Hd. subst a5.
  rewrite (outcome_stay _ _ _ HR5 Hc5) in E. eexists. split.
  { unfold log_rest. erewrite bind_done by (apply log_chars_ok; [exact Hc|unfold INT_MAX; lia]). cbn beta.
    do 2 (erewrite bind_done by done; cbn beta). exact E. }
  split_and!.
  - by apply krep_eflags.
  - apply (se_mem _ _ HE).
  - apply (se_io _ _ HE).
  - cbn [k_mutexes with_eflags]. change (k_mutexes (with_eflags ?v ?s)) with (k_mutexes s). rewrite Hmx. apply lookup_insert_eq.
  - intros t. etrans; [apply (sel_of_env s4)|done]. intros v. apply (se_tasks _ _ HE).
Qed.

(** The rest, once the log has been handed over. *)
Lemma panic_resumes s :
  k_mutexes s !! log_mutex = Some (Mutex (k_curr s) 1) →
  list_count (mutex_wait_list log_mutex) (k_heap s) = Some (0, k_heap s) →
  panic_ready s → cstr_at (k_mem s) str_buf (string_text fmt_cond (literal cond)) →
  ∃ s', (log_rest;; panic_tail) s = Stop HSpin s' ∧
    k_io s' = k_io (foldl with_line s panic_text) ∧ k_cpu s' = k_cpu s ∧
    k_mutexes s' !! log_mutex = Some (Mutex NULL 0).
Proof using Type.
  intros Hm Hw Hr Hb. pose proof Hr as [Hs Hlit (_ & _ & Hc) _].
  destruct (string_line fmt_cond (literal cond) s) as (_ & Ht & Hl); try done; [unfold formats; set_solver|].
  set (out := string_text fmt_cond (literal cond)) in *.
  set (s4 := mutex_set log_mutex (Mutex NULL 0) (with_io (log_line (k_io s) out) s)).
  assert (mutex_free s4 log_mutex) as Hf4 by (split; [apply mutex_set_lookup|exact Hw]).
  assert (panic_ready s4) as Hr4 by (by apply (panic_ready_frame s)).
  exists (foldl with_line s4 (drop 1 panic_text)). split.
  { rewrite <- (panic_tail_ok s4 Hf4 Hr4). exact (bind_done _ _ _ _ _ (print_held out s Hm Hw Hb Hl)). }
  destruct (lines_rest s4 (drop 1 panic_text)) as (-> & -> & _ & _).
  split; [|split; [done|apply mutex_set_lookup]].
  unfold panic_text. cbn [drop]. by rewrite (lines_io s4 (with_line s out)).
Qed.

(** The rest, when others wait for the log: it is handed on after the first
    line, and the caller waits again with the next one. *)
Lemma panic_waits_again {A} (f : unit → kstate → res A) s a u l c r :
  krep s a → awf a → a_ready a = c :: r →
  k_mutexes s !! log_mutex = Some (Mutex (a_curr a) 1) →
  a_wait a !! mutex_wait_list log_mutex = Some (u :: l) →
  panic_ready s → cstr_at (k_mem s) str_buf (string_text fmt_cond (literal cond)) →
  let a' := a_block_on (mutex_wait_list log_mutex) (a_wake (mutex_wait_list log_mutex) a) in
  ∃ s1 k, rbind ((log_rest;; panic_tail) s) f = Switch (sel_of s (a_curr a')) s1 k ∧
    krep s1 a' ∧ a_curr a' ≠ a_curr a ∧ k_mutexes s1 !! log_mutex = Some (Mutex u 1) ∧
    serial_out (k_io s1) = serial_out (k_io s) ++ line (string_text fmt_cond (literal cond)).
Proof using Type.
  intros HR Ha Hrd Hm Hw Hr Hb a'. pose proof Hr as [Hs Hlit (_ & _ & Hc) _].
  destruct (string_line fmt_cond (literal cond) s) as (_ & _ & Hl); try done; [unfold formats; set_solver|].
  set (out := string_text fmt_cond (literal cond)) in *.
  destruct (rest_hands_over s a u l c r out HR Ha Hrd Hm Hw Hb Hl) as (s1 & E1 & HR1 & Hmem & Hio & Hm1 & Hsel).
  set (aw := a_wake (mutex_wait_list log_mutex) a) in *.
  assert (a_curr aw = a_curr a ∧ a_ready aw = c :: r ++ [u] ∧ a_wait aw !! mutex_wait_list log_mutex = Some l)
    as (Hcur & Hrd1 & Hw1).
  { unfold aw, a_wake. rewrite Hw. cbn. by rewrite Hrd, lookup_insert_eq. }
  assert (u ≠ a_curr aw) as Hu.
  { destruct (krep_entry_facts s a c r HR Ha Hrd) as (_ & _ & _ & _ & Hno & Hk).
    rewrite Hcur, <- (kr_curr _ _ HR), Hk. intros ->. apply (Hno _ _ Hw). by left. }
  assert (panic_ready s1) as Hr1 by (by apply (panic_ready_frame s)).
  set (sb := buffered (string_text fmt_file (file_literal file)) s1).
  destruct (print_blocks panic_last f sb aw (Mutex u 1) l c (r ++ [u])) as (s2 & E2 & HR2 & _ & Hne & Hmx & Hio2 & _);
    [by apply krep_mem|by unfold aw; rewrite <- (a_wake_curr _ _ Ha) by (by rewrite Hrd); apply awf_wake|done|done|done|done|done|]. fold a' in E2, HR2, Hne.
  exists s2. eexists. split; [|split; [exact HR2|split; [by rewrite <- Hcur|split]]].
  - erewrite bind_done by exact E1. cbn beta. rewrite (panic_second s1 Hr1). etrans; [exact E2|].
    change (sel_of sb (a_curr a')) with (sel_of s1 (a_curr a')). by rewrite Hsel.
  - by rewrite Hmx.
  - rewrite Hio2. change (k_io sb) with (k_io s1). rewrite Hio. apply serial_line.
Qed.
End panic.

(** ** Properties *)

Section panic_properties.
Context `{Platform}.
Context (str_buf : Z) (str_of : Z → list Z) (ptrs : list Z).

(** The strings of the assertions of rein_mutex_unlock, and what is printed. *)
Definition misuse_ready (mx : rein_mutex_t) : kstate → Prop :=
  panic_ready str_buf str_of ptrs "mutex.c" "rein_mutex_unlock" (misuse mx).2 (misuse mx).1.
Definition misuse_text (mx : rein_mutex_t) : list (list Z) :=
  panic_text str_of "mutex.c" "rein_mutex_unlock" (misuse mx).2 (misuse mx).1.

Lemma masked_bit s : Z.testbit (masked s) 9 = false.
Proof. unfold masked. rewrite Z.ldiff_spec. change (Z.testbit ELFAGS_IF 9) with true. apply andb_false_r. Qed.
Lemma misuse_ready_frame mx s s' : k_mem s' = k_mem s → misuse_ready mx s → misuse_ready mx s'.
Proof. apply panic_ready_frame. Qed.
Lemma misuse_ready_same mx s s' :
  (∀ p x, p ∈ ptrs → p <= x <= p + len (str_of p) → load8 (k_mem s') x = load8 (k_mem s) x) →
  misuse_ready mx s → misuse_ready mx s'.
Proof.
  intros Hx [Hs Hlit Ha Hn]. split; try done. intros p Hp. destruct (Hs p Hp) as (Hc & Hr).
  split; [|exact Hr]. eapply cstr_at_same; [|exact Hc]. intros x. by apply Hx.
Qed.
Lemma misuse_panics s m mx :
  k_mutexes s !! m = Some mx → locker mx = 0 ∨ owner mx ≠ k_curr s →
  with_panic str_buf (rein_mutex_unlock m s) =
    rbind (panic str_buf (file_literal "mutex.c") (misuse mx).1 (literal "rein_mutex_unlock") (literal (misuse mx).2)
      (entered s)) (λ _, stop HSpin).
Proof. intros Hm Hbad. by rewrite (rein_mutex_unlock_panic s m mx Hm Hbad). Qed.

(** C20: A misuse of rein_mutex_unlock while the log is free: the mutex is free, or
    held by another task. The failed assertion is reported in four lines,
    its condition, file, line and function, and the processor stops with
    interrupts masked; no mutex, task or list has changed. The strings of the
    assertion are in memory, apart from the buffer of log_printfln and
    shorter than 100 bytes ([misuse_ready]), so that each line fits it. *)
Theorem unlock_misuse_panics s m mx :
  k_mutexes s !! m = Some mx → locker mx = 0 ∨ owner mx ≠ k_curr s →
  mutex_free s log_mutex → misuse_ready mx s →
  ∃ s', with_panic str_buf (rein_mutex_unlock m s) = Stop HSpin s' ∧
    serial_out (k_io s') = serial_out (k_io s) ++ concat (line <$> misuse_text mx) ∧
    Z.testbit (eflags (k_cpu s')) 9 = false ∧
    k_mutexes s' = k_mutexes s ∧ k_heap s' = k_heap s ∧ k_tasks s' = k_tasks s.
Proof.
  intros Hm Hbad Hf Hr. rewrite (misuse_panics s m mx Hm Hbad).
  rewrite (panic_ok str_buf str_of ptrs "mutex.c" "rein_mutex_unlock" (misuse mx).2 (misuse mx).1 (entered s) Hf
    (misuse_ready_frame mx s (entered s) eq_refl Hr)).
  eexists. split; [reflexivity|]. fold (misuse_text mx).
  destruct (lines_rest str_buf (entered s) (misuse_text mx)) as (-> & -> & -> & ->).
  rewrite serial_lines. split_and!; try done. apply masked_bit.
Qed.

(** The first of the lines, which is in the buffer while panic waits. *)
Definition misuse_line (mx : rein_mutex_t) : list Z := string_text str_of fmt_cond (literal (misuse mx).2).

(** C21: The same misuse, with the strings of the assertion in memory as above,
    while another task holds the log: panic does not stop the
    system. It waits for the log like any caller, at the end of the wait
    list, and another task runs, with the caller out of the ready list and
    nothing printed. When it runs again as the owner of the log, its strings
    and its own buffer being as it left them, whatever else the memory holds:
    if nobody else waits for the log it prints its four lines and stops the
    processor, with the log free and interrupts masked; if others wait it
    prints its first line, hands the log to the first of them, and blocks
    again at the end of the wait list with its second line, so that the system
    still goes on. *)
Theorem panic_waits s a m mx lx l c r :
  krep s a → awf a → a_ready a = c :: r →
  k_mutexes s !! m = Some mx → locker mx = 0 ∨ owner mx ≠ a_curr a →
  k_mutexes s !! log_mutex = Some lx → locker lx ≠ 0 → owner lx ≠ a_curr a →
  a_wait a !! mutex_wait_list log_mutex = Some l → misuse_ready mx s →
  let w := mutex_wait_list log_mutex in
  let a' := a_block_on w a in
  ∃ s1 k, with_panic str_buf (rein_mutex_unlock m s) = Switch (sel_of s (a_curr a')) s1 k ∧
    krep s1 a' ∧ awf a' ∧ a_curr a' ≠ a_curr a ∧ k_mutexes s1 = k_mutexes s ∧ k_io s1 = k_io s ∧
    misuse_ready mx s1 ∧ cstr_at (k_mem s1) str_buf (misuse_line mx) ∧
    ∀ s2, misuse_ready mx s2 → cstr_at (k_mem s2) str_buf (misuse_line mx) →
      (k_mutexes s2 !! log_mutex = Some (Mutex (k_curr s2) 1) →
        list_count w (k_heap s2) = Some (0, k_heap s2) →
        ∃ s3, k s2 = Stop HSpin s3 ∧
          serial_out (k_io s3) = serial_out (k_io s2) ++ concat (line <$> misuse_text mx) ∧
          Z.testbit (eflags (k_cpu s3)) 9 = false ∧ k_mutexes s3 !! log_mutex = Some (Mutex NULL 0)) ∧
      (∀ a2 u l2 c2 r2, krep s2 a2 → awf a2 → a_ready a2 = c2 :: r2 →
        k_mutexes s2 !! log_mutex = Some (Mutex (a_curr a2) 1) → a_wait a2 !! w = Some (u :: l2) →
        let a3 := a_block_on w (a_wake w a2) in
        ∃ s3 k3, k s2 = Switch (sel_of s2 (a_curr a3)) s3 k3 ∧ krep s3 a3 ∧ a_curr a3 ≠ a_curr a2 ∧
          k_mutexes s3 !! log_mutex = Some (Mutex u 1) ∧
          serial_out (k_io s3) = serial_out (k_io s2) ++ line (misuse_line mx)).
Proof.
  intros HR Ha Hrd Hm Hbad Hlx Hlk Hown Hw Hr w a'.
  rewrite (misuse_panics s m mx Hm) by (by rewrite (kr_curr _ _ HR)).
  pose proof (misuse_ready_frame mx s (entered s) eq_refl Hr) as Hr'.
  rewrite (panic_first _ _ _ _ _ _ _ (entered s) Hr'). fold (misuse_line mx).
  set (sb := buffered str_buf (misuse_line mx) (entered s)).
  destruct (string_line str_buf str_of ptrs fmt_cond (literal (misuse mx).2) (entered s)) as (_ & Ht & Hl);
    [unfold formats; set_solver|done|apply Hr'|apply Hr'|apply Hr'|].
  assert (misuse_ready mx sb) as Hrb.
  { apply (misuse_ready_frame mx (with_line str_buf (entered s) (misuse_line mx))); [done|].
    exact (panic_ready_line _ _ _ _ _ _ _ (entered s) (misuse_line mx) Hl Hr'). }
  assert (krep sb a) as HRb by (by apply krep_mem, krep_entered).
  destruct (print_blocks str_buf (panic_tail str_buf "mutex.c" "rein_mutex_unlock" (misuse mx).1)
    (λ _, stop (A := unit) HSpin) sb a lx l c r HRb Ha Hrd Hlx Hlk Hown Hw)
    as (s1 & E & HR1 & Ha1 & Hne & Hmx & Hio & Hmem).
  exists s1. eexists. split; [exact E|]. split; [exact HR1|]. split; [exact Ha1|]. split; [exact Hne|].
  split; [by rewrite Hmx|]. split; [by rewrite Hio|]. split; [by apply (misuse_ready_frame mx sb)|].
  split; [rewrite Hmem; by apply buffered_text|]. intros s2 Hr2 Hb2. set (s2' := with_eflags _ s2).
  assert (misuse_ready mx s2') as Hr2' by (by apply (misuse_ready_frame mx s2)). split.
  - intros Hm2 Hw2.
    destruct (panic_resumes str_buf str_of ptrs "mutex.c" "rein_mutex_unlock" (misuse mx).2 (misuse mx).1 s2' Hm2 Hw2
      Hr2' Hb2) as (s3 & E3 & Hio3 & Hcp & Hlog).
    exists s3. rewrite E3, Hio3, Hcp, serial_lines. split_and!; [done|done|apply masked_bit|done].
  - intros a2 u l2 c2 r2 HR2 Ha2 Hrd2 Hm2 Hw2 a3.
    by apply (panic_waits_again str_buf str_of ptrs "mutex.c" "rein_mutex_unlock" (misuse mx).2 (misuse mx).1
      _ s2' a2 u l2 c2 r2 (krep_eflags _ _ _ HR2)).
Qed.
End panic_properties.
