(* ===== verification/Timer.v ===== *)
(** * The timer (kernel/dev/timer.c, dev/timer.h) *)

From S2P Require Import Prelude Mem DList Klib Machine Irq Sched SchedSpec SchedOps.

Definition PIT_OSC_FREQ : Z := 1193182.
Definition PIT_CHANNEL0_DATA_PORT : Z := 0x40.
Definition PIT_COMMAND_MODE_PORT : Z := 0x43.
Definition PIT_CHANNLE0 : Z := Z.shiftl 0 6.
Definition PIT_LOAD_LOHI : Z := Z.shiftl 3 4.
Definition PIT_MODE3 : Z := Z.shiftl 3 1.

Section timer.
Context `{Platform}.

(** void do_handler_timer(exception_frame_t *frame); the frame is not used *)
Definition do_handler_timer : M unit :=
  modify (λ s, with_sys_tick (u32 (k_sys_tick s + 1)) s);;
  pic_send_eoi IRQ0_TIMER;;
  task_time_tick.

Definition reload_count : Z := i32 (PIT_OSC_FREQ * OS_TICKS_MS) / 1000.

(** static void init_pit(void) *)
Definition init_pit : M unit :=
  outb PIT_COMMAND_MODE_PORT (Z.lor (Z.lor PIT_CHANNLE0 PIT_LOAD_LOHI) PIT_MODE3);;
  outb PIT_CHANNEL0_DATA_PORT (Z.land reload_count 0xFF);;
  outb PIT_CHANNEL0_DATA_PORT (Z.land (Z.shiftr reload_count 8) 0xFF);;
  irq_install IRQ0_TIMER (symbol "exception_handler_timer");;
  irq_enable IRQ0_TIMER.

(** void timer_init(void) *)
Definition timer_init : M unit :=
  modify (with_sys_tick 0);;
  init_pit.
End timer.

(** The reload value: the counter runs for 10 ms, within one period of the
    oscillator. *)
Lemma reload_count_ok :
  0 < reload_count < 0x10000 ∧
  reload_count * 1000 <= PIT_OSC_FREQ * OS_TICKS_MS < (reload_count + 1) * 1000.
Proof. vm_compute. repeat split; done || (intros; discriminate). Qed.

Section timer_facts.
Context `{Platform}.

(** The traffic of timer_init on top of [io], most recent first. *)
Definition timer_traffic (tr : list io) : list io :=
  let tr := Outb 0x40 0x2E :: Outb 0x40 0x9B :: Outb 0x43 0x36 :: tr in
  let v := u8 (device_inb tr PIC0_IMR) in
  Outb PIC0_IMR (u8 (Z.land v (Z.lnot 1))) :: Inb PIC0_IMR v :: tr.

Lemma timer_init_ok s :
  idt_wf s →
  timer_init s = Done tt (with_io (timer_traffic (k_io s))
    (with_idt (<[32%nat := int_gate "exception_handler_timer"]> (k_idt s)) (with_sys_tick 0 s))).
Proof.
  intros Hs. unfold timer_init, init_pit.
  do 4 (erewrite bind_done by done; cbn beta).
  erewrite bind_done by (apply irq_install_done; done). cbn beta.
  rewrite irq_enable_line by done. done.
Qed.

(** The effects of the handler outside the scheduler. *)
Definition ticked (s : kstate) : kstate :=
  with_io (Outb PIC0_OCW2 PIC_OCW2_EOI :: k_io s) (with_sys_tick (u32 (k_sys_tick s + 1)) s).

Lemma do_handler_timer_eq s : do_handler_timer s = task_time_tick (ticked s).
Proof. done. Qed.
Lemma krep_ticked s a : krep s a → krep (ticked s) a.
Proof. by intros []. Qed.

Lemma do_handler_timer_ok s a :
  krep s a → awf a → slice_positive s a →
  rcall (slice_ticked (ticked s) a) (do_handler_timer s) (a_tick (expired s a) a) (keeps_locks s).
Proof.
  intros HR Ha Hs. rewrite do_handler_timer_eq.
  apply (task_time_tick_ok (ticked s)); [by apply krep_ticked|done|done].
Qed.
End timer_facts.

(** ** Properties *)

Section timer_properties.
Context `{Platform}.

(** timer_init starts the tick counter at 0, programs channel 0 of the PIT in
    mode 3 with a 16-bit count, low byte first, whose period is 10 ms within
    one oscillation, installs the timer gate at vector 0x20, and unmasks line
    0 of the first controller, leaving the other lines as they were. *)
Theorem timer_init_correct s :
  idt_wf s →
  ∃ count mask old,
    timer_init s = Done tt (with_io
      (Outb PIC0_IMR mask :: Inb PIC0_IMR old :: Outb PIT_CHANNEL0_DATA_PORT (count / 0x100) ::
       Outb PIT_CHANNEL0_DATA_PORT (count mod 0x100) :: Outb PIT_COMMAND_MODE_PORT 0x36 :: k_io s)
      (with_idt (<[32%nat := int_gate "exception_handler_timer"]> (k_idt s)) (with_sys_tick 0 s))) ∧
    0 < count < 0x10000 ∧
    count * 1000 <= PIT_OSC_FREQ * OS_TICKS_MS < (count + 1) * 1000 ∧
    ∀ i, 0 <= i < 8 → Z.testbit mask i = Z.testbit old i && negb (i =? 0).
Proof.
  intros Hs. destruct reload_count_ok as [H1 H2].
  set (tr := Outb 0x40 0x2E :: Outb 0x40 0x9B :: Outb 0x43 0x36 :: k_io s).
  exists reload_count, (u8 (Z.land (u8 (device_inb tr PIC0_IMR)) (Z.lnot 1))), (u8 (device_inb tr PIC0_IMR)).
  split_and!; [by apply timer_init_ok|lia|lia|lia|lia|].
  intros i Hi. by apply (mask_clear_bit _ 0).
Qed.

(** The timer handler counts the tick, acknowledges the interrupt to the
    first controller, and ends by the scheduler's tick. *)
Theorem timer_handler_correct s a :
  krep s a → awf a → slice_positive s a →
  ∃ s1 a1, do_handler_timer s = outcome (eflags (k_cpu s)) s1 a1 ∧ krep s1 a1 ∧
    a_dispatch a1 = a_tick (expired s a) a ∧ awf (a_dispatch a1) ∧
    k_sys_tick s1 = u32 (k_sys_tick s + 1) ∧ k_io s1 = Outb 0x20 0x20 :: k_io s ∧
    k_mem s1 = k_mem s ∧ k_gdt s1 = k_gdt s ∧ k_idt s1 = k_idt s ∧ keeps_locks s s1.
Proof.
  intros HR Ha Hs. destruct (do_handler_timer_ok s a HR Ha Hs) as (s1 & a1 & E & HR1 & Hd & HE & _ & Hl).
  exists s1, a1. assert (eflags (k_cpu (slice_ticked (ticked s) a)) = eflags (k_cpu s)) as Hfl
    by (unfold slice_ticked; by destruct (a_ready a)).
  rewrite Hfl in E. rewrite Hd. destruct HE as [Hm Hg Hi Ht Hio _ _ _ _ _].
  unfold slice_ticked in *. split_and!; try done; [by apply awf_tick|..]; destruct (a_ready a); done.
Qed.
End timer_properties.

Lemma timer_init_correct_witness :
  ∃ count s', timer_init (H := demo_platform) demo_bare = Done tt s' ∧ 0 < count < 0x10000.
Proof.
  destruct (timer_init_correct (H := demo_platform) demo_bare eq_refl) as (c & m & o & E & Hc & _).
  exists c. eexists. split; [exact E|exact Hc].
Defined.
