(* ===== verification/Init.v ===== *)
(** * Start of the kernel (kernel/init/init.c)

    kernel_init and init_main with the tasks they run, and the theorem that
    the state they reach represents a well-formed scheduler. *)

From S2P Require Import Prelude Mem DList Klib Machine Irq Sched SchedSpec SchedOps Mutex Sem Cpu.
From S2P Require Import TaskInit Log Timer.

Section init.
Context `{Platform}.

(** static task_t new_task, and its stack of 1024 words *)
Definition new_task : Z := symbol "new_task".
Definition new_task_stack_top : Z := u32 (symbol "new_task_stack" + 1024 * 4).
(** static sem_t notify_task_print *)
Definition notify_task_print : Z := symbol "notify_task_print".

(** void kernel_init(boot_info_t *meminfo); the argument is not used *)
Definition kernel_init : M unit :=
  cpu_init;;
  timer_init;;
  task_manager_init;;
  log_init.

(** void init_main(void), up to its loop *)
Definition init_main_start : M unit :=
  task_main_init;;
  sem_init notify_task_print 0;;
  irq_enable_global;;
  _ ← task_init new_task (literal "my new task") (symbol "new_task_entry") new_task_stack_top;
  mret tt.

(** [n] turns of a for(;;) loop that counts. *)
Fixpoint turns (n : nat) (body : Z → M unit) (count : Z) : M unit :=
  match n with
  | O => mret tt
  | S n => body count;; turns n body (i32 (count + 1))
  end.

Context (str_buf : Z).

(** One turn of the loop of init_main. *)
Definition init_main_turn (count : Z) : M unit :=
  log_printfln str_buf (literal "sending notify: %d") [count];;
  sem_notify notify_task_print;;
  sys_sleep 1000.
(** void init_main(void), for the first [n] turns of its loop *)
Definition init_main (n : nat) : M unit :=
  init_main_start;; turns n init_main_turn 0.

(** One turn of the loop of new_task_entry. *)
Definition new_task_turn (count : Z) : M unit :=
  sem_wait notify_task_print;;
  log_printfln str_buf (literal "recv notify: %d") [count].
(** void new_task_entry(void), for the first [n] turns of its loop *)
Definition new_task_entry (n : nat) : M unit := turns n new_task_turn 0.

(** One turn of new_task2_entry and of new_task3_entry; init_main does not
    create these tasks. *)
Definition new_task2_turn (count : Z) : M unit :=
  log_printfln str_buf (literal "new task2: %d") [count];;
  sys_sleep 3000.
Definition new_task2_entry (n : nat) : M unit := turns n new_task2_turn 0.
Definition new_task3_turn (count : Z) : M unit :=
  log_printfln str_buf (literal "new task3: %d") [count];;
  sys_sleep 3000.
Definition new_task3_entry (n : nat) : M unit := turns n new_task3_turn 0.
End init.

(** ** The image of the kernel when it starts *)

Section image.
Context `{Platform}.

Definition wait_headers : list Z :=
  [mutex_wait_list cpu_mutex; mutex_wait_list log_mutex; sem_wait_list notify_task_print].
Definition headers : list Z := ready_list :: sleep_list :: task_list :: wait_headers.
Definition first_tasks : list Z := [idle_task; main_task; new_task].
Definition names : list string := [IDLE_TASK_NAME; "main"%string; "my new task"%string].

(** The global objects exist, at distinct addresses; the names are in the
    read-only data. Nothing is assumed of their contents. *)
Record boot_image (s : kstate) : Prop := {
  bi_gdt : gdt_wf s;
  bi_idt : idt_wf s;
  bi_null : nodes (k_heap s) !! NULL = None;
  bi_headers : Forall (λ l, is_Some (lists (k_heap s) !! l)) headers;
  bi_distinct : NoDup headers;
  bi_mutexes : is_Some (k_mutexes s !! cpu_mutex) ∧ is_Some (k_mutexes s !! log_mutex);
  bi_sem : is_Some (k_sems s !! notify_task_print);
  bi_locks : dom (k_mutexes s) = {[cpu_mutex; log_mutex]} ∧ dom (k_sems s) = {[notify_task_print]};
  bi_tasks : Forall (λ t, is_Some (k_tasks s !! t)) first_tasks;
  bi_tasks_distinct : NoDup first_tasks;
  bi_placed : tasks_placed (k_tasks s);
  bi_nodes : ∀ t, is_Some (k_tasks s !! t) →
    is_Some (nodes (k_heap s) !! run_node t) ∧
    is_Some (nodes (k_heap s) !! all_node t) ∧
    is_Some (nodes (k_heap s) !! wait_node t);
  bi_names : Forall (λ n, cstr_at (k_mem s) (literal n) (bytes_of n)) names;
  bi_apart : Forall (λ t, Forall (λ n,
    disjoint_ranges t sizeof_task (literal n) (len (bytes_of n) + 1)) names) first_tasks
}.

(** The wait lists, and the scheduler when the main task enters its loop. *)
Definition boot_waits : gmap Z (list Z) :=
  <[sem_wait_list notify_task_print := []]>
    (<[mutex_wait_list log_mutex := []]> {[mutex_wait_list cpu_mutex := []]}).
Definition a_boot : asched :=
  ASched [main_task; new_task] [] [main_task; new_task] boot_waits main_task.
End image.

(** ** The steps of the boot *)

Section boot_steps.
Context `{Platform}.

Lemma rein_mutex_init_eq s m mx :
  k_mutexes s !! m = Some mx →
  rein_mutex_init m s = on_heap (list_init (mutex_wait_list m)) (mutex_set m (Mutex NULL 0) s).
Proof.
  intros Hm. unfold rein_mutex_init.
  erewrite bind_done by (by apply set_locker_done). cbn beta.
  erewrite bind_done by (eapply set_owner_done, mutex_set_lookup). cbn beta.
  by rewrite mutex_set_set.
Qed.

(** A new wait list. *)
Definition a_add_wait (w : Z) (a : asched) : asched := a_set_wait w [] a.

Lemma add_wait_ok s a w :
  krep s a → is_Some (lists (k_heap s) !! w) →
  w ≠ ready_list → w ≠ sleep_list → w ≠ task_list →
  ∃ h, on_heap (list_init w) s = Done tt (with_heap h s) ∧
    krep (with_heap h s) (a_add_wait w a) ∧ same_objs (k_heap s) h.
Proof.
  intros HR Hw Hr Hs Ht.
  destruct (list_init_ok _ _ (kr_heap _ _ HR) w Hw) as (h & E & Hh & Hn).
  pose proof (keeps_init _ _ _ _ E) as Ho. exists h. split; [by apply on_heap_done|].
  split; [|done]. destruct HR as [? ? ? ? Hnd ? ? Hwt ? (H1 & H2 & H3)].
  split; cbn; rewrite ?Hn; try done.
  - replace (alists (a_add_wait w a)) with (<[w := []]> (alists a)); [done|].
    unfold alists. cbn. rewrite fmap_insert.
    rewrite (insert_insert_ne _ w ready_list) by done.
    rewrite (insert_insert_ne _ w sleep_list) by done.
    by rewrite (insert_insert_ne _ w task_list) by done.
  - intros w' l t [(<- & <-)|(? & Hl)]%lookup_insert_Some Hin; [by apply elem_of_nil in Hin|eauto].
  - rewrite !lookup_insert_ne by done. done.
Qed.

(** The names stay in memory. *)
Lemma task_named_cstr s t entry esp nb p bs :
  name_ok nb → cstr_at (k_mem s) p bs → disjoint_ranges t sizeof_task p (len bs + 1) →
  cstr_at (k_mem (task_named t entry esp nb s)) p bs.
Proof.
  unfold name_ok, TASK_NAME_MAX_IN_SIZE. intros Hn Hs Hd. unfold task_named. cbn.
  unfold disjoint_ranges, sizeof_task in Hd. apply cstr_at_stores_out.
  - unfold disjoint_ranges. rewrite length_app. cbn. lia.
  - apply tss_ready_cstr; [done|]. unfold disjoint_ranges, OFF_tss, sizeof_tss. lia.
Qed.

Lemma cpu_init_ok s :
  gdt_wf s → idt_wf s → is_Some (k_mutexes s !! cpu_mutex) →
  is_Some (lists (k_heap s) !! mutex_wait_list cpu_mutex) → nodes (k_heap s) !! NULL = None →
  ∃ h, heap_rep h {[mutex_wait_list cpu_mutex := []]} ∧ nodes h = nodes (k_heap s) ∧
    same_objs (k_heap s) h ∧
    cpu_init s = Done tt
      (with_io (reverse pic_init_trace ++ k_io s)
      (with_cpu (Cpu (eflags (k_cpu s)) (tr (k_cpu s))
         (table_operand gdt_table (GDT_TABLE_SIZE * sizeof_segment_desc))
         (table_operand (symbol "idt_table") (IDT_TABLE_NR * 8)))
      (with_idt boot_idt (with_gdt boot_gdt
      (with_mutexes (<[cpu_mutex := Mutex NULL 0]> (k_mutexes s)) (with_heap h s)))))).
Proof.
  intros Hg Hi [mx Hm] Hl Hnull.
  assert (heap_rep (k_heap s) ∅) as Hh by (by split).
  destruct (list_init_ok _ _ Hh _ Hl) as (h & E & Hh' & Hn).
  exists h. split; [done|]. split; [done|]. split; [by eapply keeps_init|].
  unfold cpu_init. erewrite bind_done; [|erewrite rein_mutex_init_eq by done; by apply on_heap_done].
  cbn beta. erewrite bind_done by (rewrite gdt_init_ok by exact Hg; reflexivity). cbn beta.
  by rewrite irq_init_ok.
Qed.
End boot_steps.

(** ** kernel_init *)

Section kernel_init.
Context `{Platform}.

(** The descriptors in use after the creation of [ts]. *)
Definition gdt_with_tss (ts : list Z) : list segment_desc_t :=
  foldl (λ g p, <[p.1 := tss_desc p.2]> g) boot_gdt (imap (λ i t, ((3 + i)%nat, t)) ts).

Definition tss_selector (i : Z) : Z := (3 + i) * 8.

Lemma free_desc_at g k d :
  g !! S k = Some d → attr d = 0 →
  (∀ j d, (j < k)%nat → g !! S j = Some d → attr d ≠ 0) → free_desc g = Some k.
Proof.
  intros Hk Hd Hlt. unfold free_desc. rewrite (proj2 (list_find_Some _ _ k d)); [done|].
  split_and!; [by rewrite lookup_drop|done|].
  intros j d' Hj Hl. rewrite lookup_drop in Hj. by eapply Hlt.
Qed.

Lemma tss_desc_attr t : attr (tss_desc t) = 0x89.
Proof. done. Qed.

(** The next free descriptor, after [n] tasks. *)
Lemma free_desc_boot (n : nat) ts :
  (n < 3)%nat → length ts = n → free_desc (gdt_with_tss ts) = Some (2 + n)%nat.
Proof.
  intros Hn Hl.
  destruct ts as [|t1 [|t2 [|t3 ts]]]; cbn in Hl; subst n; try lia.
  all: eapply free_desc_at; [reflexivity|reflexivity|].
  all: intros j d Hj; do 4 (destruct j as [|j]; [by intros [= <-]|try lia]).
Qed.

Lemma gdt_with_tss_snoc ts t :
  gdt_with_tss (ts ++ [t]) = <[(3 + length ts)%nat := tss_desc t]> (gdt_with_tss ts).
Proof.
  unfold gdt_with_tss. rewrite imap_app, foldl_app. cbn. by rewrite Nat.add_0_r.
Qed.

(** EFLAGS in the TSS of a task, and what tss_init puts there. *)
Definition tss_flags (s : kstate) (t : Z) : Z := load32 (k_mem s) (t + OFF_tss + TSS_eflags).
Definition task_flags : Z := Z.lor ELFAGS_IF EFLAGS_DEFAULT.

Lemma task_named_flags s t entry esp nb :
  name_ok nb → is_Some (free_desc (k_gdt s)) →
  tss_flags (task_named t entry esp nb s) t = task_flags.
Proof.
  unfold name_ok, TASK_NAME_MAX_IN_SIZE. intros Hn [j Hj].
  unfold tss_flags, task_named, tss_ready. rewrite Hj. cbn [k_mem with_tasks with_mem].
  rewrite load32_stores_out.
  - apply (tss_image_in t entry esp _ TSS_eflags task_flags). unfold tss_words. set_solver.
  - unfold disjoint_ranges, OFF_tss, TSS_eflags. rewrite length_app. cbn. lia.
Qed.
Lemma task_named_flags_ne s t u entry esp nb :
  name_ok nb → sizeof_task <= Z.abs (t - u) →
  tss_flags (task_named t entry esp nb s) u = tss_flags s u.
Proof.
  unfold name_ok, TASK_NAME_MAX_IN_SIZE, sizeof_task. intros Hn Hd.
  unfold tss_flags, task_named. cbn [k_mem with_tasks with_mem].
  rewrite load32_stores_out by
    (unfold disjoint_ranges, OFF_tss, TSS_eflags; rewrite length_app; cbn; lia).
  unfold tss_ready. destruct (free_desc (k_gdt s)); [|done]. cbn [k_mem with_tasks with_mem].
  unfold load32, load16.
  rewrite !tss_image_out by (unfold OFF_tss, TSS_eflags, sizeof_tss; lia). done.
Qed.

(** The state of the image while tasks [ts] have been created. *)
Record booting (s : kstate) (ts : list Z) (W : gmap Z (list Z)) : Prop := {
  bg_gdt : k_gdt s = gdt_with_tss ts;
  bg_mutex : k_mutexes s !! cpu_mutex = Some (Mutex NULL 0);
  bg_names : Forall (λ n, cstr_at (k_mem s) (literal n) (bytes_of n)) names;
  bg_apart : Forall (λ t, Forall (λ n,
    disjoint_ranges t sizeof_task (literal n) (len (bytes_of n) + 1)) names) first_tasks;
  bg_tasks : ∀ t u, t ∈ first_tasks → u ∈ first_tasks → apart t u;
  bg_sub : ∀ t, t ∈ ts → t ∈ first_tasks;
  bg_flags : ∀ t, t ∈ ts → tss_flags s t = task_flags;
  bg_waits : W !! mutex_wait_list cpu_mutex = Some [];
  bg_empty : ∀ w l, W !! w = Some l → l = []
}.

Lemma booting_wf s ts W : booting s ts W → (length ts < 3)%nat → gdt_wf s.
Proof.
  intros [Hg _ _ _ _ _ _ _ _] Hl. unfold gdt_wf. rewrite Hg.
  by destruct ts as [|t1 [|t2 [|t3 ts]]]; cbn in Hl; try lia.
Qed.

Lemma name_ok_names n : n ∈ names → name_ok (bytes_of n).
Proof.
  intros Hn. unfold names in Hn. rewrite !elem_of_cons, elem_of_nil in Hn.
  destruct_or! Hn; subst; done.
Qed.

Lemma names_apart (t : Z) (n : string) :
  Forall (λ t, Forall (λ n,
    disjoint_ranges t sizeof_task (literal n) (len (bytes_of n) + 1)) names) first_tasks →
  t ∈ first_tasks → n ∈ names →
  disjoint_ranges t sizeof_task (literal n) (len (bytes_of n) + 1).
Proof.
  intros Ha Ht Hn. apply (proj1 (Forall_forall _ _) (proj1 (Forall_forall _ _) Ha t Ht) n Hn).
Qed.

Lemma booting_create s ts W t n :
  booting s ts W → (length ts < 3)%nat → t ∈ first_tasks → n ∈ names →
  can_create s t (literal n) (bytes_of n).
Proof.
  intros Hb Hl Ht Hn. pose proof Hb as [_ Hm Hs Ha _ _ _ _ _]. rewrite Forall_forall in Hs.
  split; [by eapply booting_wf|done|by apply Hs|by apply name_ok_names|by apply names_apart].
Qed.

(** Creating a task takes the next descriptor and keeps the names. *)
Lemma booting_named s ts W t tk entry esp n s' :
  booting s ts W → (length ts < 3)%nat → t ∈ first_tasks → t ∉ ts → n ∈ names →
  k_tasks s !! t = Some tk →
  k_gdt s' = k_gdt (task_named t entry esp (bytes_of n) s) →
  k_mem s' = k_mem (task_named t entry esp (bytes_of n) s) →
  k_mutexes s' !! cpu_mutex = Some (Mutex NULL 0) →
  booting s' (ts ++ [t]) W ∧
  sel_of (tss_ready t entry esp s) t = tss_selector (len ts).
Proof.
  intros Hb Hl Ht Htn Hn Htk Hg' Hm' Hmx. pose proof Hb as [Hg Hm Hs Ha Hap Hsub Hfl Hw He].
  pose proof (free_desc_boot (length ts) ts Hl eq_refl) as Hf.
  rewrite Forall_forall in Hs.
  split; [split; try done|].
  - rewrite Hg', gdt_with_tss_snoc. unfold task_named, tss_ready. cbn. rewrite Hg, Hf. cbn.
    done.
  - apply Forall_forall. intros x Hx. rewrite Hm'.
    apply task_named_cstr; [by apply name_ok_names|by apply Hs|by apply names_apart].
  - intros u [Hu| ->%list_elem_of_singleton]%elem_of_app; [by apply Hsub|done].
  - intros u Hu. unfold tss_flags. rewrite Hm'.
    apply elem_of_app in Hu as [Hu| ->%list_elem_of_singleton].
    + etrans; [apply task_named_flags_ne; [by apply name_ok_names|]|by apply Hfl].
      destruct (Hap t u Ht (Hsub u Hu)) as [->|]; done.
    + apply task_named_flags; [by apply name_ok_names|]. rewrite Hg, Hf. by eexists.
  - unfold tss_ready, sel_of. rewrite Hg, Hf. cbn. rewrite lookup_alter_eq, Htk. cbn.
    unfold tss_selector. lia.
Qed.

(** The headers are different objects. *)
Lemma headers_ne s :
  boot_image s →
  cpu_mutex ≠ log_mutex ∧
  Forall (λ w, w ≠ ready_list ∧ w ≠ sleep_list ∧ w ≠ task_list) wait_headers ∧
  mutex_wait_list cpu_mutex ≠ sem_wait_list notify_task_print ∧
  mutex_wait_list cpu_mutex ≠ mutex_wait_list log_mutex.
Proof.
  intros Hb. pose proof (bi_distinct _ Hb) as Hd. unfold headers, wait_headers in *.
  rewrite !NoDup_cons, !not_elem_of_cons in Hd.
  destruct_and! Hd. split_and!; try done.
  - intros E. by rewrite E in *.
  - repeat (apply Forall_cons; split; [split_and!; done|]). constructor.
Qed.

Definition kernel_cpu (s : kstate) : cpu_t :=
  Cpu (eflags (k_cpu s)) (tr (k_cpu s))
    (table_operand gdt_table (GDT_TABLE_SIZE * sizeof_segment_desc))
    (table_operand (symbol "idt_table") (IDT_TABLE_NR * 8)).
Definition kernel_idt : list gate_desc_t :=
  <[32%nat := int_gate "exception_handler_timer"]> boot_idt.
Definition cpu_waits : gmap Z (list Z) := {[mutex_wait_list cpu_mutex := []]}.

Lemma cpu_waits_empty w l : cpu_waits !! w = Some l → l = [].
Proof. unfold cpu_waits. by intros [<- <-]%lookup_singleton_Some. Qed.

(** cpu_init and timer_init. *)
Lemma devices_ok s :
  boot_image s →
  ∃ s', (∀ B (k : M B), (cpu_init;; timer_init;; k) s = k s') ∧
    boot_objs s' cpu_waits ∧ booting s' [] cpu_waits ∧
    k_tasks s' = k_tasks s ∧ k_mutexes s' = <[cpu_mutex := Mutex NULL 0]> (k_mutexes s) ∧
    k_sems s' = k_sems s ∧ same_objs (k_heap s) (k_heap s') ∧
    k_idt s' = kernel_idt ∧ k_sys_tick s' = 0 ∧ k_cpu s' = kernel_cpu s ∧ k_mem s' = k_mem s.
Proof.
  intros Hb. destruct (headers_ne s Hb) as (_ & Hne & _).
  pose proof (bi_headers _ Hb) as Hh. unfold headers, wait_headers in Hh, Hne.
  repeat rewrite Forall_cons in Hh. repeat rewrite Forall_cons in Hne. destruct_and! Hh. destruct_and! Hne.
  destruct (cpu_init_ok s (bi_gdt _ Hb) (bi_idt _ Hb) (proj1 (bi_mutexes _ Hb)))
    as (h & Hrep & Hn & Ho & E); [done|apply Hb|].
  eexists. split; [|split; [|split]].
  - intros B k. erewrite bind_done by exact E. cbn beta.
    erewrite bind_done by (by apply timer_init_ok). reflexivity.
  - pose proof (bi_tasks _ Hb) as Ht. unfold first_tasks in Ht.
    rewrite !Forall_cons in Ht. destruct_and! Ht.
    split; cbn; rewrite ?Hn; try done; try apply Hb.
    + apply cpu_waits_empty.
    + unfold cpu_waits. by rewrite !lookup_singleton_ne by done.
    + split_and!; by apply Ho.
  - split; cbn; try apply Hb.
    + done.
    + apply lookup_insert_eq.
    + intros t u Ht Hu. pose proof (proj1 (Forall_forall _ _) (bi_tasks _ Hb)) as Hex.
      apply (tp_apart _ (bi_placed _ Hb)); by apply Hex.
    + intros t Ht. by apply elem_of_nil in Ht.
    + intros t Ht. by apply elem_of_nil in Ht.
    + apply lookup_singleton_eq.
    + apply cpu_waits_empty.
  - done.
Qed.

Definition log_waits : gmap Z (list Z) := <[mutex_wait_list log_mutex := []]> cpu_waits.
Lemma log_waits_empty w l : log_waits !! w = Some l → l = [].
Proof. unfold log_waits. intros [[_ <-]|[_ Hl]]%lookup_insert_Some; [done|by eapply cpu_waits_empty]. Qed.
Lemma boot_waits_empty w l : boot_waits !! w = Some l → l = [].
Proof. unfold boot_waits. intros [[_ <-]|[_ Hl]]%lookup_insert_Some; [done|by eapply log_waits_empty]. Qed.

(** A mutex of its own wait list, while the scheduler is represented. *)
Lemma mutex_created s a m mx :
  krep s a → k_mutexes s !! m = Some mx →
  is_Some (lists (k_heap s) !! mutex_wait_list m) →
  mutex_wait_list m ≠ ready_list ∧ mutex_wait_list m ≠ sleep_list ∧ mutex_wait_list m ≠ task_list →
  ∃ h, rein_mutex_init m s = Done tt (with_heap h (mutex_set m (Mutex NULL 0) s)) ∧
    krep (with_heap h (mutex_set m (Mutex NULL 0) s)) (a_add_wait (mutex_wait_list m) a) ∧
    same_objs (k_heap s) h.
Proof.
  intros HR Hm Hl (H1 & H2 & H3). rewrite (rein_mutex_init_eq s m mx) by done.
  by apply (add_wait_ok (mutex_set m (Mutex NULL 0) s) a); [apply krep_mutexes|..].
Qed.

Lemma header_exists s s' l :
  boot_image s → same_objs (k_heap s) (k_heap s') → l ∈ headers → is_Some (lists (k_heap s') !! l).
Proof.
  intros Hb [_ Ho] Hl. apply Ho. apply (proj1 (Forall_forall _ _) (bi_headers _ Hb) l Hl).
Qed.
Lemma wait_header_ne s w :
  boot_image s → w ∈ wait_headers → w ≠ ready_list ∧ w ≠ sleep_list ∧ w ≠ task_list.
Proof.
  intros Hb Hw. destruct (headers_ne s Hb) as (_ & Hne & _).
  apply (proj1 (Forall_forall _ _) Hne w Hw).
Qed.

Lemma kernel_init_ok s :
  boot_image s →
  ∃ s', kernel_init s = Done tt s' ∧ krep s' (a_none log_waits) ∧
    booting s' [idle_task] log_waits ∧
    k_tasks s' = <[idle_task := fresh_task (tss_selector 0)]> (k_tasks s) ∧
    k_mutexes s' = <[log_mutex := Mutex NULL 0]> (<[cpu_mutex := Mutex NULL 0]> (k_mutexes s)) ∧
    k_sems s' = k_sems s ∧ same_objs (k_heap s) (k_heap s') ∧ k_idt s' = kernel_idt ∧ k_sys_tick s' = 0 ∧
    k_cpu s' = kernel_cpu s ∧
    k_mem s' = named_mem idle_task idle_entry idle_esp (bytes_of IDLE_TASK_NAME) (k_mem s).
Proof.
  intros Hb.
  destruct (devices_ok s Hb) as (s1 & E1 & Hbo & Hbg & Ht1 & Hm1 & Hs1 & Ho1 & Hi1 & Hk1 & Hc1 & Hmm1).
  assert (idle_task ∈ first_tasks) as Hif by (unfold first_tasks; set_solver).
  assert (IDLE_TASK_NAME ∈ names) as Hin by (unfold names; set_solver).
  destruct (task_manager_init_ok s1 cpu_waits Hbo (bg_waits _ _ _ Hbg))
    as (s2 & E2 & HR2 & HE2 & Ht2 & Hc2 & [Hm2 Hs2]).
  { by eapply booting_create; [done|cbn; lia|..]. }
  destruct (bo_idle _ _ Hbo) as [tk Htk].
  destruct (booting_named s1 [] cpu_waits idle_task tk idle_entry idle_esp IDLE_TASK_NAME s2)
    as [Hb2 Hsel]; try done; [cbn; lia|by apply not_elem_of_nil|by apply (se_gdt _ _ HE2)|by apply (se_mem _ _ HE2)|
      rewrite Hm2; apply Hbg|].
  destruct (headers_ne s Hb) as (Hcl & _ & _ & Hwl).
  destruct (task_named_rest s1 idle_task idle_entry idle_esp (bytes_of IDLE_TASK_NAME))
    as (_ & _ & Hh2 & Hi2 & _ & Hk2).
  assert (same_objs (k_heap s) (k_heap s2)) as Ho2.
  { etrans; [exact Ho1|]. rewrite <- Hh2. apply (se_objs _ _ HE2). }
  destruct (proj2 (bi_mutexes _ Hb)) as [mx Hmx].
  destruct (mutex_created s2 (a_none cpu_waits) log_mutex mx HR2) as (h & E3 & HR3 & Ho3).
  { by rewrite Hm2, Hm1, lookup_insert_ne. }
  { eapply header_exists; [done|done|]. unfold headers, wait_headers. set_solver. }
  { eapply wait_header_ne; [done|]. unfold wait_headers. set_solver. }
  set (s3 := with_heap h (mutex_set log_mutex (Mutex NULL 0) s2)) in *.
  eexists. split_and!.
  - unfold kernel_init. rewrite E1. erewrite bind_done by exact E2. cbn beta.
    unfold log_init. erewrite bind_done by exact E3. cbn beta. reflexivity.
  - by destruct HR3.
  - destruct Hb2. split; cbn; try done.
    + rewrite lookup_insert_ne by (intros E; by apply Hcl). done.
    + unfold log_waits. rewrite lookup_insert_ne by (intros E; by apply Hwl). done.
    + apply log_waits_empty.
  - cbn. rewrite Ht2. unfold idle_named. rewrite (task_named_tasks s1 _ tk) by done.
    by rewrite Hsel, Ht1.
  - cbn. congruence.
  - cbn. congruence.
  - cbn. etrans; [exact Ho2|exact Ho3].
  - etrans; [apply (se_idt _ _ HE2)|]. by etrans; [apply Hi2|].
  - etrans; [apply (se_tick _ _ HE2)|]. by etrans; [apply Hk2|].
  - cbn. congruence.
  - cbn. rewrite (se_mem _ _ HE2). unfold idle_named. rewrite task_named_mem, Hmm1; [done|].
    rewrite (bg_gdt _ _ _ Hbg). by eexists.
Qed.
End kernel_init.

(** ** init_main *)

Section init_main.
Context `{Platform}.

Definition if_set_in (c : cpu_t) : Prop := Z.testbit (eflags c) 9 = true.

(** The memory once the idle and the main task, and the new task, are created. *)
Definition main_mem (m : mem) : mem :=
  named_mem main_task 0 0 (bytes_of "main")
    (named_mem idle_task idle_entry idle_esp (bytes_of IDLE_TASK_NAME) m).
Definition new_mem : mem → mem :=
  named_mem new_task (symbol "new_task_entry") new_task_stack_top (bytes_of "my new task").

(** What is known of the state when the main task enters its loop. *)
Record booted (s s' : kstate) : Prop := {
  bd_rep : krep s' a_boot;
  bd_gdt : k_gdt s' = gdt_with_tss [idle_task; main_task; new_task];
  bd_idt : k_idt s' = kernel_idt;
  bd_idle : k_tasks s' !! idle_task = Some (fresh_task (tss_selector 0));
  bd_main : k_tasks s' !! main_task =
    Some (with_state TASK_READY (fresh_task (tss_selector 1)));
  bd_new : k_tasks s' !! new_task =
    Some (with_state TASK_READY (fresh_task (tss_selector 2)));
  bd_others : ∀ t, t ∉ first_tasks → k_tasks s' !! t = k_tasks s !! t;
  bd_flags : ∀ t, t ∈ first_tasks → tss_flags s' t = task_flags;
  bd_mutexes : k_mutexes s' = <[log_mutex := Mutex NULL 0]> {[cpu_mutex := Mutex NULL 0]};
  bd_sems : k_sems s' = {[notify_task_print := Sem 0]};
  bd_tick : k_sys_tick s' = 0;
  bd_cpu : k_cpu s' = Cpu (Z.lor (eflags (k_cpu s)) ELFAGS_IF) (tss_selector 1)
    (gdtr (kernel_cpu s)) (idtr (kernel_cpu s));
  bd_mem : k_mem s' = new_mem (main_mem (k_mem s))
}.

Lemma awf_boot s : boot_image s → awf a_boot.
Proof.
  intros Hb. pose proof (bi_tasks_distinct _ Hb) as Hd. unfold first_tasks in Hd.
  rewrite !NoDup_cons, !not_elem_of_cons in Hd. destruct_and! Hd.
  pose proof (awf_main boot_waits boot_waits_empty) as Ha.
  change a_boot with (a_create new_task (a_main boot_waits)).
  apply awf_create; [done|done|congruence| |done].
  cbn. rewrite list_elem_of_singleton. congruence.
Qed.

(** The mutexes and the semaphore of the kernel, initialised. *)
Lemma only_mutexes s mx my :
  dom (k_mutexes s) = {[cpu_mutex; log_mutex]} ∧ dom (k_sems s) = {[notify_task_print]} →
  <[log_mutex := mx]> (<[cpu_mutex := my]> (k_mutexes s)) = <[log_mutex := mx]> {[cpu_mutex := my]}.
Proof.
  intros [Hd _]. apply map_eq. intros m. rewrite (lookup_insert (<[cpu_mutex := my]> _)), (lookup_insert {[cpu_mutex := my]}),
    lookup_insert, lookup_singleton. repeat case_decide; try done.
  apply not_elem_of_dom. rewrite Hd. set_solver.
Qed.
Lemma only_sems s sm :
  dom (k_mutexes s) = {[cpu_mutex; log_mutex]} ∧ dom (k_sems s) = {[notify_task_print]} →
  <[notify_task_print := sm]> (k_sems s) = {[notify_task_print := sm]}.
Proof.
  intros [_ Hd]. apply map_eq. intros m. rewrite lookup_insert, lookup_singleton.
  case_decide; subst; [done|]. apply not_elem_of_dom. rewrite Hd. set_solver.
Qed.

(** task_main_init and sem_init, from the state kernel_init leaves. *)
Lemma main_sem_ok s s1 :
  boot_image s → krep s1 (a_none log_waits) → booting s1 [idle_task] log_waits →
  k_tasks s1 = <[idle_task := fresh_task (tss_selector 0)]> (k_tasks s) →
  k_sems s1 = k_sems s → same_objs (k_heap s) (k_heap s1) →
  ∃ s2, (∀ B (k : M B), (task_main_init;; sem_init notify_task_print 0;; k) s1 = k s2) ∧
    krep s2 (a_main boot_waits) ∧ booting s2 [idle_task; main_task] boot_waits ∧
    k_tasks s2 = <[main_task := with_state TASK_READY (fresh_task (tss_selector 1))]> (k_tasks s1) ∧
    k_sems s2 = <[notify_task_print := Sem 0]> (k_sems s1) ∧ k_mutexes s2 = k_mutexes s1 ∧
    k_idt s2 = k_idt s1 ∧ k_sys_tick s2 = k_sys_tick s1 ∧
    k_cpu s2 = Cpu (eflags (k_cpu s1)) (tss_selector 1) (gdtr (k_cpu s1)) (idtr (k_cpu s1)) ∧
    k_mem s2 = named_mem main_task 0 0 (bytes_of "main") (k_mem s1).
Proof.
  intros Hb HR Hbg Ht Hs Ho.
  assert (main_task ∈ first_tasks) as Hmf by (unfold first_tasks; set_solver).
  assert ("main"%string ∈ names) as Hmn by (unfold names; set_solver).
  assert (is_Some (k_tasks s1 !! main_task)) as Hmt.
  { rewrite Ht, lookup_insert_ne by (symmetry; apply main_not_idle).
    apply (proj1 (Forall_forall _ _) (bi_tasks _ Hb) _ Hmf). }
  destruct (task_main_init_ok s1 log_waits HR log_waits_empty (bg_waits _ _ _ Hbg) Hmt)
    as (s2 & E & HR2 & Ht2 & Hc2 & Hm2 & Hg2 & Hi2 & _ & Hk2 & Ho2 & Hl2).
  { by eapply booting_create; [done|cbn; lia|..]. }
  destruct Hmt as [tk Hmt]. destruct Hl2 as [Hmx2 Hs2].
  destruct (booting_named s1 [idle_task] log_waits main_task tk 0 0 "main" s2 Hbg)
    as [Hb2 Hsel]; try done; [cbn; lia| |rewrite Hmx2; apply Hbg|].
  { rewrite list_elem_of_singleton. apply main_not_idle. }
  assert (sem_wait_list notify_task_print ∈ wait_headers) as Hsw
    by (unfold wait_headers; set_solver).
  destruct (wait_header_ne s _ Hb Hsw) as (H1 & H2 & H3).
  destruct (bi_sem _ Hb) as [sm Hsm].
  assert (k_sems s2 !! notify_task_print = Some sm) as Hsm2 by congruence.
  set (s2' := with_sems (<[notify_task_print := Sem 0]> (k_sems s2)) s2).
  destruct (add_wait_ok s2' (a_main log_waits) (sem_wait_list notify_task_print))
    as (h & E3 & HR3 & Ho3); [by apply krep_sems| |done..|].
  { apply (header_exists s s2); [done|by etrans|]. unfold headers. set_solver. }
  exists (with_heap h s2'). split_and!.
  - intros B k. erewrite bind_done by exact E. cbn beta. unfold sem_init.
    erewrite bind2_done by (by eapply set_sem_count_done). cbn beta.
    by erewrite bind_done by exact E3.
  - exact HR3.
  - destruct Hb2. split; cbn; try done.
    + unfold boot_waits. destruct (headers_ne s Hb) as (_ & _ & Hne & _).
      rewrite lookup_insert_ne by (intros Heq; by apply Hne). done.
    + apply boot_waits_empty.
  - cbn. by rewrite Ht2, Hsel.
  - cbn. congruence.
  - cbn. congruence.
  - cbn. congruence.
  - cbn. congruence.
  - cbn. rewrite Hc2, Hsel. done.
  - cbn. rewrite Hm2. unfold main_named. rewrite task_named_mem; [done|].
    rewrite (bg_gdt _ _ _ Hbg). by eexists.
Qed.

(** The state when init_main is about to create its task. *)
Record main_runs (s s' : kstate) : Prop := {
  mr_rep : krep s' (a_main boot_waits);
  mr_booting : booting s' [idle_task; main_task] boot_waits;
  mr_tasks : k_tasks s' = <[main_task := with_state TASK_READY (fresh_task (tss_selector 1))]>
    (<[idle_task := fresh_task (tss_selector 0)]> (k_tasks s));
  mr_idt : k_idt s' = kernel_idt;
  mr_mutexes : k_mutexes s' = <[log_mutex := Mutex NULL 0]> {[cpu_mutex := Mutex NULL 0]};
  mr_sems : k_sems s' = {[notify_task_print := Sem 0]};
  mr_tick : k_sys_tick s' = 0;
  mr_cpu : k_cpu s' = Cpu (Z.lor (eflags (k_cpu s)) ELFAGS_IF) (tss_selector 1)
    (gdtr (kernel_cpu s)) (idtr (kernel_cpu s));
  mr_mem : k_mem s' = main_mem (k_mem s)
}.

Lemma main_runs_ok s :
  boot_image s →
  ∃ s', (∀ B (k : M B), (kernel_init;; task_main_init;; sem_init notify_task_print 0;;
      irq_enable_global;; k) s = k s') ∧
    (kernel_init;; task_main_init;; sem_init notify_task_print 0;; irq_enable_global) s = Done tt s' ∧
    main_runs s s'.
Proof.
  intros Hb. destruct (kernel_init_ok s Hb)
    as (s1 & E1 & HR1 & Hbg1 & Ht1 & Hlm & Hs1 & Ho1 & Hi1 & Hk1 & Hc1 & Hmm1).
  destruct (main_sem_ok s s1 Hb HR1 Hbg1 Ht1 Hs1 Ho1)
    as (s2 & E2 & HR2 & Hbg2 & Ht2 & Hs2 & Hm2 & Hi2 & Hk2 & Hc2 & Hmm2).
  exists (with_eflags (Z.lor (eflags (k_cpu s2)) ELFAGS_IF) s2). split.
  { intros B k. erewrite bind_done by exact E1. cbn beta. rewrite E2. by erewrite bind_done by done. }
  split; [erewrite bind_done by exact E1; cbn beta; by rewrite E2|]. split; cbn.
  - by apply krep_eflags.
  - by destruct Hbg2.
  - by rewrite Ht2, Ht1.
  - by rewrite Hi2.
  - rewrite Hm2, Hlm. apply only_mutexes, Hb.
  - rewrite Hs2, Hs1. apply only_sems, Hb.
  - by rewrite Hk2.
  - rewrite Hc2. cbn. by rewrite Hc1.
  - by rewrite Hmm2, Hmm1.
Qed.

Lemma new_not_first : new_task ≠ idle_task → new_task ≠ main_task → new_task ∉ [idle_task; main_task].
Proof. rewrite !elem_of_cons, elem_of_nil. tauto. Qed.
Lemma first_tasks_ne s :
  boot_image s → main_task ≠ idle_task ∧ new_task ≠ idle_task ∧ new_task ≠ main_task.
Proof.
  intros Hb. pose proof (bi_tasks_distinct _ Hb) as Hd. unfold first_tasks in Hd.
  rewrite !NoDup_cons, !not_elem_of_cons in Hd. destruct_and! Hd. split_and!; congruence.
Qed.

(** The creation of the new task from there, without interruption. *)
Lemma new_task_ok s s' :
  boot_image s → main_runs s s' →
  ∃ s4, task_init new_task (literal "my new task") (symbol "new_task_entry") new_task_stack_top s' = Done 0 s4 ∧
    booted s s4.
Proof.
  intros Hb [HR Hbg Ht Hi Hm Hs Hk Hc Hmm]. destruct (first_tasks_ne s Hb) as (Hmi & Hni & Hnm).
  assert (new_task ∈ first_tasks) as Hnf by (unfold first_tasks; set_solver).
  assert ("my new task"%string ∈ names) as Hnn by (unfold names; set_solver).
  destruct (proj1 (Forall_forall _ _) (bi_tasks _ Hb) _ Hnf) as [tk Htk].
  assert (k_tasks s' !! new_task = Some tk) as Htk3 by (by rewrite Ht, !lookup_insert_ne by congruence).
  destruct (booting_create s' _ _ new_task "my new task" Hbg) as [Hg Hmx Hnl Hna Hnd]; [cbn; lia|done..|].
  pose proof (mutex_free_krep s' _ _ HR (bg_waits _ _ _ Hbg) Hmx) as Hfree.
  destruct (task_init_ok s' (a_main boot_waits) new_task tk (literal "my new task")
    (bytes_of "my new task") (symbol "new_task_entry") new_task_stack_top HR Hg Hfree Htk3 Hnl Hna Hnd)
    as (s4 & E4 & HR4 & HE4 & Hc4 & [Hm4 Hs4] & Ht4); [done| |done|done|].
  { split; cbn; try (rewrite list_elem_of_singleton; congruence); [apply not_elem_of_nil|].
    intros w l Hl. rewrite (boot_waits_empty _ _ Hl). apply not_elem_of_nil. }
  destruct (booting_named s' _ _ new_task tk (symbol "new_task_entry") new_task_stack_top
    "my new task" s4 Hbg) as [Hbg4 Hsel]; try done;
    [cbn; lia|by apply new_not_first|by apply (se_gdt _ _ HE4)|by apply (se_mem _ _ HE4)|by rewrite Hm4|].
  destruct (task_named_rest s' new_task (symbol "new_task_entry") new_task_stack_top
    (bytes_of "my new task")) as (_ & _ & _ & Hi4 & _ & Hk4).
  exists s4. split; [exact E4|]. split.
  - exact HR4.
  - apply Hbg4.
  - rewrite (se_idt _ _ HE4), Hi4. exact Hi.
  - rewrite Ht4, lookup_insert_ne, Ht, lookup_insert_ne by congruence. apply lookup_insert_eq.
  - rewrite Ht4, lookup_insert_ne, Ht by congruence. apply lookup_insert_eq.
  - rewrite Ht4, lookup_insert_eq. by rewrite Hsel.
  - intros t Hnt. unfold first_tasks in Hnt. rewrite !not_elem_of_cons in Hnt.
    destruct Hnt as (H1 & H2 & H3 & _). by rewrite Ht4, lookup_insert_ne, Ht, !lookup_insert_ne by congruence.
  - intros t Hin. by apply (bg_flags _ _ _ Hbg4).
  - by rewrite Hm4.
  - by rewrite Hs4.
  - rewrite (se_tick _ _ HE4), Hk4. exact Hk.
  - by rewrite Hc4.
  - rewrite (se_mem _ _ HE4), task_named_mem, Hmm; [done|].
    rewrite (bg_gdt _ _ _ Hbg). by eexists.
Qed.

Lemma boot_ok s :
  boot_image s →
  ∃ s', (kernel_init;; init_main_start) s = Done tt s' ∧ booted s s'.
Proof.
  intros Hb. destruct (main_runs_ok s Hb) as (s1 & E1 & _ & H1).
  destruct (new_task_ok s s1 Hb H1) as (s2 & E2 & H2). exists s2. split; [|done].
  unfold init_main_start. rewrite E1. by erewrite bind_done by exact E2.
Qed.
End init_main.

(** ** Properties *)

Section init_properties.
Context `{Platform}.

(** C24: kernel_init and the start of init_main, from an image in which the global
    objects exist with any contents: the code ends without a task switch in
    a state that represents the scheduler with the main task running, the
    main and the new task ready and no sleeper; the idle task, the main task
    and the new task have TSS descriptors 3, 4 and 5, the timer gate is
    installed, both mutexes and the semaphore are free and without waiters,
    TR names the main task and interrupts are enabled. *)
Theorem kernel_boots s :
  boot_image s →
  ∃ s', (kernel_init;; init_main_start) s = Done tt s' ∧ booted s s' ∧ awf a_boot ∧
    if_set_in (k_cpu s') ∧ tr (k_cpu s') = sel_of s' (k_curr s') ∧ k_curr s' = main_task.
Proof.
  intros Hb. destruct (boot_ok s Hb) as (s' & E & Hbd). exists s'.
  assert (k_curr s' = main_task) as Hk by apply (kr_curr _ _ (bd_rep _ _ Hbd)).
  split_and!; [done|done|by eapply awf_boot| | |done].
  - unfold if_set_in. rewrite (bd_cpu _ _ Hbd). cbn [eflags]. rewrite Z.lor_spec. apply orb_true_r.
  - rewrite Hk, (bd_cpu _ _ Hbd). unfold sel_of. by rewrite (bd_main _ _ Hbd).
Qed.
End init_properties.
