(* ===== verification/Elf.v ===== *)
(** * Loading the kernel image (loader/loader32.c: reload_elf_file; comm/elf.h)

    The routine works on the bytes of the memory, and reads the headers again
    in every turn of its loops, as the code does: a segment that overwrites
    the file buffer would change them. *)

From S2P Require Import Prelude Mem Klib.

(** ** Layout (comm/elf.h, packed) *)

Definition ELF_MAGIC0 : Z := 0x7F.
Definition ELF_MAGIC1 : Z := 0x45.
Definition ELF_MAGIC2 : Z := 0x4c.
Definition ELF_MAGIC3 : Z := 0x46.
Definition PT_LOAD : Z := 1.
Definition sizeof_Ehdr : Z := 52.
Definition sizeof_Phdr : Z := 32.

(** Elf32_Ehdr *)
Definition e_ident (m : mem) (hdr i : Z) : Z := load8 m (u32 (hdr + i)).
Definition e_entry (m : mem) (hdr : Z) : Z := load32 m (u32 (hdr + 24)).
Definition e_phoff (m : mem) (hdr : Z) : Z := load32 m (u32 (hdr + 28)).
Definition e_phnum (m : mem) (hdr : Z) : Z := load16 m (u32 (hdr + 44)).

(** Elf32_Phdr *)
Definition p_type (m : mem) (phdr : Z) : Z := load32 m (u32 phdr).
Definition p_offset (m : mem) (phdr : Z) : Z := load32 m (u32 (phdr + 4)).
Definition p_paddr (m : mem) (phdr : Z) : Z := load32 m (u32 (phdr + 12)).
Definition p_filesz (m : mem) (phdr : Z) : Z := load32 m (u32 (phdr + 16)).
Definition p_memsz (m : mem) (phdr : Z) : Z := load32 m (u32 (phdr + 20)).

(** ** The code *)

(** for(int j = 0; j < phdr->p_filesz; j++) *(dest++) = *(src++); the
    comparison is unsigned. The result is the memory and [dest]. *)
Definition copy_segment (m : mem) (phdr src dest : Z) : result (mem * Z) :=
  ended (cwhile (λ '(m, j, src, dest),
    if u32 j <? p_filesz m phdr then
      Cont (store8 m dest (load8 m src), i32 (j + 1), u32 (src + 1), u32 (dest + 1))
    else Brk (m, dest)) (m, 0, src, dest)).

(** for (int j = 0; j < fill_bytes; j++) *dest++ = 0; *)
Definition fill_segment (m : mem) (fill_bytes dest : Z) : result mem :=
  ended (cwhile (λ '(m, j, dest),
    if u32 j <? fill_bytes then Cont (store8 m dest 0, i32 (j + 1), u32 (dest + 1))
    else Brk m) (m, 0, dest)).

(** One program header. *)
Definition load_phdr (m : mem) (file_buffer phdr : Z) : result mem :=
  if negb (p_type m phdr =? PT_LOAD) then Ok m
  else
    let src := u32 (file_buffer + p_offset m phdr) in
    let dest := p_paddr m phdr in
    '(m, dest) ← copy_segment m phdr src dest;
    let fill_bytes := u32 (p_memsz m phdr - p_filesz m phdr) in
    fill_segment m fill_bytes dest.

(** static inline uint32_t reload_elf_file(void *file_buffer) *)
Definition reload_elf_file (m : mem) (file_buffer : Z) : result (mem * Z) :=
  let elf_hdr := file_buffer in
  if negb (e_ident m elf_hdr 0 =? ELF_MAGIC0) || negb (e_ident m elf_hdr 1 =? ELF_MAGIC1) ||
     negb (e_ident m elf_hdr 2 =? ELF_MAGIC2) || negb (e_ident m elf_hdr 3 =? ELF_MAGIC3)
  then Ok (m, 0)
  else
    let phdr_start := u32 (file_buffer + e_phoff m elf_hdr) in
    m ← ended (cwhile (λ '(m, i),
      if i <? e_phnum m elf_hdr then
        match load_phdr m file_buffer (u32 (phdr_start + i * sizeof_Phdr)) with
        | Ok m => Cont (m, i32 (i + 1))
        | Err e => Brk (Err e)
        end
      else Brk (Ok m)) (m, 0));
    m ← m;
    Ok (m, e_entry m elf_hdr).

(** ** Copying and filling *)

Lemma u32_i32 j : u32 (i32 j) = u32 j.
Proof. unfold u32, i32. Z.to_euclidean_division_equations. lia. Qed.
Lemma i32_succ j : i32 (i32 j + 1) = i32 (j + 1).
Proof. unfold i32. Z.to_euclidean_division_equations. lia. Qed.
Lemma u32_succ a : u32 (u32 a + 1) = u32 (a + 1).
Proof. unfold u32. apply Zplus_mod_idemp_l. Qed.

Section segments.
Implicit Types (m : mem) (bs : list Z).

Lemma copy_steps m phdr src dest j bs :
  bytes_at m src bs → 0 <= src → src + len bs <= 2 ^ 32 → 0 <= dest → dest + len bs <= 2 ^ 32 →
  disjoint_ranges dest (len bs) src (len bs) →
  disjoint_ranges dest (len bs) (u32 (phdr + 16)) 4 →
  0 <= j → p_filesz m phdr = j + len bs → j + len bs < 2 ^ 32 →
  steps (λ '(m, j, src, dest),
    if u32 j <? p_filesz m phdr then
      Cont (store8 m dest (load8 m src), i32 (j + 1), u32 (src + 1), u32 (dest + 1))
    else Brk (m, dest)) (len bs + 1) (m, i32 j, u32 src, u32 dest)
    (stores m dest bs, u32 (dest + len bs)).
Proof.
  change (2 ^ 32) with 0x100000000.
  revert m src dest j. induction bs as [|b bs IH]; intros m src dest j Hb Hs1 Hs2 Hd1 Hd2 Hds Hdp Hj Hf Hjb.
  - loop_brk. rewrite u32_i32, Hf. cbn [length]. rewrite !u32_small by (cbn in *; lia).
    rewrite (proj2 (Z.ltb_ge _ _)) by (cbn; lia). cbn [stores].
    by rewrite Z.add_0_r.
  - cbn [length bytes_at stores] in *. destruct Hb as [Hb0 Hb].
    replace (Z.of_nat (S (length bs)) + 1) with (len bs + 1 + 1) by lia.
    unfold disjoint_ranges in *.
    loop_cont.
    { rewrite u32_i32, Hf, (u32_small j), (u32_small src), (u32_small dest) by lia.
      rewrite (proj2 (Z.ltb_lt _ _)) by lia. rewrite Hb0, i32_succ. reflexivity. }
    replace (dest + Z.of_nat (S (length bs))) with (dest + 1 + len bs) by lia.
    apply IH; try lia.
    + apply (bytes_at_stores_out m dest [b]); [unfold disjoint_ranges; cbn; lia|done].
    + unfold p_filesz in *. rewrite (load32_stores_out m dest [b]); [lia|].
      unfold disjoint_ranges. cbn. lia.
Qed.

Lemma fill_steps m n dest (k : nat) j :
  0 <= dest → dest + Z.of_nat k <= 2 ^ 32 → 0 <= j → n = j + Z.of_nat k → n < 2 ^ 32 →
  steps (λ '(m, j, dest),
    if u32 j <? n then Cont (store8 m dest 0, i32 (j + 1), u32 (dest + 1))
    else Brk m) (Z.of_nat k + 1) (m, i32 j, u32 dest) (stores m dest (replicate k 0)).
Proof.
  change (2 ^ 32) with 0x100000000.
  revert m dest j. induction k as [|k IH]; intros m dest j Hd1 Hd2 Hj Hn Hb.
  - loop_brk. rewrite u32_i32, (u32_small j) by lia. by rewrite (proj2 (Z.ltb_ge _ _)) by lia.
  - replace (Z.of_nat (S k) + 1) with (Z.of_nat k + 1 + 1) by lia. loop_cont.
    { rewrite u32_i32, (u32_small j), (u32_small dest) by lia.
      rewrite (proj2 (Z.ltb_lt _ _)) by lia. rewrite i32_succ. reflexivity. }
    cbn [replicate stores]. apply IH; lia.
Qed.

Lemma copy_segment_ok m phdr src dest bs :
  bytes_at m src bs → 0 <= src → src + len bs <= 2 ^ 32 → 0 <= dest → dest + len bs <= 2 ^ 32 →
  disjoint_ranges dest (len bs) src (len bs) →
  disjoint_ranges dest (len bs) (u32 (phdr + 16)) 4 →
  p_filesz m phdr = len bs → len bs < 2 ^ 32 → 
  copy_segment m phdr (u32 src) (u32 dest) = Ok (stores m dest bs, u32 (dest + len bs)).
Proof.
  intros. unfold copy_segment. erewrite cwhile_steps; [done| |].
  - by apply (copy_steps m phdr src dest 0 bs).
  - change (2 ^ 32) with 0x100000000 in *. lia.
Qed.
Lemma fill_segment_ok m n dest :
  0 <= dest → 0 <= n → dest + n <= 2 ^ 32 → n < 2 ^ 32 →
  fill_segment m n (u32 dest) = Ok (stores m dest (replicate (Z.to_nat n) 0)).
Proof.
  intros. unfold fill_segment. erewrite cwhile_steps; [done| |].
  - apply (fill_steps m n dest (Z.to_nat n) 0); rewrite ?Z2Nat.id; lia.
  - change (2 ^ 32) with 0x100000000 in *. lia.
Qed.
End segments.

(** ** The image a file describes *)

Definition read_bytes (m : mem) (a n : Z) : list Z :=
  (λ i, load8 m (a + Z.of_nat i)) <$> seq 0 (Z.to_nat n).

(** The bytes of one program header: the file's, then zeros up to the size in
    memory; nothing for a header that is not loadable. *)
Definition segment (m : mem) (buf ph : Z) : list (Z * list Z) :=
  if p_type m ph =? PT_LOAD then
    [(p_paddr m ph,
      read_bytes m (buf + p_offset m ph) (p_filesz m ph) ++
      replicate (Z.to_nat (p_memsz m ph - p_filesz m ph)) 0)]
  else [].
Definition phdr_at (m : mem) (buf : Z) (i : nat) : Z := buf + e_phoff m buf + Z.of_nat i * sizeof_Phdr.
Definition segments (m : mem) (buf : Z) : list (Z * list Z) :=
  seq 0 (Z.to_nat (e_phnum m buf)) ≫= λ i, segment m buf (phdr_at m buf i).
Definition place (m : mem) (segs : list (Z * list Z)) : mem :=
  foldl (λ m p, stores m p.1 p.2) m segs.

(** A program header is inside the file, its bytes too, and the memory it
    names is outside. *)
Record phdr_ok (m : mem) (buf flen ph : Z) : Prop := {
  po_in : buf <= ph ∧ ph + sizeof_Phdr <= buf + flen;
  po_file : p_type m ph = PT_LOAD → p_offset m ph + p_filesz m ph <= flen;
  po_size : p_type m ph = PT_LOAD → p_filesz m ph <= p_memsz m ph;
  po_top : p_type m ph = PT_LOAD → p_paddr m ph + p_memsz m ph <= 2 ^ 32;
  po_apart : p_type m ph = PT_LOAD → disjoint_ranges (p_paddr m ph) (p_memsz m ph) buf flen
}.
Record elf_file (m : mem) (buf flen : Z) : Prop := {
  ef_range : 0 <= buf ∧ sizeof_Ehdr <= flen ∧ buf + flen <= 2 ^ 32 ∧ flen < 2 ^ 32;
  ef_magic : e_ident m buf 0 = ELF_MAGIC0 ∧ e_ident m buf 1 = ELF_MAGIC1 ∧
    e_ident m buf 2 = ELF_MAGIC2 ∧ e_ident m buf 3 = ELF_MAGIC3;
  ef_phdrs : ∀ i, Z.of_nat i < e_phnum m buf → phdr_ok m buf flen (phdr_at m buf i)
}.

Section reload.
Context (buf flen : Z).
Context (Hrange : 0 <= buf ∧ sizeof_Ehdr <= flen ∧ buf + flen <= 2 ^ 32 ∧ flen < 2 ^ 32).

(** The bytes of the file are the same in both memories. *)
Definition same_file (m m' : mem) : Prop :=
  ∀ x, buf <= x < buf + flen → load8 m' x = load8 m x.

#[local] Instance same_file_pre : PreOrder same_file.
Proof.
  split; [done|]. intros m1 m2 m3 H12 H23 x Hx. by rewrite H23, H12.
Qed.

Lemma same_file_stores m a bs : disjoint_ranges a (len bs) buf flen → same_file m (stores m a bs).
Proof. unfold disjoint_ranges. intros Hd x Hx. apply load_stores_out. lia. Qed.
Lemma same_file_load32 m m' x :
  same_file m m' → buf <= x → x + 4 <= buf + flen → load32 m' x = load32 m x.
Proof. intros Hs H1 H2. unfold load32, load16. by rewrite !Hs by lia. Qed.
Lemma same_file_load16 m m' x :
  same_file m m' → buf <= x → x + 2 <= buf + flen → load16 m' x = load16 m x.
Proof. intros Hs H1 H2. unfold load16. by rewrite !Hs by lia. Qed.

Ltac in_file := unfold sizeof_Ehdr, sizeof_Phdr in *; change (2 ^ 32) with 0x100000000 in *; lia.

(** The fields of the headers do not change with the rest of the memory. *)
Lemma same_file_ehdr m m' :
  same_file m m' →
  e_phoff m' buf = e_phoff m buf ∧ e_phnum m' buf = e_phnum m buf ∧ e_entry m' buf = e_entry m buf.
Proof using Hrange.
  intros Hs. unfold e_phoff, e_phnum, e_entry. rewrite !u32_small by in_file.
  split_and!; [apply same_file_load32|apply same_file_load16|apply same_file_load32];
    done || in_file.
Qed.
Lemma same_file_phdr m m' ph :
  same_file m m' → buf <= ph → ph + sizeof_Phdr <= buf + flen →
  p_type m' ph = p_type m ph ∧ p_offset m' ph = p_offset m ph ∧ p_paddr m' ph = p_paddr m ph ∧
  p_filesz m' ph = p_filesz m ph ∧ p_memsz m' ph = p_memsz m ph.
Proof using Hrange.
  intros Hs H1 H2. unfold p_type, p_offset, p_paddr, p_filesz, p_memsz.
  rewrite !u32_small by in_file. split_and!; apply same_file_load32; done || in_file.
Qed.

Lemma bytes_at_read m m' a n :
  (∀ x, a <= x < a + n → load8 m' x = load8 m x) → bytes_at m' a (read_bytes m a n).
Proof.
  unfold read_bytes. intros Hx.
  assert (∀ (k b : nat), Z.of_nat b + Z.of_nat k <= n →
    bytes_at m' (a + Z.of_nat b) ((λ i, load8 m (a + Z.of_nat i)) <$> seq b k)) as Hk.
  { intros k. induction k as [|k IH]; intros b Hb; [done|]. cbn [seq fmap list_fmap bytes_at].
    split; [apply Hx; lia|]. replace (a + Z.of_nat b + 1) with (a + Z.of_nat (S b)) by lia.
    apply IH. lia. }
  destruct (Z.le_gt_cases 0 n).
  - specialize (Hk (Z.to_nat n) 0%nat). rewrite Z.add_0_r in Hk. apply Hk. lia.
  - replace (Z.to_nat n) with 0%nat by lia. done.
Qed.
Lemma read_bytes_len m a n : 0 <= n → len (read_bytes m a n) = n.
Proof. intros Hn. unfold read_bytes. rewrite length_fmap, length_seq. lia. Qed.

(** One turn of the loop over the headers. *)
Lemma load_phdr_ok m m' ph :
  same_file m m' → phdr_ok m buf flen ph →
  load_phdr m' buf ph = Ok (place m' (segment m buf ph)) ∧
  same_file m (place m' (segment m buf ph)).
Proof using Hrange.
  intros Hs [[Hp1 Hp2] Hfile Hsize Htop Hap].
  destruct (same_file_phdr m m' ph Hs Hp1 Hp2) as (Ht & Ho & Hpa & Hf & Hm).
  unfold load_phdr, segment. rewrite Ht, Ho, Hpa.
  destruct (Z.eqb_spec (p_type m ph) PT_LOAD) as [Hl|]; cbn [negb]; [|done].
  specialize (Hfile Hl). specialize (Hsize Hl). specialize (Htop Hl). specialize (Hap Hl).
  set (off := p_offset m ph) in *. set (fs := p_filesz m ph) in *.
  set (ms := p_memsz m ph) in *. set (pa := p_paddr m ph) in *.
  assert (0 <= off ∧ 0 <= fs ∧ 0 <= ms < 0x100000000 ∧ 0 <= pa < 0x100000000) as (? & ? & ? & ?).
  { unfold off, fs, ms, pa, p_offset, p_filesz, p_memsz, p_paddr.
    pose proof (load32_bound m). split_and!; apply load32_bound. }
  pose proof (read_bytes_len m (buf + off) fs ltac:(lia)) as Hlen.
  set (bs := read_bytes m (buf + off) fs) in *. unfold disjoint_ranges in Hap.
  assert (same_file m (stores m' pa bs)) as Hs2.
  { etrans; [exact Hs|]. apply same_file_stores. unfold disjoint_ranges. lia. }
  destruct (same_file_phdr m _ ph Hs2 Hp1 Hp2) as (_ & _ & _ & Hf2 & Hm2).
  unfold mbind, result_bind. rewrite <- (u32_small pa) at 1 by lia.
  rewrite (copy_segment_ok m' ph (buf + off) pa bs); unfold disjoint_ranges;
    rewrite ?Hlen; try in_file; [|by apply bytes_at_read; intros x ?; apply Hs; in_file
      |rewrite u32_small by in_file; in_file].
  cbn beta iota zeta. rewrite Hf2, Hm2. fold fs ms. rewrite (u32_small (ms - fs)) by lia.
  rewrite fill_segment_ok by in_file. unfold place. cbn [foldl fst snd].
  rewrite stores_app, Hlen. split; [done|]. etrans; [exact Hs2|].
  apply same_file_stores. unfold disjoint_ranges. rewrite length_replicate. lia.
Qed.

Lemma place_app m l1 l2 : place m (l1 ++ l2) = place (place m l1) l2.
Proof. apply foldl_app. Qed.

Lemma phdr_address m i :
  phdr_ok m buf flen (phdr_at m buf i) →
  u32 (u32 (buf + e_phoff m buf) + Z.of_nat i * sizeof_Phdr) = phdr_at m buf i.
Proof using Hrange.
  intros [[H1 H2] _ _ _ _]. unfold phdr_at in *.
  unfold u32 at 1 2. rewrite Zplus_mod_idemp_l. apply u32_small. in_file.
Qed.

Lemma reload_steps m (k : nat) i m' :
  (∀ i, Z.of_nat i < e_phnum m buf → phdr_ok m buf flen (phdr_at m buf i)) →
  Z.of_nat i + Z.of_nat k = e_phnum m buf → same_file m m' →
  let m2 := place m' (seq i k ≫= λ i, segment m buf (phdr_at m buf i)) in
  steps (λ '(m', i),
    if i <? e_phnum m' buf then
      match load_phdr m' buf (u32 (u32 (buf + e_phoff m buf) + i * sizeof_Phdr)) with
      | Ok m => Cont (m, i32 (i + 1))
      | Err e => Brk (Err e)
      end
    else Brk (Ok m')) (Z.of_nat k + 1) (m', Z.of_nat i) (Ok m2) ∧ same_file m m2.
Proof using Hrange.
  intros Hph. revert i m'. induction k as [|k IH]; intros i m' Hi Hs m2.
  - split; [|done]. loop_brk. destruct (same_file_ehdr m m' Hs) as (_ & -> & _).
    by rewrite (proj2 (Z.ltb_ge _ _)) by lia.
  - assert (Z.of_nat i < e_phnum m buf) as Hlt by lia.
    destruct (load_phdr_ok m m' (phdr_at m buf i) Hs (Hph i Hlt)) as [Hl Hs1].
    destruct (IH (S i) _ ltac:(lia) Hs1) as [Hst Hs2].
    assert (m2 = place (place m' (segment m buf (phdr_at m buf i)))
      (seq (S i) k ≫= λ i, segment m buf (phdr_at m buf i))) as E2
      by (unfold m2; cbn [seq mbind list_bind]; apply place_app).
    rewrite E2. split; [|exact Hs2].
    replace (Z.of_nat (S k) + 1) with (Z.of_nat k + 1 + 1) by lia.
    loop_cont; [|exact Hst]. destruct (same_file_ehdr m m' Hs) as (_ & -> & _).
    rewrite (proj2 (Z.ltb_lt _ _)) by lia. rewrite phdr_address by auto. rewrite Hl.
    pose proof (load16_bound m (u32 (buf + 44))). unfold e_phnum in *.
    rewrite i32_small by (unfold INT_MIN, INT_MAX; lia).
    by replace (Z.of_nat i + 1) with (Z.of_nat (S i)) by lia.
Qed.
End reload.

Lemma reload_elf_file_ok m buf flen :
  elf_file m buf flen →
  reload_elf_file m buf = Ok (place m (segments m buf), e_entry m buf).
Proof.
  intros [Hr (H0 & H1 & H2 & H3) Hph]. unfold reload_elf_file.
  rewrite H0, H1, H2, H3, !Z.eqb_refl. cbn [negb orb].
  pose proof (load16_bound m (u32 (buf + 44))) as Hb. fold (e_phnum m buf) in Hb.
  destruct (reload_steps buf flen Hr m (Z.to_nat (e_phnum m buf)) 0 m Hph) as [Hst Hs]; [lia|done|].
  rewrite Z2Nat.id in Hst by lia. fold (segments m buf) in Hst, Hs.
  destruct (same_file_ehdr buf flen Hr m _ Hs) as (_ & _ & Ee).
  set (m2 := place m (segments m buf)) in *. clearbody m2.
  erewrite (cwhile_steps _ (e_phnum m buf + 1)); [|exact Hst|lia].
  unfold mbind, result_bind. cbn [ended]. by rewrite Ee.
Qed.

Lemma reload_elf_file_bad m buf :
  ¬ (e_ident m buf 0 = ELF_MAGIC0 ∧ e_ident m buf 1 = ELF_MAGIC1 ∧
     e_ident m buf 2 = ELF_MAGIC2 ∧ e_ident m buf 3 = ELF_MAGIC3) →
  reload_elf_file m buf = Ok (m, 0).
Proof.
  intros Hbad. unfold reload_elf_file.
  destruct (Z.eqb_spec (e_ident m buf 0) ELF_MAGIC0), (Z.eqb_spec (e_ident m buf 1) ELF_MAGIC1),
    (Z.eqb_spec (e_ident m buf 2) ELF_MAGIC2), (Z.eqb_spec (e_ident m buf 3) ELF_MAGIC3);
    cbn [negb orb]; try done. by destruct Hbad.
Qed.

(** A file is its bytes: where they are the same, the image is. *)
Lemma read_bytes_same m m' a n :
  (∀ x, a <= x < a + n → load8 m' x = load8 m x) → read_bytes m' a n = read_bytes m a n.
Proof.
  intros Hx. apply list_fmap_ext. intros i j Hj. apply lookup_seq in Hj as [-> Hi]. apply Hx. lia.
Qed.
Lemma elf_file_same m m' buf flen :
  same_file buf flen m m' → elf_file m buf flen →
  elf_file m' buf flen ∧ segments m' buf = segments m buf ∧ e_entry m' buf = e_entry m buf.
Proof.
  intros Hs [Hr Hm Hp]. destruct (same_file_ehdr buf flen Hr m m' Hs) as (Eoff & Enum & Eent).
  assert (∀ i, phdr_at m' buf i = phdr_at m buf i) as Eph by (intros i; unfold phdr_at; by rewrite Eoff).
  assert (∀ i, Z.of_nat i < e_phnum m buf → phdr_ok m' buf flen (phdr_at m buf i) ∧
    segment m' buf (phdr_at m buf i) = segment m buf (phdr_at m buf i)) as Hph.
  { intros i Hi. destruct (Hp i Hi) as [[H1 H2] H3 H4 H5 H6].
    destruct (same_file_phdr buf flen Hr m m' (phdr_at m buf i) Hs H1 H2) as (F1 & F2 & F3 & F4 & F5).
    split; [split; rewrite ?F1, ?F2, ?F3, ?F4, ?F5; done|].
    unfold segment. rewrite F1, F2, F3, F4, F5. destruct (Z.eqb_spec (p_type m (phdr_at m buf i)) PT_LOAD) as [Ht|]; [|done].
    do 3 f_equal. apply read_bytes_same. intros x Hx. apply Hs. specialize (H3 Ht).
    pose proof (load32_bound m (u32 (phdr_at m buf i + 4))). unfold p_offset in *. lia. }
  split; [|split; [|exact Eent]].
  - split; [done| |intros i; rewrite Enum, Eph; apply Hph].
    unfold e_ident in *. unfold sizeof_Ehdr in Hr. change (2 ^ 32) with 0x100000000 in Hr.
    rewrite !u32_small in * by lia. rewrite !Hs by lia. exact Hm.
  - unfold segments. rewrite Enum.
    assert (∀ js, Forall (λ i, Z.of_nat i < e_phnum m buf) js →
      (js ≫= λ i, segment m' buf (phdr_at m' buf i)) = js ≫= λ i, segment m buf (phdr_at m buf i)) as Hj.
    { induction 1 as [|j js Hj _ IH]; [done|]. cbn [mbind list_bind]. by rewrite IH, Eph, (proj2 (Hph j Hj)). }
    apply Hj, Forall_forall. intros i [_ Hi]%elem_of_seq. lia.
Qed.

(** The bytes of a segment that no later segment overwrites are in place. *)
Lemma place_bytes m segs a bs :
  Forall byte bs →
  Forall (λ p, disjoint_ranges p.1 (len p.2) a (len bs)) segs →
  bytes_at (place m ((a, bs) :: segs)) a bs.
Proof.
  intros Hb Hs. unfold place. cbn [foldl fst snd].
  assert (bytes_at (stores m a bs) a bs) as H0 by by apply bytes_at_stores.
  revert H0. generalize (stores m a bs). induction Hs as [|[p cs] segs Hd _ IH]; intros m' H0; [done|].
  cbn [foldl fst snd]. apply IH. by apply bytes_at_stores_out.
Qed.

(** What is outside every segment stays. *)
Lemma place_out m segs x :
  (∀ p, p ∈ segs → x < p.1 ∨ p.1 + len p.2 <= x) → load8 (place m segs) x = load8 m x.
Proof.
  unfold place. revert m. induction segs as [|[a bs] segs IH]; intros m Hx; [done|].
  cbn [foldl fst snd]. rewrite IH by (intros p Hp; apply Hx; set_solver).
  apply load_stores_out. apply (Hx (a, bs)). set_solver.
Qed.

Lemma read_bytes_byte m a n : Forall byte (read_bytes m a n).
Proof. unfold read_bytes. apply Forall_fmap, Forall_true. intros i. apply load8_byte. Qed.

Lemma segments_bytes m buf flen i :
  let ph := phdr_at m buf i in
  elf_file m buf flen → Z.of_nat i < e_phnum m buf → p_type m ph = PT_LOAD →
  Forall (λ j, Forall (λ p, disjoint_ranges p.1 (len p.2) (p_paddr m ph) (p_memsz m ph))
    (segment m buf (phdr_at m buf j))) (seq (S i) (Z.to_nat (e_phnum m buf) - S i)) →
  bytes_at (place m (segments m buf)) (p_paddr m ph)
    (read_bytes m (buf + p_offset m ph) (p_filesz m ph) ++
     replicate (Z.to_nat (p_memsz m ph - p_filesz m ph)) 0).
Proof.
  intros ph Hf Hi Ht Hdis. pose proof (po_size _ _ _ _ (ef_phdrs _ _ _ Hf i Hi) Ht) as Hsz. fold ph in Hsz.
  set (bs := read_bytes _ _ _ ++ _).
  assert (len bs = p_memsz m ph) as Hlen.
  { unfold bs. rewrite length_app, length_replicate.
    pose proof (load32_bound m (u32 (ph + 16))). fold (p_filesz m ph) in *.
    pose proof (read_bytes_len m (buf + p_offset m ph) (p_filesz m ph)). lia. }
  assert (Forall byte bs) as Hby.
  { apply Forall_app. split; [apply read_bytes_byte|]. by apply Forall_replicate. }
  unfold segments.
  replace (seq 0 (Z.to_nat (e_phnum m buf))) with
    (seq 0 i ++ i :: seq (S i) (Z.to_nat (e_phnum m buf) - S i)).
  2:{ change (i :: seq (S i) ?k) with (seq i (S k)). rewrite <- (seq_app i _ 0). f_equal. lia. }
  rewrite bind_app, bind_cons. unfold segment at 2. fold ph. rewrite Ht, Z.eqb_refl.
  rewrite place_app. fold bs. cbn [app]. rewrite <- Hlen in Hdis. apply place_bytes; [done|].
  apply Forall_bind. exact Hdis.
Qed.

(** ** Properties *)

(** C39: reload_elf_file, on an ELF file whose headers and segments lie inside the
    buffer and whose segments are loaded outside it: every loop ends, the bytes
    of every loadable segment, followed by zeros up to its size in memory, are
    placed at its physical address, nothing else changes, and the entry point
    is returned. A file with another magic number is refused with 0. *)
Theorem reload_elf_file_correct m buf flen :
  (elf_file m buf flen →
    reload_elf_file m buf = Ok (place m (segments m buf), e_entry m buf) ∧
    (∀ i, Z.of_nat i < e_phnum m buf → p_type m (phdr_at m buf i) = PT_LOAD →
      Forall (λ j, Forall (λ p, disjoint_ranges p.1 (len p.2)
        (p_paddr m (phdr_at m buf i)) (p_memsz m (phdr_at m buf i))) (segment m buf (phdr_at m buf j)))
        (seq (S i) (Z.to_nat (e_phnum m buf) - S i)) →
      bytes_at (place m (segments m buf)) (p_paddr m (phdr_at m buf i))
        (read_bytes m (buf + p_offset m (phdr_at m buf i)) (p_filesz m (phdr_at m buf i)) ++
         replicate (Z.to_nat (p_memsz m (phdr_at m buf i) - p_filesz m (phdr_at m buf i))) 0)) ∧
    ∀ x, (∀ p, p ∈ segments m buf → x < p.1 ∨ p.1 + len p.2 <= x) →
      load8 (place m (segments m buf)) x = load8 m x) ∧
  (¬ (e_ident m buf 0 = ELF_MAGIC0 ∧ e_ident m buf 1 = ELF_MAGIC1 ∧
      e_ident m buf 2 = ELF_MAGIC2 ∧ e_ident m buf 3 = ELF_MAGIC3) →
    reload_elf_file m buf = Ok (m, 0)).
Proof.
  split; [|apply reload_elf_file_bad]. intros Hf. split_and!.
  - by eapply reload_elf_file_ok.
  - intros i Hi Ht Hdis. by eapply segments_bytes.
  - intros x Hx. by apply place_out.
Qed.

(** A file of one segment: four bytes loaded at 0x8000, and four zeros. *)
Definition demo_elf : list Z :=
  [0x7F; 0x45; 0x4c; 0x46] ++ replicate 20 0 ++ [0; 0x80; 0; 0; 52; 0; 0; 0] ++ replicate 12 0 ++
  [1; 0] ++ replicate 6 0 ++
  [1; 0; 0; 0; 84; 0; 0; 0; 0; 0; 0; 0; 0; 0x80; 0; 0; 4; 0; 0; 0; 8; 0; 0; 0] ++ replicate 8 0 ++
  [0xDE; 0xAD; 0xBE; 0xEF].
Definition demo_elf_mem : mem := stores ∅ 0x1000 demo_elf.

Lemma demo_elf_file : elf_file demo_elf_mem 0x1000 88.
Proof.
  split; [by apply (bool_decide_unpack _)|by vm_compute|].
  intros i Hi. assert (i = 0%nat) as ->.
  { change (e_phnum demo_elf_mem 0x1000) with (load16 demo_elf_mem 0x102C) in Hi.
    assert (load16 demo_elf_mem 0x102C = 1) as E by by vm_compute. rewrite E in Hi. lia. }
  split; [by apply (bool_decide_unpack _); vm_compute|intros _..];
    try (by apply (bool_decide_unpack _); vm_compute).
Qed.

Lemma reload_elf_file_correct_witness :
  ∃ m', reload_elf_file demo_elf_mem 0x1000 = Ok (m', 0x8000) ∧
    bytes_at m' 0x8000 [0xDE; 0xAD; 0xBE; 0xEF; 0; 0; 0; 0].
Proof.
  destruct (reload_elf_file_correct demo_elf_mem 0x1000 88) as [H _].
  destruct (H demo_elf_file) as (E & Hseg & _). eexists. split.
  - rewrite E. do 2 f_equal.
  - refine (Hseg 0%nat _ _ _); [by vm_compute|by vm_compute|].
    assert ((Z.to_nat (e_phnum demo_elf_mem 0x1000) - 1)%nat = 0%nat) as -> by by vm_compute.
    constructor.
Defined.
