(* ===== verification/Loader32.v ===== *)
(** * The 32-bit loader (loader/loader32.c): reading the kernel from the disk
    and entering it *)

From S2P Require Import Prelude Mem Klib Elf.

Definition SECTOR_SIZE : Z := 512.
Definition KERNEL_BEGIN_SECTOR : Z := 65.
Definition KERNEL_MAX_SECTORS_IN_SIZE : Z := 500.
Definition SYS_KERNEL_LOAD_ADDR : Z := 1024 * 1024.

(** Port traffic, most recent first. *)
Inductive lio : Type :=
| LOutb (port v : Z)
| LInb (port v : Z)
| LInw (port v : Z).

(** The state of the loader: the memory and the traffic so far. *)
Record lstate : Type := LState { l_mem : mem; l_io : list lio }.

Section loader32.
(** The devices: the answer of a port after some traffic. *)
Context (dev_inb dev_inw : list lio → Z → Z).

Definition l_outb (port v : Z) (s : lstate) : lstate :=
  LState (l_mem s) (LOutb (u16 port) (u8 v) :: l_io s).
Definition l_inb (port : Z) (s : lstate) : Z * lstate :=
  let v := u8 (dev_inb (l_io s) (u16 port)) in
  (v, LState (l_mem s) (LInb (u16 port) v :: l_io s)).
Definition l_inw (port : Z) (s : lstate) : Z * lstate :=
  let v := u16 (dev_inw (l_io s) (u16 port)) in
  (v, LState (l_mem s) (LInw (u16 port) v :: l_io s)).

(** while((inb(0x1F7) & 0x88) != 0x8) {} *)
Definition disk_wait (s : lstate) : result lstate :=
  ended (cwhile (λ s,
    let '(v, s) := l_inb 0x1F7 s in
    if negb (Z.land v 0x88 =? 0x8) then Cont s else Brk s) s).

(** for (int i = 0; i < SECTOR_SIZE / 2; i++) *databuf++ = inw(0x1F0); *)
Definition read_sector (s : lstate) (databuf : Z) : result (lstate * Z) :=
  ended (cwhile (λ '(s, i, databuf),
    if i <? SECTOR_SIZE / 2 then
      let '(v, s) := l_inw 0x1F0 s in
      Cont (LState (store16 (l_mem s) databuf v) (l_io s), i32 (i + 1), u32 (databuf + 2))
    else Brk (s, databuf)) (s, 0, databuf)).

(** The commands that start a 48-bit read. *)
Definition read_command (sector sector_count : Z) (s : lstate) : lstate :=
  let s := l_outb 0x1F6 0xE0 s in
  let s := l_outb 0x1F2 (u8 (Z.shiftr sector_count 8)) s in
  let s := l_outb 0x1F3 (u8 (Z.shiftr sector 24)) s in
  let s := l_outb 0x1F4 0 s in
  let s := l_outb 0x1F5 0 s in
  let s := l_outb 0x1F2 (u8 sector_count) s in
  let s := l_outb 0x1F3 (u8 sector) s in
  let s := l_outb 0x1F4 (u8 (Z.shiftr sector 8)) s in
  let s := l_outb 0x1F5 (u8 (Z.shiftr sector 16)) s in
  l_outb 0x1F7 0x24 s.

(** static inline void read_disk(uint32_t sector, uint32_t sector_count, void *buf) *)
Definition read_disk (sector sector_count buf : Z) (s : lstate) : result lstate :=
  let s := read_command sector sector_count s in
  r ← ended (cwhile (λ '(s, sector_count, databuf),
    let more := negb (sector_count =? 0) in
    let sector_count := u32 (sector_count - 1) in
    if more then
      match (s ← disk_wait s; read_sector s databuf) with
      | Ok (s, databuf) => Cont (s, sector_count, databuf)
      | Err e => Brk (Err e)
      end
    else Brk (Ok s)) (s, sector_count, buf));
  r.

(** void load_kernel(void): the entry point called with &boot_info, or [None]
    for while (1). *)
Definition load_kernel (s : lstate) : result (lstate * option Z) :=
  s ← read_disk KERNEL_BEGIN_SECTOR KERNEL_MAX_SECTORS_IN_SIZE SYS_KERNEL_LOAD_ADDR s;
  '(m, kernel_entry) ← reload_elf_file (l_mem s) SYS_KERNEL_LOAD_ADDR;
  let s := LState m (l_io s) in
  if kernel_entry =? 0 then Ok (s, None) else Ok (s, Some kernel_entry).
End loader32.

(** ** The drive, from its side of the ports

    An ATA drive that reads in the 48-bit PIO protocol, as a state machine
    over the traffic on its ports. The registers of a drive in 48-bit mode
    keep the last two bytes written; a READ SECTORS EXT takes the older one as
    the high byte, and a count of 0 for 65536. *)

Fixpoint written (port : Z) (tr : list lio) : list Z :=
  match tr with
  | [] => []
  | LOutb p v :: tr => if p =? port then v :: written port tr else written port tr
  | _ :: tr => written port tr
  end.
Definition reg_low (port : Z) (tr : list lio) : Z := nth 0 (written port tr) 0.
Definition reg_high (port : Z) (tr : list lio) : Z := nth 1 (written port tr) 0.

Definition ata_lba (tr : list lio) : Z :=
  reg_low 0x1F3 tr + reg_low 0x1F4 tr * 2 ^ 8 + reg_low 0x1F5 tr * 2 ^ 16 +
  reg_high 0x1F3 tr * 2 ^ 24 + reg_high 0x1F4 tr * 2 ^ 32 + reg_high 0x1F5 tr * 2 ^ 40.
Definition ata_count (tr : list lio) : Z :=
  let n := reg_low 0x1F2 tr + reg_high 0x1F2 tr * 2 ^ 8 in if n =? 0 then 65536 else n.

(** Idle; carrying out a READ SECTORS EXT for [count] sectors from [lba] on,
    of which [words] words have been read, with DRQ reported or not; or in a
    state the protocol says nothing about. *)
Inductive ata_state : Type :=
| AtaIdle
| AtaReading (lba count words : Z) (ready : bool)
| AtaUnknown.

(** A status with BSY clear and DRQ set. *)
Definition drq (status : Z) : bool := Z.land status 0x88 =? 0x8.
(** The command block registers and the device control register. *)
Definition ata_port (p : Z) : bool := ((0x1F0 <=? p) && (p <=? 0x1F7)) || (p =? 0x3F6).

(** A write to the command register, after the traffic [tr]: READ SECTORS EXT
    for drive 0 in LBA mode, or some other command. *)
Definition ata_command (tr : list lio) (v : Z) : ata_state :=
  if (v =? 0x24) && (Z.land (reg_low 0x1F6 tr) 0x50 =? 0x40)
  then AtaReading (ata_lba tr) (ata_count tr) 0 false
  else AtaUnknown.

(** The host may set the registers of an idle drive and give it a command;
    while a command is carried out it may poll the status, and read words
    once DRQ has been reported, which it is again for every sector. *)
Definition ata_next (tr : list lio) (e : lio) (st : ata_state) : ata_state :=
  match st, e with
  | AtaUnknown, _ => AtaUnknown
  | AtaIdle, LOutb p v =>
      if p =? 0x1F7 then ata_command tr v
      else if ((0x1F1 <=? p) && (p <=? 0x1F6)) || negb (ata_port p) then AtaIdle else AtaUnknown
  | AtaIdle, LInb p _ => if p =? 0x1F0 then AtaUnknown else AtaIdle
  | AtaIdle, LInw p _ => if ata_port p then AtaUnknown else AtaIdle
  | AtaReading _ _ _ _, LOutb p _ => if ata_port p then AtaUnknown else st
  | AtaReading lba n w ready, LInb p v =>
      if p =? 0x1F7 then AtaReading lba n w (ready || drq v)
      else if p =? 0x1F0 then AtaUnknown else st
  | AtaReading lba n w ready, LInw p _ =>
      if p =? 0x1F0 then
        if negb ready then AtaUnknown
        else if w + 1 =? n * 256 then AtaIdle
        else AtaReading lba n (w + 1) (negb ((w + 1) mod 256 =? 0))
      else if ata_port p then AtaUnknown else st
  end.
Fixpoint ata_state_of (tr : list lio) : ata_state :=
  match tr with
  | [] => AtaIdle
  | e :: tr => ata_next tr e (ata_state_of tr)
  end.

(** The state after [i] words of sector [b] of a command. *)
Definition block_state (lba n b i : Z) : ata_state :=
  if i =? 256 then (if b + 1 =? n then AtaIdle else AtaReading lba n (256 * (b + 1)) false)
  else AtaReading lba n (256 * b + i) true.
Lemma block_next tr v lba n b i :
  0 <= i < 256 → ata_next tr (LInw 0x1F0 v) (block_state lba n b i) = block_state lba n b (i + 1).
Proof.
  intros Hi. unfold block_state. rewrite (proj2 (Z.eqb_neq i 256)) by lia.
  cbn [ata_next Z.eqb Pos.eqb negb].
  replace (256 * b + i + 1) with (256 * b + (i + 1)) by lia.
  destruct (Z.eqb_spec (i + 1) 256) as [E|E].
  - rewrite E. replace (256 * b + 256) with (256 * (b + 1)) by lia.
    replace (256 * (b + 1) mod 256) with 0 by (Z.to_euclidean_division_equations; lia).
    destruct (Z.eqb_spec (b + 1) n) as [->|Hn].
    + by rewrite (proj2 (Z.eqb_eq _ _)) by lia.
    + by rewrite (proj2 (Z.eqb_neq _ _)) by lia.
  - rewrite (proj2 (Z.eqb_neq (256 * b + (i + 1)) _)) by lia.
    by rewrite (proj2 (Z.eqb_neq ((256 * b + (i + 1)) mod 256) 0)) by (Z.to_euclidean_division_equations; lia).
Qed.

Section disk.
Context (dev_inb dev_inw : list lio → Z → Z).
(** The contents of the disk, as 16-bit words, and its sectors. *)
Context (disk : Z → Z) (capacity : Z).

(** Traffic in which the reads have the answers of the devices. *)
Fixpoint genuine (tr : list lio) : Prop :=
  match tr with
  | [] => True
  | LOutb _ _ :: tr => genuine tr
  | LInb p v :: tr => v = u8 (dev_inb tr p) ∧ genuine tr
  | LInw p v :: tr => v = u16 (dev_inw tr p) ∧ genuine tr
  end.
Definition drive_at (st : ata_state) (tr : list lio) : Prop := genuine tr ∧ ata_state_of tr = st.

(** The status register after some traffic, and [k] polls of it. *)
Definition status (tr : list lio) : Z := u8 (dev_inb tr 0x1F7).
Fixpoint polled (k : nat) (tr : list lio) : list lio :=
  match k with
  | O => tr
  | S k => polled k (LInb 0x1F7 (status tr) :: tr)
  end.

(** The documented behaviour of a drive without defects: a command to read
    sectors it has makes it busy, until, after finitely many polls, it reports
    DRQ, once for every sector; then, and only then, the data register gives
    the words of that sector one after the other. The status is taken to be up
    to date whenever it is read: the code does not wait the 400 ns that the
    standard grants the drive. *)
Record ata_disk : Prop := {
  ata_ready : ∀ tr lba n w, drive_at (AtaReading lba n w false) tr → lba + n <= capacity →
    ∃ k, Z.of_nat k < 2 ^ 32 ∧ drq (status (polled k tr)) = true;
  ata_data : ∀ tr lba n w, drive_at (AtaReading lba n w true) tr → lba + n <= capacity →
    u16 (dev_inw tr 0x1F0) = disk (lba * 256 + w)
}.

(** Words [n] of the disk from [w] on, as bytes. *)
Definition disk_bytes (w : Z) (n : nat) : list Z :=
  seq 0 n ≫= λ i, let v := disk (w + Z.of_nat i) in [v; v / 0x100].

Lemma disk_bytes_S w n :
  disk_bytes w (S n) = disk w :: disk w / 0x100 :: disk_bytes (w + 1) n.
Proof using Type.
  unfold disk_bytes. cbn [seq mbind list_bind app]. rewrite Z.add_0_r. do 2 f_equal.
  rewrite <- fmap_S_seq. generalize (seq 0 n). intros l.
  induction l as [|b l IH]; [done|]. cbn [fmap list_fmap mbind list_bind].
  rewrite IH. by replace (w + Z.of_nat (S b)) with (w + 1 + Z.of_nat b) by lia.
Qed.
Lemma disk_bytes_len w n : len (disk_bytes w n) = 2 * Z.of_nat n.
Proof using Type. revert w. induction n as [|n IH]; intros w; [done|]. rewrite disk_bytes_S. cbn [length].
  specialize (IH (w + 1)). lia. Qed.
Lemma disk_bytes_app w n k : disk_bytes w (n + k) = disk_bytes w n ++ disk_bytes (w + Z.of_nat n) k.
Proof using Type.
  revert w. induction n as [|n IH]; intros w; [cbn; by rewrite Z.add_0_r|].
  cbn [Nat.add]. rewrite !disk_bytes_S, IH. cbn [app]. do 3 f_equal. f_equal. lia.
Qed.

(** *** Waiting for DRQ *)

(** The body of the loop of [disk_wait]. *)
Lemma wait_turn m tr :
  (let '(v, s) := l_inb dev_inb 0x1F7 (LState m tr) in
    if negb (Z.land v 0x88 =? 0x8) then Cont s else Brk s) =
  (if drq (status tr) then Brk (LState m (LInb 0x1F7 (status tr) :: tr))
   else Cont (LState m (LInb 0x1F7 (status tr) :: tr)) : flow lstate lstate).
Proof using Type. unfold l_inb, drq, status. cbn [l_io l_mem]. change (u16 0x1F7) with 0x1F7. by destruct (_ =? _). Qed.

Lemma disk_wait_steps m (k : nat) tr lba n w :
  drive_at (AtaReading lba n w false) tr → drq (status (polled k tr)) = true →
  ∃ j tr', j <= Z.of_nat k + 1 ∧ drive_at (AtaReading lba n w true) tr' ∧
    steps (λ s,
      let '(v, s) := l_inb dev_inb 0x1F7 s in
      if negb (Z.land v 0x88 =? 0x8) then Cont s else Brk s) j
      (LState m tr) (LState m tr').
Proof using Type.
  revert tr. induction k as [|k IH]; intros tr [Hg Hs] Hd; cbn [polled] in Hd.
  all: set (tr1 := LInb 0x1F7 (status tr) :: tr) in *.
  all: assert (drive_at (AtaReading lba n w (drq (status tr))) tr1) as H1
    by (unfold tr1; split; [by split|]; cbn [ata_state_of]; by rewrite Hs).
  all: destruct (drq (status tr)) eqn:E0; try done.
  1, 2: exists 1, tr1; split; [lia|]; split; [done|]; apply steps_brk; by rewrite wait_turn, E0.
  destruct (IH tr1 H1 Hd) as (j & tr' & Hj & H' & Hst). exists (j + 1), tr'.
  split; [lia|]. split; [done|]. eapply steps_cont; [|exact Hst]. by rewrite wait_turn, E0.
Qed.

(** A drive that never reports DRQ, for instance one that reports an error,
    keeps the loop going. *)
Lemma disk_wait_never s : (∀ tr, drq (status tr) = false) → disk_wait dev_inb s = Err KLoop.
Proof using Type.
  intros Hd. unfold disk_wait. rewrite (cwhile_never _ (λ _, True)); [done| |done].
  intros [m tr] _. eexists. split; [|done]. by rewrite wait_turn, Hd.
Qed.

Context (Hata : ata_disk).

Lemma disk_wait_ok m tr lba n w :
  drive_at (AtaReading lba n w false) tr → lba + n <= capacity →
  ∃ tr', disk_wait dev_inb (LState m tr) = Ok (LState m tr') ∧ drive_at (AtaReading lba n w true) tr'.
Proof using Hata.
  intros Hs Hn. destruct (ata_ready Hata tr lba n w Hs Hn) as (k & Hk & Hd).
  destruct (disk_wait_steps m k tr lba n w Hs Hd) as (j & tr' & Hj & H' & Hst).
  exists tr'. split; [|done]. unfold disk_wait. erewrite cwhile_steps; [done|exact Hst|].
  change (2 ^ 32) with 0x100000000 in Hk. lia.
Qed.

(** *** Reading a sector *)

Lemma read_words_steps (k : nat) m tr lba n b i buf :
  i + Z.of_nat k = 256 → 0 <= i → 0 <= buf → buf + 2 * Z.of_nat k <= 2 ^ 32 →
  lba + n <= capacity → drive_at (block_state lba n b i) tr →
  ∃ tr', drive_at (block_state lba n b 256) tr' ∧
    steps (λ '(s, i, databuf),
      if i <? SECTOR_SIZE / 2 then
        let '(v, s) := l_inw dev_inw 0x1F0 s in
        Cont (LState (store16 (l_mem s) databuf v) (l_io s), i32 (i + 1), u32 (databuf + 2))
      else Brk (s, databuf)) (Z.of_nat k + 1) (LState m tr, i, u32 buf)
      (LState (stores m buf (disk_bytes (lba * 256 + (256 * b + i)) k)) tr', u32 (buf + 2 * Z.of_nat k)).
Proof using Hata.
  change (2 ^ 32) with 0x100000000. change (SECTOR_SIZE / 2) with 256.
  revert m tr i buf. induction k as [|k IH]; intros m tr i buf Hi Hi0 Hb1 Hb2 Hn Hs.
  - assert (i = 256) as -> by lia. exists tr. split; [exact Hs|]. apply steps_brk.
    cbn [stores disk_bytes seq mbind list_bind]. by rewrite Z.add_0_r.
  - set (w := lba * 256 + (256 * b + i)).
    assert (u16 (dev_inw tr 0x1F0) = disk w) as Hd.
    { apply (ata_data Hata tr lba n); [|done]. unfold block_state in Hs.
      by rewrite (proj2 (Z.eqb_neq i 256)) in Hs by lia. }
    set (tr1 := LInw 0x1F0 (disk w) :: tr).
    assert (drive_at (block_state lba n b (i + 1)) tr1) as H1.
    { destruct Hs as [Hg Hs]. split; [by split|]. cbn [tr1 ata_state_of]. rewrite Hs. apply block_next. lia. }
    destruct (IH (store16 m buf (disk w)) tr1 (i + 1) (buf + 2)) as (tr' & H' & Hst); [lia|lia|lia|lia|done|done|].
    exists tr'. split; [exact H'|].
    replace (Z.of_nat (S k) + 1) with (Z.of_nat k + 1 + 1) by lia. eapply steps_cont.
    { rewrite (proj2 (Z.ltb_lt _ _)) by lia. unfold l_inw. cbn [l_io l_mem].
      change (u16 0x1F0) with 0x1F0. rewrite Hd.
      rewrite i32_small by (unfold INT_MIN, INT_MAX; lia). rewrite (u32_small buf) by lia.
      reflexivity. }
    replace (lba * 256 + (256 * b + (i + 1))) with (w + 1) in Hst by (unfold w; lia).
    rewrite disk_bytes_S. cbn [stores]. unfold store16 in Hst.
    replace (buf + 1 + 1) with (buf + 2) by lia.
    replace (buf + 2 * Z.of_nat (S k)) with (buf + 2 + 2 * Z.of_nat k) by lia. exact Hst.
Qed.

Lemma read_sector_ok m tr lba n b buf :
  0 <= buf → buf + 512 <= 2 ^ 32 → lba + n <= capacity → drive_at (AtaReading lba n (256 * b) true) tr →
  ∃ tr', drive_at (block_state lba n b 256) tr' ∧
    read_sector dev_inw (LState m tr) (u32 buf) =
      Ok (LState (stores m buf (disk_bytes (lba * 256 + 256 * b) 256)) tr', u32 (buf + 512)).
Proof using Hata.
  intros Hb1 Hb2 Hn Hs.
  destruct (read_words_steps 256 m tr lba n b 0 buf) as (tr' & H' & Hst); [lia|lia|lia|lia|done| |].
  - unfold block_state. by rewrite Z.add_0_r.
  - exists tr'. split; [done|]. unfold read_sector. rewrite Z.add_0_r in Hst.
    erewrite cwhile_steps; [done|exact Hst|done].
Qed.

(** *** The command and the sectors *)

(** The state when [b] sectors of the command have been read. *)
Definition sector_state (lba n b : Z) : ata_state :=
  if b =? n then AtaIdle else AtaReading lba n (256 * b) false.

(** The command asks an idle drive for the sectors the caller wants. *)
Lemma read_command_ok sector sector_count s :
  0 <= sector < 2 ^ 32 → 0 < sector_count < 2 ^ 16 → drive_at AtaIdle (l_io s) →
  l_mem (read_command sector sector_count s) = l_mem s ∧
  drive_at (sector_state sector sector_count 0) (l_io (read_command sector sector_count s)).
Proof using Type.
  change (2 ^ 32) with 0x100000000. change (2 ^ 16) with 0x10000. intros Hs Hc [Hg Hi].
  split; [done|]. unfold read_command, l_outb. cbn [l_io l_mem].
  rewrite !u8_u8, !u16_small by lia. split; [exact Hg|].
  cbn [ata_state_of]. rewrite Hi. cbn -[ata_command u8 Z.shiftr].
  change (u8 36) with 0x24. unfold ata_command, ata_lba, ata_count, reg_low, reg_high.
  cbn [written Z.eqb Pos.eqb nth andb]. change (u8 224) with 0xE0. cbn [Z.land Pos.land].
  assert (u8 sector_count + u8 (Z.shiftr sector_count 8) * 2 ^ 8 = sector_count) as ->.
  { rewrite Z.shiftr_div_pow2 by lia. unfold u8. change (2 ^ 8) with 0x100. Z.to_euclidean_division_equations. lia. }
  unfold sector_state. rewrite (proj2 (Z.eqb_neq 0 sector_count)), (proj2 (Z.eqb_neq sector_count 0)) by lia.
  f_equal. rewrite !Z.shiftr_div_pow2 by lia. unfold u8.
  change (2 ^ 8) with 0x100. change (2 ^ 16) with 0x10000. change (2 ^ 24) with 0x1000000.
  Z.to_euclidean_division_equations; lia.
Qed.

Lemma read_sectors_steps (k : nat) m tr lba n b buf :
  0 <= buf → buf + 512 * Z.of_nat k <= 2 ^ 32 → Z.of_nat k < 2 ^ 32 → b + Z.of_nat k = n →
  lba + n <= capacity → drive_at (sector_state lba n b) tr →
  ∃ tr', drive_at AtaIdle tr' ∧
    steps (λ '(s, sector_count, databuf),
      let more := negb (sector_count =? 0) in
      let sector_count := u32 (sector_count - 1) in
      if more then
        match (s ← disk_wait dev_inb s; read_sector dev_inw s databuf) with
        | Ok (s, databuf) => Cont (s, sector_count, databuf)
        | Err e => Brk (Err e)
        end
      else Brk (Ok s)) (Z.of_nat k + 1) (LState m tr, Z.of_nat k, u32 buf)
      (Ok (LState (stores m buf (disk_bytes (lba * 256 + 256 * b) (256 * k))) tr')).
Proof using Hata.
  change (2 ^ 32) with 0x100000000.
  revert m tr b buf. induction k as [|k IH]; intros m tr b buf Hb1 Hb2 Hk Hbn Hn Hs.
  - exists tr. split; [|by apply steps_brk]. unfold sector_state in Hs.
    by rewrite (proj2 (Z.eqb_eq b n)) in Hs by lia.
  - unfold sector_state in Hs. rewrite (proj2 (Z.eqb_neq b n)) in Hs by lia.
    destruct (disk_wait_ok m tr _ _ _ Hs Hn) as (tr1 & E1 & H1).
    destruct (read_sector_ok m tr1 lba n b buf) as (tr2 & H2 & E2);
      [lia|change (2 ^ 32) with 0x100000000; lia|done|done|].
    set (bs := disk_bytes (lba * 256 + 256 * b) 256) in *.
    destruct (IH (stores m buf bs) tr2 (b + 1) (buf + 512)) as (tr' & H' & Hst); [lia|lia|lia|lia|done|exact H2|].
    exists tr'. split; [done|].
    replace (Z.of_nat (S k) + 1) with (Z.of_nat k + 1 + 1) by lia.
    eapply steps_cont.
    { rewrite (proj2 (Z.eqb_neq _ 0)) by lia. cbn [negb]. cbv zeta.
      unfold mbind, result_bind. rewrite E1, E2.
      rewrite (u32_small (_ - 1)) by lia.
      replace (Z.of_nat (S k) - 1) with (Z.of_nat k) by lia. reflexivity. }
    replace (256 * S k)%nat with (256 + 256 * k)%nat by lia.
    rewrite disk_bytes_app, stores_app, disk_bytes_len.
    replace (lba * 256 + 256 * b + Z.of_nat 256) with (lba * 256 + 256 * (b + 1)) by lia.
    replace (buf + 2 * Z.of_nat 256) with (buf + 512) by lia. exact Hst.
Qed.

Lemma read_disk_ok sector sector_count buf s :
  0 <= sector < 2 ^ 32 → 0 < sector_count < 2 ^ 16 →
  0 <= buf < 2 ^ 32 → buf + 512 * sector_count <= 2 ^ 32 →
  sector + sector_count <= capacity → drive_at AtaIdle (l_io s) →
  ∃ tr', drive_at AtaIdle tr' ∧ read_disk dev_inb dev_inw sector sector_count buf s =
    Ok (LState (stores (l_mem s) buf
      (disk_bytes (sector * 256) (256 * Z.to_nat sector_count))) tr').
Proof using Hata.
  intros Hs Hc Hb1 Hb2 Hcap Hidle.
  destruct (read_command_ok sector sector_count s Hs Hc Hidle) as (Hm & Hst0).
  unfold read_disk. set (s1 := read_command sector sector_count s) in *.
  change (2 ^ 32) with 0x100000000 in *. change (2 ^ 16) with 0x10000 in *.
  destruct (read_sectors_steps (Z.to_nat sector_count) (l_mem s1) (l_io s1) sector sector_count 0 buf)
    as (tr' & H' & Hst); change (2 ^ 32) with 0x100000000; [lia|lia|lia|lia|done|done|].
  exists tr'. split; [done|]. cbn zeta.
  assert (LState (l_mem s1) (l_io s1) = s1) as Es by by destruct s1.
  rewrite Es, Z2Nat.id, u32_small in Hst by lia.
  erewrite cwhile_steps; [|exact Hst|lia].
  by rewrite Hm, Z.mul_0_r, Z.add_0_r.
Qed.
End disk.

(** ** Properties *)

Section load_kernel.
Context (dev_inb dev_inw : list lio → Z → Z) (disk : Z → Z) (capacity : Z).

Lemma disk_bytes_lookup w (n k : nat) :
  (k < n)%nat →
  disk_bytes disk w n !! (2 * k)%nat = Some (disk (w + Z.of_nat k)) ∧
  disk_bytes disk w n !! (2 * k + 1)%nat = Some (disk (w + Z.of_nat k) / 0x100).
Proof using Type.
  revert w k. induction n as [|n IH]; intros w k Hk; [lia|]. rewrite disk_bytes_S.
  destruct k as [|k]; [by rewrite Z.add_0_r|].
  replace (2 * S k)%nat with (S (S (2 * k))) by lia. cbn [lookup list_lookup Nat.add].
  replace (w + Z.of_nat (S k)) with (w + 1 + Z.of_nat k) by lia. apply IH. lia.
Qed.

(** The memory after reading: word [k] of the sectors at [a + 2 * k]. *)
Lemma load16_disk m a w (n k : nat) :
  (k < n)%nat →
  load16 (stores m a (disk_bytes disk w n)) (a + 2 * Z.of_nat k) = u16 (disk (w + Z.of_nat k)).
Proof using Type.
  clear dev_inb dev_inw capacity. intros Hk. destruct (disk_bytes_lookup w n k Hk) as [H0 H1]. unfold load16.
  apply (load_stores_in m a) in H0, H1.
  replace (a + 2 * Z.of_nat k) with (a + Z.of_nat (2 * k)) by lia.
  replace (a + Z.of_nat (2 * k) + 1) with (a + Z.of_nat (2 * k + 1)) by lia. rewrite H0, H1.
  unfold u8, u16. Z.to_euclidean_division_equations. lia.
Qed.

(** The memory after the 500 sectors of the kernel are read to 1 MB. *)
Definition kernel_file (m : mem) : mem :=
  stores m SYS_KERNEL_LOAD_ADDR
    (disk_bytes disk (KERNEL_BEGIN_SECTOR * 256) (256 * Z.to_nat KERNEL_MAX_SECTORS_IN_SIZE)).
Definition kernel_file_len : Z := KERNEL_MAX_SECTORS_IN_SIZE * SECTOR_SIZE.

Lemma kernel_file_word m (k : nat) :
  Z.of_nat k < KERNEL_MAX_SECTORS_IN_SIZE * 256 →
  load16 (kernel_file m) (SYS_KERNEL_LOAD_ADDR + 2 * Z.of_nat k) =
    u16 (disk (KERNEL_BEGIN_SECTOR * 256 + Z.of_nat k)).
Proof using Type.
  intros Hk. unfold kernel_file. rewrite load16_disk; [done|].
  unfold KERNEL_MAX_SECTORS_IN_SIZE in *. lia.
Qed.
(** A word is its two bytes. *)
Lemma word_bytes m m' a :
  load16 m' a = load16 m a → load8 m' a = load8 m a ∧ load8 m' (a + 1) = load8 m (a + 1).
Proof.
  unfold load16. pose proof (load8_byte m a). pose proof (load8_byte m (a + 1)).
  pose proof (load8_byte m' a). pose proof (load8_byte m' (a + 1)). unfold byte in *. lia.
Qed.
(** The file on the disk [mf] is, as a memory. *)
Lemma kernel_file_same mf m :
  (∀ w, disk w = load16 mf (SYS_KERNEL_LOAD_ADDR + 2 * (w - KERNEL_BEGIN_SECTOR * 256))) →
  same_file SYS_KERNEL_LOAD_ADDR kernel_file_len mf (kernel_file m).
Proof using Type.
  intros Hd.
  assert (∀ k : nat, Z.of_nat k < 500 * 256 → let a := 1024 * 1024 + 2 * Z.of_nat k in
    load8 (kernel_file m) a = load8 mf a ∧ load8 (kernel_file m) (a + 1) = load8 mf (a + 1)) as Hw.
  { intros k Hk a. apply word_bytes. etrans; [exact (kernel_file_word m k Hk)|]. rewrite Hd.
    replace (KERNEL_BEGIN_SECTOR * 256 + Z.of_nat k - KERNEL_BEGIN_SECTOR * 256) with (Z.of_nat k) by lia.
    apply u16_small, load16_bound. }
  clear Hd. generalize dependent (kernel_file m). intros m' Hw x Hx.
  unfold kernel_file_len, KERNEL_MAX_SECTORS_IN_SIZE, SECTOR_SIZE, SYS_KERNEL_LOAD_ADDR in Hx.
  pose proof (Z.div_mod (x - 1024 * 1024) 2 ltac:(lia)) as Hdm.
  pose proof (Z.mod_pos_bound (x - 1024 * 1024) 2 ltac:(lia)) as Hm.
  destruct (Hw (Z.to_nat ((x - 1024 * 1024) / 2))) as [H0 H1]; rewrite ?Z2Nat.id in * by lia; [lia|].
  assert ((x - 1024 * 1024) mod 2 = 0 ∨ (x - 1024 * 1024) mod 2 = 1) as [Hr|Hr] by lia.
  - replace x with (1024 * 1024 + 2 * ((x - 1024 * 1024) / 2)) by lia. done.
  - replace x with (1024 * 1024 + 2 * ((x - 1024 * 1024) / 2) + 1) by lia. done.
Qed.
(** The drive is idle after some traffic and has the sectors of the kernel. *)
Definition kernel_drive (tr : list lio) : Prop :=
  ata_disk dev_inb dev_inw disk capacity ∧ KERNEL_BEGIN_SECTOR + KERNEL_MAX_SECTORS_IN_SIZE <= capacity ∧
  drive_at dev_inb dev_inw AtaIdle tr.

Lemma read_kernel_ok s :
  kernel_drive (l_io s) →
  ∃ tr, drive_at dev_inb dev_inw AtaIdle tr ∧
    read_disk dev_inb dev_inw KERNEL_BEGIN_SECTOR KERNEL_MAX_SECTORS_IN_SIZE SYS_KERNEL_LOAD_ADDR s =
      Ok (LState (kernel_file (l_mem s)) tr).
Proof.
  intros (Hata & Hcap & Hidle). unfold kernel_file.
  by apply (read_disk_ok dev_inb dev_inw disk capacity Hata).
Qed.

(** load_kernel, when the sectors hold a well-formed ELF file. *)
Lemma load_kernel_file s :
  kernel_drive (l_io s) →
  let m := kernel_file (l_mem s) in
  let entry := e_entry m SYS_KERNEL_LOAD_ADDR in
  elf_file m SYS_KERNEL_LOAD_ADDR kernel_file_len →
  ∃ tr, drive_at dev_inb dev_inw AtaIdle tr ∧ load_kernel dev_inb dev_inw s =
    Ok (LState (place m (segments m SYS_KERNEL_LOAD_ADDR)) tr, if entry =? 0 then None else Some entry).
Proof.
  intros Hd m entry Hf. destruct (read_kernel_ok s Hd) as (tr & Hi & E). fold m in E. subst entry. clearbody m.
  exists tr. split; [exact Hi|]. unfold load_kernel, mbind, result_bind. rewrite E. cbn [l_mem l_io].
  rewrite (reload_elf_file_ok _ _ _ Hf). by destruct (_ =? 0).
Qed.
Lemma load_kernel_ok s :
  kernel_drive (l_io s) →
  let m := kernel_file (l_mem s) in
  elf_file m SYS_KERNEL_LOAD_ADDR kernel_file_len → e_entry m SYS_KERNEL_LOAD_ADDR ≠ 0 →
  ∃ tr, load_kernel dev_inb dev_inw s =
    Ok (LState (place m (segments m SYS_KERNEL_LOAD_ADDR)) tr, Some (e_entry m SYS_KERNEL_LOAD_ADDR)).
Proof.
  intros Hd m Hf He. destruct (load_kernel_file s Hd Hf) as (tr & _ & E). fold m in E. clearbody m.
  rewrite (proj2 (Z.eqb_neq _ 0) He) in E. by exists tr.
Qed.
(** A drive that never reports DRQ. *)
Lemma load_kernel_never s :
  (∀ tr, drq (status dev_inb tr) = false) → load_kernel dev_inb dev_inw s = Err KLoop.
Proof.
  intros Hd. unfold load_kernel, mbind, result_bind, read_disk.
  set (s1 := read_command _ _ s). rewrite (cwhile_steps _ 1 _ (Err KLoop)); [done| |done].
  apply steps_brk. change (negb (KERNEL_MAX_SECTORS_IN_SIZE =? 0)) with true. cbv zeta beta iota.
  unfold mbind, result_bind. by rewrite (disk_wait_never _ _ Hd).
Qed.

(** C38: load_kernel, with a drive that obeys the protocol of READ SECTORS EXT
    ([ata_disk]), is idle at the start and has the 500 sectors from sector 65
    on: it terminates, with those sectors at 1 MB and the drive idle again.
    If they are a well-formed ELF file its segments are placed, and its entry
    point is called unless it is 0; when one of the four bytes of the magic
    number is wrong, nothing else is written. In these two cases the loader
    stops without calling anything. With a drive that never reports DRQ, which
    is how it reports an error, the loader polls for ever. *)
Theorem load_kernel_correct s :
  (kernel_drive (l_io s) →
    let m := kernel_file (l_mem s) in
    let entry := e_entry m SYS_KERNEL_LOAD_ADDR in
    (∀ k : nat, Z.of_nat k < KERNEL_MAX_SECTORS_IN_SIZE * 256 →
      load16 m (SYS_KERNEL_LOAD_ADDR + 2 * Z.of_nat k) = u16 (disk (KERNEL_BEGIN_SECTOR * 256 + Z.of_nat k))) ∧
    (elf_file m SYS_KERNEL_LOAD_ADDR kernel_file_len →
      ∃ tr, drive_at dev_inb dev_inw AtaIdle tr ∧ load_kernel dev_inb dev_inw s =
        Ok (LState (place m (segments m SYS_KERNEL_LOAD_ADDR)) tr, if entry =? 0 then None else Some entry)) ∧
    (e_ident m SYS_KERNEL_LOAD_ADDR 0 ≠ ELF_MAGIC0 ∨ e_ident m SYS_KERNEL_LOAD_ADDR 1 ≠ ELF_MAGIC1 ∨
     e_ident m SYS_KERNEL_LOAD_ADDR 2 ≠ ELF_MAGIC2 ∨ e_ident m SYS_KERNEL_LOAD_ADDR 3 ≠ ELF_MAGIC3 →
      ∃ tr, drive_at dev_inb dev_inw AtaIdle tr ∧ load_kernel dev_inb dev_inw s = Ok (LState m tr, None))) ∧
  ((∀ tr, drq (status dev_inb tr) = false) → load_kernel dev_inb dev_inw s = Err KLoop).
Proof.
  split; [|apply load_kernel_never]. intros Hd m entry.
  split; [exact (kernel_file_word (l_mem s))|]. split; [by apply load_kernel_file|].
  intros Hm. destruct (read_kernel_ok s Hd) as (tr & Hi & E). fold m in E. subst entry. clearbody m.
  exists tr. split; [exact Hi|]. unfold load_kernel, mbind, result_bind. rewrite E. cbn [l_mem l_io].
  by rewrite reload_elf_file_bad by tauto.
Qed.
End load_kernel.

(** A drive that obeys the protocol: it is busy at the first poll for a sector
    and reports DRQ at the second one; without DRQ its data register gives
    nothing of use. *)
Definition demo_inb (tr : list lio) (port : Z) : Z :=
  match ata_state_of tr, tr with
  | AtaReading _ _ _ true, _ => 0x58
  | AtaReading _ _ _ false, LInb _ _ :: _ => 0x58
  | AtaReading _ _ _ false, _ => 0x80
  | _, _ => 0x50
  end.
Definition demo_inw (disk : Z → Z) (tr : list lio) (port : Z) : Z :=
  match ata_state_of tr with
  | AtaReading lba _ w true => disk (lba * 256 + w)
  | _ => 0xFFFF
  end.
Lemma ata_drive disk capacity :
  (∀ w, u16 (disk w) = disk w) → ata_disk demo_inb (demo_inw disk) disk capacity.
Proof.
  intros Hd. split.
  - intros tr lba n w [_ Hs] _. exists 1%nat. split; [done|].
    cbn [polled]. set (v := status demo_inb tr). clearbody v. unfold status, demo_inb.
    cbn [ata_state_of]. rewrite Hs. cbn [ata_next Z.eqb Pos.eqb orb]. by destruct (drq v).
  - intros tr lba n w [_ Hs] _. unfold demo_inw. rewrite Hs. apply Hd.
Qed.

(** A disk with an ELF file of no segment, whose entry point is 0x10000. *)
Definition demo_disk (w : Z) : Z :=
  if w =? 65 * 256 then 0x457F else if w =? 65 * 256 + 1 then 0x464C
  else if w =? 65 * 256 + 13 then 1 else 0.
Lemma demo_ata : kernel_drive demo_inb (demo_inw demo_disk) demo_disk 10000 [].
Proof. split; [|done]. apply ata_drive. intros w. unfold demo_disk. by repeat case_match. Qed.

#[local] Opaque kernel_file.

Lemma demo_kernel_elf m0 :
  let m := kernel_file demo_disk m0 in
  elf_file m SYS_KERNEL_LOAD_ADDR kernel_file_len ∧ e_entry m SYS_KERNEL_LOAD_ADDR = 0x10000.
Proof.
  pose proof (kernel_file_word demo_disk m0) as Hw. intros m. fold m in Hw. clearbody m.
  pose proof (Hw 0%nat ltac:(done)) as W0. pose proof (Hw 1%nat ltac:(done)) as W1.
  pose proof (Hw 12%nat ltac:(done)) as W12. pose proof (Hw 13%nat ltac:(done)) as W13.
  pose proof (Hw 22%nat ltac:(done)) as W22. clear Hw.
  split; [split|].
  - split_and!; done.
  - unfold load16 in W0, W1. change (u16 (demo_disk _)) with 0x457F in W0.
    change (u16 (demo_disk _)) with 0x464C in W1.
    change (SYS_KERNEL_LOAD_ADDR + 2 * Z.of_nat 0) with 0x100000 in W0.
    change (SYS_KERNEL_LOAD_ADDR + 2 * Z.of_nat 1) with 0x100002 in W1.
    pose proof (load8_byte m 0x100000) as B0. pose proof (load8_byte m (0x100000 + 1)) as B1.
    pose proof (load8_byte m 0x100002) as B2. pose proof (load8_byte m (0x100002 + 1)) as B3.
    unfold byte in *. unfold e_ident.
    change (u32 (SYS_KERNEL_LOAD_ADDR + 0)) with 0x100000.
    change (u32 (SYS_KERNEL_LOAD_ADDR + 1)) with (0x100000 + 1).
    change (u32 (SYS_KERNEL_LOAD_ADDR + 2)) with 0x100002.
    change (u32 (SYS_KERNEL_LOAD_ADDR + 3)) with (0x100002 + 1).
    unfold ELF_MAGIC0, ELF_MAGIC1, ELF_MAGIC2, ELF_MAGIC3. split_and!; lia.
  - intros i Hi. exfalso. unfold e_phnum in Hi.
    change (u32 (SYS_KERNEL_LOAD_ADDR + 44)) with (SYS_KERNEL_LOAD_ADDR + 2 * Z.of_nat 22) in Hi.
    rewrite W22 in Hi. change (u16 (demo_disk _)) with 0 in Hi. lia.
  - unfold e_entry, load32. change (u32 (SYS_KERNEL_LOAD_ADDR + 24)) with (SYS_KERNEL_LOAD_ADDR + 2 * Z.of_nat 12).
    rewrite W12. change (SYS_KERNEL_LOAD_ADDR + 2 * Z.of_nat 12 + 2) with (SYS_KERNEL_LOAD_ADDR + 2 * Z.of_nat 13).
    rewrite W13. reflexivity.
Qed.

Lemma load_kernel_correct_witness :
  (∃ s', load_kernel demo_inb (demo_inw demo_disk) (LState ∅ []) = Ok (s', Some 0x10000)) ∧
  load_kernel (λ _ _, 0x51) (λ _ _, 0) (LState ∅ []) = Err KLoop.
Proof.
  split.
  - destruct (load_kernel_correct demo_inb (demo_inw demo_disk) demo_disk 10000 (LState ∅ [])) as [Hok _].
    destruct (Hok demo_ata) as (_ & Hf & _).
    destruct (demo_kernel_elf ∅) as [Helf He]. cbn [l_mem] in Hf. rewrite He in Hf.
    destruct Hf as (tr & _ & E); [exact Helf|]. eexists. exact E.
  - destruct (load_kernel_correct (λ _ _, 0x51) (λ _ _, 0) demo_disk 10000 (LState ∅ [])) as [_ Hn].
    apply Hn. intros tr. reflexivity.
Defined.
