(* ===== verification/Loader16.v ===== *)
(** * The 16-bit loader (loader/loader16.c): probing the memory and entering
    protected mode *)

From S2P Require Import Prelude Mem Klib Machine Cpu Irq.

(** ** Data (comm/types.h, comm/info.h) *)

Definition BOOT_RAM_REGION_MAX : Z := 10.

(** struct _ram_region_info and boot_info_t *)
Record ram_region_info : Type := Region { start : Z; size : Z }.
Record boot_info_t : Type := BootInfo {
  ram_regions : list ram_region_info;      (* BOOT_RAM_REGION_MAX of them *)
  count : Z
}.

(** SMAP_entry_t *)
Record SMAP_entry_t : Type := SMAP {
  BaseL : Z; BaseH : Z; LengthL : Z; LengthH : Z; Type_ : Z; ACPI : Z
}.

(** What [int $0x15] is called with: EAX, EBX, ECX, EDX, and the contents of
    the buffer at ES:DI. *)
Record int15_request : Type := Int15 {
  q_eax : Z; q_ebx : Z; q_ecx : Z; q_edx : Z; q_buffer : SMAP_entry_t
}.
(** What it returns: EAX, CL, EBX, and the buffer. *)
Record e820_reply : Type := Reply {
  signature : Z; bytes_read : Z; next_id : Z; entry : SMAP_entry_t
}.

Inductive l16_err : Type :=
| L16_Loop                       (* the enumeration never ends *)
| L16_Range.                     (* a region past the end of the array *)

(** The state of the probe: the globals, the text shown, and the locals. *)
Record probe : Type := Probe {
  pr_info : boot_info_t;
  pr_text : string;
  pr_entry : SMAP_entry_t;
  pr_cont : Z
}.

(** static void show_msg(const char *msg): [int $0x10] shows each character. *)
Definition show_msg (msg : string) (text : string) : string := text +:+ msg.

Definition msg_detecting : string :=
  "Detecting memory..." +:+ String (Ascii.ascii_of_nat 13) (String (Ascii.ascii_of_nat 10) EmptyString).
Definition msg_detect_ok : string :=
  "Detecting memory OK" +:+ String (Ascii.ascii_of_nat 13) (String (Ascii.ascii_of_nat 10) EmptyString).
Definition msg_detect_failed : string :=
  "failed to detect memory" +:+ String (Ascii.ascii_of_nat 13) (String (Ascii.ascii_of_nat 10) EmptyString).

Section detect.
(** The BIOS. *)
Context (int15 : int15_request → e820_reply).

(** boot_info.ram_region_info[boot_info.count++] = the region *)
Definition push_region (r : ram_region_info) (b : boot_info_t) : option boot_info_t :=
  if (0 <=? count b) && (count b <? BOOT_RAM_REGION_MAX) then
    Some (BootInfo (<[Z.to_nat (count b) := r]> (ram_regions b)) (i32 (count b + 1)))
  else None.

(** One turn of the loop: the result tells whether the probe succeeded. *)
Definition detect_turn (p : probe) : flow probe (option (bool * probe)) :=
  let r := int15 (Int15 0xE820 (pr_cont p) 24 0x534D4150 (pr_entry p)) in
  let e := entry r in
  let p := Probe (pr_info p) (pr_text p) e (next_id r) in
  if negb (u32 (signature r) =? 0x534D4150) then
    Brk (Some (false, Probe (pr_info p) (show_msg msg_detect_failed (pr_text p)) e (next_id r)))
  else if (20 <? u8 (bytes_read r)) && (Z.land (ACPI e) 1 =? 0) then Cont p
  else
    match (if Type_ e =? 1 then push_region (Region (BaseL e) (LengthL e)) (pr_info p)
           else Some (pr_info p)) with
    | None => Brk None
    | Some b =>
        let p := Probe b (pr_text p) e (next_id r) in
        if (u32 (next_id r) =? 0) || (count b =? BOOT_RAM_REGION_MAX - 1) then Brk (Some (true, p))
        else Cont p
    end.

(** static inline void detect_memory(void); [entry] starts with whatever is
    on the stack. *)
Definition detect_memory (b : boot_info_t) (text : string) (garbage : SMAP_entry_t)
    : l16_err + (boot_info_t * string) :=
  let text := show_msg msg_detecting text in
  let b := BootInfo (ram_regions b) 0 in
  match cwhile detect_turn (Probe b text garbage 0) with
  | None => inl L16_Loop
  | Some None => inl L16_Range
  | Some (Some (true, p)) => inr (pr_info p, show_msg msg_detect_ok (pr_text p))
  | Some (Some (false, p)) => inr (pr_info p, pr_text p)
  end.
End detect.

(** ** Examples: enumerations by tables *)

Section tables.
(** The buffer after an entry of [n] bytes: one of 20 bytes has no ACPI
    member. *)
Definition filled (n : Z) (e old : SMAP_entry_t) : SMAP_entry_t :=
  if u8 n <=? 20 then SMAP (BaseL e) (BaseH e) (LengthL e) (LengthH e) (Type_ e) (ACPI old) else e.

(** A BIOS with the entries [l]: the continuation is the index of the next
    one, 0 after the last. *)
Definition table_bios (l : list (Z * SMAP_entry_t)) (q : int15_request) : e820_reply :=
  match l !! Z.to_nat (q_ebx q) with
  | Some (n, e) =>
      if (q_eax q =? 0xE820) && (q_edx q =? 0x534D4150) && (24 <=? q_ecx q) then
        Reply 0x534D4150 n (if q_ebx q + 1 <? len l then q_ebx q + 1 else 0) (filled n e (q_buffer q))
      else Reply 0 0 0 (q_buffer q)
  | None => Reply 0 0 0 (q_buffer q)
  end.

Definition no_info : boot_info_t := BootInfo (replicate 10 (Region 0 0)) 0.
Definition low : Z * SMAP_entry_t := (20, SMAP 0 0 0x9FC00 0 1 0).
Definition rom : Z * SMAP_entry_t := (20, SMAP 0xF0000 0 0x10000 0 2 0).
Definition high : Z * SMAP_entry_t := (24, SMAP 0x100000 0 0x7EE0000 0 1 1).
Definition hidden : Z * SMAP_entry_t := (24, SMAP 0x200000 0 0x1000 0 1 0).

Example detect_qemu :
  (λ r, match r with inr (b, _) => Some (take 3 (ram_regions b), count b) | inl _ => None end)
    (detect_memory (table_bios [low; rom; high]) no_info "" (SMAP 0 0 0 0 0 0)) =
  Some ([Region 0 0x9FC00; Region 0x100000 0x7EE0000; Region 0 0], 2).
Proof. vm_compute. reflexivity. Qed.

(** An ignored last entry restarts the enumeration. *)
Example detect_restart :
  (λ r, match r with inr (b, _) => Some (take 3 (ram_regions b), count b) | inl _ => None end)
    (detect_memory (table_bios [low; hidden]) no_info "" (SMAP 0 0 0 0 0 0)) =
  Some ([Region 0 0x9FC00; Region 0 0x9FC00; Region 0 0x9FC00], 9).
Proof. vm_compute. reflexivity. Qed.
End tables.

(** ** What the probe collects *)

Section detect_facts.
Context (bios : int15_request → e820_reply).

(** An entry the code does not skip, and one it records. *)
Definition kept (p : Z * SMAP_entry_t) : bool :=
  negb ((20 <? u8 p.1) && (Z.land (ACPI p.2) 1 =? 0)).
Definition usable (p : Z * SMAP_entry_t) : bool := kept p && (Type_ p.2 =? 1).
Definition region_of (p : Z * SMAP_entry_t) : ram_region_info := Region (BaseL p.2) (LengthL p.2).
Definition usable_regions (l : list (Z * SMAP_entry_t)) : list ram_region_info :=
  region_of <$> filter usable l.

(** Whether the enumeration ends with an entry that is not skipped. *)
Definition last_kept (l : list (Z * SMAP_entry_t)) : bool :=
  match last l with Some p => kept p | None => true end.

(** The documented behaviour of the service 0xE820, for a buffer of 24 bytes
    or more: it enumerates the entries [l] under the continuation values
    [ids], the first of which is 0, and returns 0 with the last one. *)
Record serves (ids : list Z) (l : list (Z * SMAP_entry_t)) : Prop := {
  sv_len : length ids = length l;
  sv_first : head ids = Some 0;
  sv_next : ∀ i id, ids !! S i = Some id → u32 id ≠ 0;
  sv_reply : ∀ i id n e q, ids !! i = Some id → l !! i = Some (n, e) →
    q_eax q = 0xE820 → q_edx q = 0x534D4150 → 24 <= q_ecx q → q_ebx q = id →
    bios q = Reply 0x534D4150 n (default 0 (ids !! S i)) (filled n e (q_buffer q))
}.

(** [b] holds the regions [rs]. *)
Definition holds_regions (b : boot_info_t) (rs : list ram_region_info) : Prop :=
  count b = len rs ∧ length (ram_regions b) = 10%nat ∧ take (length rs) (ram_regions b) = rs.

Lemma push_region_ok b rs r :
  holds_regions b rs → len rs < BOOT_RAM_REGION_MAX →
  ∃ b', push_region r b = Some b' ∧ holds_regions b' (rs ++ [r]).
Proof.
  unfold BOOT_RAM_REGION_MAX. intros (Hc & Hl & Ht) Hlt. unfold push_region. rewrite Hc.
  rewrite (proj2 (Z.leb_le 0 _)), (proj2 (Z.ltb_lt _ BOOT_RAM_REGION_MAX))
    by (unfold BOOT_RAM_REGION_MAX; lia).
  eexists. split; [done|]. unfold holds_regions. cbn. rewrite length_app, length_insert. cbn.
  rewrite i32_small by (unfold INT_MIN, INT_MAX; lia). split_and!; [lia|done|].
  rewrite Nat2Z.id, Nat.add_1_r. erewrite take_S_r by (apply list_lookup_insert_eq; lia).
  rewrite take_insert_ge by done. by rewrite Ht.
Qed.

Context (ids : list Z) (l : list (Z * SMAP_entry_t)) (Hs : serves ids l).

Lemma next_id_some i l2 : drop (S i) l = l2 → l2 ≠ [] → is_Some (ids !! S i).
Proof using Hs.
  intros Hd Hne. apply lookup_lt_is_Some. rewrite (sv_len _ _ Hs).
  destruct (Nat.lt_ge_cases (S i) (length l)) as [|Hge]; [done|].
  rewrite drop_ge in Hd by done. by subst.
Qed.

Lemma usable_regions_app l1 l2 : usable_regions (l1 ++ l2) = usable_regions l1 ++ usable_regions l2.
Proof. unfold usable_regions. by rewrite filter_app, fmap_app. Qed.
Lemma usable_regions_one p : (length (usable_regions [p]) <= 1)%nat.
Proof.
  unfold usable_regions. rewrite filter_cons. case_decide; cbn; lia.
Qed.

(** The buffer agrees with the entry in all that matters. *)
Lemma kept_filled n e old : kept (n, filled n e old) = kept (n, e).
Proof using Type.
  unfold kept, filled. cbn [fst snd]. destruct (Z.leb_spec (u8 n) 20) as [Hn|]; [|done].
  by rewrite (proj2 (Z.ltb_ge 20 _)) by done.
Qed.
Lemma usable_filled n e old : usable_regions [(n, filled n e old)] = usable_regions [(n, e)].
Proof using Type.
  assert (usable (n, filled n e old) = usable (n, e) ∧ region_of (n, filled n e old) = region_of (n, e)) as [Hu Hr].
  { unfold usable. rewrite kept_filled. unfold filled, region_of. cbn [snd]. by destruct (u8 n <=? 20). }
  unfold usable_regions. rewrite !filter_cons.
  do 2 case_decide; cbn [fmap list_fmap]; rewrite ?Hr; try done; congruence.
Qed.

(** The reply to the request of a turn. *)
Lemma turn_reply i id n e e0 :
  ids !! i = Some id → l !! i = Some (n, e) →
  bios (Int15 0xE820 id 24 0x534D4150 e0) = Reply 0x534D4150 n (default 0 (ids !! S i)) (filled n e e0).
Proof using Hs. intros Hid Hi. by apply (sv_reply _ _ Hs i id n e). Qed.

(** A turn on an entry that is not skipped. *)
Lemma turn_kept n e id b rs text e0 nid :
  bios (Int15 0xE820 id 24 0x534D4150 e0) = Reply 0x534D4150 n nid e → kept (n, e) = true →
  holds_regions b rs → len rs < 9 →
  ∃ b1, holds_regions b1 (rs ++ usable_regions [(n, e)]) ∧
    detect_turn bios (Probe b text e0 id) =
      if (u32 nid =? 0) || (count b1 =? 9) then Brk (Some (true, Probe b1 text e nid))
      else Cont (Probe b1 text e nid).
Proof.
  intros Hrep Hk Hb Hrs. unfold detect_turn. cbn [pr_cont pr_entry pr_info pr_text]. rewrite Hrep.
  cbn [signature bytes_read next_id entry]. unfold kept in Hk. cbn [fst snd] in Hk.
  pose proof Hk as Hk'. apply negb_true_iff in Hk'. rewrite Hk'.
  change (negb (u32 0x534D4150 =? 0x534D4150)) with false.
  unfold usable_regions. rewrite filter_cons. unfold usable, kept. cbn [fst snd].
  rewrite Hk. cbn [andb]. destruct (Type_ e =? 1).
  - destruct (push_region_ok b rs (Region (BaseL e) (LengthL e)) Hb) as (b1 & -> & Hb1).
    { unfold BOOT_RAM_REGION_MAX. lia. }
    exists b1. by rewrite decide_True by done.
  - exists b. rewrite decide_False by auto. cbn. by rewrite app_nil_r.
Qed.

(** A turn on one that is. *)
Lemma turn_skipped n e id b text e0 nid :
  bios (Int15 0xE820 id 24 0x534D4150 e0) = Reply 0x534D4150 n nid e → kept (n, e) = false →
  detect_turn bios (Probe b text e0 id) = Cont (Probe b text e nid).
Proof.
  intros Hrep Hk. unfold detect_turn. cbn [pr_cont pr_entry]. rewrite Hrep.
  cbn [signature bytes_read next_id entry]. unfold kept in Hk. cbn [fst snd] in Hk.
  apply negb_false_iff in Hk. by rewrite Hk.
Qed.

(** When the probe stops after an entry: nothing more is to be recorded. *)
Lemma stop_take i l2 rs1 b1 :
  drop (S i) l = l2 → holds_regions b1 rs1 → (length rs1 <= 9)%nat →
  (u32 (default 0 (ids !! S i)) =? 0) || (count b1 =? 9) = true →
  take 9 (rs1 ++ usable_regions l2) = rs1.
Proof using Hs.
  intros Hd2 (Hc & _ & _) Hl1 [Ez|E9]%orb_true_iff.
  - destruct l2 as [|q l2]; [by rewrite app_nil_r, take_ge|].
    destruct (next_id_some i _ Hd2) as [id' Hid']; [done|]. rewrite Hid' in Ez.
    apply Z.eqb_eq in Ez. by apply (sv_next _ _ Hs) in Hid'.
  - apply Z.eqb_eq in E9. rewrite take_app_le by lia. by rewrite take_ge by lia.
Qed.
(** And what made it stop. *)
Lemma stop_last n e i l2 rs1 b1 :
  drop (S i) l = l2 → holds_regions b1 rs1 → kept (n, e) = true →
  (u32 (default 0 (ids !! S i)) =? 0) || (count b1 =? 9) = true →
  last_kept ((n, e) :: l2) = true ∨ 9 <= len (rs1 ++ usable_regions l2).
Proof using Hs.
  intros Hd2 (Hc & _ & _) Hk [Ez|E9]%orb_true_iff.
  - left. destruct l2 as [|q l2]; [exact Hk|].
    destruct (next_id_some i _ Hd2) as [id' Hid']; [done|]. rewrite Hid' in Ez.
    apply Z.eqb_eq in Ez. by apply (sv_next _ _ Hs) in Hid'.
  - right. apply Z.eqb_eq in E9. rewrite length_app. lia.
Qed.
(** When it goes on: there is another entry. *)
Lemma go_on i l2 : drop (S i) l = l2 → u32 (default 0 (ids !! S i)) ≠ 0 → l2 ≠ [].
Proof using Hs.
  intros Hd2 Ez ->. apply Ez. rewrite lookup_ge_None_2; [done|]. rewrite (sv_len _ _ Hs).
  pose proof (length_drop l (S i)) as Hl. rewrite Hd2 in Hl. cbn in Hl. lia.
Qed.

(** A pass over the entries [l2] that are left, [rs] being recorded already:
    the probe stops in it, or it comes to an end because the last entry is
    skipped, and the enumeration starts again. *)
Definition pass_ends (l2 : list (Z * SMAP_entry_t)) (rs : list ram_region_info) (text : string)
    (p : probe) : Prop :=
  (∃ n p', n <= len l2 ∧ steps (detect_turn bios) n p (Some (true, p')) ∧ pr_text p' = text ∧
    holds_regions (pr_info p') (take 9 (rs ++ usable_regions l2)) ∧
    (last_kept l2 = true ∨ 9 <= len (rs ++ usable_regions l2))) ∨
  (last_kept l2 = false ∧ len (rs ++ usable_regions l2) < 9 ∧
    ∃ n b e, n <= len l2 ∧ holds_regions b (rs ++ usable_regions l2) ∧
      ∀ k r, steps (detect_turn bios) k (Probe b text e 0) r → steps (detect_turn bios) (k + n) p r).

Lemma pass_cons q l2 rs rs1 text p p1 :
  detect_turn bios p = Cont p1 → l2 ≠ [] → rs ++ usable_regions (q :: l2) = rs1 ++ usable_regions l2 →
  pass_ends l2 rs1 text p1 → pass_ends (q :: l2) rs text p.
Proof using Type.
  intros Ht Hne Heq. assert (last_kept (q :: l2) = last_kept l2) as Hl by (by destruct l2).
  unfold pass_ends. rewrite Heq, Hl. intros [(n & p' & Hn & Hst & H)|(Hk & H9 & n & b & e & Hn & Hb & Hst)].
  - left. exists (n + 1), p'. split; [cbn [length]; lia|]. split; [by eapply steps_cont|done].
  - right. split; [done|]. split; [done|]. exists (n + 1), b, e. split; [cbn [length]; lia|]. split; [done|].
    intros k r Hr. replace (k + (n + 1)) with (k + n + 1) by lia. eapply steps_cont; [exact Ht|by apply Hst].
Qed.

Lemma detect_pass l2 i id b rs text e0 :
  drop i l = l2 → ids !! i = Some id → holds_regions b rs → len rs < 9 →
  pass_ends l2 rs text (Probe b text e0 id).
Proof using Hs.
  revert i id b rs e0. induction l2 as [|[n e] l2 IH]; intros i id b rs e0 Hd Hid Hb Hrs.
  { apply lookup_lt_Some in Hid. rewrite (sv_len _ _ Hs) in Hid.
    pose proof (length_drop l i) as Hl. rewrite Hd in Hl. cbn in Hl. lia. }
  assert (l !! i = Some (n, e)) as Hi.
  { rewrite <- (Nat.add_0_r i), <- lookup_drop, Hd. done. }
  assert (drop (S i) l = l2) as Hd2.
  { rewrite (drop_S l _ i Hi) in Hd. by injection Hd. }
  pose proof (turn_reply i id n e e0 Hid Hi) as Hrep.
  assert (∀ b1 rs1, holds_regions b1 rs1 → len rs1 < 9 → l2 ≠ [] →
    rs ++ usable_regions ((n, e) :: l2) = rs1 ++ usable_regions l2 →
    detect_turn bios (Probe b text e0 id) = Cont (Probe b1 text (filled n e e0) (default 0 (ids !! S i))) →
    pass_ends ((n, e) :: l2) rs text (Probe b text e0 id)) as Hnext.
  { intros b1 rs1 Hb1 Hrs1 Hne Heq Hturn.
    destruct (next_id_some i l2 Hd2 Hne) as [id' Hid']. rewrite Hid' in Hturn.
    eapply pass_cons; [exact Hturn|done|exact Heq|]. by apply (IH (S i)). }
  destruct (kept (n, e)) eqn:Ek.
  - destruct (turn_kept n _ id b rs text e0 _ Hrep) as (b1 & Hb1 & Hturn); [by rewrite kept_filled|done|done|].
    rewrite usable_filled in Hb1. set (rs1 := rs ++ usable_regions [(n, e)]) in *.
    assert (rs ++ usable_regions ((n, e) :: l2) = rs1 ++ usable_regions l2) as Heq
      by (unfold rs1; by rewrite <- app_assoc, <- usable_regions_app).
    assert (len rs1 <= 9) as Hl1
      by (unfold rs1; rewrite length_app; pose proof (usable_regions_one (n, e)); lia).
    destruct ((u32 (default 0 (ids !! S i)) =? 0) || (count b1 =? 9)) eqn:Estop.
    + left. eexists 1, _. split; [cbn [length]; lia|]. split; [by apply steps_brk|]. split; [done|].
      cbn [pr_info]. rewrite Heq, (stop_take i l2 rs1 b1 Hd2 Hb1); [|lia|done]. split; [done|].
      by apply (stop_last n e i l2 rs1 b1).
    + apply orb_false_iff in Estop as [Ez E9]. apply Z.eqb_neq in E9. pose proof Hb1 as (Hc & _).
      apply (Hnext b1 rs1); try done; [lia|]. apply Z.eqb_neq in Ez. by apply (go_on i).
  - assert (usable_regions ((n, e) :: l2) = usable_regions l2) as Heq
      by (unfold usable_regions; rewrite filter_cons_False; [done|]; unfold usable; rewrite Ek; by intros []).
    assert (kept (n, filled n e e0) = false) as Ek' by (by rewrite kept_filled).
    pose proof (turn_skipped n _ id b text e0 _ Hrep Ek') as Hturn.
    destruct l2 as [|q l2]; [|by apply (Hnext b rs); try done; rewrite Heq].
    right. split; [exact Ek|]. change (usable_regions []) with (@nil ram_region_info) in Heq.
    rewrite Heq, app_nil_r. split; [done|]. eexists 1, b, _. split; [cbn [length]; lia|]. split; [done|].
    intros k r Hr. eapply steps_cont; [exact Hturn|]. rewrite lookup_ge_None_2; [exact Hr|].
    rewrite (sv_len _ _ Hs). pose proof (length_drop l (S i)) as Hl. rewrite Hd2 in Hl. cbn in Hl. lia.
Qed.

(** With a last entry that is skipped the usable entries are recorded again
    and again, until there are nine regions. *)
Lemma detect_rounds (k : nat) b rs text e0 :
  last_kept l = false → usable_regions l ≠ [] → holds_regions b rs → len rs < 9 → 9 <= len rs + Z.of_nat k →
  ∃ n p', n <= Z.of_nat k * len l ∧ steps (detect_turn bios) n (Probe b text e0 0) (Some (true, p')) ∧
    pr_text p' = text ∧ holds_regions (pr_info p') (take 9 (rs ++ concat (replicate k (usable_regions l)))).
Proof using Hs.
  intros Hlast Hu. revert b rs e0. induction k as [|k IH]; intros b rs e0 Hb Hrs Hk; [lia|].
  set (us := usable_regions l) in *.
  assert (ids !! 0%nat = Some 0) as Hid by (rewrite <- head_lookup; apply (sv_first _ _ Hs)).
  destruct (detect_pass l 0 0 b rs text e0 eq_refl Hid Hb Hrs)
    as [(n & p' & Hn & Hst & Ht & Hh & [Hl|H9])|(_ & H9 & n & b' & e' & Hn & Hb' & Hst)].
  - by rewrite Hlast in Hl.
  - exists n, p'. split; [lia|]. split; [done|]. split; [done|]. cbn [replicate concat].
    rewrite app_assoc, (take_app_le (rs ++ us)) by (unfold us; lia). exact Hh.
  - assert (us ≠ [] → 1 <= len us) as H1 by (destruct us; [done|cbn [length]; lia]).
    specialize (H1 Hu). fold us in H9, Hb'. rewrite length_app in H9.
    destruct (IH b' (rs ++ us) e' Hb') as (n' & p' & Hn' & Hst' & Ht & Hh); [rewrite length_app; lia..|].
    exists (n' + n), p'. split; [lia|]. split; [by apply Hst|]. split; [done|].
    cbn [replicate concat]. by rewrite app_assoc.
Qed.

(** With no usable entry either, nothing ends the loop. *)
Lemma detect_never b text e0 :
  last_kept l = false → usable_regions l = [] → holds_regions b [] →
  cwhile (detect_turn bios) (Probe b text e0 0) = None.
Proof using Hs.
  intros Hlast Hu Hb.
  apply (cwhile_never _ (λ p, ∃ i, ids !! i = Some (pr_cont p) ∧ holds_regions (pr_info p) [])).
  - intros [b1 text1 e1 id] (i & Hid & Hb1). cbn [pr_cont pr_info] in *.
    assert (is_Some (l !! i)) as [[n e] Hi]
      by (apply lookup_lt_is_Some; rewrite <- (sv_len _ _ Hs); by eapply lookup_lt_Some).
    pose proof (turn_reply i id n e e1 Hid Hi) as Hrep.
    assert (usable_regions [(n, e)] = []) as Hne.
    { rewrite <- (take_drop_middle l i _ Hi), usable_regions_app in Hu.
      apply app_eq_nil in Hu as [_ Hu]. change (usable_regions ([(n, e)] ++ drop (S i) l) = []) in Hu.
      rewrite usable_regions_app in Hu. by apply app_eq_nil in Hu as [Hu _]. }
    assert (∃ i', ids !! i' = Some (default 0 (ids !! S i))) as [i' Hi'].
    { destruct (ids !! S i) as [id'|] eqn:E; [by exists (S i)|]. exists 0%nat.
      rewrite <- head_lookup. apply (sv_first _ _ Hs). }
    destruct (kept (n, e)) eqn:Ek.
    + destruct (turn_kept n _ id b1 [] text1 e1 _ Hrep) as (b2 & Hb2 & Hturn); [by rewrite kept_filled|done|done|].
      rewrite usable_filled, Hne in Hb2. pose proof Hb2 as (Hc & _). rewrite Hc in Hturn. cbn [length] in Hturn.
      rewrite orb_false_r in Hturn. destruct (Z.eqb_spec (u32 (default 0 (ids !! S i))) 0) as [Ez|Ez].
      * exfalso. assert (drop (S i) l = []) as Hd.
        { destruct (drop (S i) l) as [|q l2] eqn:E; [done|].
          destruct (next_id_some i _ E) as [id' Hid']; [done|]. rewrite Hid' in Ez.
          by apply (sv_next _ _ Hs) in Hid'. }
        rewrite <- (take_drop_middle l i _ Hi), Hd in Hlast. unfold last_kept in Hlast.
        rewrite last_snoc in Hlast. by rewrite Ek in Hlast.
      * eexists. split; [exact Hturn|]. by exists i'.
    + eexists. split; [apply (turn_skipped n _ id b1 text1 e1 _ Hrep); by rewrite kept_filled|]. by exists i'.
  - exists 0%nat. split; [|done]. cbn [pr_cont]. rewrite <- head_lookup. apply (sv_first _ _ Hs).
Qed.
End detect_facts.

Lemma detect_memory_end bios b text garbage n p' rs :
  steps (detect_turn bios) n (Probe (BootInfo (ram_regions b) 0) (show_msg msg_detecting text) garbage 0)
    (Some (true, p')) → n <= 2 ^ 40 →
  pr_text p' = show_msg msg_detecting text → holds_regions (pr_info p') rs →
  ∃ b', detect_memory bios b text garbage =
      inr (b', show_msg msg_detect_ok (show_msg msg_detecting text)) ∧ holds_regions b' rs.
Proof.
  intros Hst Hn Ht Hh. unfold detect_memory. erewrite cwhile_steps; [|exact Hst|done].
  exists (pr_info p'). by rewrite Ht.
Qed.
Lemma no_regions b : length (ram_regions b) = 10%nat → holds_regions (BootInfo (ram_regions b) 0) [].
Proof. intros Hb. by split. Qed.

Lemma detect_memory_ok bios ids l b text garbage :
  serves bios ids l → l ≠ [] → last_kept l = true →
  length (ram_regions b) = 10%nat → len l < 2 ^ 32 →
  ∃ b', detect_memory bios b text garbage =
      inr (b', show_msg msg_detect_ok (show_msg msg_detecting text)) ∧
    holds_regions b' (take 9 (usable_regions l)).
Proof.
  change (2 ^ 32) with 0x100000000. intros Hs Hne Hlast Hb Hl.
  destruct (detect_pass bios ids l Hs l 0 0 _ [] (show_msg msg_detecting text) garbage eq_refl
    ltac:(rewrite <- head_lookup; apply (sv_first _ _ _ Hs)) (no_regions b Hb) ltac:(done))
    as [(n & p' & Hn & Hst & Ht & Hh & _)|(Hl' & _)]; [|by rewrite Hlast in Hl'].
  apply (detect_memory_end bios b text garbage n p'); [done|lia|done|done].
Qed.
Lemma detect_memory_again bios ids l b text garbage :
  serves bios ids l → last_kept l = false → usable_regions l ≠ [] →
  length (ram_regions b) = 10%nat → len l < 2 ^ 32 →
  ∃ b', detect_memory bios b text garbage =
      inr (b', show_msg msg_detect_ok (show_msg msg_detecting text)) ∧
    holds_regions b' (take 9 (concat (replicate 9 (usable_regions l)))).
Proof.
  change (2 ^ 32) with 0x100000000. intros Hs Hlast Hu Hb Hl.
  destruct (detect_rounds bios ids l Hs 9 _ [] (show_msg msg_detecting text) garbage Hlast Hu (no_regions b Hb))
    as (n & p' & Hn & Hst & Ht & Hh); [done|done|].
  apply (detect_memory_end bios b text garbage n p'); [done|lia|done|done].
Qed.

(** The first request the probe makes. *)
Definition first_request (garbage : SMAP_entry_t) : int15_request := Int15 0xE820 0 24 0x534D4150 garbage.
Lemma detect_memory_failed bios b text garbage :
  u32 (signature (bios (first_request garbage))) ≠ 0x534D4150 →
  detect_memory bios b text garbage =
    inr (BootInfo (ram_regions b) 0, show_msg msg_detect_failed (show_msg msg_detecting text)).
Proof.
  intros Hsig. unfold detect_memory.
  set (p := Probe (BootInfo (ram_regions b) 0) (show_msg msg_detecting text) garbage 0).
  assert (detect_turn bios p = Brk (Some (false, Probe (pr_info p)
    (show_msg msg_detect_failed (pr_text p)) (entry (bios (first_request garbage))) (next_id (bios (first_request garbage)))))) as E.
  { unfold detect_turn. cbn [pr_cont pr_entry p]. by rewrite (proj2 (Z.eqb_neq _ _)). }
  erewrite (cwhile_steps _ 1); [|by apply steps_brk|done]. done.
Qed.

(** ** Protected mode *)

(** uint16_t gdt_table[][4] *)
Definition loader_gdt : list (list Z) := [
  [0; 0; 0; 0];
  [0xFFFF; 0x0000; 0x9a00; 0x00cf];
  [0xFFFF; 0x0000; 0x9200; 0x00cf]].

(** The descriptor a row of four words is for the processor. *)
Definition row_desc (row : list Z) : segment_desc_t :=
  match row with
  | [w0; w1; w2; w3] =>
      SegDesc w0 w1 (Z.land w2 0xFF)
        (Z.lor (Z.shiftr w2 8) (Z.shiftl (Z.land w3 0xFF) 8)) (Z.shiftr w3 8)
  | _ => null_desc
  end.

(** The registers of the processor in real mode that matter here. *)
Record real_mode : Type := Real {
  r_eflags : Z;
  r_gdtr : Z * Z;
  r_cr0 : Z;
  r_io : list io
}.

(** static inline uint8_t read_cr0(void): the value is cut to 8 bits. *)
Definition read_cr0 (r : real_mode) : Z := u8 (r_cr0 r).
(** write_cr0(uint32_t v) *)
Definition write_cr0 (v : Z) (r : real_mode) : real_mode :=
  Real (r_eflags r) (r_gdtr r) (u32 v) (r_io r).

Section protect.
Context `{Platform}.

(** static inline void enter_protect_mode(void): the state, and the far
    pointer jumped to. *)
Definition enter_protect_mode (r : real_mode) : real_mode * (Z * Z) :=
  let r := Real (Z.ldiff (r_eflags r) ELFAGS_IF) (r_gdtr r) (r_cr0 r) (r_io r) in
  let v := u8 (device_inb (r_io r) 0x92) in
  let r := Real (r_eflags r) (r_gdtr r) (r_cr0 r)
    (Outb 0x92 (u8 (Z.lor v 2)) :: Inb 0x92 v :: r_io r) in
  let r := Real (r_eflags r) (table_operand (symbol "loader.gdt_table") 24) (r_cr0 r) (r_io r) in
  let cr0 := read_cr0 r in
  let r := write_cr0 (Z.lor cr0 (Z.shiftl 1 0)) r in
  (r, (8, symbol "protect_entry")).

(** void loader16_entry(void) *)
Definition msg_loading : string :=
  "Loading..." +:+ String (Ascii.ascii_of_nat 13) (String (Ascii.ascii_of_nat 10) EmptyString).
Definition loader16_entry (bios : int15_request → e820_reply) (b : boot_info_t)
    (garbage : SMAP_entry_t) (text : string) (r : real_mode)
    : l16_err + (boot_info_t * string * (real_mode * (Z * Z))) :=
  match detect_memory bios b (show_msg msg_loading text) garbage with
  | inl e => inl e
  | inr (b, text) => inr (b, text, enter_protect_mode r)
  end.

(** Protection is enabled with interrupts off, the A20 line open and a flat
    code segment; of CR0 only the low byte survives. *)
Lemma enter_protect_mode_ok r :
  0 <= r_cr0 r < 2 ^ 32 →
  let '(r', (sel, off)) := enter_protect_mode r in
  Z.testbit (r_cr0 r') 0 = true ∧
  (∀ i, 1 <= i < 8 → Z.testbit (r_cr0 r') i = Z.testbit (r_cr0 r) i) ∧
  (∀ i, 8 <= i → Z.testbit (r_cr0 r') i = false) ∧
  Z.testbit (r_eflags r') 9 = false ∧
  (∃ v w, r_io r' = Outb 0x92 v :: Inb 0x92 w :: r_io r ∧ Z.testbit v 1 = true) ∧
  sel = 8 ∧ off = symbol "protect_entry".
Proof.
  intros Hc. unfold enter_protect_mode, read_cr0, write_cr0. cbn [r_cr0 r_eflags r_io r_gdtr].
  set (c := r_cr0 r) in *.
  assert (∀ i, 0 <= i → Z.testbit (u32 (Z.lor (u8 c) 1)) i =
    ((i =? 0) || ((i <? 8) && Z.testbit c i))) as Hbit.
  { intros i Hi. unfold u32, u8. change 0x100000000 with (2 ^ 32). change 0x100 with (2 ^ 8).
    rewrite <- !Z.land_ones by done. rewrite Z.land_spec, Z.lor_spec, Z.land_spec.
    rewrite !Z.testbit_ones_nonneg by lia. change 1 with (2 ^ 0). rewrite Z.pow2_bits_eqb by lia.
    destruct (Z.eqb_spec 0 i), (Z.eqb_spec i 0), (Z.ltb_spec i 32), (Z.ltb_spec i 8);
      try lia; rewrite ?andb_true_r, ?andb_false_r, ?orb_true_r, ?orb_false_r; done. }
  split_and!.
  - by rewrite Hbit.
  - intros i Hi. rewrite Hbit by lia.
    by rewrite (proj2 (Z.eqb_neq _ _)), (proj2 (Z.ltb_lt _ _)) by lia.
  - intros i Hi. rewrite Hbit by lia.
    by rewrite (proj2 (Z.eqb_neq _ _)), (proj2 (Z.ltb_ge _ _)) by lia.
  - rewrite Z.ldiff_spec. apply andb_false_r.
  - eexists _, _. split; [done|]. unfold u8 at 1. change 0x100 with (2 ^ 8).
    rewrite Z.mod_pow2_bits_low, Z.lor_spec by lia. apply orb_true_r.
  - done.
  - done.
Qed.

(** The flat segments of the loader. *)
Lemma loader_gdt_flat row :
  row ∈ tail loader_gdt →
  seg_base (row_desc row) = 0 ∧ seg_limit (row_desc row) = 0xFFFFFFFF ∧
  seg_present (row_desc row) = true ∧ seg_system (row_desc row) = false.
Proof.
  intros Hr. unfold loader_gdt in Hr. cbn [tail] in Hr.
  rewrite !elem_of_cons, elem_of_nil in Hr. by destruct_or! Hr; subst.
Qed.
End protect.

(** ** Properties *)

(** C40: detect_memory, for a BIOS that enumerates a list of entries as
    documented. When the last entry is not one the code ignores, the loop ends
    with the base and length of the usable entries in boot_info, in order, at
    most nine of them, counted by [count]. When the last entry is ignored, the
    test for the end is skipped with it and the enumeration starts again: the
    usable entries are recorded over and over until there are nine regions,
    and if there is none the loop never ends. When the first call fails, no
    region is recorded and the failure is shown. *)
Theorem detect_memory_correct bios ids l b text garbage :
  length (ram_regions b) = 10%nat →
  (serves bios ids l → l ≠ [] → len l < 2 ^ 32 →
    let done rs := ∃ b', detect_memory bios b text garbage =
        inr (b', (text +:+ msg_detecting) +:+ msg_detect_ok) ∧
      count b' = len rs ∧ take (Z.to_nat (count b')) (ram_regions b') = rs in
    (last_kept l = true → done (take 9 (usable_regions l))) ∧
    (last_kept l = false → usable_regions l ≠ [] →
      done (take 9 (concat (replicate 9 (usable_regions l))))) ∧
    (last_kept l = false → usable_regions l = [] → detect_memory bios b text garbage = inl L16_Loop)) ∧
  (u32 (signature (bios (first_request garbage))) ≠ 0x534D4150 →
    ∃ b', detect_memory bios b text garbage = inr (b', (text +:+ msg_detecting) +:+ msg_detect_failed) ∧
      count b' = 0).
Proof.
  intros Hb. split.
  - intros Hs Hne Hl.
    assert (∀ b' rs, holds_regions b' rs → count b' = len rs ∧ take (Z.to_nat (count b')) (ram_regions b') = rs)
      as Hh by (intros b' rs (Hc & _ & Ht); by rewrite Hc, Nat2Z.id).
    split_and!.
    + intros Hk. destruct (detect_memory_ok bios ids l b text garbage Hs Hne Hk Hb Hl) as (b' & E & H).
      exists b'. split; [exact E|by apply Hh].
    + intros Hk Hu. destruct (detect_memory_again bios ids l b text garbage Hs Hk Hu Hb Hl) as (b' & E & H).
      exists b'. split; [exact E|by apply Hh].
    + intros Hk Hu. unfold detect_memory.
      by rewrite (detect_never bios ids l Hs _ _ garbage Hk Hu (no_regions b Hb)).
  - intros Hsig. rewrite detect_memory_failed by done. by eexists.
Qed.

Lemma table_serves (l : list (Z * SMAP_entry_t)) :
  l ≠ [] → len l < 2 ^ 32 → serves (table_bios l) (Z.of_nat <$> seq 0 (length l)) l.
Proof.
  change (2 ^ 32) with 0x100000000. intros Hne Hl.
  assert (∀ i, (i < length l)%nat → (Z.of_nat <$> seq 0 (length l)) !! i = Some (Z.of_nat i)) as Hids.
  { intros i Hi. by rewrite list_lookup_fmap, lookup_seq_lt. }
  split.
  - by rewrite length_fmap, length_seq.
  - rewrite head_lookup. apply Hids. destruct l; [done|cbn; lia].
  - intros i id Hid. pose proof (lookup_lt_Some _ _ _ Hid) as Hi. rewrite length_fmap, length_seq in Hi.
    rewrite Hids in Hid by done. injection Hid as <-. rewrite u32_small by lia. lia.
  - intros i id n e q Hid Hi He Hd Hc Hb. pose proof (lookup_lt_Some _ _ _ Hi) as Hlt.
    rewrite Hids in Hid by done. injection Hid as <-. unfold table_bios. rewrite Hb, He, Hd, Nat2Z.id, Hi.
    rewrite (proj2 (Z.leb_le 24 _)) by done. cbn [Z.eqb Pos.eqb andb]. f_equal.
    destruct (Z.ltb_spec (Z.of_nat i + 1) (len l)).
    + rewrite Hids by lia. cbn. lia.
    + rewrite lookup_ge_None_2; [done|]. rewrite length_fmap, length_seq. lia.
Qed.
Lemma detect_memory_correct_witness :
  (∃ b', detect_memory (table_bios [low; rom; high]) no_info "" (SMAP 0 0 0 0 0 0) =
      inr (b', msg_detecting +:+ msg_detect_ok) ∧ count b' = 2) ∧
  (∃ b', detect_memory (table_bios [low; hidden]) no_info "" (SMAP 0 0 0 0 0 0) =
      inr (b', msg_detecting +:+ msg_detect_ok) ∧ count b' = 9) ∧
  detect_memory (table_bios [hidden]) no_info "" (SMAP 0 0 0 0 0 0) = inl L16_Loop.
Proof.
  split; [|split].
  - destruct (detect_memory_correct (table_bios [low; rom; high]) (Z.of_nat <$> seq 0 3) [low; rom; high] no_info ""
      (SMAP 0 0 0 0 0 0) eq_refl) as [H _].
    destruct (H (table_serves [low; rom; high] ltac:(done) ltac:(done)) ltac:(done) ltac:(done)) as (H1 & _).
    destruct (H1 eq_refl) as (b' & E & Hc & _). exists b'. split; [exact E|]. rewrite Hc. vm_compute. reflexivity.
  - destruct (detect_memory_correct (table_bios [low; hidden]) (Z.of_nat <$> seq 0 2) [low; hidden] no_info ""
      (SMAP 0 0 0 0 0 0) eq_refl) as [H _].
    destruct (H (table_serves [low; hidden] ltac:(done) ltac:(done)) ltac:(done) ltac:(done)) as (_ & H2 & _).
    destruct (H2 eq_refl ltac:(done)) as (b' & E & Hc & _). exists b'. split; [exact E|].
    rewrite Hc. vm_compute. reflexivity.
  - destruct (detect_memory_correct (table_bios [hidden]) (Z.of_nat <$> seq 0 1) [hidden] no_info "" (SMAP 0 0 0 0 0 0) eq_refl) as [H _].
    destruct (H (table_serves [hidden] ltac:(done) ltac:(done)) ltac:(done) ltac:(done)) as (_ & _ & H3).
    exact (H3 eq_refl eq_refl).
Defined.

Section protect_properties.
Context `{Platform}.

(** enter_protect_mode sets the protection bit with interrupts disabled and
    the A20 gate open, loads a table whose code and data segments span the
    address space, and jumps to the 32-bit entry through the code segment. Of
    the other bits of CR0 the low byte is kept and the upper 24 are cleared,
    because read_cr0 returns a byte. *)
Theorem enter_protect_mode_correct r :
  0 <= r_cr0 r < 2 ^ 32 → (∀ name, 0 <= symbol name < 2 ^ 32) →
  let '(r', (sel, off)) := enter_protect_mode r in
  (∀ i, 0 <= i → Z.testbit (r_cr0 r') i = (i =? 0) || ((i <? 8) && Z.testbit (r_cr0 r) i)) ∧
  Z.testbit (r_eflags r') 9 = false ∧
  (∃ v w, r_io r' = Outb 0x92 v :: Inb 0x92 w :: r_io r ∧ Z.testbit v 1 = true) ∧
  r_gdtr r' = (23, symbol "loader.gdt_table") ∧
  off = symbol "protect_entry" ∧
  (∃ row, loader_gdt !! Z.to_nat (sel / 8) = Some row ∧ Z.testbit (attr (row_desc row)) 3 = true) ∧
  ∀ row, row ∈ tail loader_gdt →
    seg_base (row_desc row) = 0 ∧ seg_limit (row_desc row) = 0xFFFFFFFF ∧
    seg_present (row_desc row) = true ∧ seg_system (row_desc row) = false.
Proof.
  intros Hc Hsym. pose proof (enter_protect_mode_ok r Hc) as Hok.
  pose proof (table_operand_ok (symbol "loader.gdt_table") 24 (Hsym _) ltac:(lia)) as Ht.
  destruct (enter_protect_mode r) as [r' [sel off]] eqn:E.
  destruct Hok as (H0 & H1 & H2 & Hfl & Hio & -> & Hoff).
  assert (r_gdtr r' = table_operand (symbol "loader.gdt_table") 24) as Hg
    by (unfold enter_protect_mode in E; cbn zeta in E; by injection E as <- _).
  split_and!; try done.
  - intros i Hi. destruct (Z.eqb_spec i 0) as [->|Hne]; [done|]. cbn [orb].
    destruct (Z.ltb_spec i 8); cbn [andb]; [apply H1; lia|by apply H2].
  - by rewrite Hg.
  - by eexists.
  - intros row. apply loader_gdt_flat.
Qed.
End protect_properties.

Lemma enter_protect_mode_correct_witness :
  let '(r', _) := enter_protect_mode (H := demo_platform) (Real 0x202 (0, 0) 0x60000010 []) in
  Z.testbit (r_cr0 r') 0 = true ∧ Z.testbit (r_cr0 r') 30 = false.
Proof.
  pose proof (enter_protect_mode_correct (H := demo_platform) (Real 0x202 (0, 0) 0x60000010 [])
    ltac:(done) demo_symbol_range) as Hok.
  destruct (enter_protect_mode (H := demo_platform) _) as [r' [sel off]].
  destruct Hok as (Hb & _). by rewrite !Hb.
Defined.
