(* ===== verification/System.v ===== *)
(** * The running system

    Tasks, the processor's hardware task switch, and the timer interrupt, as a
    step relation over kernel states.  A step is one kernel call of the
    current task, from its entry to the moment some task runs outside the
    kernel again, or one timer interrupt. *)

From S2P Require Import Prelude Mem DList Klib Machine Irq Sched SchedSpec SchedOps Mutex Sem Timer.

(** ** Hardware task switch

    The far jump saves the context of the outgoing task in the task state
    segment TR names and loads the one of the selector.  A context is what the
    task does when it is switched back in: start at its entry point, or go on
    with the kernel call it was in. *)

Inductive context : Type :=
| Fresh (fl : Z)
| Resume (fl : Z) (k : kstate → res unit).

(** The registers after loading a context. *)
Definition enter (sel fl : Z) (s : kstate) : kstate :=
  with_cpu (Cpu fl sel (gdtr (k_cpu s)) (idtr (k_cpu s))) s.

(** [settle cs r s' cs']: the kernel code with outcome [r] ends with a task
    running outside the kernel in [s'], the saved contexts being [cs']. *)
Inductive settle : gmap Z context → res unit → kstate → gmap Z context → Prop :=
| settle_done cs s : settle cs (Done tt s) s cs
| settle_fresh cs sel s k fl :
    cs !! sel = Some (Fresh fl) →
    settle cs (Switch sel s k) (enter sel fl s)
      (<[tr (k_cpu s) := Resume (eflags (k_cpu s)) k]> (delete sel cs))
| settle_resume cs sel s k fl k' s' cs' :
    cs !! sel = Some (Resume fl k') →
    settle (<[tr (k_cpu s) := Resume (eflags (k_cpu s)) k]> (delete sel cs))
      (k' (enter sel fl s)) s' cs' →
    settle cs (Switch sel s k) s' cs'.

Lemma settle_fun cs r s1 cs1 s2 cs2 :
  settle cs r s1 cs1 → settle cs r s2 cs2 → s1 = s2 ∧ cs1 = cs2.
Proof.
  intros H1. revert s2 cs2.
  induction H1 as [cs s|cs sel s k fl Hf|cs sel s k fl k' s' cs' Hr Hs IH]; intros s2 cs2 H2.
  - by inversion H2; subst.
  - inversion H2 as [|? ? ? ? fl2 Hf2|? ? ? ? ? ? ? ? Hf2]; subst; [|congruence].
    rewrite Hf in Hf2. by injection Hf2 as ->.
  - inversion H2 as [|? ? ? ? ? Hf2|? ? ? ? ? ? ? ? Hf2 Hs2]; subst; [congruence|].
    rewrite Hr in Hf2. injection Hf2 as <- <-. by apply IH.
Qed.

Definition if_set (fl : Z) : Prop := Z.testbit fl 9 = true.

(** ** The scheduling invariant *)

Section core.
Context `{Platform}.

(** Every saved context ends by restoring flags with interrupts enabled. *)
Definition ctx_ok (c : context) : Prop :=
  match c with
  | Fresh fl => if_set fl
  | Resume _ k => ∃ fl, if_set fl ∧ ∀ s, k s = Done tt (with_eflags fl s)
  end.

Definition slices_ok (s : kstate) (ts : list Z) : Prop :=
  ∀ t tk, t ∈ ts → k_tasks s !! t = Some tk →
    1 <= t_slice_ticks tk <= INT_MAX ∧ 1 <= t_time_ticks tk <= INT_MAX.

(** The ticks left in the time slice of a task. *)
Definition slice_of (s : kstate) (t : Z) : option Z := option_map t_slice_ticks (k_tasks s !! t).

(** What the kernel's calls leave alone: the memory, the ports, the GDT, and
    the selectors and the length of the slices of all tasks. *)
Record keeps_rest (s s' : kstate) : Prop := {
  kp_mem : k_mem s' = k_mem s;
  kp_io : k_io s' = k_io s;
  kp_gdt : k_gdt s' = k_gdt s;
  kp_sels : ∀ t, option_map t_tss_sel (k_tasks s' !! t) = option_map t_tss_sel (k_tasks s !! t);
  kp_times : ∀ t, option_map t_time_ticks (k_tasks s' !! t) = option_map t_time_ticks (k_tasks s !! t)
}.
#[export] Instance keeps_rest_pre : PreOrder keeps_rest.
Proof. split; [by split|]. intros s1 s2 s3 [] []. split; intros; etrans; eauto. Qed.
Lemma same_env_rest s s' : same_env s s' → keeps_rest s s'.
Proof. intros []. by split. Qed.
Lemma slice_ticked_rest s a : keeps_rest s (slice_ticked s a).
Proof.
  unfold slice_ticked. destruct (a_ready a) as [|c r]; [done|].
  split; try done; intros t; cbn; rewrite lookup_alter; case_decide; subst; try done;
    by destruct (k_tasks s !! _).
Qed.

Record core (s : kstate) (a : asched) (cs : gmap Z context) : Prop := {
  co_rep : krep s a;
  co_wf : awf a;
  co_if : if_set (eflags (k_cpu s));
  co_tr : tr (k_cpu s) = sel_of s (a_curr a);
  co_sels : ∀ t u, t ∈ idle_task :: a_all a → u ∈ idle_task :: a_all a →
    sel_of s t = sel_of s u → t = u;
  co_saved : ∀ t, t ∈ idle_task :: a_all a → t ≠ a_curr a →
    ∃ c, cs !! sel_of s t = Some c ∧ ctx_ok c;
  co_slices : slices_ok s (a_all a)
}.

(** What becomes of the saved contexts: nothing, when the same task goes on;
    otherwise the one of the next task is taken, and the one of the caller
    put in its place, with interrupts masked. *)
Definition saved_after (cs : gmap Z context) (sel : Z) (s' : kstate) (cs' : gmap Z context) : Prop :=
  (tr (k_cpu s') = sel ∧ cs' = cs) ∨
  (∃ fl k, cs' = <[sel := Resume fl k]> (delete (tr (k_cpu s')) cs) ∧ ¬ if_set fl).

Lemma masked_if s : ¬ if_set (masked s).
Proof.
  unfold if_set, masked. rewrite Z.ldiff_spec. change (Z.testbit ELFAGS_IF 9) with true.
  by rewrite andb_false_r.
Qed.

Lemma slices_env s s1 ts :
  same_env s s1 → slices_ok s ts → slices_ok s1 ts.
Proof.
  intros HE Hs t tk Ht Htk. pose proof (se_slices _ _ HE t) as H1.
  pose proof (se_times _ _ HE t) as H2. rewrite Htk in H1, H2. cbn in H1, H2.
  destruct (k_tasks s !! t) as [tk0|] eqn:E; cbn in H1, H2; [|done].
  injection H1 as ->. injection H2 as ->. by apply (Hs t).
Qed.

Lemma a_next_in a : awf (a_dispatch a) → a_next a ∈ idle_task :: a_all a.
Proof.
  intros Ha. pose proof (aw_place _ Ha) as Hp. cbn in Hp. unfold a_next.
  destruct (a_ready a) as [|t r]; cbn; [set_solver|].
  apply elem_of_cons. right. rewrite <- Hp. set_solver.
Qed.

(** Loading a context changes the processor only. *)
Lemma enter_rep sel fl s a : krep s a → krep (enter sel fl s) a.
Proof. by intros []. Qed.
Lemma with_eflags_enter fl fl' sel s : with_eflags fl (enter sel fl' s) = enter sel fl s.
Proof. done. Qed.

(** The state in which the next task leaves the kernel. *)
Lemma switch_settles cs sel s k c :
  cs !! sel = Some c → ctx_ok c →
  ∃ fl, if_set fl ∧ settle cs (Switch sel s k) (enter sel fl s)
    (<[tr (k_cpu s) := Resume (eflags (k_cpu s)) k]> (delete sel cs)).
Proof.
  intros Hc Hok. destruct c as [fl|fl k']; cbn in Hok.
  - exists fl. split; [done|]. by apply settle_fresh.
  - destruct Hok as (fl' & Hfl & Hk). exists fl'. split; [done|].
    eapply settle_resume; [exact Hc|]. rewrite Hk, with_eflags_enter. apply settle_done.
Qed.

(** The two ways a kernel call ends. Both keep the invariant. *)
Section outcome.
Context (s : kstate) (a : asched) (cs : gmap Z context) (fl : Z) (s1 : kstate) (a1 : asched).
Context (Hco : core s a cs) (HR1 : krep s1 a1) (Ha1 : awf (a_dispatch a1)) (Hfl : if_set fl).
Context (Hsel : ∀ t, option_map t_tss_sel (k_tasks s1 !! t) = option_map t_tss_sel (k_tasks s !! t)).
Context (Htr1 : tr (k_cpu s1) = tr (k_cpu s)) (Hk : k_curr s1 = k_curr s).
Context (Hall : a_all a1 = a_all a) (Hsl : slices_ok s1 (a_all a)).

Lemma stay_core : a_next a1 = k_curr s1 → core (with_eflags fl s1) (a_dispatch a1) cs.
Proof using Type*.
  destruct Hco as [HR Ha _ Htr Hinj Hsv _]. rewrite (kr_curr _ _ HR) in Hk. intros Hn.
  rewrite a_dispatch_wf in * by (by rewrite <- (kr_curr _ _ HR1)).
  split; cbn; rewrite ?Hall; try done.
  - by apply krep_eflags.
  - rewrite Htr1, Htr, <- (kr_curr _ _ HR1), Hk. symmetry. by apply sel_of_env.
  - intros t u Ht Hu. change (sel_of (with_eflags fl s1)) with (sel_of s1).
    rewrite !(sel_of_env s s1) by done. by apply Hinj.
  - intros t Ht Hne. change (sel_of (with_eflags fl s1)) with (sel_of s1).
    rewrite (sel_of_env s s1) by done. apply Hsv; [done|].
    by rewrite <- (kr_curr _ _ HR1), Hk in Hne.
Qed.

Lemma switch_core fl' k' :
  a_next a1 ≠ k_curr s1 → if_set fl' → (∀ s', k' s' = Done tt (with_eflags fl s')) →
  let d := dispatched s1 a1 in
  core (enter (sel_of s (a_next a1)) fl' d) (a_dispatch a1)
    (<[tr (k_cpu d) := Resume (eflags (k_cpu d)) k']> (delete (sel_of s (a_next a1)) cs)).
Proof using Type*.
  destruct Hco as [HR Ha _ Htr Hinj Hsv _]. rewrite (kr_curr _ _ HR) in Hk. intros Hn Hfl' Hk' d.
  set (n := a_next a1) in *. pose proof (dispatched_env s1 a1) as HEd. fold d in HEd.
  assert (∀ t, sel_of d t = sel_of s t) as Hseld.
  { intros t. rewrite (sel_of_env s1 d) by apply (se_tasks _ _ HEd). by apply sel_of_env. }
  assert (n ∈ idle_task :: a_all a) as Hnin by (rewrite <- Hall; by apply a_next_in).
  assert (tr (k_cpu d) = sel_of s (a_curr a)) as Htrd by (rewrite (se_tr _ _ HEd), Htr1, Htr; done).
  split; cbn; rewrite ?Hall; try done.
  - apply enter_rep, krep_dispatched. done.
  - fold n. by rewrite <- (Hseld n).
  - intros t u Ht Hu. change (sel_of (enter (sel_of s n) fl' d)) with (sel_of d).
    rewrite !Hseld. by apply Hinj.
  - intros t Ht Hne. fold n in Hne. change (sel_of (enter (sel_of s n) fl' d)) with (sel_of d).
    rewrite Hseld, Htrd.
    assert (a_curr a ∈ idle_task :: a_all a) as Hcin.
    { rewrite (aw_curr _ Ha). apply a_next_in. by rewrite a_dispatch_wf by apply Ha. }
    destruct (decide (t = a_curr a)) as [->|Hnc].
    + rewrite lookup_insert_eq. eexists. split; [done|]. by exists fl.
    + rewrite lookup_insert_ne by (intros E; apply Hnc; symmetry; by apply Hinj).
      rewrite lookup_delete_ne by (intros E; apply Hne; symmetry; by apply Hinj).
      by apply Hsv.
  - by apply (slices_env s1 d).
Qed.

Lemma settle_outcome :
  ∃ s' cs', settle cs (outcome fl s1 a1) s' cs' ∧ core s' (a_dispatch a1) cs' ∧
    k_mutexes s' = k_mutexes s1 ∧ k_sems s' = k_sems s1 ∧ (∀ t, slice_of s' t = slice_of s1 t) ∧
    keeps_rest s1 s' ∧ saved_after cs (tr (k_cpu s)) s' cs'.
Proof using Type*.
  unfold outcome. destruct (decide (a_next a1 = k_curr s1)) as [Hn|Hn].
  - exists (with_eflags fl s1), cs. split; [apply settle_done|]. split; [by apply stay_core|]. split_and!; try done. left. by rewrite <- Htr1.
  - assert (a_next a1 ∈ idle_task :: a_all a) as Hnin by (rewrite <- Hall; by apply a_next_in).
    destruct (co_saved _ _ _ Hco _ Hnin) as (c & Hc & Hok).
    { rewrite <- (kr_curr _ _ (co_rep _ _ _ Hco)). congruence. }
    rewrite (sel_of_env s s1) by done.
    destruct (switch_settles cs _ (dispatched s1 a1) (λ s', Done tt (with_eflags fl s')) c Hc Hok)
      as (fl' & Hfl' & Hst).
    eexists _, _. split; [exact Hst|]. split; [by apply switch_core|].
    pose proof (dispatched_env s1 a1) as HEd.
    split_and!; [by unfold dispatched; destruct (a_ready a1)..|apply (se_slices _ _ HEd)| |].
    + by apply same_env_rest in HEd as [].
    + right. eexists _, _. rewrite <- Htr1, <- (se_tr _ _ HEd). split; [done|].
      unfold dispatched. destruct (a_ready a1); apply masked_if.
Qed.
End outcome.
End core.

(** ** Kernel calls *)

Inductive kcall : Type :=
| CYield
| CSleep (ms : Z)
| CLock (m : Z)
| CUnlock (m : Z)
| CWait (p : Z)
| CNotify (p : Z).

(** What the kernel promises its tasks: the scheduler, the mutexes and the
    semaphores, with no memory, nodes or registers. *)
Record asys : Type := ASys {
  y_sched : asched;
  y_mutexes : gmap Z rein_mutex_t;
  y_sems : gmap Z sem_t
}.

Section calls.
Context `{Platform}.

Definition run_call (c : kcall) : M unit :=
  match c with
  | CYield => sys_sched_yield
  | CSleep ms => sys_sleep ms
  | CLock m => rein_mutex_lock m
  | CUnlock m => rein_mutex_unlock m
  | CWait p => sem_wait p
  | CNotify p => sem_notify p
  end.

(** The timer interrupt: the gate masks interrupts, iret restores EFLAGS. *)
Definition timer_interrupt : M unit :=
  fl ← read_eflags;
  cli;;
  do_handler_timer;;
  write_eflags fl.

(** *** The abstract calls *)

Definition mutex_of (y : asys) (m : Z) : rein_mutex_t := default (Mutex NULL 0) (y_mutexes y !! m).
Definition waiters_of (y : asys) (w : Z) : list Z := default [] (a_wait (y_sched y) !! w).
Definition count_of (y : asys) (p : Z) : Z := s_count (default (Sem 0) (y_sems y !! p)).

Definition y_lock (m : Z) (y : asys) : asys :=
  match mutex_lock_step (a_curr (y_sched y)) (mutex_of y m) with
  | Some mx => ASys (y_sched y) (<[m := mx]> (y_mutexes y)) (y_sems y)
  | None => ASys (a_block_on (mutex_wait_list m) (y_sched y)) (y_mutexes y) (y_sems y)
  end.
Definition y_unlock (m : Z) (y : asys) : asys :=
  let mx := mutex_of y m in
  let l := waiters_of y (mutex_wait_list m) in
  ASys (if i32 (locker mx - 1) =? 0 then
          match l with [] => y_sched y | _ => a_wake (mutex_wait_list m) (y_sched y) end
        else y_sched y)
    (<[m := mutex_unlock_step mx l]> (y_mutexes y)) (y_sems y).
Definition y_wait (p : Z) (y : asys) : asys :=
  if 0 <? count_of y p then
    ASys (y_sched y) (y_mutexes y) (<[p := Sem (i32 (count_of y p - 1))]> (y_sems y))
  else ASys (a_block_on (sem_wait_list p) (y_sched y)) (y_mutexes y) (y_sems y).
Definition y_notify (p : Z) (y : asys) : asys :=
  match waiters_of y (sem_wait_list p) with
  | [] => ASys (y_sched y) (y_mutexes y) (<[p := Sem (i32 (count_of y p + 1))]> (y_sems y))
  | _ => ASys (a_wake (sem_wait_list p) (y_sched y)) (y_mutexes y) (y_sems y)
  end.

Definition y_call (c : kcall) (y : asys) : asys :=
  match c with
  | CYield => ASys (a_yield (y_sched y)) (y_mutexes y) (y_sems y)
  | CSleep ms => ASys (a_sleep_for (sleep_ticks_of ms) (y_sched y)) (y_mutexes y) (y_sems y)
  | CLock m => y_lock m y
  | CUnlock m => y_unlock m y
  | CWait p => y_wait p y
  | CNotify p => y_notify p y
  end.

(** The caller's side of the contract: arguments in range, on existing
    objects; only the owner unlocks. *)
Definition args_ok (c : kcall) (curr : Z) (mxs : gmap Z rein_mutex_t) (sems : gmap Z sem_t) : Prop :=
  match c with
  | CYield => True
  | CSleep ms => 0 <= ms < 2 ^ 32
  | CLock m => is_Some (mxs !! m) ∧ locker (default (Mutex NULL 0) (mxs !! m)) < INT_MAX
  | CUnlock m => is_Some (mxs !! m) ∧ locker (default (Mutex NULL 0) (mxs !! m)) ≠ 0 ∧
      owner (default (Mutex NULL 0) (mxs !! m)) = curr
  | CWait p | CNotify p => is_Some (sems !! p)
  end.
Definition call_ok (c : kcall) (y : asys) : Prop :=
  args_ok c (a_curr (y_sched y)) (y_mutexes y) (y_sems y).

Lemma call_ok_lock m y :
  call_ok (CLock m) y → ∃ mx, y_mutexes y !! m = Some mx ∧ locker mx < INT_MAX.
Proof. intros [[mx Hm] Hlt]. exists mx. by rewrite Hm in Hlt. Qed.
Lemma call_ok_unlock m y :
  call_ok (CUnlock m) y →
  ∃ mx, y_mutexes y !! m = Some mx ∧ locker mx ≠ 0 ∧ owner mx = a_curr (y_sched y).
Proof. intros ([mx Hm] & Hlk & Ho). exists mx. by rewrite Hm in Hlk, Ho. Qed.

(** *** The invariant of mutexes and semaphores *)

(** A free mutex has no owner and no waiter; a held one has an owner, that
    does not wait for it. *)
Definition mutex_ok (a : asched) (m : Z) (mx : rein_mutex_t) : Prop :=
  ∃ l, a_wait a !! mutex_wait_list m = Some l ∧
    (locker mx = 0 → owner mx = NULL ∧ l = []) ∧
    (locker mx ≠ 0 → 1 <= locker mx <= INT_MAX ∧ owner mx ∈ a_all a ∧ owner mx ∉ l).
(** No task waits for a semaphore that has units left. *)
Definition sem_ok (a : asched) (p : Z) (sm : sem_t) : Prop :=
  ∃ l, a_wait a !! sem_wait_list p = Some l ∧ (l ≠ [] → s_count sm <= 0).

Record locks_ok (y : asys) : Prop := {
  lk_mutex : ∀ m mx, y_mutexes y !! m = Some mx → mutex_ok (y_sched y) m mx;
  lk_sem : ∀ p sm, y_sems y !! p = Some sm → sem_ok (y_sched y) p sm;
  lk_apart : ∀ m p, is_Some (y_mutexes y !! m) → is_Some (y_sems y !! p) →
    mutex_wait_list m ≠ sem_wait_list p
}.

(** The wait lists are the only part of the scheduler they look at. *)
Lemma mutex_ok_frame a a' m mx :
  a_wait a' !! mutex_wait_list m = a_wait a !! mutex_wait_list m → a_all a' = a_all a →
  mutex_ok a m mx → mutex_ok a' m mx.
Proof. unfold mutex_ok. by intros -> ->. Qed.
Lemma sem_ok_frame a a' p sm :
  a_wait a' !! sem_wait_list p = a_wait a !! sem_wait_list p → sem_ok a p sm → sem_ok a' p sm.
Proof. unfold sem_ok. by intros ->. Qed.

(** *** What the abstract calls do to the wait lists *)

Lemma a_all_yield a : a_all (a_yield a) = a_all a ∧ a_wait (a_yield a) = a_wait a.
Proof. unfold a_yield. by destruct (a_ready a) as [|c [|d r]]. Qed.
Lemma a_all_sleep n a : a_all (a_sleep_for n a) = a_all a ∧ a_wait (a_sleep_for n a) = a_wait a.
Proof. unfold a_sleep_for. by destruct (a_ready a). Qed.
Lemma a_all_block w a : a_all (a_block_on w a) = a_all a.
Proof. unfold a_block_on. destruct (a_ready a); [done|]. by destruct (a_wait a !! w). Qed.
Lemma a_all_wake w a : a_all (a_wake w a) = a_all a.
Proof. unfold a_wake. by destruct (a_wait a !! w) as [[|t l]|]. Qed.
Lemma a_all_tick e a : a_all (a_tick e a) = a_all a ∧ a_wait (a_tick e a) = a_wait a.
Proof. unfold a_tick, a_rotate. destruct e; [by destruct (a_ready a)|done]. Qed.

Lemma a_wait_block w l c r a :
  a_ready a = c :: r → a_wait a !! w = Some l →
  a_wait (a_block_on w a) = <[w := l ++ [c]]> (a_wait a).
Proof. intros Hr Hw. unfold a_block_on. by rewrite Hr, Hw. Qed.
Lemma a_wait_wake w t l a :
  a_wait a !! w = Some (t :: l) → a_wait (a_wake w a) = <[w := l]> (a_wait a).
Proof. intros Hw. unfold a_wake. by rewrite Hw. Qed.

(** The current task, when it is not the idle task, heads the ready list. *)
Lemma curr_ready a : awf a → a_curr a ≠ idle_task → ∃ r, a_ready a = a_curr a :: r.
Proof.
  intros Ha Hc. rewrite (aw_curr _ Ha) in *. unfold a_next in *.
  destruct (a_ready a) as [|c r]; [done|]. by exists r.
Qed.
Lemma curr_facts a :
  awf a → a_curr a ≠ idle_task →
  a_curr a ∈ a_all a ∧ ∀ w l, a_wait a !! w = Some l → a_curr a ∉ l.
Proof.
  intros Ha Hc. destruct (curr_ready a Ha Hc) as [r Hr]. split.
  - rewrite <- (aw_place _ Ha), Hr. set_solver.
  - intros w l Hw Hin. destruct (waiters_disjoint _ _ _ _ Ha Hw Hin) as [Hn _].
    apply Hn. rewrite Hr. set_solver.
Qed.
End calls.

(** ** The abstract calls keep the invariants *)

Section abstract_calls.
Context `{Platform}.

Lemma locks_frame y a' :
  a_wait a' = a_wait (y_sched y) → a_all a' = a_all (y_sched y) →
  locks_ok y → locks_ok (ASys a' (y_mutexes y) (y_sems y)).
Proof.
  intros Hw Ha [Hm Hs Hd]. split; cbn; [intros m mx Hmx|intros p sm Hsm|done].
  - eapply mutex_ok_frame; [|exact Ha|by apply Hm]. by rewrite Hw.
  - eapply sem_ok_frame; [|by apply Hs]. by rewrite Hw.
Qed.

(** Changing one mutex and its own wait list. *)
Lemma locks_mutex y a' m mx' l' :
  locks_ok y → is_Some (y_mutexes y !! m) →
  a_wait a' = <[mutex_wait_list m := l']> (a_wait (y_sched y)) →
  a_all a' = a_all (y_sched y) →
  mutex_ok a' m mx' → locks_ok (ASys a' (<[m := mx']> (y_mutexes y)) (y_sems y)).
Proof.
  intros [Hm Hs Hd] Him Hw Ha Hok. split; cbn.
  - intros m2 mx2 [(<- & <-)|(Hne & Hmx)]%lookup_insert_Some; [done|].
    eapply mutex_ok_frame; [|exact Ha|by apply Hm].
    rewrite Hw, lookup_insert_ne; [done|]. unfold mutex_wait_list. lia.
  - intros p sm Hsm. eapply sem_ok_frame; [|by apply Hs].
    rewrite Hw, lookup_insert_ne; [done|]. apply Hd; [done|by eexists].
  - intros m2 p [mx2 Hm2] Hp. apply Hd; [|done].
    apply lookup_insert_Some in Hm2 as [(<- & <-)|(_ & ?)]; [done|by eexists].
Qed.
(** Changing one semaphore and its own wait list. *)
Lemma locks_sem y a' p sm' l' :
  locks_ok y → is_Some (y_sems y !! p) →
  a_wait a' = <[sem_wait_list p := l']> (a_wait (y_sched y)) →
  a_all a' = a_all (y_sched y) →
  sem_ok a' p sm' → locks_ok (ASys a' (y_mutexes y) (<[p := sm']> (y_sems y))).
Proof.
  intros [Hm Hs Hd] Hip Hw Ha Hok. split; cbn.
  - intros m mx Hmx. eapply mutex_ok_frame; [|exact Ha|by apply Hm].
    rewrite Hw, lookup_insert_ne; [done|]. intros E. symmetry in E. revert E.
    apply Hd; [by eexists|done].
  - intros p2 sm2 [(<- & <-)|(Hne & Hsm)]%lookup_insert_Some; [done|].
    eapply sem_ok_frame; [|by apply Hs].
    rewrite Hw, lookup_insert_ne; [done|]. unfold sem_wait_list. lia.
  - intros m p2 Hm2 [sm2 Hp]. apply Hd; [done|].
    apply lookup_insert_Some in Hp as [(<- & <-)|(_ & ?)]; [done|by eexists].
Qed.

Lemma mutex_of_some y m mx : y_mutexes y !! m = Some mx → mutex_of y m = mx.
Proof. unfold mutex_of. by intros ->. Qed.
Lemma count_of_some y p sm : y_sems y !! p = Some sm → count_of y p = s_count sm.
Proof. unfold count_of. by intros ->. Qed.
Lemma waiters_of_some y w l : a_wait (y_sched y) !! w = Some l → waiters_of y w = l.
Proof. unfold waiters_of. by intros ->. Qed.

(** The other wait lists. *)
Lemma block_other a w w' : w ≠ w' → a_wait (a_block_on w a) !! w' = a_wait a !! w'.
Proof.
  intros Hne. unfold a_block_on. destruct (a_ready a); [done|].
  destruct (a_wait a !! w); [|done]. cbn. by rewrite lookup_insert_ne.
Qed.
Lemma wake_other a w w' : w ≠ w' → a_wait (a_wake w a) !! w' = a_wait a !! w'.
Proof.
  intros Hne. unfold a_wake. destruct (a_wait a !! w) as [[|t l]|]; [done| |done].
  cbn. by rewrite lookup_insert_ne.
Qed.

Section one_call.
Context (y : asys).
Context (Ha : awf (y_sched y)) (Hc : a_curr (y_sched y) ≠ idle_task) (Hl : locks_ok y).

Lemma locks_lock m : call_ok (CLock m) y → locks_ok (y_lock m y).
Proof using Ha Hc Hl.
  intros (mx & Hmx & Hlt)%call_ok_lock. unfold y_lock. rewrite (mutex_of_some _ _ _ Hmx) in *.
  destruct (lk_mutex _ Hl m mx Hmx) as (l & Hw & Hfree & Hheld).
  destruct (curr_facts _ Ha Hc) as [Hin Hnw]. destruct (curr_ready _ Ha Hc) as [r Hr].
  unfold mutex_lock_step.
  destruct (Z.eqb_spec (locker mx) 0) as [H0|H0]; [|destruct (Z.eqb_spec (owner mx) (a_curr (y_sched y))) as [Ho|Ho]].
  - destruct (Hfree H0) as [_ ->].
    apply (locks_mutex y (y_sched y) m _ []); [done|by eexists|by rewrite insert_id|done|].
    exists []. split; [done|]. rewrite H0. cbn. split; [done|]. intros _. split_and!; try done. set_solver.
  - destruct (Hheld H0) as (Hb & Hoa & Hol).
    apply (locks_mutex y (y_sched y) m _ l); [done|by eexists|by rewrite insert_id|done|].
    exists l. cbn. rewrite i32_small by (unfold INT_MIN; lia).
    split; [done|]. split; [lia|]. intros _. split_and!; [lia|lia|done|done].
  - destruct (Hheld H0) as (Hb & Hoa & Hol). rewrite <- (insert_id (y_mutexes y) m mx) by done.
    apply (locks_mutex y _ m _ (l ++ [a_curr (y_sched y)]));
      [done|by eexists|by eapply a_wait_block|apply a_all_block|].
    exists (l ++ [a_curr (y_sched y)]).
    rewrite (a_wait_block _ _ _ _ _ Hr Hw), a_all_block, lookup_insert_eq.
    split; [done|]. split; [done|]. intros _. split_and!; [lia|lia|done|].
    rewrite elem_of_app, list_elem_of_singleton. tauto.
Qed.

Lemma locks_unlock m : call_ok (CUnlock m) y → locks_ok (y_unlock m y).
Proof using Ha Hc Hl.
  intros (mx & Hmx & Hne & Ho)%call_ok_unlock. unfold y_unlock. rewrite (mutex_of_some _ _ _ Hmx) in *.
  destruct (lk_mutex _ Hl m mx Hmx) as (l & Hw & _ & Hheld).
  rewrite (waiters_of_some _ _ _ Hw). destruct (Hheld Hne) as (Hb & Hoa & Hol).
  unfold mutex_unlock_step. rewrite i32_small by (unfold INT_MIN, INT_MAX in *; lia).
  destruct (Z.eqb_spec (locker mx - 1) 0) as [H0|H0].
  - destruct l as [|t l].
    + apply (locks_mutex y (y_sched y) m _ []); [done|by eexists|by rewrite insert_id|done|].
      exists []. split; [done|]. cbn. split; [done|]. intros []. done.
    + apply (locks_mutex y _ m _ l); [done|by eexists|by eapply a_wait_wake|apply a_all_wake|].
      exists l. rewrite (a_wait_wake _ _ _ _ Hw), a_all_wake, lookup_insert_eq.
      split; [done|]. cbn. split; [done|]. intros _.
      pose proof (waiters_nodup _ _ _ Ha Hw) as [Hnd _]%NoDup_cons.
      split_and!; [done|done| |done].
      rewrite <- (aw_place _ Ha), !elem_of_app. right; right.
      apply elem_of_waiters. exists (mutex_wait_list m), (t :: l). split; [done|set_solver].
  - apply (locks_mutex y (y_sched y) m _ l); [done|by eexists|by rewrite insert_id|done|].
    exists l. split; [done|]. cbn. split; [done|]. intros _. split_and!; [lia|lia|done|done].
Qed.

Lemma locks_wait p : call_ok (CWait p) y → locks_ok (y_wait p y).
Proof using Ha Hc Hl.
  intros [sm Hsm]. unfold y_wait. rewrite (count_of_some _ _ _ Hsm).
  destruct (lk_sem _ Hl p sm Hsm) as (l & Hw & Hn). destruct (curr_ready _ Ha Hc) as [r Hr].
  destruct (Z.ltb_spec 0 (s_count sm)) as [Hpos|Hpos].
  - apply (locks_sem y (y_sched y) p _ l); [done|by eexists|by rewrite insert_id|done|].
    exists l. split; [done|]. intros Hne. specialize (Hn Hne). lia.
  - rewrite <- (insert_id (y_sems y) p sm) by done.
    apply (locks_sem y _ p _ (l ++ [a_curr (y_sched y)]));
      [done|by eexists|by eapply a_wait_block|apply a_all_block|].
    exists (l ++ [a_curr (y_sched y)]).
    rewrite (a_wait_block _ _ _ _ _ Hr Hw), lookup_insert_eq. done.
Qed.

Lemma locks_notify p : call_ok (CNotify p) y → locks_ok (y_notify p y).
Proof using Ha Hc Hl.
  intros [sm Hsm]. unfold y_notify. rewrite (count_of_some _ _ _ Hsm).
  destruct (lk_sem _ Hl p sm Hsm) as (l & Hw & Hn). rewrite (waiters_of_some _ _ _ Hw).
  destruct l as [|t l].
  - apply (locks_sem y (y_sched y) p _ []); [done|by eexists|by rewrite insert_id|done|].
    by exists [].
  - rewrite <- (insert_id (y_sems y) p sm) by done.
    apply (locks_sem y _ p _ l); [done|by eexists|by eapply a_wait_wake|apply a_all_wake|].
    exists l. rewrite (a_wait_wake _ _ _ _ Hw), lookup_insert_eq. split; [done|].
    intros _. by apply Hn.
Qed.

Lemma locks_call c : call_ok c y → locks_ok (y_call c y).
Proof using Ha Hc Hl.
  destruct c; intros Hok; cbn [y_call].
  - destruct (a_all_yield (y_sched y)). by apply locks_frame.
  - destruct (a_all_sleep (sleep_ticks_of ms) (y_sched y)). by apply locks_frame.
  - by apply locks_lock.
  - by apply locks_unlock.
  - by apply locks_wait.
  - by apply locks_notify.
Qed.
End one_call.
End abstract_calls.

(** ** The code implements the abstract calls *)

Section code_calls.
Context `{Platform}.

Definition sys_of (s : kstate) (a : asched) : asys := ASys a (k_mutexes s) (k_sems s).

(** Every call, in one statement. *)
Lemma call_refines s a c :
  krep s a → awf a → a_curr a ≠ idle_task → locks_ok (sys_of s a) → call_ok c (sys_of s a) →
  let y' := y_call c (sys_of s a) in
  rcall s (run_call c s) (y_sched y')
    (λ s', k_mutexes s' = y_mutexes y' ∧ k_sems s' = y_sems y').
Proof.
  intros HR Ha Hc Hl Hok. destruct (curr_ready a Ha Hc) as [r Hr].
  assert (a_ready a ≠ []) as Hne by (rewrite Hr; done).
  destruct c; cbn [y_call run_call]; cbn zeta.
  - eapply rcall_weaken; [|by apply sys_sched_yield_ok]. by intros s1 [].
  - eapply rcall_weaken; [|by apply sys_sleep_ok]. by intros s1 [].
  - apply call_ok_lock in Hok as (mx & Hmx & _). destruct (lk_mutex _ Hl m mx Hmx) as (l & Hw & _).
    unfold y_lock. rewrite (mutex_of_some _ _ _ Hmx). cbn in Hmx, Hw.
    pose proof (rein_mutex_lock_ok s a m mx l HR Ha Hne Hmx Hw) as Hcall.
    cbn [sys_of y_sched]. destruct (mutex_lock_step (a_curr a) mx);
      (eapply rcall_weaken; [|exact Hcall]; cbn; tauto).
  - apply call_ok_unlock in Hok as (mx & Hmx & Hlk & Ho). destruct (lk_mutex _ Hl m mx Hmx) as (l & Hw & _).
    unfold y_unlock. rewrite (waiters_of_some _ _ _ Hw).
    rewrite (mutex_of_some _ _ _ Hmx) in *. cbn in Hmx, Hw, Ho.
    eapply rcall_weaken; [|by eapply rein_mutex_unlock_ok]. cbn. tauto.
  - destruct Hok as [sm Hsm]. destruct (lk_sem _ Hl p sm Hsm) as (l & Hw & _).
    unfold y_wait. rewrite (count_of_some _ _ _ Hsm). cbn in Hsm, Hw.
    pose proof (sem_wait_ok s a p sm l HR Ha Hne Hsm Hw) as Hcall.
    cbn [sys_of y_sched]. destruct (0 <? s_count sm);
      (eapply rcall_weaken; [|exact Hcall]; cbn; tauto).
  - destruct Hok as [sm Hsm]. destruct (lk_sem _ Hl p sm Hsm) as (l & Hw & _).
    unfold y_notify. rewrite (count_of_some _ _ _ Hsm), (waiters_of_some _ _ _ Hw).
    cbn in Hsm, Hw. pose proof (sem_notify_ok s a p sm l HR Ha Hne Hsm Hw) as Hcall.
    cbn [sys_of y_sched]. destruct l; (eapply rcall_weaken; [|exact Hcall]; cbn; tauto).
Qed.

Lemma y_call_all c y : a_all (y_sched (y_call c y)) = a_all (y_sched y).
Proof.
  destruct c; cbn.
  - apply a_all_yield.
  - apply a_all_sleep.
  - unfold y_lock. destruct (mutex_lock_step _ _); [done|apply a_all_block].
  - destruct (_ =? 0); [|done]. destruct (waiters_of _ _); [done|apply a_all_wake].
  - unfold y_wait. destruct (0 <? _); [done|apply a_all_block].
  - unfold y_notify. destruct (waiters_of _ _); [done|apply a_all_wake].
Qed.

Lemma y_call_wf c y :
  awf (y_sched y) → a_curr (y_sched y) ≠ idle_task → call_ok c y → awf (y_sched (y_call c y)).
Proof.
  intros Ha Hc Hok. destruct (curr_ready _ Ha Hc) as [r Hr].
  assert (a_ready (y_sched y) ≠ []) as Hne by (rewrite Hr; done).
  assert (∀ w, awf (a_wake w (y_sched y))) as Hwake
    by (intros w; rewrite <- (a_wake_curr w _ Ha Hne); by apply awf_wake).
  destruct c; cbn.
  - by apply awf_yield.
  - apply awf_sleep_for; [done|]. unfold call_ok in Hok.
    destruct (sleep_ticks_range ms Hok). lia.
  - unfold y_lock. destruct (mutex_lock_step _ _); [done|by apply awf_block_on].
  - destruct (_ =? 0); [|done]. by destruct (waiters_of _ _).
  - unfold y_wait. destruct (0 <? _); [done|by apply awf_block_on].
  - unfold y_notify. destruct (waiters_of _ _); cbn; [done|apply Hwake].
Qed.

(** The timer interrupt. *)
Lemma outcome_then fl fl' s a :
  rbind (outcome fl s a) (λ _, write_eflags fl') = outcome fl' s a.
Proof. unfold outcome. by destruct (decide (a_next a = k_curr s)). Qed.

Lemma timer_interrupt_ok s a :
  krep s a → awf a → slice_positive s a →
  ∃ s1 a1, timer_interrupt s = outcome (eflags (k_cpu s)) s1 a1 ∧ krep s1 a1 ∧
    a_dispatch a1 = a_tick (expired s a) a ∧
    same_env (slice_ticked (ticked (entered s)) a) s1 ∧ k_curr s1 = k_curr s ∧ keeps_locks s s1.
Proof.
  intros HR Ha Hs.
  destruct (do_handler_timer_ok (entered s) a (krep_entered _ _ HR) Ha Hs)
    as (s1 & a1 & E & HR1 & Hd & HE & Hk & Hl).
  exists s1, a1. split_and!; try done.
  - unfold timer_interrupt. rewrite (bind_done read_eflags _ s (eflags (k_cpu s)) s) by done.
    rewrite (bind_done cli _ s tt (entered s)) by done.
    unfold mbind, M_bind. rewrite E. apply outcome_then.
  - rewrite Hk. unfold slice_ticked. by destruct (a_ready a).
Qed.
End code_calls.

(** ** Pending calls *)

Section pending.
Context `{Platform}.

(** [t] is inside rein_mutex_lock: it waits for [m], or owns it already. *)
Definition lock_pending (y : asys) (t m : Z) : Prop :=
  ∃ mx l, y_mutexes y !! m = Some mx ∧ a_wait (y_sched y) !! mutex_wait_list m = Some l ∧
    (t ∈ l ∨ (locker mx ≠ 0 ∧ owner mx = t)).

Lemma pending_frame y a' t m :
  a_wait a' !! mutex_wait_list m = a_wait (y_sched y) !! mutex_wait_list m →
  lock_pending y t m → ∀ ss, lock_pending (ASys a' (y_mutexes y) ss) t m.
Proof. intros Hw (mx & l & Hm & Hl & Ht) ss. exists mx, l. cbn. by rewrite Hw. Qed.

Lemma wait_list_ne m m' : m ≠ m' → mutex_wait_list m ≠ mutex_wait_list m'.
Proof. unfold mutex_wait_list. lia. Qed.

Section one_call.
Context (y : asys).
Context (Ha : awf (y_sched y)) (Hc : a_curr (y_sched y) ≠ idle_task) (Hl : locks_ok y).

Lemma pending_lock t m0 m :
  call_ok (CLock m0) y → t ≠ a_curr (y_sched y) → lock_pending y t m → lock_pending (y_lock m0 y) t m.
Proof using Ha Hc Hl.
  intros (mx0 & Hm0 & _)%call_ok_lock Ht Hp. unfold y_lock. rewrite (mutex_of_some _ _ _ Hm0) in *.
  destruct (curr_ready _ Ha Hc) as [r Hr].
  destruct (decide (m = m0)) as [->|Hne].
  - destruct (lk_mutex _ Hl m0 mx0 Hm0) as (l & Hw & Hfree & _).
    destruct Hp as (mx & l' & Hm & Hw' & Hin). rewrite Hw in Hw'. injection Hw' as <-.
    rewrite Hm0 in Hm. injection Hm as <-.
    unfold mutex_lock_step. destruct (Z.eqb_spec (locker mx0) 0) as [H0|H0].
    { destruct (Hfree H0) as [_ ->]. destruct Hin as [Hin|[Hin _]]; [by apply elem_of_nil in Hin|done]. }
    destruct (Z.eqb_spec (owner mx0) (a_curr (y_sched y))) as [Ho|Ho].
    + eexists _, l. cbn. rewrite lookup_insert_eq. split; [done|]. split; [done|].
      destruct Hin as [Hin|[_ Hin]]; [by left|congruence].
    + exists mx0, (l ++ [a_curr (y_sched y)]). cbn.
      rewrite (a_wait_block _ _ _ _ _ Hr Hw), lookup_insert_eq. split; [done|]. split; [done|].
      rewrite elem_of_app. tauto.
  - destruct (mutex_lock_step _ _) as [mx'|].
    + destruct Hp as (mx & l & Hm & Hw & Hin). exists mx, l. cbn.
      by rewrite lookup_insert_ne by done.
    + apply (pending_frame y); [|done]. apply block_other, wait_list_ne. done.
Qed.

Lemma pending_unlock t m0 m :
  call_ok (CUnlock m0) y → t ≠ a_curr (y_sched y) → lock_pending y t m →
  lock_pending (y_unlock m0 y) t m.
Proof using Ha Hc Hl.
  intros (mx0 & Hm0 & Hlk & Ho)%call_ok_unlock Ht (mx & l & Hm & Hw & Hin). unfold y_unlock.
  rewrite (mutex_of_some _ _ _ Hm0) in *.
  destruct (lk_mutex _ Hl m0 mx0 Hm0) as (l0 & Hw0 & _ & Hheld).
  rewrite (waiters_of_some _ _ _ Hw0). unfold lock_pending. cbn.
  destruct (decide (m = m0)) as [->|Hne].
  - rewrite Hm0 in Hm. injection Hm as <-. rewrite Hw0 in Hw. injection Hw as <-.
    assert (t ∈ l0) as Htl by (destruct Hin as [|[_ Hot]]; [done|congruence]). clear Hin.
    rewrite lookup_insert_eq. unfold mutex_unlock_step.
    destruct (i32 (locker mx0 - 1) =? 0).
    + destruct l0 as [|t1 l1]; [by apply elem_of_nil in Htl|]. exists (Mutex t1 1), l1.
      rewrite (a_wait_wake _ _ _ _ Hw0), lookup_insert_eq. split; [done|]. split; [done|].
      apply elem_of_cons in Htl as [->|Htl]; [by right|by left].
    + eexists _, l0. split; [done|]. split; [done|]. by left.
  - exists mx, l. rewrite lookup_insert_ne by done. split; [done|]. split; [|done].
    destruct (_ =? 0); [|done]. destruct l0; [done|].
    rewrite wake_other; [done|]. apply wait_list_ne. congruence.
Qed.

Lemma pending_call t c m :
  call_ok c y → t ≠ a_curr (y_sched y) → lock_pending y t m → lock_pending (y_call c y) t m.
Proof using Ha Hc Hl.
  intros Hok Ht Hp.
  assert (∀ p, is_Some (y_sems y !! p) → sem_wait_list p ≠ mutex_wait_list m) as Hsem.
  { intros p Hp' E. symmetry in E. revert E. apply (lk_apart _ Hl); [|done].
    destruct Hp as (mx & l & Hm & _). by eexists. }
  destruct c; cbn.
  - apply (pending_frame y); [|done]. by destruct (a_all_yield (y_sched y)) as [_ ->].
  - apply (pending_frame y); [|done].
    by destruct (a_all_sleep (sleep_ticks_of ms) (y_sched y)) as [_ ->].
  - by apply pending_lock.
  - by apply pending_unlock.
  - unfold y_wait. destruct (0 <? _); apply (pending_frame y); try done. by apply block_other, Hsem.
  - unfold y_notify. destruct (waiters_of _ _); apply (pending_frame y); try done.
    by apply wake_other, Hsem.
Qed.

(** The caller itself, if lock sends it to sleep. *)
Lemma pending_self m :
  call_ok (CLock m) y → a_curr (y_sched (y_lock m y)) ≠ a_curr (y_sched y) →
  lock_pending (y_lock m y) (a_curr (y_sched y)) m.
Proof using Ha Hc Hl.
  intros (mx & Hm & _)%call_ok_lock. unfold y_lock. rewrite (mutex_of_some _ _ _ Hm).
  destruct (lk_mutex _ Hl m mx Hm) as (l & Hw & _). destruct (curr_ready _ Ha Hc) as [r Hr].
  destruct (mutex_lock_step _ mx); [done|]. intros _.
  exists mx, (l ++ [a_curr (y_sched y)]). cbn.
  rewrite (a_wait_block _ _ _ _ _ Hr Hw), lookup_insert_eq. split; [done|]. split; [done|].
  left. rewrite elem_of_app, list_elem_of_singleton. by right.
Qed.
End one_call.
End pending.

(** ** Runs *)

(** A configuration between two steps: some task runs outside the kernel.
    [c_calls] tells the call each other task has not returned from yet. *)
Record config : Type := Config {
  c_state : kstate;
  c_saved : gmap Z context;
  c_calls : gmap Z kcall
}.

Inductive label : Type :=
| LCall (c : kcall)
| LTick.

Section runs.
Context `{Platform}.

Inductive sys_step : config → label → config → Prop :=
| step_call s cs pend c s' cs' :
    k_curr s ≠ idle_task →
    args_ok c (k_curr s) (k_mutexes s) (k_sems s) →
    settle cs (run_call c s) s' cs' →
    sys_step (Config s cs pend) (LCall c)
      (Config s' cs' (delete (k_curr s') (<[k_curr s := c]> pend)))
| step_tick s cs pend s' cs' :
    if_set (eflags (k_cpu s)) →
    settle cs (timer_interrupt s) s' cs' →
    sys_step (Config s cs pend) LTick (Config s' cs' (delete (k_curr s') pend)).

(** The abstract system: a tick may or may not end the running slice. *)
Inductive y_step : asys → label → asys → Prop :=
| y_step_call c y :
    a_curr (y_sched y) ≠ idle_task → call_ok c y → y_step y (LCall c) (y_call c y)
| y_step_tick e y :
    y_step y LTick (ASys (a_tick e (y_sched y)) (y_mutexes y) (y_sems y)).

Record sys_inv (c : config) (y : asys) : Prop := {
  si_core : core (c_state c) (y_sched y) (c_saved c);
  si_locks : locks_ok y;
  si_mutexes : k_mutexes (c_state c) = y_mutexes y;
  si_sems : k_sems (c_state c) = y_sems y;
  si_curr : c_calls c !! a_curr (y_sched y) = None;
  si_calls : ∀ t m, c_calls c !! t = Some (CLock m) → lock_pending y t m
}.

Lemma sys_inv_curr c y : sys_inv c y → k_curr (c_state c) = a_curr (y_sched y).
Proof. intros Hi. apply (kr_curr _ _ (co_rep _ _ _ (si_core _ _ Hi))). Qed.
Lemma sys_inv_sys c y : sys_inv c y → sys_of (c_state c) (y_sched y) = y.
Proof.
  intros Hi. unfold sys_of. rewrite (si_mutexes _ _ Hi), (si_sems _ _ Hi). by destruct y.
Qed.

Lemma core_slice_positive s a cs : core s a cs → slice_positive s a.
Proof.
  intros Hc c r tk Hr Htk. apply (co_slices _ _ _ Hc c tk); [|done].
  rewrite <- (aw_place _ (co_wf _ _ _ Hc)), Hr. set_solver.
Qed.

Lemma slice_ticked_sel s a t :
  option_map t_tss_sel (k_tasks (slice_ticked s a) !! t) = option_map t_tss_sel (k_tasks s !! t).
Proof.
  unfold slice_ticked. destruct (a_ready a) as [|c r]; [done|]. cbn. rewrite lookup_alter.
  case_decide; [|done]. subst. by destruct (k_tasks s !! t).
Qed.
Lemma slice_ticked_slices s a ts : slices_ok s ts → slices_ok (slice_ticked s a) ts.
Proof.
  intros Hs. unfold slice_ticked. destruct (a_ready a) as [|c r]; [done|].
  intros t tk Ht Htk. cbn in Htk. rewrite lookup_alter in Htk.
  case_decide; [subst|by apply (Hs t)].
  destruct (k_tasks s !! t) as [tk0|] eqn:E; [|done]. cbn in Htk. injection Htk as <-.
  destruct (Hs t tk0 Ht E) as [H1 H2]. unfold slice_step. cbn.
  destruct (Z.eqb_spec (t_slice_ticks tk0) 1); lia.
Qed.

(** *** Progress: the kernel never faults and never loops *)

Lemma call_settles c y k :
  sys_inv c y → a_curr (y_sched y) ≠ idle_task → call_ok k y →
  ∃ s' cs', settle (c_saved c) (run_call k (c_state c)) s' cs' ∧
    core s' (y_sched (y_call k y)) cs' ∧
    k_mutexes s' = y_mutexes (y_call k y) ∧ k_sems s' = y_sems (y_call k y) ∧
    (∀ t, slice_of s' t = slice_of (c_state c) t) ∧ keeps_rest (c_state c) s' ∧
    saved_after (c_saved c) (tr (k_cpu (c_state c))) s' cs'.
Proof.
  intros Hi Hc Hok. pose proof (si_core _ _ Hi) as Hco. pose proof Hco as [HR Ha Hif _ _ _ Hsl].
  pose proof (call_refines (c_state c) (y_sched y) k HR Ha Hc) as Hr.
  rewrite (sys_inv_sys _ _ Hi) in Hr.
  destruct (Hr (si_locks _ _ Hi) Hok) as (s1 & a1 & E & HR1 & Hd & HE & Hk & Hm & Hs). rewrite E.
  assert (a_all a1 = a_all (y_sched y)) as Hall
    by (rewrite <- (y_call_all k y), <- Hd; done).
  destruct (settle_outcome _ _ _ (eflags (k_cpu (c_state c))) s1 a1 Hco HR1)
    as (s' & cs' & Hst & Hco' & Hm' & Hs' & Hsl' & Hrest & Hsv); try done.
  - rewrite Hd. by apply y_call_wf.
  - apply (se_tasks _ _ HE).
  - apply (se_tr _ _ HE).
  - by apply (slices_env _ _ _ HE).
  - exists s', cs'. rewrite Hd in Hco'. split_and!; [done|done|congruence|congruence| | |done].
    + intros t. rewrite Hsl'. apply (se_slices _ _ HE).
    + etrans; [by apply same_env_rest|exact Hrest].
Qed.

Lemma tick_settles c y :
  sys_inv c y →
  let e := expired (c_state c) (y_sched y) in
  ∃ s' cs', settle (c_saved c) (timer_interrupt (c_state c)) s' cs' ∧
    core s' (a_tick e (y_sched y)) cs' ∧
    k_mutexes s' = y_mutexes y ∧ k_sems s' = y_sems y ∧
    (∀ t, slice_of s' t = slice_of (slice_ticked (c_state c) (y_sched y)) t) ∧
    keeps_rest (ticked (c_state c)) s' ∧
    saved_after (c_saved c) (tr (k_cpu (c_state c))) s' cs'.
Proof.
  intros Hi e. pose proof (si_core _ _ Hi) as Hco. pose proof Hco as [HR Ha Hif _ _ _ Hsl].
  destruct (timer_interrupt_ok (c_state c) (y_sched y) HR Ha (core_slice_positive _ _ _ Hco))
    as (s1 & a1 & E & HR1 & Hd & HE & Hk & [Hm Hs]). rewrite E. fold e in Hd.
  assert (a_all a1 = a_all (y_sched y)) as Hall
    by (rewrite <- (proj1 (a_all_tick e (y_sched y))), <- Hd; done).
  destruct (settle_outcome _ _ _ (eflags (k_cpu (c_state c))) s1 a1 Hco HR1)
    as (s' & cs' & Hst & Hco' & Hm' & Hs' & Hsl' & Hrest & Hsv); try done.
  - rewrite Hd. by apply awf_tick.
  - intros t. rewrite (se_tasks _ _ HE). by etrans; [apply slice_ticked_sel|].
  - rewrite (se_tr _ _ HE). unfold slice_ticked. by destruct (a_ready (y_sched y)).
  - apply (slices_env _ _ _ HE). by apply slice_ticked_slices.
  - exists s', cs'. rewrite Hd in Hco'.
    rewrite <- (si_mutexes _ _ Hi), <- (si_sems _ _ Hi).
    split_and!; [done|done|congruence|congruence| | |done].
    + intros t. rewrite Hsl'. etrans; [apply (se_slices _ _ HE)|].
      unfold slice_of, slice_ticked. by destruct (a_ready (y_sched y)).
    + etrans; [|exact Hrest]. etrans; [|apply same_env_rest, HE].
      etrans; [|apply slice_ticked_rest]. by split.
Qed.

(** *** Preservation and simulation *)

(** The abstract state after a step, and what becomes of the time slices. *)
Definition y_next (c : config) (l : label) (y : asys) : asys :=
  match l with
  | LCall k => y_call k y
  | LTick => ASys (a_tick (expired (c_state c) (y_sched y)) (y_sched y)) (y_mutexes y) (y_sems y)
  end.
Definition slices_next (c : config) (l : label) (y : asys) (s' : kstate) : Prop :=
  ∀ t, slice_of s' t =
    slice_of (match l with LCall _ => c_state c | LTick => slice_ticked (c_state c) (y_sched y) end) t.

Lemma sys_step_sim c l c' y :
  sys_inv c y → sys_step c l c' →
  y_step y l (y_next c l y) ∧ sys_inv c' (y_next c l y) ∧ slices_next c l y (c_state c').
Proof.
  intros Hi Hstep. pose proof (sys_inv_curr _ _ Hi) as Hk.
  destruct Hstep as [s cs pend k s' cs' Hc Hok Hst|s cs pend s' cs' Hif Hst]; cbn in Hk.
  - pose proof (si_mutexes _ _ Hi) as Hmx. pose proof (si_sems _ _ Hi) as Hsm. cbn in Hmx, Hsm.
    rewrite Hmx, Hsm, Hk in Hok. rewrite Hk in Hc.
    change (args_ok k (a_curr (y_sched y)) (y_mutexes y) (y_sems y)) with (call_ok k y) in Hok.
    destruct (call_settles _ _ k Hi Hc Hok) as (s2 & cs2 & Hst2 & Hco & Hm & Hs & Hsl & _).
    destruct (settle_fun _ _ _ _ _ _ Hst2 Hst) as [<- <-].
    pose proof (co_wf _ _ _ (si_core _ _ Hi)) as Ha.
    pose proof (kr_curr _ _ (co_rep _ _ _ Hco)) as Hk2. rewrite Hk2, Hk.
    split; [by constructor|]. split; [|exact Hsl]. split; cbn; try done.
    + apply locks_call; try done. apply (si_locks _ _ Hi).
    + apply lookup_delete_eq.
    + intros t m [Hne [(<- & ->)|(Hnt & Hp)]%lookup_insert_Some]%lookup_delete_Some.
      * apply pending_self; try done. apply (si_locks _ _ Hi).
      * apply (pending_call y Ha Hc (si_locks _ _ Hi) t k m Hok); [congruence|].
        by apply (si_calls _ _ Hi).
  - destruct (tick_settles _ _ Hi) as (s2 & cs2 & Hst2 & Hco & Hm & Hs & Hsl & _).
    destruct (settle_fun _ _ _ _ _ _ Hst2 Hst) as [<- <-].
    pose proof (kr_curr _ _ (co_rep _ _ _ Hco)) as Hk2. rewrite Hk2.
    split; [apply (y_step_tick (expired s (y_sched y)))|]. split; [|exact Hsl]. split; cbn; try done.
    + destruct (a_all_tick (expired s (y_sched y)) (y_sched y)) as [Hall Hw].
      apply locks_frame; [done|done|apply (si_locks _ _ Hi)].
    + apply lookup_delete_eq.
    + intros t m [Hne Hp]%lookup_delete_Some. apply (pending_frame y).
      * by destruct (a_all_tick (expired s (y_sched y)) (y_sched y)) as [_ ->].
      * by apply (si_calls _ _ Hi).
Qed.

(** The kernel leaves the rest alone, but for the acknowledgement of the timer
    interrupt. *)
Lemma sys_step_keeps c l c' y :
  sys_inv c y → sys_step c l c' →
  keeps_rest (match l with LCall _ => c_state c | LTick => ticked (c_state c) end) (c_state c') ∧
  saved_after (c_saved c) (tr (k_cpu (c_state c))) (c_state c') (c_saved c').
Proof.
  intros Hi Hstep. pose proof (sys_inv_curr _ _ Hi) as Hk.
  destruct Hstep as [s cs pend k s' cs' Hc Hok Hst|s cs pend s' cs' Hif Hst]; cbn in *.
  - pose proof (si_mutexes _ _ Hi) as Hmx. pose proof (si_sems _ _ Hi) as Hsm. cbn in Hmx, Hsm.
    rewrite Hmx, Hsm, Hk in Hok. rewrite Hk in Hc.
    destruct (call_settles _ _ k Hi Hc Hok) as (s2 & cs2 & Hst2 & _ & _ & _ & _ & Hio).
    by destruct (settle_fun _ _ _ _ _ _ Hst2 Hst) as [<- <-].
  - destruct (tick_settles _ _ Hi) as (s2 & cs2 & Hst2 & _ & _ & _ & _ & Hio).
    by destruct (settle_fun _ _ _ _ _ _ Hst2 Hst) as [<- <-].
Qed.

Lemma sys_step_rest c l c' y :
  sys_inv c y → sys_step c l c' →
  keeps_rest (match l with LCall _ => c_state c | LTick => ticked (c_state c) end) (c_state c').
Proof. intros Hi Hst. by apply (sys_step_keeps _ _ _ _ Hi Hst). Qed.
Lemma sys_step_saved c l c' y :
  sys_inv c y → sys_step c l c' →
  saved_after (c_saved c) (tr (k_cpu (c_state c))) (c_state c') (c_saved c').
Proof. intros Hi Hst. by apply (sys_step_keeps _ _ _ _ Hi Hst). Qed.

(** A sequence of steps, with the task each one interrupts or is made by. *)
Inductive sys_trace : config → list (Z * label) → config → Prop :=
| trace_nil c : sys_trace c [] c
| trace_cons c1 l c2 tr c3 :
    sys_step c1 l c2 → sys_trace c2 tr c3 →
    sys_trace c1 ((k_curr (c_state c1), l) :: tr) c3.
Inductive y_run : asys → list label → asys → Prop :=
| y_run_nil y : y_run y [] y
| y_run_cons y1 l y2 ls y3 : y_step y1 l y2 → y_run y2 ls y3 → y_run y1 (l :: ls) y3.

Lemma sys_trace_sim c tr c' y :
  sys_trace c tr c' → sys_inv c y → ∃ y', y_run y tr.*2 y' ∧ sys_inv c' y'.
Proof.
  intros Hr. revert y. induction Hr as [c|c1 l c2 tr c3 Hst _ IH]; intros y Hi.
  - exists y. split; [constructor|done].
  - destruct (sys_step_sim _ _ _ _ Hi Hst) as (Hy2 & Hi2 & _).
    destruct (IH _ Hi2) as (y3 & Hy3 & Hi3). exists y3. split; [by econstructor|done].
Qed.

(** A pending lock that is over: the task owns the mutex. *)
Lemma lock_returns c l c' y t m :
  sys_inv c y → sys_step c l c' → c_calls c !! t = Some (CLock m) → c_calls c' !! t = None →
  ∃ mx, k_mutexes (c_state c') !! m = Some mx ∧ owner mx = t ∧ locker mx ≠ 0.
Proof.
  intros Hi Hstep Hp Hnone. pose proof (sys_inv_curr _ _ Hi) as Hk.
  pose proof (si_calls _ _ Hi t m Hp) as Hpend. pose proof (si_locks _ _ Hi) as Hl.
  pose proof (co_wf _ _ _ (si_core _ _ Hi)) as Ha.
  assert (t ≠ a_curr (y_sched y)) as Htc by (intros ->; by rewrite (si_curr _ _ Hi) in Hp).
  destruct (sys_step_sim _ _ _ _ Hi Hstep) as (_ & Hi' & _). set (y' := y_next c l y) in *.
  assert (lock_pending y' t m ∧ t = a_curr (y_sched y')) as [(mx & w & Hm & Hw & Hin) Htc'].
  { rewrite <- (sys_inv_curr _ _ Hi').
    pose proof (si_mutexes _ _ Hi) as Hmx. pose proof (si_sems _ _ Hi) as Hsm.
    destruct Hstep as [s cs pend k s' cs' Hc Hok Hst|s cs pend s' cs' Hif Hst]; cbn in *.
    - rewrite Hmx, Hsm, Hk in Hok. rewrite Hk in Hc.
      split; [by apply pending_call|].
      apply lookup_delete_None in Hnone as [->|Hnone]; [done|].
      rewrite lookup_insert_ne in Hnone by congruence. by rewrite Hp in Hnone.
    - split.
      + apply (pending_frame y); [|done]. by destruct (a_all_tick (expired s (y_sched y)) (y_sched y)) as [_ ->].
      + apply lookup_delete_None in Hnone as [->|Hnone]; [done|]. by rewrite Hp in Hnone. }
  exists mx. rewrite (si_mutexes _ _ Hi'). split; [done|].
  destruct Hin as [Hin|[H1 H2]]; [exfalso|done].
  pose proof (co_wf _ _ _ (si_core _ _ Hi')) as Ha'.
  destruct (decide (a_curr (y_sched y') = idle_task)) as [Hid|Hid].
  - apply (aw_idle _ Ha'). rewrite <- Hid, <- Htc', <- (aw_place _ Ha').
    rewrite !elem_of_app. right; right. apply elem_of_waiters. eauto.
  - destruct (curr_facts _ Ha' Hid) as [_ Hnw]. apply (Hnw _ _ Hw). by rewrite <- Htc'.
Qed.
End runs.
