(* ===== verification/Liveness.v ===== *)
(** * Properties of runs

    What holds along sequences of steps: the kernel always accepts the next
    step, a held mutex stays with its owner, a sleeping task wakes after the
    ticks it asked for, a ready task runs after a bounded number of ticks. *)

From S2P Require Import Prelude Mem DList Klib Machine Irq Sched SchedSpec SchedOps Mutex Sem Timer.
From S2P Require Import System.

(** The number of timer interrupts of a trace. *)
Definition is_tick (l : label) : bool := match l with LTick => true | LCall _ => false end.
Definition tick_count (tr : list (Z * label)) : Z := len (filter (λ p, is_tick p.2 = true) tr).

Lemma tick_count_cons k l tr :
  tick_count ((k, l) :: tr) = (if is_tick l then 1 else 0) + tick_count tr.
Proof.
  unfold tick_count. rewrite filter_cons. cbn [snd].
  destruct l; cbn [is_tick]; [by rewrite decide_False|]. rewrite decide_True by done. cbn [length]. lia.
Qed.
Lemma tick_count_pos tr : 0 <= tick_count tr.
Proof. unfold tick_count. lia. Qed.

Section traces.
Context `{Platform}.

Lemma sys_trace_app c1 tr1 c2 tr2 c3 :
  sys_trace c1 tr1 c2 → sys_trace c2 tr2 c3 → sys_trace c1 (tr1 ++ tr2) c3.
Proof. induction 1; [done|]. intros. cbn. by econstructor; [|auto]. Qed.

(** *** The next step exists *)

Lemma can_call c y k :
  sys_inv c y → a_curr (y_sched y) ≠ idle_task → call_ok k y →
  ∃ s' cs', sys_step c (LCall k) (Config s' cs' (delete (k_curr s') (<[k_curr (c_state c) := k]> (c_calls c)))).
Proof.
  intros Hi Hc Hok. destruct (call_settles _ _ _ Hi Hc Hok) as (s' & cs' & Hst & _).
  unfold call_ok in Hok. rewrite <- (si_mutexes _ _ Hi), <- (si_sems _ _ Hi) in Hok.
  rewrite <- (sys_inv_curr _ _ Hi) in Hc, Hok.
  exists s', cs'. destruct c as [s cs pend]. by constructor.
Qed.
Lemma can_tick c y :
  sys_inv c y → ∃ s' cs', sys_step c LTick (Config s' cs' (delete (k_curr s') (c_calls c))).
Proof.
  intros Hi. destruct (tick_settles _ _ Hi) as (s' & cs' & Hst & _).
  exists s', cs'. pose proof (co_if _ _ _ (si_core _ _ Hi)). destruct c as [s cs pend].
  by constructor.
Qed.

(** A step of a configuration has one result. *)
Lemma sys_step_fun c l c1 c2 : sys_step c l c1 → sys_step c l c2 → c1 = c2.
Proof.
  intros H1 H2. destruct H1 as [s cs pend k s1 cs1 Hc Hok Hst|s cs pend s1 cs1 Hif Hst];
    inversion H2 as [? ? ? ? s2 cs2 ? ? Hst2|? ? ? s2 cs2 ? Hst2]; subst;
    by destruct (settle_fun _ _ _ _ _ _ Hst Hst2) as [-> ->].
Qed.

(** *** Owners of mutexes *)

Definition holds (c : config) (t m : Z) : Prop :=
  ∃ mx, k_mutexes (c_state c) !! m = Some mx ∧ locker mx ≠ 0 ∧ owner mx = t.
Definition y_holds (y : asys) (t m : Z) : Prop :=
  ∃ mx, y_mutexes y !! m = Some mx ∧ locker mx ≠ 0 ∧ owner mx = t.
Lemma holds_y c y t m : sys_inv c y → holds c t m ↔ y_holds y t m.
Proof. intros Hi. unfold holds, y_holds. by rewrite (si_mutexes _ _ Hi). Qed.

Lemma y_holds_call y t m k :
  locks_ok y → call_ok k y → (a_curr (y_sched y) = t → k ≠ CUnlock m) →
  y_holds y t m → y_holds (y_call k y) t m.
Proof.
  intros Hl Hok Hne (mx & Hm & Hlk & Ho). destruct k as [|ms|m0|m0|p|p]; cbn [y_call].
  - by exists mx.
  - by exists mx.
  - apply call_ok_lock in Hok as (mx0 & Hm0 & Hlt). unfold y_lock.
    rewrite (mutex_of_some _ _ _ Hm0). unfold mutex_lock_step.
    destruct (decide (m0 = m)) as [->|Hmm].
    + rewrite Hm in Hm0. injection Hm0 as <-. zdecide.
      destruct (lk_mutex _ Hl m mx Hm) as (l & _ & _ & Hheld).
      destruct (Hheld Hlk) as (Hb & _).
      destruct (Z.eqb_spec (owner mx) (a_curr (y_sched y))); [|by exists mx].
      eexists. cbn. rewrite lookup_insert_eq. split; [done|]. cbn.
      rewrite i32_small by (unfold INT_MIN; lia). split; [lia|done].
    + repeat case_match; simplify_eq; exists mx; cbn; by rewrite ?lookup_insert_ne by done.
  - apply call_ok_unlock in Hok as (mx0 & Hm0 & Hlk0 & Ho0). unfold y_unlock.
    destruct (decide (m0 = m)) as [->|Hmm]; [|exists mx; cbn; by rewrite lookup_insert_ne].
    rewrite Hm in Hm0. injection Hm0 as <-. by destruct Hne; congruence.
  - unfold y_wait. case_match; by exists mx.
  - unfold y_notify. case_match; by exists mx.
Qed.

(** A lock held by another task sends the caller to sleep. *)
Lemma y_lock_blocks y m :
  awf (y_sched y) → a_curr (y_sched y) ≠ idle_task → locks_ok y → call_ok (CLock m) y →
  ∀ t, y_holds y t m → t ≠ a_curr (y_sched y) →
  a_curr (y_sched (y_lock m y)) ≠ a_curr (y_sched y).
Proof.
  intros Ha Hc Hl (mx & Hm & _)%call_ok_lock t (mx' & Hm' & Hlk & Ho) Ht.
  rewrite Hm in Hm'. injection Hm' as <-. unfold y_lock. rewrite (mutex_of_some _ _ _ Hm).
  unfold mutex_lock_step. zdecide. cbn [y_sched].
  destruct (curr_ready _ Ha Hc) as [r Hr]. destruct (lk_mutex _ Hl m mx Hm) as (l & Hw & _).
  unfold a_block_on. rewrite Hr, Hw. cbn. unfold a_next. cbn.
  pose proof (awf_places _ Ha) as Hnd. rewrite Hr in Hnd. cbn in Hnd.
  apply NoDup_cons in Hnd as [Hnd _]. rewrite !elem_of_app in Hnd.
  destruct r as [|d r]; [done|]. cbn. intros ->. apply Hnd. set_solver.
Qed.

(** A lock that lets the caller go on makes it the owner. *)
Lemma y_lock_takes y m :
  awf (y_sched y) → a_curr (y_sched y) ≠ idle_task → locks_ok y → call_ok (CLock m) y →
  a_curr (y_sched (y_lock m y)) = a_curr (y_sched y) →
  y_holds (y_lock m y) (a_curr (y_sched y)) m.
Proof.
  intros Ha Hc Hl Hok Hsame. pose proof Hok as (mx & Hm & Hlt)%call_ok_lock.
  destruct (lk_mutex _ Hl m mx Hm) as (l & _ & _ & Hheld).
  destruct (mutex_lock_step (a_curr (y_sched y)) mx) as [mx'|] eqn:E.
  - exists mx'. unfold y_lock. rewrite (mutex_of_some _ _ _ Hm), E. cbn.
    rewrite lookup_insert_eq. split; [done|]. unfold mutex_lock_step in E.
    destruct (Z.eqb_spec (locker mx) 0) as [H0|H0].
    + injection E as <-. cbn. by rewrite H0.
    + destruct (Z.eqb_spec (owner mx) (a_curr (y_sched y))); [|done]. injection E as <-. cbn.
      destruct (Hheld H0) as [? _]. rewrite i32_small by (unfold INT_MIN; lia). split; [lia|done].
  - exfalso. unfold mutex_lock_step in E. destruct (Z.eqb_spec (locker mx) 0) as [H0|H0]; [done|].
    destruct (Z.eqb_spec (owner mx) (a_curr (y_sched y))) as [|Ho]; [done|].
    apply (y_lock_blocks y m Ha Hc Hl Hok (owner mx)); [by exists mx|done|done].
Qed.

(** The task [t] unlocks [m] in this step. *)
Definition unlocks (t m : Z) (p : Z * label) : Prop := p = (t, LCall (CUnlock m)).

Lemma holds_step c y l c' t m :
  sys_inv c y → sys_step c l c' → ¬ unlocks t m (k_curr (c_state c), l) →
  holds c t m → holds c' t m.
Proof.
  intros Hi Hst Hne Hh. destruct (sys_step_sim _ _ _ _ Hi Hst) as (Hy & Hi' & _).
  rewrite (holds_y _ _ _ _ Hi) in Hh. rewrite (holds_y _ _ _ _ Hi').
  inversion Hy as [k y' Hc Hok|e y']; subst; [|done].
  apply y_holds_call; [apply (si_locks _ _ Hi)|done| |done].
  intros <- ->. apply Hne. unfold unlocks. by rewrite (sys_inv_curr _ _ Hi).
Qed.

(** A call under way, or made in this step, that has not returned after it. *)
Lemma call_pends c y l c' u k k' :
  sys_inv c y → sys_step c l c' →
  c_calls c !! u = Some k ∨ (k_curr (c_state c), l) = (u, LCall k) →
  c_calls c' !! u = Some k' → k' = k.
Proof.
  intros Hi Hst Hp Hu. pose proof (sys_inv_curr _ _ Hi) as Hk.
  pose proof (si_curr _ _ Hi) as Hn.
  destruct Hst as [s cs pend k0 s' cs' Hc Hok Hset|s cs pend s' cs' Hif Hset]; cbn in *;
    apply lookup_delete_Some in Hu as [_ Hu].
  - apply lookup_insert_Some in Hu as [(<- & <-)|(Hcu & Hu)]; destruct Hp; congruence.
  - destruct Hp; congruence.
Qed.

(** While [t] holds [m], the calls to lock [m] of other tasks do not return. *)
Lemma pending_step c y l c' t u m :
  sys_inv c y → sys_step c l c' → ¬ unlocks t m (k_curr (c_state c), l) →
  holds c t m → u ≠ t →
  c_calls c !! u = Some (CLock m) ∨ (k_curr (c_state c), l) = (u, LCall (CLock m)) →
  c_calls c' !! u = Some (CLock m).
Proof.
  intros Hi Hst Hne Hh Hut Hp. pose proof (holds_step _ _ _ _ _ _ Hi Hst Hne Hh) as Hh'.
  destruct (c_calls c' !! u) as [k|] eqn:Hu.
  { f_equal. by eapply call_pends. }
  exfalso. destruct Hp as [Hp|Hp].
  - destruct (lock_returns _ _ _ _ _ _ Hi Hst Hp Hu) as (mx & Hm & Ho & _).
    destruct Hh' as (mx' & Hm' & _ & Ho'). congruence.
  - destruct (sys_step_sim _ _ _ _ Hi Hst) as (Hy & Hi' & _).
    injection Hp as Hcu ->. pose proof (sys_inv_curr _ _ Hi) as Hk.
    rewrite (holds_y _ _ _ _ Hi) in Hh. inversion Hy as [k y' Hc Hok|]; subst.
    pose proof (y_lock_blocks y m (co_wf _ _ _ (si_core _ _ Hi)) Hc (si_locks _ _ Hi) Hok t Hh)
      as Hb. cbn in Hi'. rewrite <- (sys_inv_curr _ _ Hi') in Hb.
    inversion Hst as [s cs pend k0 s' cs' Hc0 Hok0 Hset|]; subst. cbn in *.
    apply lookup_delete_None in Hu as [Hu|Hu].
    + apply Hb; congruence.
    + by rewrite lookup_insert_eq in Hu.
Qed.

(** Over a whole trace. *)
Lemma holds_trace c y tr c' t m :
  sys_inv c y → sys_trace c tr c' → Forall (λ p, ¬ unlocks t m p) tr → holds c t m →
  holds c' t m ∧
  ∀ u, u ≠ t → c_calls c !! u = Some (CLock m) ∨ (u, LCall (CLock m)) ∈ tr →
    c_calls c' !! u = Some (CLock m).
Proof.
  intros Hi Htr. revert y Hi. induction Htr as [c|c1 l c2 tr c3 Hst Htr IH]; intros y Hi Hno Hh.
  - split; [done|]. intros u _ [Hu|Hu]; [done|by apply elem_of_nil in Hu].
  - apply Forall_cons in Hno as [Hn Hno].
    destruct (sys_step_sim _ _ _ _ Hi Hst) as (_ & Hi2 & _).
    destruct (IH _ Hi2 Hno (holds_step _ _ _ _ _ _ Hi Hst Hn Hh)) as [Hh' Hp].
    split; [done|]. intros u Hut Hu. apply Hp; [done|].
    pose proof (pending_step c1 y l c2 t u m Hi Hst Hn Hh Hut) as Hpend.
    destruct Hu as [Hu|[Hu|Hu]%elem_of_cons]; [left; auto| |by right].
    left. apply Hpend. right. by symmetry.
Qed.

(** *** Sleeping tasks *)

(** What a step does to a sleeping task. *)
Lemma sleeper_step c y l t n :
  awf (y_sched y) → (t, n) ∈ a_sleep (y_sched y) →
  let a' := y_sched (y_next c l y) in
  if is_tick l then if n =? 1 then t ∈ a_ready a' else (t, n - 1) ∈ a_sleep a'
  else (t, n) ∈ a_sleep a'.
Proof.
  intros Ha Hin. destruct l as [k|]; cbn.
  - destruct k as [|ms|m|m|p|p]; cbn.
    + unfold a_yield. destruct (a_ready (y_sched y)) as [|u [|v r]]; exact Hin.
    + unfold a_sleep_for. destruct (a_ready (y_sched y)); [done|]. cbn. set_solver.
    + unfold y_lock. case_match; [done|]. cbn. unfold a_block_on. by repeat case_match.
    + unfold a_wake. by repeat case_match.
    + unfold y_wait. case_match; [done|]. cbn. unfold a_block_on. by repeat case_match.
    + unfold y_notify. case_match; [done|]. cbn. unfold a_wake. by repeat case_match.
  - set (e := expired _ _).
    assert (a_sleep (if e then a_rotate (y_sched y) else y_sched y) = a_sleep (y_sched y)) as Hs.
    { unfold a_rotate. destruct e; [|done]. by destruct (a_ready (y_sched y)). }
    rewrite Hs. destruct (Z.eqb_spec n 1) as [->|Hn].
    + apply elem_of_app. right. apply list_elem_of_fmap. exists (t, 1).
      split; [done|]. by apply list_elem_of_filter.
    + apply list_elem_of_fmap. exists (t, n). split; [done|]. by apply list_elem_of_filter.
Qed.

Lemma sleeper_trace c y tr c' t n :
  sys_inv c y → sys_trace c tr c' → (t, n) ∈ a_sleep (y_sched y) → tick_count tr < n →
  ∃ y', sys_inv c' y' ∧ (t, n - tick_count tr) ∈ a_sleep (y_sched y').
Proof.
  intros Hi Htr. revert y n Hi. induction Htr as [c|c1 l c2 tr c3 Hst Htr IH]; intros y n Hi Hin Hn.
  - exists y. change (tick_count []) with 0. by rewrite Z.sub_0_r.
  - destruct (sys_step_sim _ _ _ _ Hi Hst) as (_ & Hi2 & _).
    pose proof (sleeper_step c1 y l t n (co_wf _ _ _ (si_core _ _ Hi)) Hin) as Hs.
    rewrite tick_count_cons in *. pose proof (tick_count_pos tr).
    destruct (is_tick l); cbn zeta in Hs.
    + destruct (Z.eqb_spec n 1); [lia|].
      destruct (IH _ _ Hi2 Hs) as (y' & Hi' & Hin'); [lia|]. exists y'. split; [done|].
      by replace (n - (1 + tick_count tr)) with (n - 1 - tick_count tr) by lia.
    + destruct (IH _ _ Hi2 Hs) as (y' & Hi' & Hin'); [lia|]. by exists y'.
Qed.

(** *** Ready tasks *)

(** The tasks in front of [t], and the ticks of their slices. *)
Fixpoint ahead (t : Z) (l : list Z) : list Z :=
  match l with
  | [] => []
  | u :: l' => if decide (u = t) then [] else u :: ahead t l'
  end.
Definition slice_sum (s : kstate) (l : list Z) : Z :=
  foldr (λ u n, default 0 (slice_of s u) + n) 0 l.
Definition wait_ticks (s : kstate) (t : Z) (l : list Z) : Z := slice_sum s (ahead t l).

Lemma ahead_app t l l' : t ∈ l → ahead t (l ++ l') = ahead t l.
Proof.
  induction l as [|u l IH]; [by intros ?%elem_of_nil|]. cbn.
  case_decide; [done|]. intros [->|Hin]%elem_of_cons; [done|]. by rewrite IH.
Qed.
Lemma ahead_sub t l u : u ∈ ahead t l → u ∈ l.
Proof.
  induction l as [|v l IH]; [done|]. cbn. case_decide; [by intros ?%elem_of_nil|].
  rewrite !elem_of_cons. tauto.
Qed.
Lemma slice_sum_ext s s' l :
  (∀ u, u ∈ l → slice_of s' u = slice_of s u) → slice_sum s' l = slice_sum s l.
Proof.
  unfold slice_sum. induction l as [|u l IH]; [done|]. intros Hs. cbn. rewrite (Hs u) by set_solver.
  rewrite IH; [done|]. intros v Hv. apply Hs. set_solver.
Qed.

Lemma slice_of_pos c y u :
  sys_inv c y → u ∈ a_all (y_sched y) → 1 <= default 0 (slice_of (c_state c) u).
Proof.
  intros Hi Hu. pose proof (si_core _ _ Hi) as Hc.
  destruct (kr_all _ _ (co_rep _ _ _ Hc) u Hu) as [tk Htk].
  unfold slice_of. rewrite Htk. cbn. by apply (co_slices _ _ _ Hc u tk).
Qed.

Lemma slice_sum_pos c y l :
  sys_inv c y → (∀ u, u ∈ l → u ∈ a_all (y_sched y)) → 0 <= slice_sum (c_state c) l.
Proof.
  intros Hi. unfold slice_sum. induction l as [|u l IH]; intros Hl; cbn; [done|].
  pose proof (slice_of_pos c y u Hi (Hl u ltac:(set_solver))).
  specialize (IH (λ v Hv, Hl v ltac:(set_solver))). lia.
Qed.

Lemma ready_all c y u : sys_inv c y → u ∈ a_ready (y_sched y) → u ∈ a_all (y_sched y).
Proof. intros Hi Hu. rewrite <- (aw_place _ (co_wf _ _ _ (si_core _ _ Hi))). set_solver. Qed.

Lemma curr_head y h r : awf (y_sched y) → a_ready (y_sched y) = h :: r → a_curr (y_sched y) = h.
Proof. intros Ha Hr. rewrite (aw_curr _ Ha). unfold a_next. by rewrite Hr. Qed.

(** A call of the running task keeps the order of the others. *)
Lemma call_ready y k h r :
  awf (y_sched y) → a_ready (y_sched y) = h :: r →
  ∃ e, a_ready (y_sched (y_call k y)) = h :: r ++ e ∨ a_ready (y_sched (y_call k y)) = r ++ e.
Proof.
  intros Ha Hr. pose proof (curr_head _ _ _ Ha Hr) as Hc.
  assert (∀ w, ∃ e, a_ready (a_wake w (y_sched y)) = h :: r ++ e) as Hwake.
  { intros w. unfold a_wake. repeat case_match; cbn; rewrite Hr;
      first [by eexists [_]|exists []; by rewrite app_nil_r]. }
  assert (∀ w, ∃ e, a_ready (a_block_on w (y_sched y)) = h :: r ++ e ∨
                    a_ready (a_block_on w (y_sched y)) = r ++ e) as Hblock.
  { intros w. exists []. rewrite !app_nil_r. unfold a_block_on. rewrite Hr.
    case_match; [by right|by left]. }
  assert (∃ e, a_ready (y_sched y) = h :: r ++ e) as Hsame
    by (exists []; by rewrite app_nil_r).
  destruct k as [|ms|m|m|p|p]; cbn.
  - unfold a_yield. rewrite Hr. destruct r as [|d r]; cbn; [exists []; by left|exists [h]; by right].
  - unfold a_sleep_for. rewrite Hr. exists []. right. by rewrite app_nil_r.
  - unfold y_lock. case_match; cbn; [destruct Hsame; eauto|apply Hblock].
  - destruct (_ =? 0); [|destruct Hsame; eauto].
    destruct (waiters_of _ _); [destruct Hsame; eauto|]. edestruct Hwake; eauto.
  - unfold y_wait. case_match; cbn; [destruct Hsame; eauto|apply Hblock].
  - unfold y_notify. case_match; cbn; [destruct Hsame; eauto|]. edestruct Hwake; eauto.
Qed.

(** What a tick does to the ready list and to the slices. *)
Lemma tick_ready c y h r :
  sys_inv c y → a_ready (y_sched y) = h :: r →
  let s2 := slice_ticked (c_state c) (y_sched y) in
  let l2 := a_ready (y_sched (y_next c LTick y)) in
  (∀ u, u ≠ h → slice_of s2 u = slice_of (c_state c) u) ∧
  (slice_of (c_state c) h = Some 1 ∧ (∃ e, l2 = r ++ e) ∨
   slice_of s2 h = Some (default 0 (slice_of (c_state c) h) - 1) ∧ ∃ e, l2 = h :: r ++ e).
Proof.
  intros Hi Hr s2 l2.
  assert (h ∈ a_all (y_sched y)) as Hh by (apply (ready_all _ _ _ Hi); rewrite Hr; set_solver).
  destruct (kr_all _ _ (co_rep _ _ _ (si_core _ _ Hi)) h Hh) as [tk Htk].
  subst s2 l2. cbn. unfold slice_ticked, expired. rewrite Hr, Htk. unfold slice_of. cbn. split.
  - intros u Hu. by rewrite lookup_alter_ne.
  - rewrite lookup_alter_eq, Htk. cbn. unfold slice_step.
    destruct (Z.eqb_spec (t_slice_ticks tk) 1) as [H1|H1]; cbn; [left|right].
    + split; [congruence|]. unfold a_rotate. rewrite Hr. cbn.
      rewrite <- app_assoc. by eexists.
    + split; [done|]. rewrite Hr. by eexists.
Qed.

(** A ready task that does not run gets closer to the processor. *)
Lemma wait_step c y l c' t :
  sys_inv c y → sys_step c l c' → t ∈ a_ready (y_sched y) → t ≠ a_curr (y_sched y) →
  t ∈ a_ready (y_sched (y_next c l y)) ∧
  wait_ticks (c_state c') t (a_ready (y_sched (y_next c l y))) + (if is_tick l then 1 else 0)
    <= wait_ticks (c_state c) t (a_ready (y_sched y)).
Proof.
  intros Hi Hst Ht Hne. destruct (sys_step_sim _ _ _ _ Hi Hst) as (_ & _ & Hsl).
  pose proof (co_wf _ _ _ (si_core _ _ Hi)) as Ha.
  destruct (a_ready (y_sched y)) as [|h r] eqn:Hr; [by apply elem_of_nil in Ht|].
  rewrite (curr_head _ _ _ Ha Hr) in Hne. apply elem_of_cons in Ht as [->|Ht]; [done|].
  assert (h ∈ a_ready (y_sched y)) as Hh by (rewrite Hr; set_solver).
  pose proof (slice_of_pos c y h Hi (ready_all _ _ _ Hi Hh)) as Hpos.
  assert (wait_ticks (c_state c) t (h :: r) =
    default 0 (slice_of (c_state c) h) + wait_ticks (c_state c) t r) as Hw.
  { unfold wait_ticks. cbn. by rewrite decide_False by done. }
  rewrite Hw. destruct l as [k|]; cbn [is_tick].
  - change (y_next c (LCall k) y) with (y_call k y). assert (∀ l, wait_ticks (c_state c') t l = wait_ticks (c_state c) t l) as Hsame
      by (intros l; apply slice_sum_ext; intros u _; apply Hsl).
    destruct (call_ready y k h r Ha Hr) as (e & [-> | ->]); rewrite Hsame.
    + split; [set_solver|]. rewrite app_comm_cons. unfold wait_ticks in *.
      rewrite ahead_app by set_solver. lia.
    + split; [set_solver|]. unfold wait_ticks. rewrite ahead_app by done. lia.
  - destruct (tick_ready c y h r Hi Hr) as (Hoth & Hcase).
    assert (h ∉ r) as Hhr.
    { pose proof (awf_places _ Ha) as Hnd. rewrite Hr in Hnd. cbn in Hnd.
      apply NoDup_cons in Hnd as [Hnd _]. set_solver. }
    assert (wait_ticks (c_state c') t r = wait_ticks (c_state c) t r) as Hsame.
    { apply slice_sum_ext. intros u Hu. rewrite (Hsl u). apply Hoth. intros ->.
      by apply Hhr, (ahead_sub t). }
    destruct Hcase as [(H1 & e & ->)|(H1 & e & ->)].
    + split; [set_solver|]. unfold wait_ticks in *. rewrite ahead_app by done. lia.
    + split; [set_solver|]. unfold wait_ticks in *. rewrite app_comm_cons, ahead_app by set_solver.
      cbn [ahead] in *. rewrite decide_False by done. cbn [slice_sum foldr].
      fold (slice_sum (c_state c') (ahead t r)). rewrite (Hsl h), H1. cbn. lia.
Qed.

(** Enough ticks, and [t] has run. *)
Lemma ready_trace c y tr c' t :
  sys_inv c y → sys_trace c tr c' → t ∈ a_ready (y_sched y) →
  wait_ticks (c_state c) t (a_ready (y_sched y)) <= tick_count tr →
  ∃ tr1 c1 tr2, tr = tr1 ++ tr2 ∧ sys_trace c tr1 c1 ∧ sys_trace c1 tr2 c' ∧
    k_curr (c_state c1) = t ∧
    tick_count tr1 <= wait_ticks (c_state c) t (a_ready (y_sched y)).
Proof.
  intros Hi Htr. revert y Hi.
  induction Htr as [c|c l c2 tr c3 Hst Htr IH]; intros y Hi Ht Hle;
    (destruct (decide (t = a_curr (y_sched y))) as [Heq|Hne];
     [eexists [], c, _; split_and!; [done|constructor|by econstructor| |];
      [by rewrite (sys_inv_curr _ _ Hi)|apply (slice_sum_pos c y); [done|];
       intros u Hu; by eapply ready_all, ahead_sub]|]).
  - exfalso. apply Hne. pose proof (co_wf _ _ _ (si_core _ _ Hi)) as Ha.
    destruct (a_ready (y_sched y)) as [|h r] eqn:Hr; [by apply elem_of_nil in Ht|].
    rewrite (curr_head _ _ _ Ha Hr). unfold wait_ticks in Hle. cbn in Hle.
    destruct (decide (h = t)) as [->|Hht]; [done|]. cbn in Hle.
    assert (1 <= default 0 (slice_of (c_state c) h)) as Hp.
    { apply (slice_of_pos c y h Hi), (ready_all _ _ _ Hi). rewrite Hr. set_solver. }
    assert (0 <= slice_sum (c_state c) (ahead t r)) as Hq.
    { apply (slice_sum_pos c y); [done|]. intros u Hu%ahead_sub.
      apply (ready_all _ _ _ Hi). rewrite Hr. set_solver. }
    unfold slice_sum in *. change (tick_count []) with 0 in Hle. lia.
  - destruct (sys_step_sim _ _ _ _ Hi Hst) as (_ & Hi2 & _).
    destruct (wait_step _ _ _ _ _ Hi Hst Ht Hne) as [Ht2 Hw]. rewrite tick_count_cons in Hle.
    destruct (IH _ Hi2 Ht2) as (tr1 & c1 & tr2 & -> & H1 & H2 & Hk & Hb);
      [destruct (is_tick l); lia|].
    exists ((k_curr (c_state c), l) :: tr1), c1, tr2. split_and!; try done; [by econstructor|].
    rewrite tick_count_cons. destruct (is_tick l); lia.
Qed.

(** A call to lock [m] that is over, whether it waited or not. *)
Lemma lock_over c y l c' t m :
  sys_inv c y → sys_step c l c' →
  c_calls c !! t = Some (CLock m) ∨ (k_curr (c_state c), l) = (t, LCall (CLock m)) →
  c_calls c' !! t = None → holds c' t m.
Proof.
  intros Hi Hst [Hp|Hp] Hn.
  - destruct (lock_returns _ _ _ _ _ _ Hi Hst Hp Hn) as (mx & Hm & Ho & Hlk). by exists mx.
  - destruct (sys_step_sim _ _ _ _ Hi Hst) as (Hy & Hi' & _). injection Hp as Ht ->.
    rewrite (sys_inv_curr _ _ Hi) in Ht. rewrite (holds_y _ _ _ _ Hi').
    inversion Hy as [k y' Hc Hok|]; subst. apply y_lock_takes; try done.
    + apply (co_wf _ _ _ (si_core _ _ Hi)).
    + apply (si_locks _ _ Hi).
    + change (y_lock m y) with (y_next c (LCall (CLock m)) y). rewrite <- (sys_inv_curr _ _ Hi').
      inversion Hst as [s cs pend k0 s' cs' Hc0 Hok0 Hset|]; subst. cbn in *.
      pose proof (sys_inv_curr _ _ Hi) as Hk. cbn in Hk.
      apply lookup_delete_None in Hn as [Hn|Hn]; [done|].
      by rewrite <- Hk, lookup_insert_eq in Hn.
Qed.

(** The timer can interrupt any number of times. *)
Lemma ticks_run (n : nat) c y :
  sys_inv c y → ∃ c' tr, sys_trace c tr c' ∧ tick_count tr = Z.of_nat n.
Proof.
  revert c y. induction n as [|n IH]; intros c y Hi.
  - exists c, []. split; [constructor|done].
  - destruct (can_tick c y Hi) as (s1 & cs1 & Hst).
    destruct (sys_step_sim _ _ _ _ Hi Hst) as (_ & Hi1 & _).
    destruct (IH _ _ Hi1) as (c' & tr & Htr & Hn). eexists c', _.
    split; [by econstructor|]. rewrite tick_count_cons. cbn [is_tick]. lia.
Qed.

(** Any sequence of calls whose contracts hold runs to its end. *)
Fixpoint calls_ok (ks : list kcall) (y : asys) : Prop :=
  match ks with
  | [] => True
  | k :: ks => a_curr (y_sched y) ≠ idle_task ∧ call_ok k y ∧ calls_ok ks (y_call k y)
  end.
Definition y_calls (ks : list kcall) (y : asys) : asys := foldl (λ y k, y_call k y) y ks.
Definition pend_call (k : kcall) (p : asys * gmap Z kcall) : asys * gmap Z kcall :=
  let y' := y_call k p.1 in
  (y', delete (a_curr (y_sched y')) (<[a_curr (y_sched p.1) := k]> p.2)).
Definition pend_calls (ks : list kcall) (p : asys * gmap Z kcall) : asys * gmap Z kcall :=
  foldl (λ p k, pend_call k p) p ks.

Lemma calls_run ks c y :
  sys_inv c y → calls_ok ks y →
  ∃ c' tr, sys_trace c tr c' ∧ tr.*2 = LCall <$> ks ∧
    sys_inv c' (pend_calls ks (y, c_calls c)).1 ∧ c_calls c' = (pend_calls ks (y, c_calls c)).2.
Proof.
  revert c y. induction ks as [|k ks IH]; intros c y Hi Hok.
  - exists c, []. split_and!; try done. constructor.
  - destruct Hok as (Hc & Hk & Hok). destruct (can_call c y k Hi Hc Hk) as (s' & cs' & Hst).
    destruct (sys_step_sim _ _ _ _ Hi Hst) as (_ & Hi' & _). cbn [y_next] in Hi'.
    destruct (IH _ _ Hi' Hok) as (c' & tr & Htr & Hl & Hi2 & Hp).
    exists c', ((k_curr (c_state c), LCall k) :: tr). split_and!.
    + by econstructor.
    + cbn. by rewrite Hl.
    + pose proof (sys_inv_curr _ _ Hi') as Hk'. cbn in Hk', Hi2.
      rewrite Hk', (sys_inv_curr _ _ Hi) in Hi2. exact Hi2.
    + pose proof (sys_inv_curr _ _ Hi') as Hk'. cbn in Hk', Hp.
      rewrite Hk', (sys_inv_curr _ _ Hi) in Hp. exact Hp.
Qed.
End traces.

(** ** The waiters of a mutex *)

Definition running (c : config) : Z := k_curr (c_state c).

Section waiting.
Context `{Platform}.

Lemma waiters_of_elem y w t : t ∈ waiters_of y w ↔ ∃ l, a_wait (y_sched y) !! w = Some l ∧ t ∈ l.
Proof.
  unfold waiters_of. destruct (a_wait (y_sched y) !! w) as [l|]; cbn; split.
  - intros Hin. by exists l.
  - intros (l1 & Heq & Hin). by injection Heq as <-.
  - by intros ?%elem_of_nil.
  - by intros (? & ? & _).
Qed.

(** The running task does not wait. *)
Lemma running_not_waiting y w : awf (y_sched y) → a_curr (y_sched y) ∉ waiters_of y w.
Proof.
  intros Ha (l & Hw & Hin)%waiters_of_elem.
  destruct (decide (a_curr (y_sched y) = idle_task)) as [Hid|Hid].
  - apply (aw_idle _ Ha). rewrite <- Hid, <- (aw_place _ Ha), !elem_of_app, elem_of_waiters. right; right. eauto.
  - by apply (proj2 (curr_facts _ Ha Hid) w l).
Qed.

Section call.
Context (y : asys) (m : Z).
Context (Ha : awf (y_sched y)) (Hc : a_curr (y_sched y) ≠ idle_task) (Hl : locks_ok y).
Context (Hm : is_Some (y_mutexes y !! m)).

Lemma waiters_block w w' t :
  t ∈ waiters_of (ASys (a_block_on w (y_sched y)) (y_mutexes y) (y_sems y)) w' →
  t ∈ waiters_of y w' ∨ (t = a_curr (y_sched y) ∧ w = w').
Proof using Ha Hc.
  intros (l & Hw & Hin)%waiters_of_elem. cbn in Hw.
  destruct (decide (w = w')) as [->|Hne].
  - destruct (curr_ready _ Ha Hc) as [r Hr].
    destruct (a_wait (y_sched y) !! w') as [l0|] eqn:E.
    + rewrite (a_wait_block _ _ _ _ _ Hr E), lookup_insert_eq in Hw. injection Hw as <-.
      apply elem_of_app in Hin as [Hin|Hin%list_elem_of_singleton]; [|by right].
      left. apply waiters_of_elem. eauto.
    + unfold a_block_on in Hw. rewrite Hr, E in Hw. congruence.
  - left. rewrite block_other in Hw by done. apply waiters_of_elem. eauto.
Qed.
Lemma waiters_wake w w' t mxs ss :
  t ∈ waiters_of (ASys (a_wake w (y_sched y)) mxs ss) w' → t ∈ waiters_of y w'.
Proof using Type.
  intros (l & Hw & Hin)%waiters_of_elem. cbn in Hw. apply waiters_of_elem.
  destruct (decide (w = w')) as [->|Hne].
  - destruct (a_wait (y_sched y) !! w') as [[|u l0]|] eqn:E.
    + unfold a_wake in Hw. rewrite E in Hw. rewrite Hw in E. injection E as ->. by apply elem_of_nil in Hin.
    + rewrite (a_wait_wake _ _ _ _ E), lookup_insert_eq in Hw. injection Hw as <-.
      exists (u :: l0). split; [done|]. rewrite elem_of_cons. by right.
    + unfold a_wake in Hw. rewrite E in Hw. congruence.
  - rewrite wake_other in Hw by done. eauto.
Qed.

(** The wait list in which a call may leave its caller. *)
Definition blocks_at (k : kcall) : option Z :=
  match k with
  | CLock q => Some (mutex_wait_list q)
  | CWait p => Some (sem_wait_list p)
  | _ => None
  end.
Lemma waiters_after k w t :
  t ∈ waiters_of (y_call k y) w → t ∈ waiters_of y w ∨ (t = a_curr (y_sched y) ∧ blocks_at k = Some w).
Proof using Ha Hc.
  assert (∀ a', a_wait a' = a_wait (y_sched y) → ∀ mxs ss,
    t ∈ waiters_of (ASys a' mxs ss) w → t ∈ waiters_of y w) as Hsame.
  { intros a' Hw mxs ss. unfold waiters_of. cbn. by rewrite Hw. }
  destruct k as [|ms|m0|m0|p|p]; cbn [y_call blocks_at].
  - intros Hin. left. eapply Hsame; [|exact Hin]. by destruct (a_all_yield (y_sched y)).
  - intros Hin. left. eapply Hsame; [|exact Hin]. by destruct (a_all_sleep (sleep_ticks_of ms) (y_sched y)).
  - unfold y_lock. destruct (mutex_lock_step _ _).
    + intros Hin. left. by eapply Hsame; [|exact Hin].
    + intros [Hin|[-> ->]]%waiters_block; [by left|by right].
  - unfold y_unlock. intros Hin. left. destruct (_ =? 0); [|by eapply Hsame; [|exact Hin]].
    destruct (waiters_of y (mutex_wait_list m0)); [by eapply Hsame; [|exact Hin]|by eapply waiters_wake].
  - unfold y_wait. destruct (0 <? _).
    + intros Hin. left. by eapply Hsame; [|exact Hin].
    + intros [Hin|[-> ->]]%waiters_block; [by left|by right].
  - unfold y_notify. intros Hin. left.
    destruct (waiters_of y (sem_wait_list p)); [by eapply Hsame; [|exact Hin]|by eapply waiters_wake].
Qed.

Lemma waiters_call k t :
  call_ok k y → t ∈ waiters_of (y_call k y) (mutex_wait_list m) →
  t ∈ waiters_of y (mutex_wait_list m) ∨ (t = a_curr (y_sched y) ∧ k = CLock m).
Proof using Ha Hc Hl Hm.
  intros Hok [Hin|[-> Hb]]%waiters_after; [by left|]. right. split; [done|].
  destruct k as [|ms|m0|m0|p|p]; cbn in Hb; try done; injection Hb as Hb.
  - f_equal. unfold mutex_wait_list in Hb. lia.
  - exfalso. symmetry in Hb. revert Hb. by apply (lk_apart _ Hl).
Qed.

(** Calls that are not about the mutex do not change it. *)
Lemma mutex_other_call k :
  k ≠ CLock m → k ≠ CUnlock m → y_mutexes (y_call k y) !! m = y_mutexes y !! m.
Proof using Type.
  intros H1 H2. destruct k as [|ms|m0|m0|p|p]; cbn [y_call]; try done.
  - unfold y_lock. destruct (mutex_lock_step _ _); [|done]. cbn. rewrite lookup_insert_ne; congruence.
  - cbn. rewrite lookup_insert_ne; congruence.
  - unfold y_wait. by destruct (0 <? _).
  - unfold y_notify. by destruct (waiters_of _ _).
Qed.
End call.

(** Who waits, and who sleeps, after a step. *)
Lemma waiters_next c l c' y w t :
  sys_inv c y → sys_step c l c' → t ∈ waiters_of (y_next c l y) w →
  t ∈ waiters_of y w ∨ (t = running c ∧ ∃ k, l = LCall k ∧ blocks_at k = Some w).
Proof.
  intros Hi Hst Hin. destruct (sys_step_sim _ _ _ _ Hi Hst) as (Hy & _ & _).
  unfold running. rewrite (sys_inv_curr _ _ Hi). destruct l as [k|]; cbn [y_next] in Hin.
  - inversion Hy as [? ? Hc Hok|]; subst.
    apply waiters_after in Hin as [Hin|[-> Hb]]; [by left| |apply (co_wf _ _ _ (si_core _ _ Hi))|done].
    right. eauto.
  - left. unfold waiters_of in *. cbn in Hin.
    by rewrite (proj2 (a_all_tick (expired (c_state c) (y_sched y)) (y_sched y))) in Hin.
Qed.
Lemma sleepers_next c l c' y t n :
  sys_inv c y → sys_step c l c' → (t, n) ∈ a_sleep (y_sched (y_next c l y)) →
  (∃ n', (t, n') ∈ a_sleep (y_sched y) ∧ n <= n') ∨
  (t = running c ∧ ∃ ms, l = LCall (CSleep ms) ∧ n = sleep_ticks_of ms).
Proof.
  intros Hi Hst. destruct (sys_step_sim _ _ _ _ Hi Hst) as (Hy & _ & _).
  unfold running. rewrite (sys_inv_curr _ _ Hi). destruct l as [k|]; cbn [y_next].
  - inversion Hy as [? ? Hc Hok|]; subst.
    assert ((t, n) ∈ a_sleep (y_sched y) → ∃ n', (t, n') ∈ a_sleep (y_sched y) ∧ n <= n') as Hsame.
    { intros Hin. by exists n. }
    destruct k as [|ms|m|m|p|p]; cbn.
    + unfold a_yield. intros Hin. left. apply Hsame. by repeat case_match.
    + unfold a_sleep_for. destruct (curr_ready _ (co_wf _ _ _ (si_core _ _ Hi)) Hc) as [r Hr]. rewrite Hr. cbn.
      intros [Hin|[= -> ->]%list_elem_of_singleton]%elem_of_app; [left; by apply Hsame|right; eauto].
    + unfold y_lock, a_block_on. intros Hin. left. apply Hsame. by repeat (case_match; cbn in Hin).
    + unfold a_wake. intros Hin. left. apply Hsame. by repeat (case_match; cbn in Hin).
    + unfold y_wait, a_block_on. intros Hin. left. apply Hsame. by repeat (case_match; cbn in Hin).
    + unfold y_notify, a_wake. intros Hin. left. apply Hsame. by repeat (case_match; cbn in Hin).
  - cbn. unfold a_wake_sleepers. cbn. intros ([t' n'] & [= -> ->] & Hin)%list_elem_of_fmap.
    apply list_elem_of_filter in Hin as [_ Hin]. left. exists n'. cbn. split; [|lia].
    unfold a_rotate in Hin. by repeat (case_match; cbn in Hin).
Qed.

(** The tasks in the wait list of a mutex are inside rein_mutex_lock. *)
Definition waiters_pending (c : config) (y : asys) (m : Z) : Prop :=
  ∀ t, t ∈ waiters_of y (mutex_wait_list m) → c_calls c !! t = Some (CLock m).

Lemma calls_next c l c' t k :
  sys_step c l c' → t ≠ running c' →
  (c_calls c !! t = Some k ∧ t ≠ running c) ∨ (t, LCall k) = (running c, l) →
  c_calls c' !! t = Some k.
Proof.
  intros Hst Ht Hk. destruct Hst as [s cs pend k0 s' cs' _ _ _|s cs pend s' cs' _ _];
    unfold running in *; cbn in *; rewrite lookup_delete_ne by done.
  - destruct Hk as [[Hk Hc]|[= -> ->]]; [by rewrite lookup_insert_ne|apply lookup_insert_eq].
  - by destruct Hk as [[Hk _]|?].
Qed.

Lemma waiters_pending_step c l c' y m :
  sys_inv c y → sys_step c l c' → is_Some (y_mutexes y !! m) →
  waiters_pending c y m → waiters_pending c' (y_next c l y) m.
Proof.
  intros Hi Hst Hm Hw t Hin. destruct (sys_step_sim _ _ _ _ Hi Hst) as (Hy & Hi' & _).
  pose proof (co_wf _ _ _ (si_core _ _ Hi)) as Ha. pose proof (co_wf _ _ _ (si_core _ _ Hi')) as Ha'.
  assert (t ≠ running c') as Ht.
  { unfold running. rewrite (sys_inv_curr _ _ Hi'). intros ->.
    by apply (running_not_waiting _ (mutex_wait_list m) Ha'). }
  apply (calls_next _ _ _ _ _ Hst Ht). unfold running. rewrite (sys_inv_curr _ _ Hi).
  assert (t ∈ waiters_of y (mutex_wait_list m) ∨ (t, LCall (CLock m)) = (a_curr (y_sched y), l)) as Hc.
  { destruct l as [k|]; cbn [y_next] in Hin.
    - inversion Hy as [? ? Hc Hok|]; subst.
      destruct (waiters_call y m Ha Hc (si_locks _ _ Hi) Hm k t Hok Hin) as [|[-> ->]]; auto.
    - left. unfold waiters_of in *. cbn in Hin.
      by rewrite (proj2 (a_all_tick (expired (c_state c) (y_sched y)) (y_sched y))) in Hin. }
  destruct Hc as [Hc|Hc]; [left|by right]. split; [by apply Hw|].
  intros ->. by apply (running_not_waiting _ (mutex_wait_list m) Ha).
Qed.

(** A task inside rein_mutex_lock, or past it, stays so until it unlocks. *)
Definition entered_lock (c : config) (t m : Z) : Prop :=
  c_calls c !! t = Some (CLock m) ∨ holds c t m.

Lemma entered_lock_step c l c' y t m :
  sys_inv c y → sys_step c l c' → ¬ unlocks t m (running c, l) →
  entered_lock c t m ∨ (running c, l) = (t, LCall (CLock m)) → entered_lock c' t m.
Proof.
  intros Hi Hst Hn [[Hp|Hh]|Hp].
  2: { right. by eapply holds_step. }
  all: assert (c_calls c !! t = Some (CLock m) ∨ (k_curr (c_state c), l) = (t, LCall (CLock m))) as Hp'
    by auto.
  all: destruct (c_calls c' !! t) as [k|] eqn:E;
    [left; rewrite E; f_equal; exact (call_pends _ _ _ _ _ _ _ Hi Hst Hp' E)
    |right; exact (lock_over _ _ _ _ _ _ Hi Hst Hp' E)].
Qed.
End waiting.

(** ** Properties *)

Section liveness.
Context `{Platform}.

(** C10: A ready task runs: in every run in which at least as many timer interrupts
    occur as there are ticks left in the slices of the tasks in front of it,
    whatever those tasks do, there is a moment at which it is the current
    task, and it comes before more interrupts than that. *)
Theorem ready_task_runs c y tr c' t :
  sys_inv c y → sys_trace c tr c' → t ∈ a_ready (y_sched y) →
  let n := wait_ticks (c_state c) t (a_ready (y_sched y)) in
  n <= tick_count tr →
  ∃ tr1 c1 tr2, tr = tr1 ++ tr2 ∧ sys_trace c tr1 c1 ∧ sys_trace c1 tr2 c' ∧
    k_curr (c_state c1) = t ∧ tick_count tr1 <= n.
Proof. intros Hi Htr Ht n Hn. by eapply ready_trace. Qed.

(** C11: A sleeping task wakes: whatever the other tasks call, a task that sleeps
    for [n] ticks is still asleep, with one tick left, after [n - 1] timer
    interrupts, and ready after the next one. *)
Theorem sleeper_wakes c y tr c1 c2 t n :
  sys_inv c y → (t, n) ∈ a_sleep (y_sched y) → sys_trace c tr c1 → tick_count tr = n - 1 →
  sys_step c1 LTick c2 →
  (∃ y1, sys_inv c1 y1 ∧ (t, 1) ∈ a_sleep (y_sched y1)) ∧
  (∃ y2, sys_inv c2 y2 ∧ t ∈ a_ready (y_sched y2)).
Proof.
  intros Hi Hin Htr Hn Hst.
  destruct (sleeper_trace c y tr c1 t n Hi Htr Hin ltac:(lia)) as (y1 & Hi1 & Hin1).
  replace (n - tick_count tr) with 1 in Hin1 by lia. split; [by exists y1|].
  destruct (sys_step_sim _ _ _ _ Hi1 Hst) as (_ & Hi2 & _). exists (y_next c1 LTick y1).
  split; [done|]. apply (sleeper_step c1 y1 LTick t 1 (co_wf _ _ _ (si_core _ _ Hi1)) Hin1).
Qed.
End liveness.
