(* ===== verification/Boot.v ===== *)
(** * From the start of the kernel to its running tasks

    The configuration reached when the main task enters its loop, and what
    holds in every configuration after it. *)

From S2P Require Import Prelude Mem DList Klib Machine Irq Sched SchedSpec SchedOps Mutex Sem Cpu.
From S2P Require Import TaskInit Log Timer Init System Liveness.

(** The mutexes and the semaphore the kernel initialises. *)
Lemma first_locks `{Platform} s s' a :
  boot_image s → k_mutexes s' = <[log_mutex := Mutex NULL 0]> {[cpu_mutex := Mutex NULL 0]} →
  k_sems s' = {[notify_task_print := Sem 0]} → a_wait a = boot_waits → locks_ok (sys_of s' a).
Proof.
  intros Hb Hms Hss Haw.
  destruct (headers_ne s Hb) as (_ & Hne & Hcs & Hcl). pose proof (bi_distinct _ Hb) as Hd.
  unfold headers, wait_headers in Hd. rewrite !NoDup_cons, !not_elem_of_cons in Hd. destruct_and! Hd.
  assert (∀ w, w ∈ wait_headers → a_wait a !! w = Some []) as Hw.
  { intros w Hw. unfold wait_headers in Hw. rewrite !elem_of_cons, elem_of_nil in Hw. rewrite Haw.
    unfold boot_waits. destruct Hw as [->|[->|[->|[]]]].
    - by rewrite !lookup_insert_ne, lookup_singleton_eq by congruence.
    - by rewrite lookup_insert_ne, lookup_insert_eq by congruence.
    - apply lookup_insert_eq. }
  unfold wait_headers in Hw.
  assert (∀ m mx, k_mutexes s' !! m = Some mx → mx = Mutex NULL 0 ∧ (m = cpu_mutex ∨ m = log_mutex)) as Hmx.
  { intros m mx. rewrite Hms.
    intros [(<- & <-)|(_ & Hl)]%lookup_insert_Some; [by auto|].
    apply lookup_singleton_Some in Hl as [<- <-]. auto. }
  assert (∀ p sm, k_sems s' !! p = Some sm → p = notify_task_print) as Hsm.
  { intros p sm. rewrite Hss. by intros [<- _]%lookup_singleton_Some. }
  split; cbn.
  - intros m mx Hm. exists []. destruct (Hmx m mx Hm) as [-> Hmm].
    split; [|done]. apply Hw. destruct Hmm as [->| ->]; set_solver.
  - intros p sm Hp. exists []. rewrite (Hsm _ _ Hp). split; [apply Hw; set_solver|done].
  - intros m p [mx Hm] [sm Hp]. rewrite (Hsm _ _ Hp).
    destruct (Hmx m mx Hm) as [_ [->| ->]]; congruence.
Qed.

Section boot.
Context `{Platform}.

(** The contexts stored in memory at that time: the TSS of the idle task and
    of the new task hold their initial registers. *)
Definition boot_contexts (s : kstate) : gmap Z context :=
  <[sel_of s idle_task := Fresh (tss_flags s idle_task)]>
    {[sel_of s new_task := Fresh (tss_flags s new_task)]}.
Definition boot_config (s : kstate) : config := Config s (boot_contexts s) ∅.
Definition y_boot (s : kstate) : asys := sys_of s a_boot.

Lemma task_flags_if : if_set task_flags.
Proof. done. Qed.
Lemma lor_if fl : if_set (Z.lor fl ELFAGS_IF).
Proof. unfold if_set. rewrite Z.lor_spec. change (Z.testbit ELFAGS_IF 9) with true. apply orb_true_r. Qed.

Lemma first_tasks_cases t :
  t ∈ idle_task :: a_all a_boot → t = idle_task ∨ t = main_task ∨ t = new_task.
Proof. cbn [a_all a_boot]. rewrite !elem_of_cons, elem_of_nil. tauto. Qed.

Context (s s' : kstate) (Hb : boot_image s) (Hbd : booted s s').

Lemma booted_sels :
  sel_of s' idle_task = tss_selector 0 ∧ sel_of s' main_task = tss_selector 1 ∧
  sel_of s' new_task = tss_selector 2.
Proof using Hbd.
  unfold sel_of. by rewrite (bd_idle _ _ Hbd), (bd_main _ _ Hbd), (bd_new _ _ Hbd).
Qed.

Lemma booted_saved t :
  t ∈ first_tasks → t ≠ main_task →
  boot_contexts s' !! sel_of s' t = Some (Fresh task_flags).
Proof using Hb Hbd.
  intros Ht Hne. destruct booted_sels as (Hi & Hm & Hn).
  unfold boot_contexts, first_tasks in *.
  rewrite !elem_of_cons, elem_of_nil in Ht. destruct Ht as [->|[->|[->|[]]]].
  - rewrite lookup_insert_eq, (bd_flags _ _ Hbd); [done|]. unfold first_tasks. set_solver.
  - done.
  - rewrite lookup_insert_ne, lookup_singleton_eq by (by rewrite Hi, Hn).
    rewrite (bd_flags _ _ Hbd); [done|]. unfold first_tasks. set_solver.
Qed.

Lemma boot_core : core s' a_boot (boot_contexts s').
Proof using Hb Hbd.
  destruct booted_sels as (Hi & Hm & Hn). split.
  - apply Hbd.
  - by eapply awf_boot.
  - rewrite (bd_cpu _ _ Hbd). apply lor_if.
  - rewrite (bd_cpu _ _ Hbd). by etrans; [|symmetry; exact Hm].
  - intros t u [->|[->| ->]]%first_tasks_cases [->|[->| ->]]%first_tasks_cases; rewrite ?Hi, ?Hm, ?Hn; done.
  - intros t Ht Hne. exists (Fresh task_flags). split; [by apply booted_saved|done].
  - intros t tk Ht Htk. cbn [a_all a_boot] in Ht. rewrite !elem_of_cons, elem_of_nil in Ht.
    destruct Ht as [->|[->|[]]]; [rewrite (bd_main _ _ Hbd) in Htk|rewrite (bd_new _ _ Hbd) in Htk];
      by injection Htk as <-.
Qed.

Lemma boot_locks : locks_ok (y_boot s').
Proof using Hb Hbd. by apply (first_locks s); [|apply Hbd|apply Hbd|]. Qed.

Lemma boot_inv : sys_inv (boot_config s') (y_boot s').
Proof using Hb Hbd. split; try done; [apply boot_core|apply boot_locks]. Qed.
End boot.

(** ** Properties *)

(** The configurations the kernel can reach from the image [s]. *)
Definition reachable `{Platform} (s : kstate) (c : config) : Prop :=
  ∃ s' tr, (kernel_init;; init_main_start) s = Done tt s' ∧ sys_trace (boot_config s') tr c.

Section system_properties.
Context `{Platform}.

(** The abstract system when the main task enters its loop. *)
Definition y_start : asys :=
  ASys a_boot (<[log_mutex := Mutex NULL 0]> {[cpu_mutex := Mutex NULL 0]})
    {[notify_task_print := Sem 0]}.

Lemma boot_starts s :
  boot_image s →
  ∃ s', (kernel_init;; init_main_start) s = Done tt s' ∧ k_curr s' = main_task ∧
    sys_inv (boot_config s') y_start.
Proof.
  intros Hb. destruct (boot_ok s Hb) as (s' & E & Hbd). exists s'. split; [exact E|].
  pose proof (boot_inv s s' Hb Hbd) as Hi. clear E. split; [exact (sys_inv_curr _ _ Hi)|].
  assert (y_boot s' = y_start) as Hy
    by (unfold y_boot, y_start, sys_of; by rewrite (bd_mutexes _ _ Hbd), (bd_sems _ _ Hbd)).
  by rewrite Hy in Hi.
Qed.
Lemma reachable_inv s c :
  boot_image s → reachable s c → ∃ ls y, y_run y_start ls y ∧ sys_inv c y.
Proof.
  intros Hb (s' & tr & E & Htr). destruct (boot_starts s Hb) as (s2 & E2 & _ & Hi).
  rewrite E in E2. injection E2 as <-.
  destruct (sys_trace_sim _ _ _ _ Htr Hi) as (y & Hr & Hi'). eauto.
Qed.

(** C1: The kernel refines the abstract system: the start-up code ends, in a
    configuration that represents the abstract start state; and a run of the
    kernel from there, by calls of the tasks and timer interrupts in any
    order, is matched by the run of the abstract system with the very same
    labels, one abstract step for each step of the kernel: the configuration
    it ends in represents the abstract state that run ends in, and the task
    that runs is the abstract current task. The representation fixes the
    ready, sleeping and waiting tasks in their order, the mutexes and the
    semaphores, with the scheduling invariant and the invariant of the
    locks. An abstract tick may or may not end the slice of the running task;
    when it does is the subject of time_tick_refines. *)
Theorem kernel_refines s :
  boot_image s →
  ∃ s', (kernel_init;; init_main_start) s = Done tt s' ∧
    sys_inv (boot_config s') y_start ∧
    ∀ tr c, sys_trace (boot_config s') tr c →
      ∃ y, y_run y_start tr.*2 y ∧ sys_inv c y ∧ k_curr (c_state c) = a_curr (y_sched y).
Proof.
  intros Hb. destruct (boot_starts s Hb) as (s' & E & _ & Hi). exists s'.
  split; [exact E|]. split; [exact Hi|]. intros tr c Htr.
  destruct (sys_trace_sim _ _ _ _ Htr Hi) as (y & Hr & Hi'). exists y.
  split; [exact Hr|]. split; [exact Hi'|]. by apply sys_inv_curr.
Qed.

(** C2: The kernel never faults, panics or loops: in every reachable
    configuration the timer interrupt, and every call whose contract holds,
    runs until some task executes outside the kernel again, with interrupts
    enabled; the result is unique. *)
Theorem kernel_progress s c :
  boot_image s → reachable s c →
  if_set (eflags (k_cpu (c_state c))) ∧
  (∃ c', sys_step c LTick c') ∧
  (∀ k, k_curr (c_state c) ≠ idle_task →
    args_ok k (k_curr (c_state c)) (k_mutexes (c_state c)) (k_sems (c_state c)) →
    ∃ c', sys_step c (LCall k) c') ∧
  ∀ l c1 c2, sys_step c l c1 → sys_step c l c2 → c1 = c2.
Proof.
  intros Hb Hr. destruct (reachable_inv s c Hb Hr) as (ls & y & _ & Hi). split_and!.
  - apply (co_if _ _ _ (si_core _ _ Hi)).
  - destruct (can_tick c y Hi) as (s' & cs' & Hst). by eexists.
  - intros k Hc Hok. rewrite (si_mutexes _ _ Hi), (si_sems _ _ Hi), (sys_inv_curr _ _ Hi) in Hok.
    rewrite (sys_inv_curr _ _ Hi) in Hc. destruct (can_call c y k Hi Hc Hok) as (s' & cs' & Hst).
    by eexists.
  - intros l c1 c2. apply sys_step_fun.
Qed.

(** C6: A call to rein_mutex_lock that returns, at once or after any number of
    switches, returns with the mutex held by the caller. *)
Theorem lock_returns_holding s c l c' t m :
  boot_image s → reachable s c → sys_step c l c' →
  c_calls c !! t = Some (CLock m) ∨ (k_curr (c_state c), l) = (t, LCall (CLock m)) →
  c_calls c' !! t = None →
  holds c' t m.
Proof.
  intros Hb Hr. destruct (reachable_inv s c Hb Hr) as (ls & y & _ & Hi). by apply lock_over with y.
Qed.

(** C5: Mutual exclusion: from the moment a task holds a mutex, and as long as it
    does not unlock it, it holds it, and no call of another task to lock that
    mutex, pending or made meanwhile, returns. *)
Theorem mutual_exclusion s c tr c' t m :
  boot_image s → reachable s c → sys_trace c tr c' →
  Forall (λ p, ¬ unlocks t m p) tr → holds c t m →
  holds c' t m ∧
  ∀ u, u ≠ t → c_calls c !! u = Some (CLock m) ∨ (u, LCall (CLock m)) ∈ tr →
    c_calls c' !! u = Some (CLock m).
Proof.
  intros Hb Hr. destruct (reachable_inv s c Hb Hr) as (ls & y & _ & Hi). by apply holds_trace with y.
Qed.
End system_properties.
