(* ===== verification/Queues.v ===== *)
(** * Wait queues along runs (kernel/ipc/sem.c, kernel/ipc/mutex.c)

    A semaphore loses no waiter, and no unit while its count fits an int: over
    every run of the kernel the calls of sem_wait and sem_notify, the count and
    the wait list balance, and waiters are served in the order in which they
    came.  A mutex with waiters
    passes from owner to owner in their order, and no other task gets it in
    between. *)

From S2P Require Import Prelude Mem DList Klib Machine Irq Sched SchedSpec SchedOps Mutex Sem Timer.
From S2P Require Import System Liveness.

(** ** What leaves a wait list alone *)

Section wait_list.
Context `{Platform}.
Implicit Types (y : asys).

Lemma wait_same w y a mxs ss : a_wait a = a_wait (y_sched y) → waiters_of (ASys a mxs ss) w = waiters_of y w.
Proof. intros Hw. unfold waiters_of. cbn. by rewrite Hw. Qed.
Lemma wait_block w w' y mxs ss :
  w' ≠ w → waiters_of (ASys (a_block_on w' (y_sched y)) mxs ss) w = waiters_of y w.
Proof. intros Hw. unfold waiters_of. cbn. by rewrite block_other by done. Qed.
Lemma wait_wake w w' y mxs ss :
  w' ≠ w → waiters_of (ASys (a_wake w' (y_sched y)) mxs ss) w = waiters_of y w.
Proof. intros Hw. unfold waiters_of. cbn. by rewrite wake_other by done. Qed.
End wait_list.

(** ** Semaphores *)

Section semaphore.
Context `{Platform}.
Context (p : Z).

(** The tasks that call sem_wait on [p], and the number of calls of
    sem_notify, in the steps of a trace. *)
Fixpoint waits_of (tr : list (Z * label)) : list Z :=
  match tr with
  | [] => []
  | (t, LCall (CWait q)) :: tr => if q =? p then t :: waits_of tr else waits_of tr
  | _ :: tr => waits_of tr
  end.
Fixpoint notifies_of (tr : list (Z * label)) : Z :=
  match tr with
  | [] => 0
  | (_, LCall (CNotify q)) :: tr => if q =? p then 1 + notifies_of tr else notifies_of tr
  | _ :: tr => notifies_of tr
  end.
Definition queue (y : asys) : list Z := waiters_of y (sem_wait_list p).

(** What a step does to the count and the queue of [p]. *)
Inductive sem_move (y : asys) : Z * label → asys → Prop :=
| sem_other q y' :
    waits_of [q] = [] → notifies_of [q] = 0 → queue y' = queue y → count_of y' p = count_of y p →
    sem_move y q y'
| sem_take t y' :
    0 < count_of y p → queue y' = queue y → count_of y' p = i32 (count_of y p - 1) →
    sem_move y (t, LCall (CWait p)) y'
| sem_queue t y' :
    count_of y p <= 0 → queue y' = queue y ++ [t] → count_of y' p = count_of y p →
    sem_move y (t, LCall (CWait p)) y'
| sem_unit t y' :
    queue y = [] → queue y' = [] → count_of y' p = i32 (count_of y p + 1) →
    sem_move y (t, LCall (CNotify p)) y'
| sem_serve t u l y' :
    queue y = u :: l → queue y' = l → count_of y' p = count_of y p →
    sem_move y (t, LCall (CNotify p)) y'.

Lemma count_same a mxs y q sm :
  q ≠ p → count_of (ASys a mxs (<[q := sm]> (y_sems y))) p = count_of y p.
Proof. intros Hq. unfold count_of. cbn. by rewrite lookup_insert_ne. Qed.

Section call.
Context (y : asys) (Ha : awf (y_sched y)) (Hc : a_curr (y_sched y) ≠ idle_task) (Hl : locks_ok y).
Context (Hp : is_Some (y_sems y !! p)).

Lemma sem_call_wait : sem_move y (a_curr (y_sched y), LCall (CWait p)) (y_wait p y).
Proof using Ha Hc Hl Hp.
  unfold y_wait. destruct (Z.ltb_spec 0 (count_of y p)) as [Hn|Hn].
  - apply sem_take; [done|by apply wait_same|]. unfold count_of at 1. cbn. by rewrite lookup_insert_eq.
  - apply sem_queue; [done| |done]. destruct Hp as [sm Hsm].
    destruct (lk_sem _ Hl p sm Hsm) as (l & Hw & _). destruct (curr_ready _ Ha Hc) as [r Hr].
    unfold queue, waiters_of. cbn. by rewrite (a_wait_block _ _ _ _ _ Hr Hw), lookup_insert_eq, Hw.
Qed.
Lemma sem_call_notify : sem_move y (a_curr (y_sched y), LCall (CNotify p)) (y_notify p y).
Proof using Hl Hp.
  unfold y_notify. destruct (waiters_of y (sem_wait_list p)) as [|u l] eqn:E.
  - apply sem_unit; [done|by etrans; [apply wait_same|]|].
    unfold count_of at 1. cbn. by rewrite lookup_insert_eq.
  - apply (sem_serve y _ u l); [done| |done]. destruct Hp as [sm Hsm].
    destruct (lk_sem _ Hl p sm Hsm) as (l0 & Hw & _).
    rewrite (waiters_of_some _ _ _ Hw) in E. subst l0. unfold queue, waiters_of. cbn.
    by rewrite (a_wait_wake _ _ _ _ Hw), lookup_insert_eq.
Qed.

(** Semaphores and mutexes have wait lists of their own. *)
Lemma sem_call_move k : call_ok k y → sem_move y (a_curr (y_sched y), LCall k) (y_call k y).
Proof using Ha Hc Hl Hp.
  intros Hok. destruct k as [|ms|m|m|q|q]; cbn [y_call].
  - apply sem_other; try done. apply wait_same. apply (a_all_yield (y_sched y)).
  - apply sem_other; try done. apply wait_same. apply (a_all_sleep (sleep_ticks_of ms) (y_sched y)).
  - apply call_ok_lock in Hok as (mx & Hm & _).
    unfold y_lock. destruct (mutex_lock_step _ _); apply sem_other; try done.
    apply wait_block, (lk_apart _ Hl); [by exists mx|done].
  - apply call_ok_unlock in Hok as (mx & Hm & _).
    apply sem_other; try done. unfold y_unlock. destruct (_ =? 0); [|by apply wait_same].
    destruct (waiters_of _ _); [by apply wait_same|].
    apply wait_wake, (lk_apart _ Hl); [by exists mx|done].
  - destruct (decide (q = p)) as [->|Hq]; [apply sem_call_wait|].
    assert (sem_wait_list q ≠ sem_wait_list p) as Hw by (unfold sem_wait_list; lia).
    unfold y_wait. destruct (0 <? count_of y q); apply sem_other; cbn; zdecide; try done.
    + by apply count_same.
    + by apply wait_block.
  - destruct (decide (q = p)) as [->|Hq]; [apply sem_call_notify|].
    assert (sem_wait_list q ≠ sem_wait_list p) as Hw by (unfold sem_wait_list; lia).
    unfold y_notify. destruct (waiters_of _ _); apply sem_other; cbn; zdecide; try done.
    + by apply count_same.
    + by apply wait_wake.
Qed.
End call.

Lemma sem_step_move c l c' y :
  sys_inv c y → sys_step c l c' → is_Some (y_sems y !! p) →
  sem_move y (k_curr (c_state c), l) (y_next c l y).
Proof.
  intros Hi Hst Hp. destruct (sys_step_sim _ _ _ _ Hi Hst) as (Hy & _ & _).
  rewrite (sys_inv_curr _ _ Hi). inversion Hy as [k y1 Hc Hok|e y1]; subst; cbn [y_next].
  - apply sem_call_move; [apply (co_wf _ _ _ (si_core _ _ Hi))|done|apply (si_locks _ _ Hi)|done|done].
  - apply sem_other; try done. apply wait_same. apply a_all_tick.
Qed.
Lemma sems_next c l y : is_Some (y_sems y !! p) → is_Some (y_sems (y_next c l y) !! p).
Proof.
  intros Hp. destruct l as [[|ms|m|m|q|q]|]; cbn; try done.
  - unfold y_lock. by destruct (mutex_lock_step _ _).
  - unfold y_wait. destruct (0 <? _); [|done]. cbn. rewrite lookup_insert_is_Some. destruct (decide (q = p)); auto.
  - unfold y_notify. destruct (waiters_of _ _); [|done]. cbn. rewrite lookup_insert_is_Some.
    destruct (decide (q = p)); auto.
Qed.

(** The count a trace leads to, were it not cut to an int: the notifications
    that serve nobody add a unit, the calls of sem_wait that do not queue take
    one. *)
Definition units (y : asys) (tr : list (Z * label)) (late served : list Z) : Z :=
  count_of y p + (notifies_of tr - len served) - (len (waits_of tr) - len late).

(** The books of a trace from [y] to [y']: those that had to queue, and those
    served. *)
Record balance (y : asys) (tr : list (Z * label)) (y' : asys) (late served : list Z) : Prop := {
  ba_late : late `sublist_of` waits_of tr;
  ba_fifo : queue y ++ late = served ++ queue y';
  ba_units : u32 (count_of y' p) = u32 (units y tr late served);
  ba_exact : 0 <= count_of y p → count_of y p + notifies_of tr <= INT_MAX →
    0 <= count_of y' p ∧ count_of y' p = units y tr late served;
  ba_served : Z.min (notifies_of tr) (len (queue y)) <= len served <= notifies_of tr
}.

Lemma notifies_pos tr : 0 <= notifies_of tr.
Proof.
  induction tr as [|[t [[]|]] tr IH]; cbn; try done. case_match; lia.
Qed.
Lemma waits_of_cons q tr : waits_of (q :: tr) = waits_of [q] ++ waits_of tr.
Proof. destruct q as [t [[]|]]; try done. cbn. by case_match. Qed.
Lemma notifies_of_cons q tr : notifies_of (q :: tr) = notifies_of [q] + notifies_of tr.
Proof. destruct q as [t [[]|]]; try done. cbn. case_match; lia. Qed.
Lemma waits_self t : waits_of [(t, LCall (CWait p))] = [t].
Proof. cbn. by rewrite Z.eqb_refl. Qed.
Lemma notifies_self t : notifies_of [(t, LCall (CNotify p))] = 1.
Proof. cbn. by rewrite Z.eqb_refl. Qed.

(** A count in range goes up and down by one. *)
Lemma move_count y q y1 n :
  sem_move y q y1 → 0 <= count_of y p → 0 <= n → count_of y p + (notifies_of [q] + n) <= INT_MAX →
  0 <= count_of y1 p ∧ count_of y1 p + n <= INT_MAX.
Proof.
  pose proof (notifies_pos [q]) as Hq0. intros Hm H0 Hn Hmax.
  destruct Hm as [q y1 _ _ _ ->|t y1 Hlt _ ->|t y1 _ _ ->|t y1 _ _ ->|t u l y1 _ _ ->];
    rewrite ?notifies_self in *; rewrite ?i32_small by (unfold INT_MIN; lia); lia.
Qed.

(** One more step at the start of a trace. *)
Lemma balance_cons y q y1 tr y' late served :
  sem_move y q y1 → balance y1 tr y' late served →
  ∃ late' served', balance y (q :: tr) y' late' served'.
Proof.
  intros Hm [B1 B2 B3 B4 B5]. pose proof (notifies_pos tr) as Hn.
  assert (∀ la se,
    la `sublist_of` waits_of [q] ++ waits_of tr → queue y ++ la = se ++ queue y' →
    u32 (units y1 tr late served) = u32 (units y (q :: tr) la se) →
    (0 <= count_of y p → count_of y p + (notifies_of [q] + notifies_of tr) <= INT_MAX →
      units y1 tr late served = units y (q :: tr) la se) →
    Z.min (notifies_of [q] + notifies_of tr) (len (queue y)) <= len se <= notifies_of [q] + notifies_of tr →
    ∃ late' served', balance y (q :: tr) y' late' served') as Hdone.
  { intros la se H1 H2 H3 H4 H5. exists la, se. split.
    - by rewrite (waits_of_cons q tr).
    - done.
    - by rewrite B3.
    - rewrite (notifies_of_cons q tr). intros H0 Hmax.
      destruct (move_count _ _ _ _ Hm H0 Hn Hmax) as [Hc0 Hcm].
      rewrite <- (H4 H0 Hmax). by apply B4.
    - by rewrite (notifies_of_cons q tr). }
  unfold units in *. rewrite (waits_of_cons q tr), (notifies_of_cons q tr) in Hdone.
  destruct Hm as [q y1 Hw Hnq Hq Hc|t y1 Hlt Hq Hc|t y1 Hle Hq Hc|t y1 Hq0 Hq Hc|t u l y1 Hq0 Hq Hc].
  - rewrite Hw, Hnq, Hq, Hc in *. cbn [app] in *. apply (Hdone late served); [done|done|f_equal; lia|lia|lia].
  - rewrite Hq, Hc, waits_self in *. cbn [notifies_of app length] in *.
    apply (Hdone late served); [by apply sublist_cons|done| | |lia].
    + unfold u32, i32. Z.to_euclidean_division_equations. lia.
    + intros H0 Hmax. rewrite i32_small by (unfold INT_MIN; lia). lia.
  - rewrite Hq, Hc, waits_self in *. cbn [notifies_of app length] in *.
    apply (Hdone (t :: late) served).
    + by apply sublist_skip.
    + rewrite <- B2, <- app_assoc. done.
    + f_equal. cbn [length]. lia.
    + cbn [length]. lia.
    + rewrite length_app in B5. lia.
  - rewrite notifies_self, Hq, Hc, Hq0 in *. cbn [waits_of app length] in *.
    apply (Hdone late served); [done|done| | |lia].
    + unfold u32, i32. Z.to_euclidean_division_equations. lia.
    + intros H0 Hmax. rewrite i32_small by (unfold INT_MIN; lia). lia.
  - rewrite notifies_self, Hq0, Hq, Hc in *. cbn [waits_of app length] in *.
    apply (Hdone late (u :: served)); cbn [app length]; [done|by rewrite B2|f_equal; lia|lia|lia].
Qed.

Lemma balance_trace c y tr c' :
  sys_inv c y → sys_trace c tr c' → is_Some (y_sems y !! p) →
  ∃ y' late served, sys_inv c' y' ∧ balance y tr y' late served.
Proof.
  intros Hi Htr. revert y Hi. induction Htr as [c|c1 l c2 tr c3 Hst _ IH]; intros y Hi Hp.
  - exists y, [], []. split; [done|].
    assert (units y [] [] [] = count_of y p) as Hu by (unfold units; cbn; lia).
    split; rewrite ?Hu; cbn; rewrite ?app_nil_r; try done; lia.
  - pose proof (sem_step_move c1 l c2 y Hi Hst Hp) as Hm.
    destruct (sys_step_sim _ _ _ _ Hi Hst) as (_ & Hi2 & _).
    destruct (IH _ Hi2 (sems_next _ _ _ Hp)) as (y' & la & se & Hi3 & B).
    destruct (balance_cons _ _ _ _ _ _ _ Hm B) as (la' & se' & B'). by exists y', la', se'.
Qed.
End semaphore.

(** ** Mutexes *)

Section mutex.
Context `{Platform}.
Context (m : Z).

(** The tasks that call rein_mutex_lock on [m], in the steps of a trace. *)
Fixpoint locks_of (tr : list (Z * label)) : list Z :=
  match tr with
  | [] => []
  | (t, LCall (CLock q)) :: tr => if q =? m then t :: locks_of tr else locks_of tr
  | _ :: tr => locks_of tr
  end.
Definition lock_queue (y : asys) : list Z := waiters_of y (mutex_wait_list m).
Definition lock_owner (y : asys) : Z := owner (mutex_of y m).

(** What a step does to the owner and the queue of [m]: with nobody waiting
    the owner may change in any way. *)
Inductive lock_move (y : asys) : Z * label → asys → Prop :=
| lock_idle q y' : lock_queue y = [] → lock_queue y' = [] → lock_move y q y'
| lock_other q y' :
    lock_queue y' = lock_queue y → lock_owner y' = lock_owner y → lock_move y q y'
| lock_wait t y' :
    lock_queue y' = lock_queue y ++ [t] → lock_owner y' = lock_owner y →
    lock_move y (t, LCall (CLock m)) y'
| lock_pass q u l y' :
    lock_queue y = u :: l → lock_queue y' = l → lock_owner y' = u → lock_move y q y'.

Section call.
Context (y : asys) (Ha : awf (y_sched y)) (Hc : a_curr (y_sched y) ≠ idle_task) (Hl : locks_ok y).
Context (Hm : is_Some (y_mutexes y !! m)).

Lemma lock_owner_ne a ss m0 mx : m0 ≠ m → lock_owner (ASys a (<[m0 := mx]> (y_mutexes y)) ss) = lock_owner y.
Proof using Type. intros Hne. unfold lock_owner, mutex_of. cbn. by rewrite lookup_insert_ne. Qed.
Lemma lock_owner_eq a ss mx : lock_owner (ASys a (<[m := mx]> (y_mutexes y)) ss) = owner mx.
Proof using Type. unfold lock_owner, mutex_of. cbn. by rewrite lookup_insert_eq. Qed.

Lemma call_lock_move : lock_move y (a_curr (y_sched y), LCall (CLock m)) (y_lock m y).
Proof using Ha Hc Hl Hm.
  destruct Hm as [mx Hmx]. destruct (lk_mutex _ Hl m mx Hmx) as (l & Hw & Hfree & _).
  unfold y_lock. rewrite (mutex_of_some _ _ _ Hmx). unfold mutex_lock_step.
  destruct (Z.eqb_spec (locker mx) 0) as [H0|H0].
  - destruct (Hfree H0) as [_ ->]. apply lock_idle; by apply waiters_of_some.
  - destruct (Z.eqb_spec (owner mx) (a_curr (y_sched y))) as [Ho|Ho].
    + apply lock_other; [by apply wait_same|]. rewrite lock_owner_eq. unfold lock_owner.
      by rewrite (mutex_of_some _ _ _ Hmx).
    + apply lock_wait; [|done]. destruct (curr_ready _ Ha Hc) as [r Hr].
      unfold lock_queue, waiters_of. cbn. by rewrite (a_wait_block _ _ _ _ _ Hr Hw), lookup_insert_eq, Hw.
Qed.
Lemma call_unlock_move t : lock_move y (t, LCall (CUnlock m)) (y_unlock m y).
Proof using Hl Hm.
  destruct Hm as [mx Hmx]. destruct (lk_mutex _ Hl m mx Hmx) as (l & Hw & _).
  unfold y_unlock. rewrite (mutex_of_some _ _ _ Hmx), (waiters_of_some _ _ _ Hw).
  pose proof (waiters_of_some _ _ _ Hw : lock_queue y = l) as Hq. unfold mutex_unlock_step.
  destruct (i32 (locker mx - 1) =? 0).
  - destruct l as [|u l].
    + apply lock_idle; [done|]. by apply waiters_of_some.
    + apply (lock_pass y _ u l); [done| |by rewrite lock_owner_eq].
      unfold lock_queue, waiters_of. cbn. by rewrite (a_wait_wake _ _ _ _ Hw), lookup_insert_eq.
  - apply lock_other; [by apply wait_same|]. rewrite lock_owner_eq. unfold lock_owner.
    by rewrite (mutex_of_some _ _ _ Hmx).
Qed.

(** Other calls leave the mutex and its wait list alone. *)
Lemma call_move k : call_ok k y → lock_move y (a_curr (y_sched y), LCall k) (y_call k y).
Proof using Ha Hc Hl Hm.
  intros Hok. destruct k as [|ms|q|q|q|q]; cbn [y_call].
  - apply lock_other; [|done]. apply wait_same. apply (a_all_yield (y_sched y)).
  - apply lock_other; [|done]. apply wait_same. apply (a_all_sleep (sleep_ticks_of ms) (y_sched y)).
  - destruct (decide (q = m)) as [->|Hq]; [apply call_lock_move|].
    unfold y_lock. destruct (mutex_lock_step _ _); apply lock_other; try done.
    + by apply lock_owner_ne.
    + by apply wait_block, wait_list_ne.
  - destruct (decide (q = m)) as [->|Hq]; [apply call_unlock_move|].
    apply lock_other; [|by apply lock_owner_ne].
    unfold y_unlock. destruct (_ =? 0); [|by apply wait_same].
    destruct (waiters_of _ _); [by apply wait_same|]. by apply wait_wake, wait_list_ne.
  - assert (sem_wait_list q ≠ mutex_wait_list m) as Hw by (intros E; by apply (lk_apart _ Hl m q Hm Hok)).
    unfold y_wait. destruct (0 <? count_of y q); apply lock_other; try done. by apply wait_block.
  - assert (sem_wait_list q ≠ mutex_wait_list m) as Hw by (intros E; by apply (lk_apart _ Hl m q Hm Hok)).
    unfold y_notify. destruct (waiters_of y (sem_wait_list q)); apply lock_other; try done.
    by apply wait_wake.
Qed.
End call.

Lemma lock_step_move c l c' y :
  sys_inv c y → sys_step c l c' → is_Some (y_mutexes y !! m) →
  lock_move y (k_curr (c_state c), l) (y_next c l y).
Proof.
  intros Hi Hst Hm. destruct (sys_step_sim _ _ _ _ Hi Hst) as (Hy & _ & _).
  rewrite (sys_inv_curr _ _ Hi). inversion Hy as [k y1 Hc Hok|e y1]; subst; cbn [y_next].
  - apply call_move; [apply (co_wf _ _ _ (si_core _ _ Hi))|done|apply (si_locks _ _ Hi)|done|done].
  - apply lock_other; [|done]. apply wait_same. apply a_all_tick.
Qed.
Lemma mutexes_next c l y : is_Some (y_mutexes y !! m) → is_Some (y_mutexes (y_next c l y) !! m).
Proof.
  intros Hm. destruct l as [[|ms|q|q|q|q]|]; cbn; try done.
  - unfold y_lock. destruct (mutex_lock_step _ _); [|done]. cbn. rewrite lookup_insert_is_Some.
    destruct (decide (q = m)); auto.
  - rewrite lookup_insert_is_Some. destruct (decide (q = m)); auto.
  - unfold y_wait. by destruct (0 <? _).
  - unfold y_notify. by destruct (waiters_of _ _).
Qed.

(** The tasks that had to wait in a trace, and those that were given the
    mutex. *)
Record handed (y : asys) (tr : list (Z * label)) (y' : asys) (late served : list Z) : Prop := {
  ha_late : late `sublist_of` locks_of tr;
  ha_fifo : lock_queue y ++ late = served ++ lock_queue y';
  ha_owner : len served < len (lock_queue y) → lock_owner y' = default (lock_owner y) (last served)
}.

Lemma locks_of_cons q tr : locks_of (q :: tr) = locks_of [q] ++ locks_of tr.
Proof. destruct q as [t [[]|]]; try done. cbn. by case_match. Qed.

Lemma handed_cons y q y1 tr y' late served :
  lock_move y q y1 → handed y1 tr y' late served → ∃ late' served', handed y (q :: tr) y' late' served'.
Proof.
  intros Hm [H1 H2 H3].
  assert (∀ la se, la `sublist_of` locks_of [q] ++ locks_of tr → lock_queue y ++ la = se ++ lock_queue y' →
    (len se < len (lock_queue y) → lock_owner y' = default (lock_owner y) (last se)) →
    ∃ late' served', handed y (q :: tr) y' late' served') as Hdone.
  { intros la se ???. exists la, se. split; by rewrite ?(locks_of_cons q tr). }
  destruct Hm as [q y1 Hq Hq1|q y1 Hq Ho|t y1 Hq Ho|q u l y1 Hq Hq1 Ho].
  - rewrite Hq, Hq1 in *. apply (Hdone late served); [by apply sublist_inserts_l|done|cbn; lia].
  - rewrite Hq, Ho in *. apply (Hdone late served); [by apply sublist_inserts_l|done|done].
  - rewrite Hq, Ho in *. apply (Hdone (t :: late) served).
    + cbn. rewrite Z.eqb_refl. by apply sublist_skip.
    + by rewrite <- H2, <- app_assoc.
    + intros Hlt. apply H3. rewrite length_app. lia.
  - rewrite Hq, Hq1, Ho in *. apply (Hdone late (u :: served)).
    + by apply sublist_inserts_l.
    + cbn. by rewrite H2.
    + cbn [length]. intros Hlt. rewrite H3 by lia. by rewrite last_cons_or.
Qed.

Lemma handed_trace c y tr c' :
  sys_inv c y → sys_trace c tr c' → is_Some (y_mutexes y !! m) →
  ∃ y' late served, sys_inv c' y' ∧ handed y tr y' late served.
Proof.
  intros Hi Htr. revert y Hi. induction Htr as [c|c1 l c2 tr c3 Hst _ IH]; intros y Hi Hm.
  - exists y, [], []. split; [done|]. split; cbn; by rewrite ?app_nil_r.
  - pose proof (lock_step_move c1 l c2 y Hi Hst Hm) as Hmv.
    destruct (sys_step_sim _ _ _ _ Hi Hst) as (_ & Hi2 & _).
    destruct (IH _ Hi2 (mutexes_next _ _ _ Hm)) as (y' & la & se & Hi3 & B).
    destruct (handed_cons _ _ _ _ _ _ _ Hmv B) as (la' & se' & B'). by exists y', la', se'.
Qed.
End mutex.

(** ** Properties *)

(** C12: A semaphore loses no waiter, and no unit while its count fits an int:
    over every run of the kernel, whatever the tasks call and however the timer
    interrupts, the tasks that had to queue do so in the order of their calls
    of sem_wait, behind those that waited before, and are served in that
    order, and [n] notifications serve at least the first [n] waiters. Every
    sem_notify serves one of them or adds a unit, every sem_wait queues or
    takes a unit, so the count is what these books say, modulo 2^32. When it
    was not negative at the start and the notifications fit above it, that is
    count + notifications <= INT_MAX, it is exactly what they say and never
    negative. Nothing in sem_notify keeps the notifications below that bound:
    the one too many turns the count negative. *)
Theorem sem_units `{Platform} p c y tr c' :
  sys_inv c y → sys_trace c tr c' → is_Some (y_sems y !! p) →
  ∃ y' late served, sys_inv c' y' ∧
    late `sublist_of` waits_of p tr ∧
    queue p y ++ late = served ++ queue p y' ∧
    Z.min (notifies_of p tr) (len (queue p y)) <= len served <= notifies_of p tr ∧
    let n := count_of y p + (notifies_of p tr - len served) - (len (waits_of p tr) - len late) in
    u32 (count_of y' p) = u32 n ∧
    (0 <= count_of y p → count_of y p + notifies_of p tr <= INT_MAX →
      0 <= count_of y' p ∧ count_of y' p = n).
Proof.
  intros Hi Htr Hp.
  destruct (balance_trace p c y tr c' Hi Htr Hp) as (y' & late & served & Hi' & [B1 B2 B3 B4 B5]).
  by exists y', late, served.
Qed.

(** The notification too many: with nobody waiting a full count wraps. *)
Lemma notify_wraps `{Platform} p y :
  waiters_of y (sem_wait_list p) = [] → count_of y p = INT_MAX → count_of (y_notify p y) p = INT_MIN.
Proof.
  intros Hw Hc. unfold y_notify. rewrite Hw, Hc. unfold count_of. cbn. by rewrite lookup_insert_eq.
Qed.

(** C7: A mutex is fair and nobody barges in: over every run of the kernel the
    tasks that had to wait for it do so in the order of their calls of
    rein_mutex_lock, behind those that waited before, and are given it in that
    order; and as long as one of the tasks that waited at the start still
    waits, the mutex has been passed on to those in front of it, one after
    the other, and to no other task. *)
Theorem mutex_fifo `{Platform} m c y tr c' :
  sys_inv c y → sys_trace c tr c' → is_Some (y_mutexes y !! m) →
  ∃ y' late served, sys_inv c' y' ∧
    late `sublist_of` locks_of m tr ∧
    lock_queue m y ++ late = served ++ lock_queue m y' ∧
    (len served < len (lock_queue m y) → lock_owner m y' = default (lock_owner m y) (last served)).
Proof.
  intros Hi Htr Hm. destruct (handed_trace m c y tr c' Hi Htr Hm) as (y' & late & served & Hi' & [B1 B2 B3]).
  by exists y', late, served.
Qed.
