(* ===== verification/Lines.v ===== *)
(** * Lines of the log under interleaving

    log_println and log_printfln hold the log's mutex while they send a line,
    but run with interrupts enabled: other tasks run between two characters.
    Here the two routines are cut into the steps between which an interrupt
    can occur, and the system of [System] is extended with these steps. *)

From S2P Require Import Prelude Mem DList Klib Machine Irq Sched SchedSpec SchedOps Mutex Sem TaskInit.
From S2P Require Import Log Timer Init System Liveness Boot.

(** ** The steps of log_println *)

(** Where a task is in the sending of the text [bs]: in the call of
    rein_mutex_lock or in the loop at the address [p], or past the loop. *)
Inductive phase : Type :=
| Chars (p : Z) (bs : list Z)
| Cr (bs : list Z)
| Lf (bs : list Z)
| Unlock (bs : list Z).

Record lconfig : Type := LConfig {
  l_config : config;
  l_phase : gmap Z phase            (* the tasks in a logging routine *)
}.

(** What a step shows: a task begins a line, or its last byte is sent. *)
Inductive event : Type :=
| EBegin (t : Z) (bs : list Z)
| EEnd (t : Z) (bs : list Z).

Definition with_state_of (c : config) (s : kstate) : config := Config s (c_saved c) (c_calls c).

Section lines.
Context `{Platform}.

(** A task outside the routines calls the kernel, except on the log's mutex,
    or computes: it may change the memory, but not the text another task is
    sending (kernel_vsprintf writes to the stack of its caller). *)
Inductive line_step : lconfig → list event → lconfig → Prop :=
| line_tick c ph c' :
    sys_step c LTick c' → line_step (LConfig c ph) [] (LConfig c' ph)
| line_call c ph k c' :
    ph !! running c = None → k ≠ CLock log_mutex → k ≠ CUnlock log_mutex →
    sys_step c (LCall k) c' → line_step (LConfig c ph) [] (LConfig c' ph)
| line_compute c ph m :
    ph !! running c = None →
    (∀ t p bs cs, ph !! t = Some (Chars p bs) → cstr_at (k_mem (c_state c)) p cs → cstr_at m p cs) →
    line_step (LConfig c ph) [] (LConfig (with_state_of c (with_mem m (c_state c))) ph)
| line_begin c ph msg bs c' :
    ph !! running c = None → cstr_at (k_mem (c_state c)) msg bs →
    sys_step c (LCall (CLock log_mutex)) c' →
    line_step (LConfig c ph) [EBegin (running c) bs] (LConfig c' (<[running c := Chars msg bs]> ph))
| line_char c ph p bs p' s' :
    ph !! running c = Some (Chars p bs) → log_char p (c_state c) = Done (Cont p') s' →
    line_step (LConfig c ph) [] (LConfig (with_state_of c s') (<[running c := Chars p' bs]> ph))
| line_chars_end c ph p bs s' :
    ph !! running c = Some (Chars p bs) → log_char p (c_state c) = Done (Brk tt) s' →
    line_step (LConfig c ph) [] (LConfig (with_state_of c s') (<[running c := Cr bs]> ph))
| line_cr c ph bs s' :
    ph !! running c = Some (Cr bs) → outb COM1_PORT 13 (c_state c) = Done tt s' →
    line_step (LConfig c ph) [] (LConfig (with_state_of c s') (<[running c := Lf bs]> ph))
| line_lf c ph bs s' :
    ph !! running c = Some (Lf bs) → outb COM1_PORT 10 (c_state c) = Done tt s' →
    line_step (LConfig c ph) [EEnd (running c) bs]
      (LConfig (with_state_of c s') (<[running c := Unlock bs]> ph))
| line_unlock c ph bs c' :
    ph !! running c = Some (Unlock bs) → sys_step c (LCall (CUnlock log_mutex)) c' →
    line_step (LConfig c ph) [] (LConfig c' (delete (running c) ph)).

Inductive line_trace : lconfig → list event → lconfig → Prop :=
| lines_nil L : line_trace L [] L
| lines_snoc L1 evs L2 e L3 :
    line_trace L1 evs L2 → line_step L2 e L3 → line_trace L1 (evs ++ e) L3.

Lemma line_trace_app L1 e1 L2 e2 L3 :
  line_trace L1 e1 L2 → line_trace L2 e2 L3 → line_trace L1 (e1 ++ e2) L3.
Proof.
  intros H1 H2. induction H2 as [L|L1' evs L2' e L3' _ IH Hst].
  - by rewrite app_nil_r.
  - rewrite app_assoc. econstructor; [|exact Hst]. by apply IH.
Qed.

(** ** What is on the line *)

(** The texts whose lines are complete, oldest first, and those of a task. *)
Definition ended (evs : list event) : list (list Z) :=
  omap (λ e, match e with EEnd _ bs => Some bs | _ => None end) evs.
Definition ended_by (t : Z) (evs : list event) : list (list Z) :=
  omap (λ e, match e with EEnd u bs => if u =? t then Some bs else None | _ => None end) evs.
Definition begun_by (t : Z) (evs : list event) : list (list Z) :=
  omap (λ e, match e with EBegin u bs => if u =? t then Some bs else None | _ => None end) evs.

(** The text of a phase, as long as its line is not complete. *)
Definition text_of (ph : option phase) : list (list Z) :=
  match ph with
  | Some (Chars _ bs) | Some (Cr bs) | Some (Lf bs) => [bs]
  | Some (Unlock _) | None => []
  end.

(** [part] is what has been sent of the line. *)
Definition progress (m : mem) (ph : phase) (part : list Z) : Prop :=
  match ph with
  | Chars p bs => ∃ rest, bs = part ++ rest ∧ cstr_at m p rest
  | Cr bs => part = bs
  | Lf bs => part = bs ++ [13]
  | Unlock _ => part = []
  end.

Lemma progress_part m ph part :
  progress m ph part → part = [] ∨ ∃ bs, [bs] = text_of (Some ph) ∧ part `prefix_of` line bs.
Proof using Type.
  destruct ph as [p bs|bs|bs|bs]; intros Hp; [right; exists bs; (split; [done|])..|by left].
  - destruct Hp as (rest & -> & _). exists (rest ++ [13; 10]). unfold line. by rewrite <- app_assoc.
  - cbn in Hp. subst part. by eexists.
  - cbn in Hp. subst part. exists [10]. unfold line. by rewrite <- app_assoc.
Qed.

(** ** The invariant *)

Record line_inv (out : list Z) (L : lconfig) (y : asys) (evs : list event) : Prop := {
  li_sys : sys_inv (l_config L) y;
  li_phase : ∀ t, is_Some (l_phase L !! t) → entered_lock (l_config L) t log_mutex;
  li_wait : waiters_pending (l_config L) y log_mutex;
  li_pend : ∀ t, c_calls (l_config L) !! t = Some (CLock log_mutex) →
    ∃ p bs, l_phase L !! t = Some (Chars p bs) ∧ cstr_at (k_mem (c_state (l_config L))) p bs;
  li_out : ∃ mx part, y_mutexes y !! log_mutex = Some mx ∧
    serial_out (k_io (c_state (l_config L))) = out ++ concat (line <$> ended evs) ++ part ∧
    ((locker mx = 0 ∧ part = []) ∨
     (locker mx = 1 ∧ ∃ ph, l_phase L !! owner mx = Some ph ∧
       progress (k_mem (c_state (l_config L))) ph part));
  li_texts : ∀ t, begun_by t evs = ended_by t evs ++ text_of (l_phase L !! t)
}.
End lines.


(** ** Preservation *)

Section steps.
Context `{Platform}.

(** Steps outside the kernel change the memory or the ports only. *)
Lemma sys_inv_mem c y m : sys_inv c y → sys_inv (with_state_of c (with_mem m (c_state c))) y.
Proof. intros [[[] ? ? ? ? ? ?] ? ? ? ? ?]. by do 3 (split; try done). Qed.
Lemma sys_inv_io c y tr : sys_inv c y → sys_inv (with_state_of c (with_io tr (c_state c))) y.
Proof. intros [[[] ? ? ? ? ? ?] ? ? ? ? ?]. by do 3 (split; try done). Qed.

(** The kernel sends nothing. *)
Lemma kernel_sends_nothing c l c' y :
  sys_inv c y → sys_step c l c' →
  k_mem (c_state c') = k_mem (c_state c) ∧
  serial_out (k_io (c_state c')) = serial_out (k_io (c_state c)).
Proof.
  intros Hi Hst. destruct (sys_step_rest _ _ _ _ Hi Hst) as [-> -> _ _ _]. destruct l; [done|].
  split; [done|]. cbn. by rewrite app_nil_r.
Qed.

(** Where a pending call comes from. *)
Lemma calls_prev c l c' t k :
  sys_step c l c' → c_calls c' !! t = Some k →
  c_calls c !! t = Some k ∨ (running c, l) = (t, LCall k).
Proof.
  intros Hst Hk. destruct Hst as [s cs pend k0 s' cs' _ _ _|s cs pend s' cs' _ _];
    cbn in *; apply lookup_delete_Some in Hk as [_ Hk]; [|by left].
  apply lookup_insert_Some in Hk as [[<- <-]|[_ Hk]]; [by right|by left].
Qed.

Lemma running_curr c y : sys_inv c y → running c = a_curr (y_sched y).
Proof. apply sys_inv_curr. Qed.

Section inv.
Context (out : list Z) (c : config) (ph : gmap Z phase) (y : asys) (evs : list event).
Context (HI : line_inv out (LConfig c ph) y evs).

(** A task past rein_mutex_lock that runs holds the mutex. *)
Lemma running_holds p : ph !! running c = Some p → holds c (running c) log_mutex.
Proof using HI.
  intros Hp. pose proof (li_sys _ _ _ _ HI) as Hi. cbn in Hi.
  destruct (li_phase _ _ _ _ HI (running c)) as [Hc|Hh]; [by eexists|exfalso|done].
  cbn in Hc. rewrite (running_curr _ _ Hi), (si_curr _ _ Hi) in Hc. done.
Qed.

Lemma mutex_exists : is_Some (y_mutexes y !! log_mutex).
Proof using HI. destruct (li_out _ _ _ _ HI) as (mx & _ & Hm & _). by exists mx. Qed.

(** The owner's line is the one under way. *)
Lemma owner_line p :
  ph !! running c = Some p →
  ∃ mx part, y_mutexes y !! log_mutex = Some mx ∧ locker mx = 1 ∧ owner mx = running c ∧
    serial_out (k_io (c_state c)) = out ++ concat (line <$> ended evs) ++ part ∧
    progress (k_mem (c_state c)) p part.
Proof using HI.
  intros Hp. destruct (running_holds p Hp) as (mx0 & Hm0 & Hlk & Ho).
  destruct (li_out _ _ _ _ HI) as (mx & part & Hm & Hout & Hpart). cbn in Hout, Hpart.
  pose proof (li_sys _ _ _ _ HI) as Hi. cbn in Hi. rewrite (si_mutexes _ _ Hi), Hm in Hm0.
  injection Hm0 as <-. destruct Hpart as [[? _]|(Hl1 & p' & Hp' & Hpr)]; [done|].
  rewrite Ho, Hp in Hp'. injection Hp' as <-. by exists mx, part.
Qed.

(** A step of the kernel that is not about the log's mutex. *)
Lemma kernel_inv l c' :
  sys_step c l c' → l ≠ LCall (CLock log_mutex) → l ≠ LCall (CUnlock log_mutex) →
  line_inv out (LConfig c' ph) (y_next c l y) evs.
Proof using HI.
  intros Hst Hl1 Hl2. pose proof (li_sys _ _ _ _ HI) as Hi. cbn in Hi.
  destruct (sys_step_sim _ _ _ _ Hi Hst) as (_ & Hi' & _).
  destruct (kernel_sends_nothing _ _ _ _ Hi Hst) as [Hmem Hser].
  split; cbn.
  - done.
  - intros t Ht. apply (entered_lock_step c l c' y); try done.
    + intros Hu. injection Hu. by intros ->.
    + left. by apply (li_phase _ _ _ _ HI).
  - apply (waiters_pending_step c l c' y); try done; [apply mutex_exists|apply (li_wait _ _ _ _ HI)].
  - intros t Ht. rewrite Hmem. destruct (calls_prev _ _ _ _ _ Hst Ht) as [Hc|Hc].
    + by apply (li_pend _ _ _ _ HI).
    + injection Hc. by intros ->.
  - rewrite Hmem, Hser. destruct (li_out _ _ _ _ HI) as (mx & part & Hm & Hrest).
    exists mx, part. split; [|done]. destruct l as [k|]; [|done]. cbn [y_next].
    rewrite mutex_other_call; congruence.
  - apply (li_texts _ _ _ _ HI).
Qed.

(** The mutex after the call of a task that starts a line: taken, or not. *)
Lemma lock_line mx msg bs part c' :
  ph !! running c = None → sys_step c (LCall (CLock log_mutex)) c' →
  cstr_at (k_mem (c_state c)) msg bs → y_mutexes y !! log_mutex = Some mx →
  (locker mx = 0 ∧ part = []) ∨
  (locker mx = 1 ∧ ∃ p, ph !! owner mx = Some p ∧ progress (k_mem (c_state c)) p part) →
  ∃ mx', y_mutexes (y_lock log_mutex y) !! log_mutex = Some mx' ∧
    ((locker mx' = 0 ∧ part = []) ∨
     (locker mx' = 1 ∧ ∃ p, <[running c := Chars msg bs]> ph !! owner mx' = Some p ∧
       progress (k_mem (c_state c)) p part)).
Proof using HI.
  intros Hn Hst Hs Hm Hpart. pose proof (li_sys _ _ _ _ HI) as Hi. cbn in Hi.
  unfold y_lock. rewrite (mutex_of_some _ _ _ Hm). unfold mutex_lock_step.
  rewrite <- (running_curr _ _ Hi).
  destruct Hpart as [[Hl ->]|(Hl & p & Hp & Hpr)]; rewrite Hl.
  - eexists. cbn. rewrite lookup_insert_eq. split; [done|]. right. split; [done|]. cbn.
    exists (Chars msg bs). rewrite lookup_insert_eq. split; [done|]. by exists bs.
  - cbn. assert (owner mx ≠ running c) as Hne by congruence.
    rewrite (proj2 (Z.eqb_neq _ _) Hne). cbn. exists mx. split; [done|]. right. split; [done|].
    exists p. by rewrite lookup_insert_ne by done.
Qed.

Lemma begin_inv msg bs c' :
  ph !! running c = None → cstr_at (k_mem (c_state c)) msg bs →
  sys_step c (LCall (CLock log_mutex)) c' →
  line_inv out (LConfig c' (<[running c := Chars msg bs]> ph))
    (y_next c (LCall (CLock log_mutex)) y) (evs ++ [EBegin (running c) bs]).
Proof using HI.
  intros Hn Hs Hst. pose proof (li_sys _ _ _ _ HI) as Hi. cbn in Hi.
  destruct (sys_step_sim _ _ _ _ Hi Hst) as (_ & Hi' & _).
  destruct (kernel_sends_nothing _ _ _ _ Hi Hst) as [Hmem Hser].
  split; cbn [l_config l_phase].
  - done.
  - intros t Ht. apply (entered_lock_step c (LCall (CLock log_mutex)) c' y); try done.
    destruct (decide (t = running c)) as [->|Hne]; [by right|left].
    rewrite lookup_insert_ne in Ht by done. by apply (li_phase _ _ _ _ HI).
  - apply (waiters_pending_step c _ c' y); try done; [apply mutex_exists|apply (li_wait _ _ _ _ HI)].
  - intros t Ht. rewrite Hmem. destruct (decide (t = running c)) as [->|Hne].
    + rewrite lookup_insert_eq. by exists msg, bs.
    + rewrite lookup_insert_ne by done. destruct (calls_prev _ _ _ _ _ Hst Ht) as [Hc|[= Hc]];
        [by apply (li_pend _ _ _ _ HI)|done].
  - destruct (li_out _ _ _ _ HI) as (mx & part & Hm & Hout & Hpart). cbn in Hout, Hpart.
    destruct (lock_line mx msg bs part c' Hn Hst Hs Hm Hpart) as (mx' & Hm' & Hpart').
    exists mx', part. rewrite Hmem, Hser. split; [done|]. split; [|done].
    unfold ended. rewrite omap_app. cbn. by rewrite app_nil_r.
  - intros t. unfold begun_by, ended_by. rewrite !omap_app. cbn. rewrite app_nil_r.
    fold (begun_by t evs) (ended_by t evs). rewrite (li_texts _ _ _ _ HI t). cbn.
    destruct (Z.eqb_spec (running c) t) as [<-|Hne].
    + rewrite Hn, lookup_insert_eq. cbn. by rewrite app_nil_r.
    + rewrite lookup_insert_ne by done. cbn. by rewrite app_nil_r.
Qed.

(** The mutex after the call of the task that ends its line: free, or owned
    by a task that has sent nothing yet. *)
Lemma unlock_line mx bs :
  ph !! running c = Some (Unlock bs) → y_mutexes y !! log_mutex = Some mx →
  locker mx = 1 → 
  ∃ mx', y_mutexes (y_unlock log_mutex y) !! log_mutex = Some mx' ∧
    (locker mx' = 0 ∨
     (locker mx' = 1 ∧ ∃ p, delete (running c) ph !! owner mx' = Some p ∧
       progress (k_mem (c_state c)) p [])).
Proof using HI.
  intros Hp Hm Hl. unfold y_unlock. rewrite (mutex_of_some _ _ _ Hm). cbn.
  rewrite lookup_insert_eq. unfold mutex_unlock_step. rewrite Hl. change (i32 (1 - 1) =? 0) with true.
  cbn [y_mutexes]. eexists. split; [done|].
  destruct (waiters_of y (mutex_wait_list log_mutex)) as [|u l] eqn:Hw; [by left|right].
  split; [done|]. cbn [owner].
  destruct (li_pend _ _ _ _ HI u) as (p & bs' & Hu & Hs).
  { apply (li_wait _ _ _ _ HI). rewrite Hw, elem_of_cons. by left. }
  cbn [l_config l_phase] in Hu, Hs. exists (Chars p bs').
  rewrite lookup_delete_ne by (intros <-; by rewrite Hp in Hu).
  split; [done|]. by exists bs'.
Qed.

Lemma unlock_inv bs c' :
  ph !! running c = Some (Unlock bs) → sys_step c (LCall (CUnlock log_mutex)) c' →
  line_inv out (LConfig c' (delete (running c) ph)) (y_next c (LCall (CUnlock log_mutex)) y) evs.
Proof using HI.
  intros Hp Hst. pose proof (li_sys _ _ _ _ HI) as Hi. cbn in Hi.
  destruct (sys_step_sim _ _ _ _ Hi Hst) as (_ & Hi' & _).
  destruct (kernel_sends_nothing _ _ _ _ Hi Hst) as [Hmem Hser].
  split; cbn [l_config l_phase].
  - done.
  - intros t Ht. apply lookup_delete_is_Some in Ht as [Hne Ht].
    apply (entered_lock_step c (LCall (CUnlock log_mutex)) c' y); try done.
    + by intros [= ?].
    + left. by apply (li_phase _ _ _ _ HI).
  - apply (waiters_pending_step c _ c' y); try done; [apply mutex_exists|apply (li_wait _ _ _ _ HI)].
  - intros t Ht. rewrite Hmem. destruct (calls_prev _ _ _ _ _ Hst Ht) as [Hc|Hc]; [|done].
    destruct (li_pend _ _ _ _ HI t Hc) as (p & bs' & Ht' & Hs). cbn [l_config l_phase] in Ht', Hs.
    exists p, bs'. by rewrite lookup_delete_ne by (intros <-; by rewrite Hp in Ht').
  - destruct (owner_line _ Hp) as (mx & part & Hm & Hl & Ho & Hout & Hpr). cbn in Hpr. subst part.
    destruct (unlock_line mx bs Hp Hm Hl) as (mx' & Hm' & Hown). exists mx', [].
    rewrite Hmem, Hser. split; [done|]. split; [done|]. destruct Hown; [left; done|by right].
  - intros t. rewrite (li_texts _ _ _ _ HI t). cbn.
    destruct (decide (t = running c)) as [->|Hne].
    + by rewrite Hp, lookup_delete_eq.
    + by rewrite lookup_delete_ne.
Qed.

(** A step of the owner on the ports. *)
Lemma send_inv p0 p1 tr e :
  ph !! running c = Some p0 →
  (∀ pre part, serial_out (k_io (c_state c)) = pre ++ part → progress (k_mem (c_state c)) p0 part →
    ∃ part', serial_out tr = pre ++ concat (line <$> ended e) ++ part' ∧
      progress (k_mem (c_state c)) p1 part') →
  (∀ t, begun_by t e = []) →
  (∀ t, ended_by t e ++ text_of (<[running c := p1]> ph !! t) = text_of (ph !! t)) →
  line_inv out (LConfig (with_state_of c (with_io tr (c_state c))) (<[running c := p1]> ph)) y (evs ++ e).
Proof using HI.
  intros Hp Hpr Hb Ht. pose proof (li_sys _ _ _ _ HI) as Hi. cbn in Hi.
  split; cbn.
  - by apply sys_inv_io.
  - intros t Hs. apply (li_phase _ _ _ _ HI). cbn.
    destruct (decide (t = running c)) as [->|Hne]; [by eexists|]. by rewrite lookup_insert_ne in Hs.
  - apply (li_wait _ _ _ _ HI).
  - intros t Hc. destruct (li_pend _ _ _ _ HI t Hc) as (p & bs & Hph & Hs). cbn in Hph, Hs.
    exists p, bs. rewrite lookup_insert_ne; [done|]. intros <-.
    rewrite (running_curr _ _ Hi), (si_curr _ _ Hi) in Hc. done.
  - destruct (owner_line _ Hp) as (mx & part & Hm & Hl & Ho & Hout & Hpart).
    rewrite app_assoc in Hout. destruct (Hpr _ _ Hout Hpart) as (part' & Hout' & Hpart').
    exists mx, part'. split; [done|]. split.
    + rewrite Hout'. unfold ended. rewrite omap_app, fmap_app, concat_app. by rewrite <- !app_assoc.
    + right. split; [done|]. exists p1. by rewrite Ho, lookup_insert_eq.
  - intros t. unfold begun_by, ended_by. rewrite !omap_app.
    fold (begun_by t evs) (begun_by t e) (ended_by t evs) (ended_by t e).
    by rewrite Hb, app_nil_r, <- app_assoc, Ht, (li_texts _ _ _ _ HI t).
Qed.

Lemma compute_inv m :
  (∀ t p bs cs, ph !! t = Some (Chars p bs) → cstr_at (k_mem (c_state c)) p cs → cstr_at m p cs) →
  line_inv out (LConfig (with_state_of c (with_mem m (c_state c))) ph) y evs.
Proof using HI.
  intros Hm. pose proof (li_sys _ _ _ _ HI) as Hi. cbn in Hi. split; cbn.
  - by apply sys_inv_mem.
  - apply (li_phase _ _ _ _ HI).
  - apply (li_wait _ _ _ _ HI).
  - intros t Hc. destruct (li_pend _ _ _ _ HI t Hc) as (p & bs & Hph & Hs). exists p, bs.
    split; [done|]. by eapply Hm.
  - destruct (li_out _ _ _ _ HI) as (mx & part & Hmx & Hout & Hpart). exists mx, part.
    split; [done|]. split; [done|]. destruct Hpart as [?|(Hl & p & Hp & Hpr)]; [by left|right].
    split; [done|]. exists p. split; [done|]. destruct p; try done.
    destruct Hpr as (rest & -> & Hs). exists rest. split; [done|]. by eapply Hm.
  - apply (li_texts _ _ _ _ HI).
Qed.
End inv.
End steps.

Section runs.
Context `{Platform}.

Lemma text_of_insert (ph : gmap Z phase) (t u : Z) p0 p1 :
  ph !! t = Some p0 → text_of (Some p1) = text_of (Some p0) →
  text_of (<[t := p1]> ph !! u) = text_of (ph !! u).
Proof.
  intros Hp Ht. destruct (decide (u = t)) as [->|Hne]; [|by rewrite lookup_insert_ne].
  by rewrite lookup_insert_eq, Hp.
Qed.

(** How the abstract state follows a step. *)
Definition moved (L : lconfig) (y : asys) (L' : lconfig) (y' : asys) : Prop :=
  y' = y ∨ ∃ l, sys_step (l_config L) l (l_config L') ∧ y' = y_next (l_config L) l y ∧
    (is_Some (l_phase L !! running (l_config L)) → l = LTick ∨ l = LCall (CUnlock log_mutex)).

Lemma line_step_inv out L e L' y evs :
  line_inv out L y evs → line_step L e L' → ∃ y', line_inv out L' y' (evs ++ e) ∧ moved L y L' y'.
Proof.
  intros HI Hst. destruct Hst as [c ph c' Hs|c ph k c' Hn Hk1 Hk2 Hs|c ph m Hn Hm
    |c ph msg bs c' Hn Hm Hs|c ph p bs p' s' Hp E|c ph p bs s' Hp E|c ph bs s' Hp E|c ph bs s' Hp E
    |c ph bs c' Hp Hs]; rewrite ?app_nil_r.
  - exists (y_next c LTick y). split; [by apply kernel_inv|]. right. eauto.
  - exists (y_next c (LCall k) y). split; [apply kernel_inv; congruence|]. right. exists (LCall k).
    split_and!; [done|done|]. cbn. rewrite Hn. by intros [? ?].
  - exists y. split; [by apply compute_inv|by left].
  - exists (y_next c (LCall (CLock log_mutex)) y). split; [by apply begin_inv|]. right. eexists.
    split_and!; [done|done|]. cbn. rewrite Hn. by intros [? ?].
  - exists y. split; [|by left]. destruct (owner_line _ _ _ _ _ HI _ Hp) as (_ & _ & _ & _ & _ & _ & rest & _ & Hs).
    destruct rest as [|ch rest]; [by rewrite (log_char_end _ _ Hs) in E|].
    destruct (log_char_next _ _ _ _ Hs) as [E' Hs']. rewrite E' in E.
    assert (p' = p + 1 ∧ s' = with_io (log_traffic (k_io (c_state c)) [ch]) (c_state c)) as [-> ->]
      by (split; congruence).
    rewrite <- (app_nil_r evs). eapply send_inv; [exact HI|exact Hp| |done|].
    + intros pre part Ho (rest' & -> & Hrest'). exists (part ++ [ch]).
      rewrite serial_traffic, Ho, <- app_assoc. split; [done|].
      exists rest. rewrite <- app_assoc. split; [|done]. do 2 f_equal.
      eapply cstr_at_fun; [exact Hrest'|exact Hs].
    + intros t. by eapply text_of_insert.
  - exists y. split; [|by left]. destruct (owner_line _ _ _ _ _ HI _ Hp) as (_ & _ & _ & _ & _ & _ & rest & _ & Hs).
    destruct rest as [|ch rest]; [|by rewrite (proj1 (log_char_next _ _ _ _ Hs)) in E].
    rewrite (log_char_end _ _ Hs) in E. injection E as <-.
    replace (c_state c) with (with_io (k_io (c_state c)) (c_state c)) at 1 by by destruct (c_state c).
    rewrite <- (app_nil_r evs). eapply send_inv; [exact HI|exact Hp| |done|].
    + intros pre part Ho (rest' & -> & Hrest'). exists part. split; [done|]. cbn.
      rewrite (cstr_at_fun _ _ _ _ Hrest' Hs). by rewrite app_nil_r.
    + intros t. by eapply text_of_insert.
  - exists y. split; [|by left]. injection E as <-. rewrite <- (app_nil_r evs).
    eapply send_inv; [exact HI|exact Hp| |done|].
    + intros pre part Ho ->. exists (bs ++ [13]). cbn. rewrite Ho. by rewrite <- !app_assoc.
    + intros t. by eapply text_of_insert.
  - exists y. split; [|by left]. injection E as <-. eapply send_inv; [exact HI|exact Hp| |done|].
    + intros pre part Ho ->. exists []. cbn. rewrite Ho. unfold line.
      by rewrite !app_nil_r, <- !app_assoc.
    + intros t. cbn. destruct (Z.eqb_spec (running c) t) as [<-|Hne].
      * by rewrite Hp, lookup_insert_eq.
      * by rewrite lookup_insert_ne.
  - exists (y_next c (LCall (CUnlock log_mutex)) y). split; [by eapply unlock_inv|]. right. eauto.
Qed.

Lemma line_trace_inv out L evs L' y :
  line_inv out L y [] → line_trace L evs L' → ∃ y', line_inv out L' y' evs.
Proof.
  intros HI Htr. induction Htr as [L|L1 evs L2 e L3 _ IH Hst]; [by exists y|].
  destruct (IH HI) as (y2 & HI2). destruct (line_step_inv _ _ _ _ _ _ HI2 Hst) as (y3 & HI3 & _). by exists y3.
Qed.

(** No task is logging. *)
Lemma line_inv_start c y mx :
  sys_inv c y → y_mutexes y !! log_mutex = Some mx → locker mx = 0 →
  (∀ t, c_calls c !! t ≠ Some (CLock log_mutex)) →
  line_inv (serial_out (k_io (c_state c))) (LConfig c ∅) y [].
Proof.
  intros Hi Hm Hl Hc. split; cbn; try done.
  - intros t [? Ht]. by rewrite lookup_empty in Ht.
  - intros t (l & Hw & Hin)%waiters_of_elem.
    destruct (lk_mutex _ (si_locks _ _ Hi) _ _ Hm) as (l' & Hw' & Hfree & _).
    rewrite Hw in Hw'. injection Hw' as <-. destruct (Hfree Hl) as [_ ->]. by apply elem_of_nil in Hin.
  - intros t Ht. by apply Hc in Ht.
  - exists mx, []. rewrite app_nil_r. auto.
Qed.
End runs.

(** ** The steps of a task left alone are log_println *)

Section alone.
Context `{Platform}.

Lemma line_one L e L' : line_step L e L' → line_trace L e L'.
Proof. intros Hst. rewrite <- (app_nil_l e). econstructor; [constructor|done]. Qed.

Lemma chars_run c ph p bs cs :
  ph !! running c = Some (Chars p bs) → cstr_at (k_mem (c_state c)) p cs →
  line_trace (LConfig c ph) []
    (LConfig (with_state_of c (with_io (log_traffic (k_io (c_state c)) cs) (c_state c)))
       (<[running c := Cr bs]> ph)).
Proof.
  revert c ph p. induction cs as [|ch cs IH]; intros c ph p Hp Hs.
  - apply line_one. eapply line_chars_end; [exact Hp|].
    rewrite (log_char_end _ _ Hs). cbn. by destruct (c_state c).
  - destruct (log_char_next _ _ _ _ Hs) as [E Hs']. rewrite <- (app_nil_l []).
    eapply line_trace_app; [apply line_one; eapply line_char; [exact Hp|exact E]|].
    set (c1 := with_state_of c _). set (ph1 := <[running c := Chars (p + 1) bs]> ph).
    assert (ph1 !! running c1 = Some (Chars (p + 1) bs)) as Hp1 by apply lookup_insert_eq.
    pose proof (IH c1 ph1 (p + 1) Hp1 Hs') as Hr. unfold ph1 in Hr.
    change (running c1) with (running c) in Hr. by rewrite insert_insert_eq in Hr.
Qed.

(** The call of a task that does not leave the processor. *)
Lemma call_returns s cs pend k s' :
  k_curr s ≠ idle_task → args_ok k (k_curr s) (k_mutexes s) (k_sems s) → pend !! k_curr s = None →
  run_call k s = Done tt s' → k_curr s' = k_curr s →
  sys_step (Config s cs pend) (LCall k) (Config s' cs pend).
Proof.
  intros Hc Hok Hn E Hk.
  replace pend with (delete (k_curr s') (<[k_curr s := k]> pend)) at 2
    by (by rewrite Hk, delete_insert_id).
  apply step_call; [done|done|]. rewrite E. apply settle_done.
Qed.

Lemma println_run s cs pend ph msg bs :
  mutex_free s log_mutex → k_curr s ≠ idle_task → pend !! k_curr s = None →
  ph !! k_curr s = None → cstr_at (k_mem s) msg bs → len bs <= INT_MAX →
  ∃ s', log_println msg s = Done tt s' ∧
    line_trace (LConfig (Config s cs pend) ph) [EBegin (k_curr s) bs; EEnd (k_curr s) bs]
      (LConfig (Config s' cs pend) ph).
Proof.
  intros Hf Hc Hn Hph Hs Hl. destruct (Hf) as [Hm Hw].
  exists (with_io (log_line (k_io s) bs) s). split; [by apply log_println_ok|].
  set (t := k_curr s) in *. set (s1 := mutex_set log_mutex (Mutex t 1) s).
  set (s2 := with_io (log_traffic (k_io s) bs) s1).
  set (s3 := with_io (Outb COM1_PORT 13 :: log_traffic (k_io s) bs) s1).
  set (s4 := with_io (log_line (k_io s) bs) s1).
  apply (line_trace_app _ [EBegin t bs] (LConfig (Config s1 cs pend) (<[t := Chars msg bs]> ph))
    [EEnd t bs]); [apply line_one, (line_begin (Config s cs pend) ph msg bs (Config s1 cs pend))|].
  { done. }
  { done. }
  { apply call_returns; try done; [|by apply lock_free].
    cbn. rewrite Hm. split; [by eexists|done]. }
  eapply (line_trace_app _ [] _ [EEnd t bs]); [apply (chars_run (Config s1 cs pend) _ msg bs bs);
    [apply lookup_insert_eq|exact Hs]|]. cbn. rewrite insert_insert_eq.
  eapply (line_trace_app _ [] _ [EEnd t bs]); [apply line_one, (line_cr (Config s2 cs pend) _ bs s3); [apply lookup_insert_eq|done]|].
  cbn. rewrite insert_insert_eq.
  eapply (line_trace_app _ [EEnd t bs] _ []); [apply line_one, (line_lf (Config s3 cs pend) _ bs s4); [apply lookup_insert_eq|done]|].
  cbn. rewrite insert_insert_eq.
  replace ph with (delete t (<[t := Unlock bs]> ph)) at 2 by (by rewrite delete_insert_id).
  apply line_one, (line_unlock (Config s4 cs pend) _ bs); [apply lookup_insert_eq|].
  apply call_returns; try done.
  - cbn. rewrite lookup_insert_eq. split; [by eexists|]. split; done.
  - etrans; [apply unlock_free; [apply mutex_set_lookup|exact Hw]|]. f_equal.
    unfold mutex_set. cbn. rewrite insert_insert_eq, insert_id by done. done.
Qed.

(** log_printfln is kernel_vsprintf, a computation, then log_println. *)
Lemma log_printfln_println str_buf fmt args s :
  log_printfln str_buf fmt args s =
    (run_klib (λ m, kernel_vsprintf m str_buf fmt args);; log_println str_buf) s.
Proof. done. Qed.
End alone.

(** ** Property *)

Section lines_property.
Context `{Platform}.

(** C9: Lines of the log are never mixed: whatever the interleaving of the tasks
    and the timer interrupts, the serial line carries the complete lines of
    texts passed to log_println, one after the other, then at most the
    beginning of one more, whose task holds the log's mutex. Each task's
    lines come in the order it began them, and none is lost or repeated: all
    it has begun are complete but, at most, the last. *)
Theorem lines_whole s s' evs L :
  boot_image s → (kernel_init;; init_main_start) s = Done tt s' →
  line_trace (LConfig (boot_config s') ∅) evs L →
  (∃ part, serial_out (k_io (c_state (l_config L))) =
      serial_out (k_io s') ++ concat (line <$> ended evs) ++ part ∧
    (part = [] ∨ ∃ t bs, holds (l_config L) t log_mutex ∧ [bs] = text_of (l_phase L !! t) ∧
      part `prefix_of` line bs)) ∧
  ∀ t, begun_by t evs = ended_by t evs ++ text_of (l_phase L !! t).
Proof.
  intros Hb E Htr. destruct (boot_ok s Hb) as (s2 & E2 & Hbd).
  rewrite E in E2. injection E2 as <-. clear E.
  destruct (line_trace_inv (serial_out (k_io s')) (LConfig (boot_config s') ∅) evs L (y_boot s')) as (y & HI); [|exact Htr|].
  { apply (line_inv_start (boot_config s') (y_boot s') (Mutex NULL 0)); try done.
    - by apply (boot_inv s).
    - cbn. by rewrite (bd_mutexes _ _ Hbd), lookup_insert_eq. }
  split; [|apply (li_texts _ _ _ _ HI)].
  destruct (li_out _ _ _ _ HI) as (mx & part & Hm & Hout & Hpart). exists part. split; [done|].
  destruct Hpart as [[_ ->]|(Hl & ph & Hph & Hpr)]; [by left|].
  assert (holds (l_config L) (owner mx) log_mutex) as Hh.
  { exists mx. rewrite (si_mutexes _ _ (li_sys _ _ _ _ HI)), Hl. done. }
  destruct (progress_part _ _ _ Hpr) as [->|(bs & Hbs & Hpre)]; [by left|right].
  exists (owner mx), bs. by rewrite Hph.
Qed.
End lines_property.
