(* ===== verification/Create.v ===== *)
(** * Creation of tasks under interleaving (task_init, tss_init, get_alloc_desc)

    task_init runs with interrupts enabled but for its last part: init_main
    calls it after irq_enable_global. Here it is cut into the steps between
    which an interrupt can occur, and the system of [System] is extended with
    them. A step of the search for a descriptor reads or writes one entry of
    the GDT, so two searches at once would take the same entry; the mutex of
    cpu.c excludes that. The steps between the mutex and the critical section
    write to the new task, its descriptor and its TSS only. *)

From S2P Require Import Prelude Mem DList Klib Machine Irq Sched SchedSpec SchedOps Mutex Sem Cpu.
From S2P Require Import TaskInit Timer System Liveness Init Boot Lines.

(** ** The extended system *)

(** The arguments of a call of task_init, and the text of the name. *)
Record job : Type := Job {
  j_task : Z;
  j_name : Z;
  j_text : list Z;
  j_entry : Z;
  j_esp : Z
}.

(** Where a task is in task_init. *)
Inductive cphase : Type :=
| CScan (j : job) (i : Z)            (* in get_alloc_desc, about to look at entry i *)
| CTake (j : job) (i : Z)            (* has seen that entry i is free *)
| CLeave (j : job) (sel : Z)         (* about to unlock the mutex, with this result *)
| CFill (j : job) (sel : Z)          (* back in tss_init *)
| CPrepare (j : job)                 (* back in task_init *)
| CPublish (j : job).                (* before the critical section *)

Definition job_of (p : cphase) : job :=
  match p with
  | CScan j _ | CTake j _ | CLeave j _ | CFill j _ | CPrepare j | CPublish j => j
  end.

(** [x_tasks]: the tasks created so far, oldest first; [x_given]: the
    descriptors taken so far, with the task each is for. *)
Record cconfig : Type := CConfig {
  x_config : config;
  x_phase : gmap Z cphase;
  x_tasks : list Z;
  x_given : list (Z * Z)
}.

Section create.
Context `{Platform}.

(** What the caller of task_init provides: the object of a task that is not
    in use, and a string outside the objects of tasks. *)
Record job_ok (s : kstate) (ts : list Z) (j : job) : Prop := {
  jo_task : is_Some (k_tasks s !! j_task j);
  jo_new : j_task j ∉ idle_task :: ts;
  jo_name : cstr_at (k_mem s) (j_name j) (j_text j);
  jo_len : len (j_text j) <= INT_MAX;
  jo_apart : ∀ t, is_Some (k_tasks s !! t) → disjoint_ranges t sizeof_task (j_name j) (len (j_text j) + 1)
}.

(** A task outside the kernel may write to the memory, but not to the names
    and the TSS of tasks being created. *)
Definition spares (m m' : mem) (j : job) : Prop :=
  cstr_at m' (j_name j) (j_text j) ∧
  load32 m' (j_task j + OFF_tss + TSS_eflags) = load32 m (j_task j + OFF_tss + TSS_eflags).

Inductive create_step : cconfig → cconfig → Prop :=
| create_tick c ph ts gs c' :
    sys_step c LTick c' → create_step (CConfig c ph ts gs) (CConfig c' ph ts gs)
| create_call c ph ts gs k c' :
    ph !! running c = None → k ≠ CLock cpu_mutex → k ≠ CUnlock cpu_mutex →
    sys_step c (LCall k) c' → create_step (CConfig c ph ts gs) (CConfig c' ph ts gs)
| create_compute c ph ts gs m :
    ph !! running c = None → (∀ t p, ph !! t = Some p → spares (k_mem (c_state c)) m (job_of p)) →
    create_step (CConfig c ph ts gs) (CConfig (with_state_of c (with_mem m (c_state c))) ph ts gs)
| create_begin c ph ts gs j c' :
    ph !! running c = None → job_ok (c_state c) ts j →
    (∀ t p, ph !! t = Some p → j_task (job_of p) ≠ j_task j) →
    sys_step c (LCall (CLock cpu_mutex)) c' →
    create_step (CConfig c ph ts gs) (CConfig c' (<[running c := CScan j 1]> ph) ts gs)
| create_next c ph ts gs j i d :
    ph !! running c = Some (CScan j i) → i < GDT_TABLE_SIZE →
    gdt_get i (c_state c) = Done d (c_state c) → attr d ≠ 0 →
    create_step (CConfig c ph ts gs) (CConfig c (<[running c := CScan j (i32 (i + 1))]> ph) ts gs)
| create_found c ph ts gs j i d :
    ph !! running c = Some (CScan j i) → i < GDT_TABLE_SIZE →
    gdt_get i (c_state c) = Done d (c_state c) → attr d = 0 →
    create_step (CConfig c ph ts gs) (CConfig c (<[running c := CTake j i]> ph) ts gs)
| create_none c ph ts gs j i :
    ph !! running c = Some (CScan j i) → GDT_TABLE_SIZE <= i →
    create_step (CConfig c ph ts gs) (CConfig c (<[running c := CLeave j (-1)]> ph) ts gs)
| create_take c ph ts gs j i s' :
    ph !! running c = Some (CTake j i) → gdt_set_attr i SEG_P_PRESENT (c_state c) = Done tt s' →
    create_step (CConfig c ph ts gs)
      (CConfig (with_state_of c s') (<[running c := CLeave j (i * sizeof_segment_desc)]> ph) ts
        (gs ++ [(i, j_task j)]))
| create_unlock c ph ts gs j sel c' :
    ph !! running c = Some (CLeave j sel) → sys_step c (LCall (CUnlock cpu_mutex)) c' →
    create_step (CConfig c ph ts gs) (CConfig c' (<[running c := CFill j sel]> ph) ts gs)
| create_fill c ph ts gs j sel s' :
    ph !! running c = Some (CFill j sel) →
    (if sel <? 0 then mret tt else tss_fill (j_task j) (j_entry j) (j_esp j) sel) (c_state c) = Done tt s' →
    create_step (CConfig c ph ts gs) (CConfig (with_state_of c s') (<[running c := CPrepare j]> ph) ts gs)
| create_prepare c ph ts gs j s' :
    ph !! running c = Some (CPrepare j) → task_prepare (j_task j) (j_name j) (c_state c) = Done true s' →
    create_step (CConfig c ph ts gs) (CConfig (with_state_of c s') (<[running c := CPublish j]> ph) ts gs)
| create_bad_name c ph ts gs j s' :
    ph !! running c = Some (CPrepare j) → task_prepare (j_task j) (j_name j) (c_state c) = Done false s' →
    create_step (CConfig c ph ts gs) (CConfig (with_state_of c s') (delete (running c) ph) ts gs)
| create_publish c ph ts gs j s' :
    ph !! running c = Some (CPublish j) → task_publish (j_task j) (c_state c) = Done tt s' →
    create_step (CConfig c ph ts gs)
      (CConfig (Config s' (<[sel_of s' (j_task j) := Fresh (tss_flags s' (j_task j))]> (c_saved c)) (c_calls c))
        (delete (running c) ph) (ts ++ [j_task j]) gs).

Inductive create_trace : cconfig → cconfig → Prop :=
| creates_nil X : create_trace X X
| creates_snoc X1 X2 X3 : create_trace X1 X2 → create_step X2 X3 → create_trace X1 X3.

(** ** The invariant *)

Definition free_at (s : kstate) (i : Z) : Prop :=
  ∃ d, k_gdt s !! Z.to_nat i = Some d ∧ attr d = 0.
(** The task's selector is a descriptor given for it, that describes its TSS. *)
Definition has_tss (s : kstate) (gs : list (Z * Z)) (t : Z) : Prop :=
  ∃ i, (i, t) ∈ gs ∧ sel_of s t = i * sizeof_segment_desc ∧ k_gdt s !! Z.to_nat i = Some (tss_desc t).
Definition given_for (gs : list (Z * Z)) (t sel : Z) : Prop :=
  ∃ i, sel = i * sizeof_segment_desc ∧ (i, t) ∈ gs.

Definition phase_ok (c : config) (gs : list (Z * Z)) (t : Z) (p : cphase) : Prop :=
  let s := c_state c in
  match p with
  | CScan j i => entered_lock c t cpu_mutex ∧ 1 <= i <= GDT_TABLE_SIZE ∧
      ∀ k, 1 <= k < i → ¬ free_at s k
  | CTake j i => holds c t cpu_mutex ∧ 1 <= i < GDT_TABLE_SIZE ∧ free_at s i
  | CLeave j sel => holds c t cpu_mutex ∧ given_for gs (j_task j) sel
  | CFill j sel => given_for gs (j_task j) sel
  | CPrepare j => has_tss s gs (j_task j) ∧ tss_flags s (j_task j) = task_flags
  | CPublish j => has_tss s gs (j_task j) ∧ tss_flags s (j_task j) = task_flags ∧
      ∀ tk, k_tasks s !! j_task j = Some tk →
        t_slice_ticks tk = TASK_TIME_SLICE_DEFAULT ∧ t_time_ticks tk = TASK_TIME_SLICE_DEFAULT
  end.

Record create_inv (X : cconfig) (y : asys) : Prop := {
  ci_sys : sys_inv (x_config X) y;
  ci_all : a_all (y_sched y) = x_tasks X;
  ci_gdt : gdt_wf (c_state (x_config X));
  ci_mutex : is_Some (y_mutexes y !! cpu_mutex);
  ci_given : NoDup (x_given X).*1;
  ci_range : ∀ i t, (i, t) ∈ x_given X → 3 <= i < GDT_TABLE_SIZE;
  ci_free : ∀ i, 1 <= i < GDT_TABLE_SIZE →
    free_at (c_state (x_config X)) i ↔ i ≠ 1 ∧ i ≠ 2 ∧ i ∉ (x_given X).*1;
  ci_tss : ∀ t, t ∈ idle_task :: x_tasks X → has_tss (c_state (x_config X)) (x_given X) t;
  ci_phase : ∀ t p, x_phase X !! t = Some p →
    t ≠ idle_task ∧ job_ok (c_state (x_config X)) (x_tasks X) (job_of p) ∧
    phase_ok (x_config X) (x_given X) t p;
  ci_jobs : ∀ t u p q, x_phase X !! t = Some p → x_phase X !! u = Some q →
    j_task (job_of p) = j_task (job_of q) → t = u
}.
End create.

(** ** Frames *)

(** A descriptor is given once. *)
Lemma nodup_fst (gs : list (Z * Z)) i t u : NoDup gs.*1 → (i, t) ∈ gs → (i, u) ∈ gs → t = u.
Proof.
  intros Hn Ht Hu. apply (elem_of_list_to_map_1 (M := gmap Z)) in Ht, Hu; [|done..]. congruence.
Qed.

Section kept.
Context `{Platform}.

(** What a step of others leaves of a creation under way. *)
Record job_kept (s s' : kstate) (gs : list (Z * Z)) (j : job) : Prop := {
  jk_dom : ∀ t, is_Some (k_tasks s' !! t) ↔ is_Some (k_tasks s !! t);
  jk_sel : sel_of s' (j_task j) = sel_of s (j_task j);
  jk_ticks : ∀ tk', k_tasks s' !! j_task j = Some tk' → ∃ tk, k_tasks s !! j_task j = Some tk ∧
    t_slice_ticks tk' = t_slice_ticks tk ∧ t_time_ticks tk' = t_time_ticks tk;
  jk_flags : tss_flags s' (j_task j) = tss_flags s (j_task j);
  jk_name : cstr_at (k_mem s) (j_name j) (j_text j) → cstr_at (k_mem s') (j_name j) (j_text j);
  jk_gdt : ∀ i, (i, j_task j) ∈ gs → k_gdt s' !! Z.to_nat i = k_gdt s !! Z.to_nat i
}.

Lemma job_ok_kept s s' gs ts ts' j :
  job_kept s s' gs j → j_task j ∉ idle_task :: ts' → job_ok s ts j → job_ok s' ts' j.
Proof.
  intros Hk Hn [Ht _ Hs Hl Ha]. split; [by apply (jk_dom _ _ _ _ Hk)|done|by apply (jk_name _ _ _ _ Hk)|done|].
  intros t Hin. by apply Ha, (jk_dom _ _ _ _ Hk).
Qed.

Lemma given_for_sub gs gs' t sel : (∀ e, e ∈ gs → e ∈ gs') → given_for gs t sel → given_for gs' t sel.
Proof. intros Hs (i & -> & Hi). exists i. auto. Qed.
Lemma has_tss_kept s s' gs gs' t :
  (∀ e, e ∈ gs → e ∈ gs') → sel_of s' t = sel_of s t →
  (∀ i, (i, t) ∈ gs → k_gdt s' !! Z.to_nat i = k_gdt s !! Z.to_nat i) →
  has_tss s gs t → has_tss s' gs' t.
Proof. intros Hs He Hg (i & Hi & Hsel & Hd). exists i. rewrite He, Hg; auto. Qed.

Lemma phase_kept c c' gs gs' t p :
  job_kept (c_state c) (c_state c') gs (job_of p) → (∀ e, e ∈ gs → e ∈ gs') →
  (∀ i, 1 <= i < GDT_TABLE_SIZE → free_at (c_state c') i → free_at (c_state c) i) →
  (∀ i, 1 <= i < GDT_TABLE_SIZE → holds c t cpu_mutex → free_at (c_state c) i → free_at (c_state c') i) →
  (entered_lock c t cpu_mutex → entered_lock c' t cpu_mutex) →
  (holds c t cpu_mutex → holds c' t cpu_mutex) →
  phase_ok c gs t p → phase_ok c' gs' t p.
Proof.
  intros [_ Hsel Htk Hfl _ Hg] Hs Hfree Htake He Hh. destruct p as [j i|j i|j sel|j sel|j|j]; cbn in *.
  - intros (H1 & H2 & H3). split_and!; [by apply He|lia|lia|].
    intros k Hk Hfk. apply (H3 k Hk), Hfree; [lia|done].
  - intros (H1 & H2 & H3). split_and!; [by apply Hh|lia|lia|by apply Htake].
  - intros (H1 & H2). split; [by apply Hh|by eapply given_for_sub].
  - by apply given_for_sub.
  - intros (H1 & H2). split; [by eapply has_tss_kept|congruence].
  - intros (H1 & H2 & H3). split_and!; [by eapply has_tss_kept|congruence|].
    intros tk' (tk & Hk & -> & ->)%Htk. by apply H3.
Qed.

(** *** Kernel steps *)

Section kernel.
Context (c : config) (l : label) (c' : config) (y : asys).
Context (Hi : sys_inv c y) (Hst : sys_step c l c').

Lemma kernel_gdt : k_gdt (c_state c') = k_gdt (c_state c).
Proof using Hi Hst. destruct (sys_step_rest _ _ _ _ Hi Hst) as [_ _ Hg _ _]. by destruct l. Qed.
Lemma kernel_sel t : sel_of (c_state c') t = sel_of (c_state c) t.
Proof using Hi Hst.
  apply sel_of_env. intros u. destruct (sys_step_rest _ _ _ _ Hi Hst) as [_ _ _ Hs _].
  rewrite Hs. by destruct l.
Qed.
Lemma kernel_dom t : is_Some (k_tasks (c_state c') !! t) ↔ is_Some (k_tasks (c_state c) !! t).
Proof using Hi Hst.
  destruct (sys_step_rest _ _ _ _ Hi Hst) as [_ _ _ Hs _]. specialize (Hs t).
  assert (k_tasks (match l with LCall _ => c_state c | LTick => ticked (c_state c) end) =
    k_tasks (c_state c)) as E by (by destruct l). rewrite E in Hs.
  destruct (k_tasks (c_state c') !! t), (k_tasks (c_state c) !! t); cbn in Hs; try done; naive_solver.
Qed.

Lemma kernel_kept gs j : j_task j ∉ a_all (y_sched y) → job_kept (c_state c) (c_state c') gs j.
Proof using Hi Hst.
  intros Hn. pose proof kernel_gdt as Hg. pose proof kernel_sel as Hs.
  destruct (sys_step_rest _ _ _ _ Hi Hst) as [Hm _ _ _ Htm].
  destruct (sys_step_sim _ _ _ _ Hi Hst) as (_ & _ & Hsl).
  split.
  - apply kernel_dom.
  - apply Hs.
  - intros tk' Htk. specialize (Hsl (j_task j)). specialize (Htm (j_task j)). unfold slice_of in Hsl.
    rewrite Htk in Hsl, Htm. cbn in Hsl, Htm.
    assert (k_tasks (slice_ticked (c_state c) (y_sched y)) !! j_task j = k_tasks (c_state c) !! j_task j) as E.
    { unfold slice_ticked. destruct (a_ready (y_sched y)) as [|t r] eqn:Er; [done|]. cbn.
      apply lookup_alter_ne. intros Heq. apply Hn.
      rewrite <- (aw_place _ (co_wf _ _ _ (si_core _ _ Hi))), Er. set_solver. }
    destruct l; [|rewrite E in Hsl; cbn in Htm];
      (destruct (k_tasks (c_state c) !! j_task j) as [tk|]; [|done]; exists tk; cbn in Hsl, Htm;
       split; [done|]; split; congruence).
  - unfold tss_flags. rewrite Hm. by destruct l.
  - rewrite Hm. by destruct l.
  - intros i _. by rewrite Hg.
Qed.
End kernel.
End kept.

(** ** Steps of the kernel *)

Section kernel_steps.
Context `{Platform}.
Context (c : config) (ph : gmap Z cphase) (ts : list Z) (gs : list (Z * Z)) (y : asys).
Context (HI : create_inv (CConfig c ph ts gs) y).

Lemma creator_running p : ph !! running c = Some p → running c ≠ idle_task.
Proof using HI. intros Hp. by apply (ci_phase _ _ HI (running c) p). Qed.

(** The running task is not waiting for the mutex: it holds it. *)
Lemma running_entered : entered_lock c (running c) cpu_mutex → holds c (running c) cpu_mutex.
Proof using HI.
  pose proof (ci_sys _ _ HI) as Hi. cbn in Hi. intros [Hp|Hh]; [|done].
  by rewrite (running_curr _ _ Hi), (si_curr _ _ Hi) in Hp.
Qed.

(** One task holds it. *)
Lemma holds_one t u : holds c t cpu_mutex → holds c u cpu_mutex → t = u.
Proof using Type. intros (mx & Hm & _ & <-) (mx' & Hm' & _ & <-). congruence. Qed.

Lemma new_not_linked t p : ph !! t = Some p → j_task (job_of p) ∉ a_all (y_sched y).
Proof using HI.
  intros Hp. destruct (ci_phase _ _ HI t p Hp) as (_ & Hj & _). rewrite (ci_all _ _ HI).
  pose proof (jo_new _ _ _ Hj). set_solver.
Qed.

Lemma mutex_still l c' : sys_step c l c' → is_Some (y_mutexes (y_next c l y) !! cpu_mutex).
Proof using HI.
  intros Hst. pose proof (ci_mutex _ _ HI) as Hm. destruct l as [k|]; [|done]. cbn [y_next].
  destruct k as [|ms|m|m|p|p]; cbn [y_call]; try done.
  - unfold y_lock. destruct (mutex_lock_step _ _); [|done]. cbn. rewrite lookup_insert.
    by case_decide.
  - cbn. rewrite lookup_insert. by case_decide.
  - unfold y_wait. by destruct (0 <? _).
  - unfold y_notify. by destruct (waiters_of _ _).
Qed.

Lemma y_next_all l : a_all (y_sched (y_next c l y)) = a_all (y_sched y).
Proof using Type. destruct l; [apply y_call_all|apply a_all_tick]. Qed.

(** Phases that are not touched. *)
Lemma kernel_phase l c' t p :
  sys_step c l c' → ph !! t = Some p → ¬ unlocks t cpu_mutex (running c, l) →
  t ≠ idle_task ∧ job_ok (c_state c') ts (job_of p) ∧ phase_ok c' gs t p.
Proof using HI.
  intros Hst Hp Hn. pose proof (ci_sys _ _ HI) as Hi. cbn in Hi.
  destruct (ci_phase _ _ HI t p Hp) as (Ht & Hj & Hok).
  pose proof (kernel_kept c l c' y Hi Hst gs (job_of p) (new_not_linked t p Hp)) as Hk.
  pose proof (kernel_gdt c l c' y Hi Hst) as Hg.
  split; [done|]. split; [eapply job_ok_kept; [exact Hk|apply Hj|exact Hj]|].
  apply (phase_kept c c' gs gs); try done.
  - intros i _. unfold free_at. by rewrite Hg.
  - intros i _ _. unfold free_at. by rewrite Hg.
  - intros He. apply (entered_lock_step c l c' y); try done. by left.
  - intros Hh. by eapply holds_step.
Qed.

Lemma kernel_create_inv l c' ph' :
  sys_step c l c' →
  (∀ t p, ph' !! t = Some p →
    (ph !! t = Some p ∧ ¬ unlocks t cpu_mutex (running c, l)) ∨
    (t ≠ idle_task ∧ job_ok (c_state c') ts (job_of p) ∧ phase_ok c' gs t p)) →
  (∀ t u p q, ph' !! t = Some p → ph' !! u = Some q → j_task (job_of p) = j_task (job_of q) → t = u) →
  create_inv (CConfig c' ph' ts gs) (y_next c l y).
Proof using HI.
  intros Hst Hph Hj. pose proof HI as [Hi Hall Hw Hm Hnd Hr Hfree Htss _ _].
  cbn [x_config x_phase x_tasks x_given] in *.
  destruct (sys_step_sim _ _ _ _ Hi Hst) as (_ & Hi' & _).
  pose proof (kernel_gdt c l c' y Hi Hst) as Hg.
  split; cbn [x_config x_phase x_tasks x_given]; try done.
  - by rewrite y_next_all.
  - unfold gdt_wf. by rewrite Hg.
  - by eapply mutex_still.
  - intros i Hir. unfold free_at. rewrite Hg. by apply Hfree.
  - intros t Ht. apply (has_tss_kept (c_state c) _ gs); [done|by eapply kernel_sel| |by apply Htss].
    intros i _. by rewrite Hg.
  - intros t p Hp. destruct (Hph t p Hp) as [[Hp0 Hu]|]; [|done]. by eapply kernel_phase.
Qed.

(** Ticks, and calls about anything else. *)
Lemma other_step_inv l c' :
  sys_step c l c' → l ≠ LCall (CUnlock cpu_mutex) →
  create_inv (CConfig c' ph ts gs) (y_next c l y).
Proof using HI.
  intros Hst Hl. apply kernel_create_inv; [done| |apply (ci_jobs _ _ HI)].
  intros t p Hp. left. split; [done|]. intros Hu. unfold unlocks in Hu. congruence.
Qed.

Lemma begin_step_inv j c' :
  sys_step c (LCall (CLock cpu_mutex)) c' → ph !! running c = None → job_ok (c_state c) ts j →
  (∀ t p, ph !! t = Some p → j_task (job_of p) ≠ j_task j) →
  create_inv (CConfig c' (<[running c := CScan j 1]> ph) ts gs) (y_next c (LCall (CLock cpu_mutex)) y).
Proof using HI.
  intros Hst Hn Hj Hd. pose proof (ci_sys _ _ HI) as Hi. cbn in Hi.
  apply kernel_create_inv; [done| |].
  - intros t p [(<- & <-)|(Hne & Hp)]%lookup_insert_Some; [right|left; split; [done|]; by intros [= ?]].
    split; [by inversion Hst|]. split.
    + eapply job_ok_kept; [|apply Hj|exact Hj]. apply (kernel_kept c _ c' y Hi Hst gs).
      rewrite (ci_all _ _ HI). pose proof (jo_new _ _ _ Hj). cbn. set_solver.
    + split_and!; [|done|done|lia]. apply (entered_lock_step c _ c' y _ _ Hi Hst); [by intros ?|by right].
  - intros t u p q [(<- & <-)|(Hne & Hp)]%lookup_insert_Some [(<- & <-)|(Hne' & Hq)]%lookup_insert_Some Heq;
      [done|by edestruct Hd|by edestruct Hd|by eapply (ci_jobs _ _ HI)].
Qed.

Lemma unlock_step_inv j sel c' :
  ph !! running c = Some (CLeave j sel) → sys_step c (LCall (CUnlock cpu_mutex)) c' →
  create_inv (CConfig c' (<[running c := CFill j sel]> ph) ts gs) (y_next c (LCall (CUnlock cpu_mutex)) y).
Proof using HI.
  intros Hp Hst. pose proof (ci_sys _ _ HI) as Hi. cbn in Hi.
  destruct (ci_phase _ _ HI _ _ Hp) as (Ht & Hj & _ & Hg).
  apply kernel_create_inv; [done| |].
  - intros t p [(<- & <-)|(Hne & Hp')]%lookup_insert_Some; [right|left; split; [done|by intros [= ?]]].
    split; [done|]. split; [|done].
    eapply job_ok_kept; [|apply Hj|exact Hj].
    apply (kernel_kept c _ c' y Hi Hst gs). by apply (new_not_linked _ _ Hp).
  - intros t u p q [(<- & <-)|(Hne & Hp')]%lookup_insert_Some [(<- & <-)|(Hne' & Hq)]%lookup_insert_Some Heq;
      [done|by apply (ci_jobs _ _ HI _ _ _ _ Hp Hq)|by apply (ci_jobs _ _ HI _ _ _ _ Hp' Hp)|by eapply (ci_jobs _ _ HI)].
Qed.
End kernel_steps.

(** ** Steps of the creating task on its own objects *)

Section private.
Context `{Platform}.

Lemma sel_of_task s s' t : k_tasks s' !! t = k_tasks s !! t → sel_of s' t = sel_of s t.
Proof. unfold sel_of. by intros ->. Qed.

Lemma curr_known s a cs : core s a cs → a_curr a ∈ idle_task :: a_all a.
Proof.
  intros Hc. pose proof (co_wf _ _ _ Hc) as Ha. rewrite (aw_curr _ Ha). apply a_next_in.
  by rewrite a_dispatch_wf by apply Ha.
Qed.

Lemma private_sys c y s' u :
  sys_inv c y → krep s' (y_sched y) → k_cpu s' = k_cpu (c_state c) → keeps_locks (c_state c) s' →
  (∀ t, t ≠ u → k_tasks s' !! t = k_tasks (c_state c) !! t) → u ∉ idle_task :: a_all (y_sched y) →
  sys_inv (with_state_of c s') y.
Proof.
  intros [Hco Hl Hm Hs Hcu Hca] HR Hc [Hm' Hs'] Ht Hu.
  pose proof (curr_known _ _ _ Hco) as Hcin. destruct Hco as [HR0 Ha Hif Htr Hinj Hsv Hsl].
  assert (∀ t, t ∈ idle_task :: a_all (y_sched y) → sel_of s' t = sel_of (c_state c) t) as Hsel.
  { intros t Hin. apply sel_of_task, Ht. intros ->. done. }
  split; cbn; [split; cbn|..]; try done; try congruence.
  - by rewrite Hc, Hsel.
  - intros t v Hin Hv. rewrite !Hsel by done. by apply Hinj.
  - intros t Hin Hne. rewrite Hsel by done. by apply Hsv.
  - intros t tk Hin. rewrite Ht; [by apply Hsl|]. intros ->. apply Hu. set_solver.
Qed.

(** A load away from the object of another task. *)
Lemma flags_outside m m' u t :
  (∀ x, x < u ∨ u + sizeof_task <= x → load8 m' x = load8 m x) → t ≠ u → apart u t →
  load32 m' (t + OFF_tss + TSS_eflags) = load32 m (t + OFF_tss + TSS_eflags).
Proof.
  intros Hm Hne [->|Ha]; [done|]. unfold load32, load16.
  rewrite !Hm by (unfold OFF_tss, TSS_eflags, sizeof_task in *; lia). done.
Qed.

Context (c : config) (ph : gmap Z cphase) (ts : list Z) (gs : list (Z * Z)) (y : asys).
Context (HI : create_inv (CConfig c ph ts gs) y).
Context (p : cphase) (Hp : ph !! running c = Some p).
Let u := j_task (job_of p).
Context (s' : kstate).

(** [s'] differs from the state in the new task and its descriptor. *)
Record private (gs' : list (Z * Z)) : Prop := {
  pv_rep : krep s' (y_sched y);
  pv_cpu : k_cpu s' = k_cpu (c_state c);
  pv_locks : keeps_locks (c_state c) s';
  pv_tasks : ∀ t, t ≠ u → k_tasks s' !! t = k_tasks (c_state c) !! t;
  pv_task : is_Some (k_tasks s' !! u);
  pv_mem : ∀ x, x < u ∨ u + sizeof_task <= x → load8 (k_mem s') x = load8 (k_mem (c_state c)) x;
  pv_gdt : gdt_wf s';
  pv_others : ∀ i t, (i, t) ∈ gs → t ≠ u → k_gdt s' !! Z.to_nat i = k_gdt (c_state c) !! Z.to_nat i;
  pv_less : ∀ i, 1 <= i < GDT_TABLE_SIZE → free_at s' i → free_at (c_state c) i;
  pv_taken : holds c (running c) cpu_mutex ∨
    ∀ i, 1 <= i < GDT_TABLE_SIZE → free_at (c_state c) i → free_at s' i;
  pv_given : NoDup gs'.*1;
  pv_range : ∀ i t, (i, t) ∈ gs' → 3 <= i < GDT_TABLE_SIZE;
  pv_free : ∀ i, 1 <= i < GDT_TABLE_SIZE → free_at s' i ↔ i ≠ 1 ∧ i ≠ 2 ∧ i ∉ gs'.*1;
  pv_sub : ∀ e, e ∈ gs → e ∈ gs'
}.

Lemma private_name gs' j :
  private gs' → job_ok (c_state c) ts j →
  cstr_at (k_mem (c_state c)) (j_name j) (j_text j) → cstr_at (k_mem s') (j_name j) (j_text j).
Proof using HI Hp.
  intros Hv Hj. destruct (ci_phase _ _ HI _ _ Hp) as (_ & Hu & _).
  pose proof (jo_apart _ _ _ Hj u (jo_task _ _ _ Hu)) as Ha. unfold disjoint_ranges in Ha.
  apply cstr_at_ext. intros x Hx. apply (pv_mem _ Hv). lia.
Qed.

(** The other creations. *)
Lemma private_other gs' t q :
  private gs' → t ≠ running c → ph !! t = Some q →
  t ≠ idle_task ∧ job_ok s' ts (job_of q) ∧ phase_ok (with_state_of c s') gs' t q.
Proof using HI Hp.
  intros Hv Hne Hq. destruct (ci_phase _ _ HI _ _ Hq) as (Ht & Hj & Hok).
  destruct (ci_phase _ _ HI _ _ Hp) as (_ & Hu & _). cbn [x_config x_tasks x_given] in *.
  assert (j_task (job_of q) ≠ u) as Hju.
  { intros Heq. apply Hne, (ci_jobs _ _ HI t (running c) q p Hq Hp Heq). }
  assert (apart u (j_task (job_of q))) as Hap.
  { apply (tp_apart _ (kr_placed _ _ (co_rep _ _ _ (si_core _ _ (ci_sys _ _ HI))))); [apply Hu|apply Hj]. }
  assert (job_kept (c_state c) s' gs (job_of q)) as Hk.
  { split.
    - intros v. destruct (decide (v = u)) as [->|]; [|by rewrite (pv_tasks _ Hv)].
      split; intros _; [apply Hu|apply (pv_task _ Hv)].
    - by apply sel_of_task, (pv_tasks _ Hv).
    - intros tk' Htk. rewrite (pv_tasks _ Hv) in Htk by done. by exists tk'.
    - apply (flags_outside _ _ u); [apply (pv_mem _ Hv)|done|done].
    - by apply (private_name gs').
    - intros i Hi. by apply (pv_others _ Hv _ _ Hi). }
  split; [done|]. split; [by eapply job_ok_kept; [exact Hk|apply Hj|]|].
  assert (holds c t cpu_mutex → holds (with_state_of c s') t cpu_mutex) as Hh.
  { intros (mx & Hm & Hrest). exists mx. cbn. by rewrite (proj1 (pv_locks _ Hv)). }
  apply (phase_kept c _ gs); try done; [apply Hv|apply Hv| |].
  - intros i Hi Ht'. destruct (pv_taken _ Hv) as [Hr|Hf]; [|by apply Hf].
    exfalso. apply Hne. by apply (holds_one c).
  - intros [He|He]; [by left|right; by apply Hh].
Qed.

Lemma private_create_inv gs' ph' :
  private gs' →
  (∀ t q, ph' !! t = Some q → (t ≠ running c ∧ ph !! t = Some q) ∨
    (t = running c ∧ job_of q = job_of p ∧ phase_ok (with_state_of c s') gs' t q)) →
  create_inv (CConfig (with_state_of c s') ph' ts gs') y.
Proof using HI Hp.
  intros Hv Hph. pose proof HI as [Hi Hall Hw Hm _ _ _ Htss Hphase Hjobs].
  cbn [x_config x_phase x_tasks x_given] in *.
  destruct (Hphase _ _ Hp) as (Htr & Hu & _). pose proof (jo_new _ _ _ Hu) as Hun.
  assert (∀ t q, ph' !! t = Some q → ∃ q0, ph !! t = Some q0 ∧ job_of q = job_of q0) as Hback.
  { intros t q Hq. destruct (Hph t q Hq) as [[_ ?]|(-> & ? & _)]; eauto. }
  split; cbn [x_config x_phase x_tasks x_given]; try done; try apply Hv.
  - apply (private_sys c y s' u Hi); try apply Hv. by rewrite Hall.
  - intros t Ht. assert (t ≠ u) as Hne by (intros ->; done).
    apply (has_tss_kept (c_state c) _ gs); [apply Hv|by apply sel_of_task, (pv_tasks _ Hv)| |by apply Htss].
    intros i Hg. by apply (pv_others _ Hv _ _ Hg).
  - intros t q Hq. destruct (Hph t q Hq) as [[Hne Hq0]|(-> & Hjq & Hok)]; [by apply private_other|].
    split; [done|]. split; [|done]. rewrite Hjq. split; try apply Hu.
    + apply (pv_task _ Hv).
    + apply (private_name gs'); [done|done|apply Hu].
    + intros t Ht. apply (jo_apart _ _ _ Hu). destruct (decide (t = u)) as [->|]; [apply Hu|].
      by rewrite (pv_tasks _ Hv) in Ht.
  - intros t v q r Hq Hr Heq. destruct (Hback _ _ Hq) as (q0 & Hq0 & Ej), (Hback _ _ Hr) as (r0 & Hr0 & Er).
    rewrite Ej, Er in Heq. by apply (Hjobs _ _ _ _ Hq0 Hr0).
Qed.
End private.

(** ** The steps of task_init *)

Lemma with_state_of_id c : with_state_of c (c_state c) = c.
Proof. by destruct c. Qed.

Section steps.
Context `{Platform}.
Context (c : config) (ph : gmap Z cphase) (ts : list Z) (gs : list (Z * Z)) (y : asys).
Context (HI : create_inv (CConfig c ph ts gs) y).

(** The two shapes of [private_create_inv]. *)
Lemma private_next p p' s' gs' :
  ph !! running c = Some p → private c gs y p s' gs' → job_of p' = job_of p →
  phase_ok (with_state_of c s') gs' (running c) p' →
  create_inv (CConfig (with_state_of c s') (<[running c := p']> ph) ts gs') y.
Proof using HI.
  intros Hp Hv Hj Hok. apply (private_create_inv c ph ts gs y HI p Hp s' gs'); [done|].
  intros t q [(<- & <-)|(Hne & Hq)]%lookup_insert_Some; [by right|by left].
Qed.
Lemma private_end p s' gs' :
  ph !! running c = Some p → private c gs y p s' gs' →
  create_inv (CConfig (with_state_of c s') (delete (running c) ph) ts gs') y.
Proof using HI.
  intros Hp Hv. apply (private_create_inv c ph ts gs y HI p Hp s' gs'); [done|].
  intros t q [Hne Hq]%lookup_delete_Some. by left.
Qed.

(** A step that only looks. *)
Lemma private_same p : ph !! running c = Some p → private c gs y p (c_state c) gs.
Proof using HI.
  intros Hp. destruct (ci_phase _ _ HI _ _ Hp) as (_ & Hj & _).
  split; try done.
  - exact (co_rep _ _ _ (si_core _ _ (ci_sys _ _ HI))).
  - exact (jo_task _ _ _ Hj).
  - exact (ci_gdt _ _ HI).
  - by right.
  - exact (ci_given _ _ HI).
  - exact (ci_range _ _ HI).
  - exact (ci_free _ _ HI).
Qed.

(** *** The search *)

Lemma looked i d :
  1 <= i < GDT_TABLE_SIZE → gdt_get i (c_state c) = Done d (c_state c) →
  k_gdt (c_state c) !! Z.to_nat i = Some d.
Proof using HI.
  intros Hi E. destruct (gdt_lookup (c_state c) i (ci_gdt _ _ HI)) as [d' Hd]; [lia|].
  rewrite (gdt_get_done _ _ d' (ci_gdt _ _ HI)) in E by (done || lia). congruence.
Qed.

Lemma next_step_inv j i d :
  ph !! running c = Some (CScan j i) → i < GDT_TABLE_SIZE →
  gdt_get i (c_state c) = Done d (c_state c) → attr d ≠ 0 →
  create_inv (CConfig c (<[running c := CScan j (i32 (i + 1))]> ph) ts gs) y.
Proof using HI.
  intros Hp Hlt E Hd. destruct (ci_phase _ _ HI _ _ Hp) as (_ & _ & He & Hi & Hfree). cbn in Hi.
  pose proof (looked i d ltac:(lia) E) as Hl.
  rewrite i32_small by (unfold INT_MIN, INT_MAX, GDT_TABLE_SIZE in *; lia).
  pose proof (private_next _ (CScan j (i + 1)) _ gs Hp (private_same _ Hp)) as Hn.
  rewrite with_state_of_id in Hn. apply Hn; [done|]. split_and!; [done|lia|lia|].
  intros k Hk (d' & Hk' & Ha). destruct (decide (k = i)) as [->|]; [congruence|].
  apply (Hfree k); [lia|]. by exists d'.
Qed.
Lemma found_step_inv j i d :
  ph !! running c = Some (CScan j i) → i < GDT_TABLE_SIZE →
  gdt_get i (c_state c) = Done d (c_state c) → attr d = 0 →
  create_inv (CConfig c (<[running c := CTake j i]> ph) ts gs) y.
Proof using HI.
  intros Hp Hlt E Hd. destruct (ci_phase _ _ HI _ _ Hp) as (_ & _ & He & Hi & _). cbn in Hi.
  pose proof (looked i d ltac:(lia) E) as Hl.
  pose proof (private_next _ (CTake j i) _ gs Hp (private_same _ Hp)) as Hn.
  rewrite with_state_of_id in Hn. apply Hn; [done|].
  split_and!; [by apply (running_entered c ph ts gs y)|lia|lia|by exists d].
Qed.

(** While fewer descriptors are in use than there are, one is found. *)
Lemma never_full j i :
  ph !! running c = Some (CScan j i) → GDT_TABLE_SIZE <= i → 253 <= len gs.
Proof using HI.
  intros Hp Hge. destruct (ci_phase _ _ HI _ _ Hp) as (_ & _ & _ & Hi & Hfree). cbn in Hi.
  assert (seqZ 3 253 ⊆+ gs.*1) as Hsub.
  { apply NoDup_submseteq; [apply NoDup_seqZ|]. intros k [Hk1 Hk2]%elem_of_seqZ.
    destruct (decide (k ∈ gs.*1)) as [|Hn]; [done|exfalso].
    apply (Hfree k); [unfold GDT_TABLE_SIZE in *; lia|].
    apply (ci_free _ _ HI); [unfold GDT_TABLE_SIZE; lia|]. cbn. split_and!; [lia|lia|done]. }
  apply submseteq_length in Hsub. rewrite length_fmap, length_seqZ in Hsub. lia.
Qed.

Lemma take_step_inv j i s' :
  ph !! running c = Some (CTake j i) → gdt_set_attr i SEG_P_PRESENT (c_state c) = Done tt s' →
  create_inv (CConfig (with_state_of c s') (<[running c := CLeave j (i * sizeof_segment_desc)]> ph) ts
    (gs ++ [(i, j_task j)])) y.
Proof using HI.
  intros Hp E. destruct (ci_phase _ _ HI _ _ Hp) as (_ & Hj & Hh & Hi & d & Hd & Ha). cbn in Hi, Hd, Hj.
  pose proof (ci_gdt _ _ HI) as Hg. cbn in Hg.
  rewrite (gdt_set_attr_done _ _ _ d) in E by (done || lia). injection E as <-.
  assert (∀ k, 1 <= k < GDT_TABLE_SIZE →
    free_at (with_gdt (<[Z.to_nat i := with_attr SEG_P_PRESENT d]> (k_gdt (c_state c))) (c_state c)) k ↔
    free_at (c_state c) k ∧ k ≠ i) as Hfree.
  { intros k Hk. unfold free_at. cbn. destruct (decide (k = i)) as [->|Hne].
    - rewrite list_lookup_insert_eq by (apply lookup_lt_Some in Hd; done).
      split; [by intros (d' & [= <-] & ?)|by intros [_ ?]].
    - rewrite list_lookup_insert_ne by lia. naive_solver. }
  assert (i ≠ 1 ∧ i ≠ 2 ∧ i ∉ gs.*1) as (H1 & H2 & Hn).
  { apply (ci_free _ _ HI i Hi). by exists d. }
  apply (private_next _ _ _ _ Hp); [|done|split; [exact Hh|exists i; split; [done|set_solver]]].
  split; try done.
  - exact (krep_gdt _ _ _ (co_rep _ _ _ (si_core _ _ (ci_sys _ _ HI)))).
  - apply Hj.
  - by apply gdt_wf_insert.
  - intros k t Hk Ht. cbn. rewrite list_lookup_insert_ne; [done|].
    pose proof (ci_range _ _ HI _ _ Hk). intros Heq. apply Hn, list_elem_of_fmap.
    exists (k, t). split; [cbn; lia|done].
  - intros k Hk. rewrite Hfree by done. tauto.
  - by left.
  - rewrite fmap_app. apply NoDup_app. split; [apply HI|]. split; [|apply NoDup_singleton].
    intros k Hk ->%list_elem_of_singleton. done.
  - intros k t [Hk|[= -> ->]%list_elem_of_singleton]%elem_of_app; [by apply (ci_range _ _ HI k t)|lia].
  - intros k Hk. rewrite Hfree, (ci_free _ _ HI k Hk), fmap_app, not_elem_of_app by done. cbn.
    rewrite list_elem_of_singleton. tauto.
  - set_solver.
Qed.

(** *** The TSS and the other members *)

(** What tss_fill and task_prepare have in common: the table keeps its size
    and the descriptors in use. *)
Lemma private_objects p s' :
  ph !! running c = Some p → let u := j_task (job_of p) in
  krep s' (y_sched y) → k_cpu s' = k_cpu (c_state c) → keeps_locks (c_state c) s' →
  (∀ t, t ≠ u → k_tasks s' !! t = k_tasks (c_state c) !! t) → is_Some (k_tasks s' !! u) →
  (∀ x, x < u ∨ u + sizeof_task <= x → load8 (k_mem s') x = load8 (k_mem (c_state c)) x) →
  gdt_wf s' →
  (∀ k, k_gdt s' !! k = k_gdt (c_state c) !! k ∨
    ∃ i d, k = Z.to_nat i ∧ (i, u) ∈ gs ∧ k_gdt s' !! k = Some d ∧ attr d ≠ 0) →
  private c gs y p s' gs.
Proof using HI.
  intros Hp u HR Hc Hl Ht Hu Hm Hw Hg.
  assert (∀ i, 1 <= i < GDT_TABLE_SIZE → free_at s' i ↔ free_at (c_state c) i) as Hfree.
  { intros i Hi. unfold free_at. destruct (Hg (Z.to_nat i)) as [->|(k & d & Heq & Hk & Hd & Ha)]; [done|].
    pose proof (ci_range _ _ HI _ _ Hk). assert (k = i) as -> by lia.
    rewrite Hd. split; [naive_solver|]. intros Hf. exfalso.
    apply (ci_free _ _ HI i Hi) in Hf as (_ & _ & Hf). apply Hf, list_elem_of_fmap.
    by exists (i, u). }
  split; try done.
  - intros i t Hi Hne. destruct (Hg (Z.to_nat i)) as [?|(k & d & Heq & Hk & _)]; [done|exfalso].
    pose proof (ci_range _ _ HI _ _ Hk). pose proof (ci_range _ _ HI _ _ Hi).
    assert (k = i) as -> by lia.
    apply Hne, (nodup_fst gs i); [apply (ci_given _ _ HI)|done|done].
  - intros i Hi. by rewrite Hfree.
  - right. intros i Hi. by rewrite Hfree.
  - exact (ci_given _ _ HI).
  - exact (ci_range _ _ HI).
  - intros i Hi. rewrite Hfree by done. by apply (ci_free _ _ HI).
Qed.

Lemma linked_not_sleeping p : ph !! running c = Some p → unplaced (j_task (job_of p)) (y_sched y).
Proof using HI.
  intros Hp. apply unplaced_awf; [apply (co_wf _ _ _ (si_core _ _ (ci_sys _ _ HI)))|].
  by apply (new_not_linked c ph ts gs y HI _ _ Hp).
Qed.

Lemma fill_step_inv j sel s' :
  ph !! running c = Some (CFill j sel) →
  (if sel <? 0 then mret tt else tss_fill (j_task j) (j_entry j) (j_esp j) sel) (c_state c) = Done tt s' →
  create_inv (CConfig (with_state_of c s') (<[running c := CPrepare j]> ph) ts gs) y.
Proof using HI.
  intros Hp E. destruct (ci_phase _ _ HI _ _ Hp) as (_ & Hj & i & -> & Hi). cbn [job_of x_given] in Hj, Hi.
  pose proof (ci_range _ _ HI _ _ Hi) as Hir. pose proof (ci_gdt _ _ HI) as Hg. cbn in Hg.
  destruct (jo_task _ _ _ Hj) as [tk Htk]. cbn in Htk.
  rewrite (proj2 (Z.ltb_ge _ 0)) in E by (unfold sizeof_segment_desc; lia).
  rewrite <- (Z2Nat.id i) in E by lia.
  assert (Z.to_nat i < length (k_gdt (c_state c)))%nat as Hlt by (unfold gdt_wf in Hg; lia).
  rewrite (tss_fill_ok _ _ tk) in E by done. injection E as <-.
  pose proof (linked_not_sleeping _ Hp) as Hup. cbn in Hup.
  unfold tss_filled. rewrite (alter_as_insert _ _ _ _ Htk).
  apply (private_next _ _ _ _ Hp); [|done|].
  - apply (private_objects _ _ Hp); cbn; try done.
    + apply (krep_task (with_mem _ (with_gdt _ (c_state c)))); [|by eexists|apply Hup].
      apply krep_mem, krep_gdt. exact (co_rep _ _ _ (si_core _ _ (ci_sys _ _ HI))).
    + intros t Hne. by rewrite lookup_insert_ne.
    + rewrite lookup_insert_eq. by eexists.
    + intros x Hx. apply tss_image_out. unfold OFF_tss, sizeof_tss, sizeof_task in *. lia.
    + by apply gdt_wf_insert.
    + intros k. destruct (decide (k = Z.to_nat i)) as [->|Hne]; [right|left; by rewrite list_lookup_insert_ne].
      exists i, (tss_desc (j_task j)). split_and!; [done|done|by apply list_lookup_insert_eq|done].
  - split.
    + exists i. split; [done|]. unfold sel_of. cbn. rewrite lookup_insert_eq. cbn.
      split; [unfold sizeof_segment_desc; lia|]. by apply list_lookup_insert_eq.
    + unfold tss_flags. cbn. apply (tss_image_in (j_task j) _ _ _ TSS_eflags task_flags).
      unfold tss_words. set_solver.
Qed.

Lemma bind_ret_done {A} (m : M A) s a s' : (m ≫= mret) s = Done a s' → m s = Done a s'.
Proof using Type. unfold mbind, M_bind, rbind. by destruct (m s). Qed.

Lemma prepared p :
  ph !! running c = Some p → let j := job_of p in let s := c_state c in
  name_ok (j_text j) →
  ∃ tk h, k_tasks s !! j_task j = Some tk ∧
    let s1 := with_tasks (<[j_task j := fresh_task (t_tss_sel tk)]> (k_tasks s))
      (with_mem (stores (k_mem s) (j_task j) (j_text j ++ [0])) s) in
    task_prepare (j_task j) (j_name j) s = Done true (with_heap h s1) ∧
    krep (with_heap h s1) (y_sched y).
Proof using HI.
  intros Hp j s Hn. destruct (ci_phase _ _ HI _ _ Hp) as (_ & Hj & _).
  destruct (jo_task _ _ _ Hj) as [tk Htk]. exists tk.
  pose proof (linked_not_sleeping _ Hp) as Hup. fold j in Hup, Hj, Htk. cbn in Htk.
  set (s1 := with_tasks (<[j_task j := fresh_task (t_tss_sel tk)]> (k_tasks s))
    (with_mem (stores (k_mem s) (j_task j) (j_text j ++ [0])) s)).
  assert (krep s1 (y_sched y)) as HR.
  { apply (krep_task (with_mem _ s)); [|by eexists|apply Hup].
    apply krep_mem. exact (co_rep _ _ _ (si_core _ _ (ci_sys _ _ HI))). }
  destruct (link_nodes_ok (mret true) s1 (y_sched y) (j_task j) HR) as (h & E & HR' & _);
    [cbn; rewrite lookup_insert_eq; by eexists|done|].
  exists h. split; [done|]. split; [|done]. apply bind_ret_done.
  rewrite (prepare_split s (j_task j) tk (j_name j) (j_text j)); [exact E|done|apply Hj|done|].
  apply (jo_apart _ _ _ Hj). by eexists.
Qed.

Lemma prepare_step_inv j s' :
  ph !! running c = Some (CPrepare j) → task_prepare (j_task j) (j_name j) (c_state c) = Done true s' →
  create_inv (CConfig (with_state_of c s') (<[running c := CPublish j]> ph) ts gs) y.
Proof using HI.
  intros Hp E. destruct (ci_phase _ _ HI _ _ Hp) as (_ & Hj & Htss & Hfl). cbn [job_of x_given] in Hj, Htss, Hfl.
  destruct (decide (name_ok (j_text j))) as [Hn|Hn].
  2: { by rewrite (prepare_bad _ _ _ (j_text j)) in E by (done || apply Hj). }
  destruct (prepared _ Hp Hn) as (tk & h & Htk & E' & HR). cbn [job_of] in *. rewrite E' in E.
  injection E as <-. unfold name_ok, TASK_NAME_MAX_IN_SIZE in Hn.
  apply (private_next _ _ _ _ Hp); [|done|].
  - apply (private_objects _ _ Hp); cbn; try done.
    + intros t Hne. by rewrite lookup_insert_ne.
    + rewrite lookup_insert_eq. by eexists.
    + intros x Hx. apply load_stores_out. rewrite length_app. cbn. unfold sizeof_task in Hx. lia.
    + exact (ci_gdt _ _ HI).
    + intros k. by left.
  - split_and!.
    + apply (has_tss_kept (c_state c) _ gs); try done.
      unfold sel_of. cbn. by rewrite lookup_insert_eq, Htk.
    + cbn in Hfl. rewrite <- Hfl. unfold tss_flags. cbn. apply load32_stores_out.
      unfold disjoint_ranges, OFF_tss, TSS_eflags. rewrite length_app. cbn. lia.
    + intros tk'. cbn. rewrite lookup_insert_eq. by intros [= <-].
Qed.

Lemma bad_name_step_inv j s' :
  ph !! running c = Some (CPrepare j) → task_prepare (j_task j) (j_name j) (c_state c) = Done false s' →
  create_inv (CConfig (with_state_of c s') (delete (running c) ph) ts gs) y.
Proof using HI.
  intros Hp E. destruct (ci_phase _ _ HI _ _ Hp) as (_ & Hj & _). cbn [job_of] in Hj.
  destruct (decide (name_ok (j_text j))) as [Hn|Hn].
  { destruct (prepared _ Hp Hn) as (tk & h & _ & E' & _). cbn [job_of] in E'. by rewrite E' in E. }
  rewrite (prepare_bad _ _ _ (j_text j)) in E by (done || apply Hj). injection E as <-.
  eapply private_end; [exact Hp|]. by apply private_same.
Qed.
End steps.

(** ** The critical section of task_init *)

Section publish.
Context `{Platform}.

Lemma locks_create y t :
  locks_ok y → locks_ok (ASys (a_create t (y_sched y)) (y_mutexes y) (y_sems y)).
Proof.
  intros [Hm Hs Hd]. split; cbn; [|done|done].
  intros m mx Hmx. destruct (Hm m mx Hmx) as (l & Hw & Hf & Hh). exists l.
  split; [done|]. split; [done|]. intros Hne. destruct (Hh Hne) as (H1 & H2 & H3).
  split_and!; [lia|lia| |done]. cbn. set_solver.
Qed.

Context (c : config) (ph : gmap Z cphase) (ts : list Z) (gs : list (Z * Z)) (y : asys).
Context (HI : create_inv (CConfig c ph ts gs) y).
(** Tasks with a descriptor of their own. *)
Lemma own_sel t v :
  has_tss (c_state c) gs t → has_tss (c_state c) gs v →
  sel_of (c_state c) t = sel_of (c_state c) v → t = v.
Proof using HI.
  intros (i & Hi & Ht & _) (k & Hk & Hv & _) Heq. rewrite Ht, Hv in Heq. unfold sizeof_segment_desc in Heq.
  assert (k = i) as -> by lia. apply (nodup_fst gs i); [apply (ci_given _ _ HI)|done|done].
Qed.

Lemma few_tasks : len ts <= len gs.
Proof using HI.
  pose proof (co_wf _ _ _ (si_core _ _ (ci_sys _ _ HI))) as Ha. cbn in Ha.
  assert (NoDup ts) as Hnd.
  { pose proof (ci_all _ _ HI) as Hall. cbn in Hall. rewrite <- Hall. apply Ha. }
  assert (ts ⊆+ gs.*2) as Hsub.
  { apply NoDup_submseteq; [done|]. intros t Ht.
    destruct (ci_tss _ _ HI t) as (i & Hi & _); [set_solver|].
    apply list_elem_of_fmap. by exists (i, t). }
  apply submseteq_length in Hsub. rewrite length_fmap in Hsub. lia.
Qed.

Context (Hfew : len gs < 253) (j : job) (Hp : ph !! running c = Some (CPublish j)).
Let u := j_task j.
Let y' : asys := ASys (a_create u (y_sched y)) (y_mutexes y) (y_sems y).

Lemma publish_job : job_ok (c_state c) ts j.
Proof using HI Hp. apply (ci_phase _ _ HI _ _ Hp). Qed.
Lemma publish_tss : has_tss (c_state c) gs u.
Proof using HI Hp. apply (ci_phase _ _ HI _ _ Hp). Qed.

Lemma publish_ok :
  ∃ s', task_publish u (c_state c) = Done tt s' ∧ krep s' (a_create u (y_sched y)) ∧
    same_env (c_state c) s' ∧ awf (a_create u (y_sched y)) ∧
    (∀ t, t ≠ u → k_tasks s' !! t = k_tasks (c_state c) !! t) ∧
    k_cpu s' = k_cpu (c_state c) ∧ keeps_locks (c_state c) s'.
Proof using HI Hp Hfew.
  pose proof (si_core _ _ (ci_sys _ _ HI)) as Hco. cbn in Hco. pose proof (co_wf _ _ _ Hco) as Ha.
  destruct publish_job as [[tk Htk] Hn _ _ _]. pose proof few_tasks as Hft.
  pose proof (ci_all _ _ HI) as Hall. cbn in Hall.
  assert (a_curr (y_sched y) ≠ idle_task) as Hc.
  { rewrite <- (running_curr _ _ (ci_sys _ _ HI)). by apply (creator_running c ph ts gs y HI (CPublish j)). }
  destruct (curr_ready _ Ha Hc) as [r Hr].
  assert (u ∉ a_all (y_sched y)) as Hu by (rewrite Hall; set_solver).
  destruct (task_publish_ok (c_state c) (y_sched y) u tk (co_rep _ _ _ Hco) Htk)
    as (s' & E & HR & HE & Ht & Hcpu & Hlk).
  - by apply unplaced_awf.
  - by apply awf_len_ready.
  - rewrite Hall. unfold INT_MAX. lia.
  - exists s'. split_and!; try done.
    + apply awf_create; [done|by rewrite Hr|set_solver|done|]. rewrite Hall. unfold INT_MAX. lia.
    + intros t Hne. by rewrite Ht, lookup_insert_ne.
Qed.

Context (s' : kstate) (E : task_publish u (c_state c) = Done tt s').
Let c' : config := Config s' (<[sel_of s' u := Fresh (tss_flags s' u)]> (c_saved c)) (c_calls c).

Lemma publish_env :
  krep s' (a_create u (y_sched y)) ∧ same_env (c_state c) s' ∧ awf (a_create u (y_sched y)) ∧
  (∀ t, t ≠ u → k_tasks s' !! t = k_tasks (c_state c) !! t) ∧
  k_cpu s' = k_cpu (c_state c) ∧ keeps_locks (c_state c) s'.
Proof using HI Hp Hfew E.
  destruct publish_ok as (s2 & E2 & Hrest). rewrite E in E2. injection E2 as <-. exact Hrest.
Qed.

Lemma publish_core : core s' (a_create u (y_sched y)) (c_saved c').
Proof using HI Hp Hfew E.
  destruct publish_env as (HR & HE & Ha' & _ & Hc & _).
  pose proof (si_core _ _ (ci_sys _ _ HI)) as Hco. pose proof (ci_all _ _ HI) as Hall. cbn in Hco, Hall.
  destruct Hco as [_ Ha Hif Htr Hinj Hsv Hsl].
  assert (∀ t, sel_of s' t = sel_of (c_state c) t) as Hsel by (intros t; apply sel_of_env, HE).
  assert (∀ t, t ∈ idle_task :: a_all (a_create u (y_sched y)) → has_tss (c_state c) gs t) as Htss.
  { intros t Ht. cbn in Ht. rewrite Hall in Ht.
    assert (t = u ∨ t ∈ idle_task :: ts) as [->|Hin] by set_solver; [exact publish_tss|by apply (ci_tss _ _ HI)]. }
  split; cbn [a_create a_curr a_all c_saved c']; try done.
  - by rewrite Hc.
  - by rewrite Hc, Hsel.
  - intros t v Ht Hv. rewrite !Hsel. by apply own_sel; apply Htss.
  - intros t Ht Hne. rewrite !Hsel. destruct (decide (t = u)) as [->|Htu].
    + rewrite lookup_insert_eq. eexists. split; [done|].
      destruct (ci_phase _ _ HI _ _ Hp) as (_ & _ & _ & Hfl & _). cbn in Hfl |- *.
      unfold tss_flags in *. rewrite (se_mem _ _ HE). fold u in Hfl. by rewrite Hfl.
    + rewrite lookup_insert_ne; [apply Hsv; [set_solver|done]|].
      intros Heq. apply Htu, own_sel; [by apply Htss|exact publish_tss|done].
  - intros t tk Ht Htk. apply elem_of_app in Ht as [Ht|Ht%list_elem_of_singleton].
    + exact (slices_env (c_state c) s' _ HE Hsl t tk Ht Htk).
    + subst t. pose proof (se_slices _ _ HE u) as H1. pose proof (se_times _ _ HE u) as H2.
      rewrite Htk in H1, H2. destruct (k_tasks (c_state c) !! u) as [tk0|] eqn:E0; [|done].
      destruct (ci_phase _ _ HI _ _ Hp) as (_ & _ & _ & _ & Hsl0). destruct (Hsl0 tk0 E0) as [S1 S2].
      injection H1 as ->. injection H2 as ->. by rewrite S1, S2.
Qed.

Lemma publish_sys : sys_inv c' y'.
Proof using HI Hp Hfew E.
  destruct publish_env as (_ & _ & _ & _ & _ & Hm & Hs).
  pose proof (ci_sys _ _ HI) as [_ Hl Hm0 Hs0 Hcu Hca]. cbn in *.
  split; cbn; try done.
  - exact publish_core.
  - by apply locks_create.
  - congruence.
  - congruence.
Qed.

Lemma publish_step_inv : create_inv (CConfig c' (delete (running c) ph) (ts ++ [u]) gs) y'.
Proof using HI Hp Hfew E.
  destruct publish_env as (_ & HE & _ & Ht & _ & Hm & _). pose proof publish_job as Hj.
  assert (∀ t, sel_of s' t = sel_of (c_state c) t) as Hsel by (intros t; apply sel_of_env, HE).
  split; cbn [x_config x_phase x_tasks x_given].
  - exact publish_sys.
  - cbn. by rewrite (ci_all _ _ HI).
  - unfold gdt_wf. cbn. rewrite (se_gdt _ _ HE). exact (ci_gdt _ _ HI).
  - exact (ci_mutex _ _ HI).
  - exact (ci_given _ _ HI).
  - exact (ci_range _ _ HI).
  - intros i Hi. unfold free_at. cbn. rewrite (se_gdt _ _ HE). by apply (ci_free _ _ HI).
  - intros t Hin. apply (has_tss_kept (c_state c) _ gs); [done|apply Hsel| |].
    + intros i _. cbn. by rewrite (se_gdt _ _ HE).
    + assert (t = u ∨ t ∈ idle_task :: ts) as [->|Hin'] by set_solver; [exact publish_tss|by apply (ci_tss _ _ HI)].
  - intros t q [Hne Hq]%lookup_delete_Some. destruct (ci_phase _ _ HI _ _ Hq) as (Hti & Hjq & Hok).
    cbn [x_config x_tasks x_given] in *.
    assert (j_task (job_of q) ≠ u) as Hju.
    { intros Heq. apply Hne. symmetry. by apply (ci_jobs _ _ HI _ _ _ _ Hq Hp). }
    assert (job_kept (c_state c) s' gs (job_of q)) as Hk.
    { split; try done.
      - intros v. by apply same_env_dom.
      - intros tk' Htk. rewrite Ht in Htk by done. by exists tk'.
      - unfold tss_flags. by rewrite (se_mem _ _ HE).
      - by rewrite (se_mem _ _ HE).
      - intros i _. by rewrite (se_gdt _ _ HE). }
    assert (holds c t cpu_mutex → holds c' t cpu_mutex) as Hh.
    { intros (mx & Hmx & Hrest). exists mx. cbn. by rewrite Hm. }
    split; [done|]. split.
    + eapply job_ok_kept; [exact Hk| |exact Hjq]. pose proof (jo_new _ _ _ Hjq). set_solver.
    + apply (phase_kept c _ gs); try done.
      * intros i _. unfold free_at. cbn. by rewrite (se_gdt _ _ HE).
      * intros i _ _. unfold free_at. cbn. by rewrite (se_gdt _ _ HE).
      * intros [He|He]; [by left|right; by apply Hh].
  - intros t v q r [_ Hq]%lookup_delete_Some [_ Hr]%lookup_delete_Some. by apply (ci_jobs _ _ HI).
Qed.
End publish.

(** ** Runs *)

Section runs.
Context `{Platform}.

Lemma compute_step_inv c ph ts gs y m :
  create_inv (CConfig c ph ts gs) y →
  (∀ t p, ph !! t = Some p → spares (k_mem (c_state c)) m (job_of p)) →
  create_inv (CConfig (with_state_of c (with_mem m (c_state c))) ph ts gs) y.
Proof.
  intros [Hi Hall Hg Hmx Hnd Hr Hfree Htss Hph Hjobs] Hm. split; try done.
  - by apply sys_inv_mem.
  - cbn [x_config x_phase x_tasks x_given] in *. intros t p Hp.
    destruct (Hph t p Hp) as (Ht & Hj & Hok). destruct (Hm t p Hp) as [Hs Hfl].
    assert (job_kept (c_state c) (with_mem m (c_state c)) gs (job_of p)) as Hk.
    { split; try done. intros tk' Htk. by exists tk'. }
    split; [done|]. split; [eapply job_ok_kept; [exact Hk|apply Hj|done]|].
    by apply (phase_kept c _ gs).
Qed.

Lemma create_step_given X X' : create_step X X' → len (x_given X) <= len (x_given X').
Proof. destruct 1; cbn; try lia. rewrite length_app. lia. Qed.

Lemma create_step_inv X X' y :
  create_inv X y → create_step X X' → len (x_given X') < 253 → ∃ y', create_inv X' y'.
Proof.
  intros HI Hst Hfew. destruct Hst; cbn in Hfew.
  - eexists. by eapply other_step_inv.
  - eexists. eapply other_step_inv; [done|done|congruence].
  - eexists. by eapply compute_step_inv.
  - eexists. by eapply begin_step_inv.
  - eexists. by eapply next_step_inv.
  - eexists. by eapply found_step_inv.
  - exfalso. pose proof (never_full _ _ _ _ _ HI j i). intuition lia.
  - eexists. by eapply take_step_inv.
  - eexists. by eapply unlock_step_inv.
  - eexists. by eapply fill_step_inv.
  - eexists. by eapply prepare_step_inv.
  - eexists. by eapply bad_name_step_inv.
  - eexists. by eapply publish_step_inv.
Qed.

Lemma create_trace_given X X' : create_trace X X' → len (x_given X) <= len (x_given X').
Proof. induction 1 as [|X1 X2 X3 _ IH Hst]; [lia|]. pose proof (create_step_given _ _ Hst). lia. Qed.

Lemma create_trace_inv X X' y :
  create_trace X X' → create_inv X y → len (x_given X') < 253 → ∃ y', create_inv X' y'.
Proof.
  intros Htr HI. induction Htr as [|X1 X2 X3 _ IH Hst]; [by exists y|]. intros Hfew.
  pose proof (create_step_given _ _ Hst). destruct (IH HI ltac:(lia)) as [y2 HI2].
  by eapply create_step_inv.
Qed.

(** *** The creating task is never stuck *)

Lemma create_goes_on c ph ts gs y p :
  create_inv (CConfig c ph ts gs) y → len gs < 253 → ph !! running c = Some p →
  ∃ X', create_step (CConfig c ph ts gs) X'.
Proof.
  intros HI Hfew Hp. destruct (ci_phase _ _ HI _ _ Hp) as (Ht & Hj & Hok).
  pose proof (ci_gdt _ _ HI) as Hg. cbn [x_config x_tasks x_given] in *.
  destruct (jo_task _ _ _ Hj) as [tk Htk].
  destruct p as [j i|j i|j sel|j sel|j|j]; cbn in Hok, Htk.
  - destruct Hok as (_ & Hi & _). destruct (decide (i = GDT_TABLE_SIZE)) as [->|Hne].
    { pose proof (never_full _ _ _ _ _ HI j _ Hp ltac:(lia)). lia. }
    destruct (gdt_lookup (c_state c) i Hg) as [d Hd]; [lia|].
    pose proof (gdt_get_done _ i d Hg ltac:(lia) Hd) as E.
    destruct (decide (attr d = 0)); eexists; [eapply create_found|eapply create_next]; (done || lia).
  - destruct Hok as (_ & Hi & d & Hd & _). eexists. eapply create_take; [done|].
    apply (gdt_set_attr_done _ _ _ d); (done || lia).
  - destruct Hok as ((mx & Hm & Hl & Ho) & _). pose proof (ci_sys _ _ HI) as Hi. cbn in Hi.
    destruct (can_call c y (CUnlock cpu_mutex) Hi) as (s' & cs' & Hst).
    { by rewrite <- (running_curr _ _ Hi). }
    { unfold call_ok, args_ok. rewrite <- (si_mutexes _ _ Hi), Hm, <- (running_curr _ _ Hi).
      split; [by eexists|done]. }
    eexists. by eapply create_unlock.
  - destruct Hok as (i & -> & Hi). pose proof (ci_range _ _ HI _ _ Hi) as Hir.
    pose proof (tss_fill_ok (c_state c) _ tk (j_entry j) (j_esp j) (Z.to_nat i) Hg Htk
      ltac:(unfold gdt_wf in Hg; lia)) as E. rewrite Z2Nat.id in E by lia.
    eexists. eapply create_fill; [done|].
    rewrite (proj2 (Z.ltb_ge _ 0)) by (unfold sizeof_segment_desc; lia). exact E.
  - destruct (decide (name_ok (j_text j))) as [Hn|Hn].
    + destruct (prepared _ _ _ _ _ HI _ Hp Hn) as (tk' & h & _ & E & _).
      eexists. by eapply create_prepare.
    + eexists. eapply create_bad_name; [done|]. apply (prepare_bad _ _ _ (j_text j)); [apply Hj|apply Hj|done].
  - destruct (publish_ok _ _ _ _ _ HI Hfew j Hp) as (s' & E & _). eexists. by eapply create_publish.
Qed.
End runs.

(** ** The creation of the first tasks *)

Section first.
Context `{Platform}.
Context (s s1 : kstate) (Hb : boot_image s) (Hm : main_runs s s1).

(** The main task is about to create its task. *)
Definition main_config : config := Config s1 {[sel_of s1 idle_task := Fresh (tss_flags s1 idle_task)]} ∅.
Definition main_start : cconfig := CConfig main_config ∅ [main_task] [(3, idle_task); (4, main_task)].

Lemma main_sels : sel_of s1 idle_task = tss_selector 0 ∧ sel_of s1 main_task = tss_selector 1.
Proof using Hb Hm.
  destruct (first_tasks_ne s Hb) as (Hmi & _). unfold sel_of. rewrite (mr_tasks _ _ Hm).
  by rewrite lookup_insert_ne, !lookup_insert_eq by congruence.
Qed.

Lemma main_core : core s1 (a_main boot_waits) (c_saved main_config).
Proof using Hb Hm.
  destruct main_sels as [Hi Hma]. destruct (first_tasks_ne s Hb) as (Hmi & _).
  assert (∀ t, t ∈ idle_task :: a_all (a_main boot_waits) → t = idle_task ∨ t = main_task) as Ht
    by (intros t; cbn; rewrite !elem_of_cons, elem_of_nil; tauto).
  split.
  - apply Hm.
  - apply awf_main, boot_waits_empty.
  - rewrite (mr_cpu _ _ Hm). apply lor_if.
  - rewrite (mr_cpu _ _ Hm). symmetry. exact Hma.
  - intros t u [->| ->]%Ht [->| ->]%Ht; rewrite ?Hi, ?Hma; done.
  - intros t [->| ->]%Ht Hne; [|done]. exists (Fresh task_flags). split; [|done].
    cbn. rewrite lookup_singleton_eq, (bg_flags _ _ _ (mr_booting _ _ Hm)); [done|set_solver].
  - intros t tk Hin Htk. cbn in Hin. apply list_elem_of_singleton in Hin as ->.
    rewrite (mr_tasks _ _ Hm), lookup_insert_eq in Htk. by injection Htk as <-.
Qed.

Lemma main_free i :
  1 <= i < GDT_TABLE_SIZE → free_at s1 i ↔ i ≠ 1 ∧ i ≠ 2 ∧ i ∉ [3; 4].
Proof using Hb Hm.
  intros Hi. unfold free_at. rewrite (bg_gdt _ _ _ (mr_booting _ _ Hm)).
  destruct (decide (i < 5)) as [Hlt|Hge].
  - assert (i = 1 ∨ i = 2 ∨ i = 3 ∨ i = 4) as Hc by lia.
    destruct_or! Hc; subst; (split; [by intros (d & [= <-] & ?)|intros (? & ? & Hn); set_solver]).
  - split; [|intros _].
    + intros _. rewrite !not_elem_of_cons. split_and!; try lia. apply not_elem_of_nil.
    + exists null_desc. split; [|done]. unfold gdt_with_tss. cbn [imap foldl compose fst snd].
      rewrite !list_lookup_insert_ne by (cbn; lia). unfold boot_gdt.
      destruct (Z.to_nat i) as [|[|[|k]]] eqn:Ek; try lia. cbn [lookup list_lookup].
      apply lookup_replicate_2. unfold GDT_TABLE_SIZE in Hi. lia.
Qed.

Lemma main_create_inv : create_inv main_start (sys_of s1 (a_main boot_waits)).
Proof using Hb Hm.
  destruct main_sels as [Hi Hma]. split; cbn; try done.
  - split; cbn; try done; [exact main_core|].
    exact (first_locks s s1 (a_main boot_waits) Hb (mr_mutexes _ _ Hm) (mr_sems _ _ Hm) eq_refl).
  - unfold gdt_wf. by rewrite (bg_gdt _ _ _ (mr_booting _ _ Hm)).
  - rewrite (bg_mutex _ _ _ (mr_booting _ _ Hm)). by eexists.
  - by apply (bool_decide_unpack _).
  - intros i t Hin. rewrite !elem_of_cons, elem_of_nil in Hin. unfold GDT_TABLE_SIZE.
    destruct_or! Hin; simplify_eq; lia.
  - exact main_free.
  - intros t Hin. rewrite !elem_of_cons, elem_of_nil in Hin. destruct_or! Hin; subst t.
    + exists 3. rewrite Hi, (bg_gdt _ _ _ (mr_booting _ _ Hm)). split_and!; [set_solver|reflexivity|reflexivity].
    + exists 4. rewrite Hma, (bg_gdt _ _ _ (mr_booting _ _ Hm)). split_and!; [set_solver|reflexivity|reflexivity].
Qed.
End first.

(** ** task_init is these steps *)

Section task_init_steps.
Context `{Platform}.

Lemma create_one X X' : create_step X X' → create_trace X X'.
Proof. intros Hst. econstructor; [constructor|done]. Qed.
Lemma create_trace_app X1 X2 X3 : create_trace X1 X2 → create_trace X2 X3 → create_trace X1 X3.
Proof. intros H1 H2. induction H2 as [|X X' X'' _ IH Hst]; [done|]. econstructor; [by apply IH|done]. Qed.

(** The search of a task that is not interrupted, up to the first free entry. *)
Lemma scan_run c ph ts gs j (n : nat) i d :
  gdt_wf (c_state c) → 1 <= i → i + Z.of_nat n < GDT_TABLE_SIZE → ph !! running c = Some (CScan j i) →
  k_gdt (c_state c) !! Z.to_nat (i + Z.of_nat n) = Some d → attr d = 0 →
  (∀ k, i <= k < i + Z.of_nat n → ¬ free_at (c_state c) k) →
  create_trace (CConfig c ph ts gs) (CConfig c (<[running c := CTake j (i + Z.of_nat n)]> ph) ts gs).
Proof.
  intros Hg. revert ph i. induction n as [|n IH]; intros ph i Hi Hlt Hp Hd Ha Hused.
  - rewrite Z.add_0_r in *. apply create_one. eapply create_found; [done|done| |done].
    apply gdt_get_done; [done|lia|done].
  - destruct (gdt_lookup (c_state c) i Hg) as [d' Hd']; [lia|].
    eapply create_trace_app.
    + apply create_one. eapply (create_next c ph ts gs j i d'); [done|lia| |].
      * apply gdt_get_done; [done|lia|done].
      * intros Ha'. apply (Hused i); [lia|]. by exists d'.
    + rewrite i32_small by (unfold INT_MIN, INT_MAX, GDT_TABLE_SIZE in *; lia).
      replace (i + Z.of_nat (S n)) with (i + 1 + Z.of_nat n) in * by lia.
      rewrite <- (insert_insert_eq ph (running c) (CTake j (i + 1 + Z.of_nat n)) (CScan j (i + 1))).
      apply IH; [lia|lia|by rewrite lookup_insert_eq|done|done|].
      intros k Hk. apply Hused. lia.
Qed.

Lemma free_desc_first g (n : nat) :
  free_desc g = Some n → ∃ d, g !! S n = Some d ∧ attr d = 0 ∧
    ∀ k, 1 <= k < 1 + Z.of_nat n → ∀ d, g !! Z.to_nat k = Some d → attr d ≠ 0.
Proof.
  unfold free_desc. destruct (list_find _ _) as [[k d]|] eqn:Ef; [|done]. intros [= ->].
  apply list_find_Some in Ef as (Hk & Ha & Hl). rewrite lookup_drop in Hk.
  exists d. split_and!; [done|done|]. intros i Hi d' Hd'.
  apply (Hl (Z.to_nat i - 1)%nat); [|lia]. rewrite lookup_drop.
  by replace (1 + (Z.to_nat i - 1))%nat with (Z.to_nat i) by lia.
Qed.

(** The first half, get_alloc_desc. *)
Lemma get_alloc_desc_run s cs pend ph ts gs j n :
  gdt_wf s → mutex_free s cpu_mutex → k_curr s ≠ idle_task → pend !! k_curr s = None →
  ph !! k_curr s = None → job_ok s ts j → (∀ t p, ph !! t = Some p → j_task (job_of p) ≠ j_task j) →
  free_desc (k_gdt s) = Some n →
  ∃ s', get_alloc_desc s = Done ((Z.of_nat n + 1) * sizeof_segment_desc) s' ∧ k_curr s' = k_curr s ∧
    create_trace (CConfig (Config s cs pend) ph ts gs)
      (CConfig (Config s' cs pend) (<[k_curr s := CFill j ((Z.of_nat n + 1) * sizeof_segment_desc)]> ph) ts
        (gs ++ [(Z.of_nat n + 1, j_task j)])).
Proof.
  intros Hg Hf Hc Hpe Hn Hj Hd Hfr. pose proof Hf as [Hm Hw]. set (t := k_curr s) in *.
  destruct (free_desc_first _ _ Hfr) as (d & Hd0 & Ha & Hused).
  pose proof (free_desc_range _ _ Hfr) as Hlt.
  set (i := Z.of_nat n + 1) in *. set (sel := i * sizeof_segment_desc).
  assert (1 <= i < GDT_TABLE_SIZE ∧ Z.to_nat i = S n) as [Hi Hin] by (unfold gdt_wf in Hg; lia).
  set (s1 := mutex_set cpu_mutex (Mutex t 1) s).
  set (s2 := with_gdt (<[Z.to_nat i := with_attr SEG_P_PRESENT d]> (k_gdt s1)) s1).
  set (s3 := with_gdt (<[S n := with_attr SEG_P_PRESENT d]> (k_gdt s)) s).
  exists s3. split; [|split; [done|]].
  { rewrite (get_alloc_desc_free s Hg Hf), Hfr. f_equal. unfold s3.
    by rewrite (alter_as_list_insert _ _ _ _ Hd0). }
  eapply create_trace_app; [apply create_one, (create_begin _ ph ts gs j (Config s1 cs pend)); [done|done|done|]|].
  { apply call_returns; try done; [|by apply lock_free]. cbn. rewrite Hm. split; [by eexists|done]. }
  eapply create_trace_app; [apply (scan_run (Config s1 cs pend) _ ts gs j n 1 d)|];
    [done|lia|lia|apply lookup_insert_eq| |done| |].
  { cbn. by replace (Z.to_nat (1 + Z.of_nat n)) with (S n) by lia. }
  { intros k Hk (d' & Hd' & Ha'). by apply (Hused k Hk d'). }
  cbn [running c_state]. change (k_curr s1) with t. rewrite insert_insert_eq.
  replace (1 + Z.of_nat n) with i by lia.
  eapply create_trace_app; [apply create_one, create_take; [apply lookup_insert_eq|]|].
  { apply (gdt_set_attr_done _ _ _ d); [done|lia|]. cbn. by rewrite Hin. }
  unfold with_state_of. cbn [running c_state c_saved c_calls]. change (k_curr s1) with t.
  rewrite insert_insert_eq. fold sel.
  rewrite <- (insert_insert_eq ph t (CFill j sel) (CLeave j sel)).
  apply create_one, (create_unlock (Config s2 cs pend) _ ts _ j sel (Config s3 cs pend)); [apply lookup_insert_eq|].
  apply call_returns; try done.
  - cbn. rewrite lookup_insert_eq. split; [by eexists|]. split; done.
  - etrans; [apply unlock_free; [apply mutex_set_lookup|exact Hw]|]. f_equal.
    unfold mutex_set, s3, s2, s1, mutex_set. cbn. by rewrite insert_insert_eq, insert_id, Hin.
Qed.

(** The second half, from the descriptor to the end. *)
Lemma fill_publish_run s1 cs pend ph ts gs y j i :
  let t := k_curr s1 in
  create_inv (CConfig (Config s1 cs pend) (<[t := CFill j (i * sizeof_segment_desc)]> ph) ts gs) y →
  len gs < 253 → ph !! t = None → name_ok (j_text j) → 0 <= i < GDT_TABLE_SIZE →
  ∃ s2 s3 s4 cs', tss_fill (j_task j) (j_entry j) (j_esp j) (i * sizeof_segment_desc) s1 = Done tt s2 ∧
    task_prepare (j_task j) (j_name j) s2 = Done true s3 ∧ task_publish (j_task j) s3 = Done tt s4 ∧
    create_trace (CConfig (Config s1 cs pend) (<[t := CFill j (i * sizeof_segment_desc)]> ph) ts gs)
      (CConfig (Config s4 cs' pend) ph (ts ++ [j_task j]) gs).
Proof.
  intros t HI1 Hfew Hn Hname Hi. set (sel := i * sizeof_segment_desc) in *. set (c1 := Config s1 cs pend) in *.
  assert (<[t := CFill j sel]> ph !! running c1 = Some (CFill j sel)) as Hp1 by apply lookup_insert_eq.
  destruct (ci_phase _ _ HI1 _ _ Hp1) as (_ & Hj1 & _). destruct (jo_task _ _ _ Hj1) as [tk Htk].
  pose proof (ci_gdt _ _ HI1) as Hg1. cbn in Hg1, Htk.
  pose proof (tss_fill_ok s1 _ tk (j_entry j) (j_esp j) (Z.to_nat i) Hg1 Htk
    ltac:(unfold gdt_wf in Hg1; lia)) as E2. rewrite Z2Nat.id in E2 by lia. fold sel in E2.
  set (s2 := tss_filled (j_task j) (j_entry j) (j_esp j) (Z.to_nat i) s1) in *.
  assert (sel <? 0 = false) as Hsel by (apply Z.ltb_ge; unfold sel, sizeof_segment_desc; lia).
  pose proof (create_fill _ _ ts gs j sel s2 Hp1 ltac:(by rewrite Hsel)) as Hst2.
  change (running c1) with t in Hst2. rewrite insert_insert_eq in Hst2.
  destruct (create_step_inv _ _ _ HI1 Hst2) as [y2 HI2]; [done|].
  assert (<[t := CPrepare j]> ph !! running (with_state_of c1 s2) = Some (CPrepare j)) as Hp2
    by apply lookup_insert_eq.
  destruct (prepared _ _ _ _ _ HI2 _ Hp2 Hname) as (tk2 & h & _ & E3 & _). cbn [job_of c_state with_state_of] in E3.
  match type of E3 with _ = Done true ?x => set (s3 := x) in * end.
  pose proof (create_prepare _ _ ts gs j s3 Hp2 E3) as Hst3.
  change (running (with_state_of c1 s2)) with t in Hst3. rewrite insert_insert_eq in Hst3.
  cbn [with_state_of c_state c_saved c_calls] in Hst3.
  destruct (create_step_inv _ _ _ HI2 Hst3) as [y3 HI3]; [done|].
  assert (<[t := CPublish j]> ph !! running (Config s3 cs pend) = Some (CPublish j)) as Hp3
    by apply lookup_insert_eq.
  destruct (publish_ok _ _ _ _ _ HI3 Hfew j Hp3) as (s4 & E4 & _). cbn [c_state] in E4.
  pose proof (create_publish _ _ ts gs j s4 Hp3 E4) as Hst4.
  change (running (Config s3 cs pend)) with t in Hst4. rewrite delete_insert_id in Hst4 by done.
  exists s2, s3, s4. eexists. split_and!; [done|done|done|].
  eapply create_trace_app; [by apply create_one|]. eapply create_trace_app; by apply create_one.
Qed.

(** The whole of task_init, by a task that is not interrupted. *)
Lemma task_init_run s cs pend ph ts gs y j n :
  create_inv (CConfig (Config s cs pend) ph ts gs) y → len gs < 252 →
  mutex_free s cpu_mutex → k_curr s ≠ idle_task → ph !! k_curr s = None → job_ok s ts j →
  (∀ t p, ph !! t = Some p → j_task (job_of p) ≠ j_task j) → name_ok (j_text j) →
  free_desc (k_gdt s) = Some n →
  ∃ s' cs', task_init (j_task j) (j_name j) (j_entry j) (j_esp j) s = Done 0 s' ∧
    create_trace (CConfig (Config s cs pend) ph ts gs)
      (CConfig (Config s' cs' pend) ph (ts ++ [j_task j]) (gs ++ [(Z.of_nat n + 1, j_task j)])).
Proof.
  intros HI Hfew Hf Hc Hn Hj Hd Hname Hfr.
  assert (pend !! k_curr s = None) as Hpe.
  { pose proof (ci_sys _ _ HI) as Hi. cbn in Hi. pose proof (si_curr _ _ Hi) as Hp. cbn in Hp.
    by rewrite <- (running_curr _ _ Hi) in Hp. }
  destruct (get_alloc_desc_run s cs pend ph ts gs j n (ci_gdt _ _ HI) Hf Hc Hpe Hn Hj Hd Hfr)
    as (s1 & E1 & Hk1 & Htr1).
  set (i := Z.of_nat n + 1) in *.
  destruct (create_trace_inv _ _ _ Htr1 HI) as [y1 HI1]; [cbn; rewrite length_app; cbn; lia|].
  rewrite <- Hk1 in HI1, Htr1.
  destruct (fill_publish_run s1 cs pend ph ts (gs ++ [(i, j_task j)]) y1 j i HI1)
    as (s2 & s3 & s4 & cs' & E2 & E3 & E4 & Htr2); [|by rewrite Hk1|done| |].
  { rewrite length_app. cbn. lia. }
  { apply free_desc_range in Hfr. pose proof (ci_gdt _ _ HI) as Hg. unfold gdt_wf in Hg. cbn in Hg. lia. }
  exists s4, cs'. split; [|by eapply create_trace_app].
  unfold task_init, tss_init. erewrite bind2_done by exact E1. cbn beta.
  rewrite (proj2 (Z.ltb_ge _ 0)) by (unfold sizeof_segment_desc; lia).
  erewrite bind2_done by exact E2. cbn beta. erewrite bind_done by done. cbn beta.
  erewrite bind_done by exact E3. cbn beta iota zeta. cbn [negb].
  assert (j_task j ≠ idle_task) as Hni by (pose proof (jo_new _ _ _ Hj); set_solver).
  rewrite (proj2 (Z.eqb_neq _ _) Hni). cbn [negb]. by erewrite bind_done by exact E4.
Qed.
End task_init_steps.

(** ** Property *)

Section create_property.
Context `{Platform}.

(** C8: Tasks are created safely with interrupts enabled: from the moment
    init_main enables interrupts, whatever the interleaving of timer
    interrupts, calls of the tasks and the steps of any number of task_init,
    as long as fewer than 253 descriptors have been taken, the kernel keeps
    the invariants of its scheduler and locks, with the tasks linked in the
    order of their critical sections; no descriptor is taken twice; every
    linked task has a descriptor of its own, taken for it, that describes its
    TSS; and a running task that is inside task_init always has a next step. *)
Theorem creation_safe s s1 X :
  boot_image s →
  (kernel_init;; task_main_init;; sem_init notify_task_print 0;; irq_enable_global) s = Done tt s1 →
  create_trace (main_start s1) X → len (x_given X) < 253 →
  (∃ y, sys_inv (x_config X) y ∧ a_all (y_sched y) = x_tasks X) ∧
  NoDup (x_given X).*1 ∧
  (∀ t, t ∈ idle_task :: x_tasks X → ∃ i, (i, t) ∈ x_given X ∧
    sel_of (c_state (x_config X)) t = i * sizeof_segment_desc ∧
    k_gdt (c_state (x_config X)) !! Z.to_nat i = Some (tss_desc t)) ∧
  (∀ p, x_phase X !! running (x_config X) = Some p → ∃ X', create_step X X').
Proof.
  intros Hb E Htr Hfew. destruct (main_runs_ok s Hb) as (s2 & _ & E2 & Hm).
  rewrite E in E2. injection E2 as <-.
  destruct (create_trace_inv _ _ _ Htr (main_create_inv s s1 Hb Hm) Hfew) as [y HI]. split_and!.
  - exists y. split; [apply (ci_sys _ _ HI)|apply (ci_all _ _ HI)].
  - apply (ci_given _ _ HI).
  - exact (ci_tss _ _ HI).
  - intros p Hp. destruct X as [c ph ts gs]. by apply (create_goes_on c ph ts gs y p).
Qed.
End create_property.
