(* ===== verification/Stub.v ===== *)
(** * The interrupt entry routines (kernel/init/start.S: exception_handler)

    The macro that every vector of the IDT leads to: it completes the frame
    the processor has pushed to an exception_frame_t, calls the C handler
    with its address, and restores the registers.  The processor's part, the
    delivery of an interrupt through a 32-bit gate of the same privilege and
    iret, is modelled as documented. *)

From S2P Require Import Prelude Mem DList Klib Machine Irq Log.

(** ** Registers and stack instructions *)

Record regs : Type := Regs {
  r_eax : Z; r_ecx : Z; r_edx : Z; r_ebx : Z;
  r_esp : Z; r_ebp : Z; r_esi : Z; r_edi : Z;
  r_ds : Z; r_es : Z; r_fs : Z; r_gs : Z;
  r_eip : Z; r_cs : Z; r_flags : Z
}.
Record xstate : Type := X { x_regs : regs; x_mem : mem }.

Definition with_esp (v : Z) (r : regs) : regs :=
  Regs (r_eax r) (r_ecx r) (r_edx r) (r_ebx r) v (r_ebp r) (r_esi r) (r_edi r)
    (r_ds r) (r_es r) (r_fs r) (r_gs r) (r_eip r) (r_cs r) (r_flags r).
Definition with_segs (ds es fs gs : Z) (r : regs) : regs :=
  Regs (r_eax r) (r_ecx r) (r_edx r) (r_ebx r) (r_esp r) (r_ebp r) (r_esi r) (r_edi r)
    ds es fs gs (r_eip r) (r_cs r) (r_flags r).
Definition with_ctl (eip cs flags : Z) (r : regs) : regs :=
  Regs (r_eax r) (r_ecx r) (r_edx r) (r_ebx r) (r_esp r) (r_ebp r) (r_esi r) (r_edi r)
    (r_ds r) (r_es r) (r_fs r) (r_gs r) eip cs flags.

Definition push (v : Z) (x : xstate) : xstate :=
  let sp := u32 (r_esp (x_regs x) - 4) in
  X (with_esp sp (x_regs x)) (store32 (x_mem x) sp v).
(** Pushing a segment register as 32 bits: some processors extend it with
    zeros, others write its 16 bits and leave the upper half of the word on
    the stack as it is. *)
Definition push_seg (zext : bool) (v : Z) (x : xstate) : xstate :=
  let sp := u32 (r_esp (x_regs x) - 4) in
  X (with_esp sp (x_regs x)) (if zext then store32 (x_mem x) sp (u16 v) else store16 (x_mem x) sp v).
(** The word [i] above the top of the stack. *)
Definition top (x : xstate) (i : Z) : Z := load32 (x_mem x) (r_esp (x_regs x) + 4 * i).
(** add $n, %esp *)
Definition drop_stack (n : Z) (x : xstate) : xstate :=
  X (with_esp (u32 (r_esp (x_regs x) + n)) (x_regs x)) (x_mem x).

Definition pusha (x : xstate) : xstate :=
  let r := x_regs x in
  push (r_edi r) (push (r_esi r) (push (r_ebp r) (push (r_esp r)
    (push (r_ebx r) (push (r_edx r) (push (r_ecx r) (push (r_eax r) x))))))).
(** popa discards the saved ESP. *)
Definition popa (x : xstate) : xstate :=
  let r := x_regs x in
  X (Regs (top x 7) (top x 6) (top x 5) (top x 4) (u32 (r_esp r + 32)) (top x 2) (top x 1) (top x 0)
       (r_ds r) (r_es r) (r_fs r) (r_gs r) (r_eip r) (r_cs r) (r_flags r)) (x_mem x).

(** ** The processor *)

(** An interrupt through the gate [d]: TF and the like are left out. *)
Definition deliver (zext : bool) (d : gate_desc_t) (error_code : option Z) (x : xstate) : xstate :=
  let r := x_regs x in
  let x := push (r_eip r) (push_seg zext (r_cs r) (push (r_flags r) x)) in
  let x := match error_code with Some e => push e x | None => x end in
  X (with_ctl (gate_offset d) (selector d) (Z.ldiff (r_flags r) ELFAGS_IF) (x_regs x)) (x_mem x).
Definition iret (x : xstate) : xstate :=
  drop_stack 12 (X (with_ctl (top x 0) (u16 (top x 1)) (top x 2) (x_regs x)) (x_mem x)).

(** ** The macro exception_handler name num with_err_code *)

(** From the entry to the call of do_handler_\name, whose argument is on the
    top of the stack. *)
Definition stub_enter (zext : bool) (num : Z) (with_err_code : bool) (x : xstate) : xstate :=
  let x := if with_err_code then x else push 0 x in
  let x := push num x in
  let x := pusha x in
  let x := push_seg zext (r_ds (x_regs x)) x in
  let x := push_seg zext (r_es (x_regs x)) x in
  let x := push_seg zext (r_fs (x_regs x)) x in
  let x := push_seg zext (r_gs (x_regs x)) x in
  push (r_esp (x_regs x)) x.
(** From its return to iret. *)
Definition stub_leave (x : xstate) : xstate :=
  let x := drop_stack 4 x in
  let x := X (with_segs (u16 (top x 3)) (u16 (top x 2)) (u16 (top x 1)) (u16 (top x 0)) (x_regs x)) (x_mem x) in
  let x := drop_stack 16 x in
  let x := popa x in
  let x := drop_stack 8 x in
  iret x.
Definition exception_handler (zext : bool) (num : Z) (with_err_code : bool) (do_handler : xstate → xstate)
    (x : xstate) : xstate :=
  stub_leave (do_handler (stub_enter zext num with_err_code x)).

(** The uses of the macro: name, num and with_err_code. *)
Definition stubs : list (string * (Z * bool)) := [
  ("unknown", (-1, false));
  ("divider", (0, false));
  ("Debug", (1, false));
  ("NMI", (2, false));
  ("breakpoint", (3, false));
  ("overflow", (4, false));
  ("bound_range", (5, false));
  ("invalid_opcode", (6, false));
  ("device_unavailable", (7, false));
  ("coprocessor_segment_overrun", (9, false));
  ("double_fault", (8, true));
  ("invalid_tss", (10, true));
  ("segment_not_present", (11, true));
  ("stack_segment_fault", (12, true));
  ("general_protection", (13, true));
  ("page_fault", (14, true));
  ("fpu_error", (16, false));
  ("alignment_check", (17, true));
  ("machine_check", (18, false));
  ("smd_exception", (19, false));
  ("virtual_exception", (20, false));
  ("control_protection_exception", (21, true));
  ("timer", (0x20, false))]%string.

(** What a C handler reads through its argument: the members of
    exception_frame_t, at their offsets. *)
Definition read_frame (m : mem) (p : Z) : exception_frame_t :=
  Frame (load32 m p) (load32 m (p + 4)) (load32 m (p + 8)) (load32 m (p + 12))
    (load32 m (p + 16)) (load32 m (p + 20)) (load32 m (p + 24)) (load32 m (p + 28))
    (load32 m (p + 32)) (load32 m (p + 36)) (load32 m (p + 40)) (load32 m (p + 44))
    (load32 m (p + 48)) (load32 m (p + 52))
    (load32 m (p + 56)) (load32 m (p + 60)) (load32 m (p + 64)).
Definition sizeof_frame : Z := 68.

(** The architecture: the exceptions with an error code. *)
Definition pushes_error_code (i : Z) : bool := bool_decide (i ∈ [8; 10; 11; 12; 13; 14; 17; 21]).

(** The routine the gate of a vector leads to, once irq_init and timer_init
    have filled the table, and the number its use of the macro pushes. *)
Definition vector_handler (i : Z) : string :=
  if i =? IRQ0_TIMER then "exception_handler_timer" else handler_of i.
Definition vector_num (i : Z) : Z :=
  if bool_decide (vector_handler i = "exception_handler_unknown"%string) then -1 else i.

(** ** The stack *)

Fixpoint words_at (m : mem) (a : Z) (ws : list Z) : Prop :=
  match ws with
  | [] => True
  | w :: ws => load32 m a = w ∧ words_at m (a + 4) ws
  end.
Definition stack (x : xstate) (sp : Z) (ws : list Z) : Prop :=
  r_esp (x_regs x) = sp ∧ words_at (x_mem x) sp ws.

Lemma words_at_store m a v b ws : b + 4 <= a → words_at m a ws → words_at (store32 m b v) a ws.
Proof.
  revert a. induction ws as [|w ws IH]; intros a Ha; [done|]. intros [<- Hw]. split.
  - apply load32_store32_ne. by left.
  - apply IH; [lia|done].
Qed.
Lemma words_at_ext m m' a ws :
  (∀ b, a <= b < a + 4 * len ws → load8 m' b = load8 m b) → words_at m a ws → words_at m' a ws.
Proof.
  revert a. induction ws as [|w ws IH]; intros a Hm; [done|]. intros [<- Hw].
  cbn [length] in Hm. split.
  - unfold load32, load16. by rewrite !Hm by lia.
  - apply IH; [|done]. intros b Hb. apply Hm. lia.
Qed.

Lemma push_stack v x sp w ws :
  stack x (sp + 4) ws → v = w → 0 <= sp → sp + 4 < 2 ^ 32 → 0 <= w < 2 ^ 32 →
  stack (push v x) sp (w :: ws).
Proof.
  intros [Hsp Hw] -> H0 H1 Hv. unfold stack, push. cbn [x_regs x_mem with_esp r_esp].
  rewrite Hsp, u32_small by lia. replace (sp + 4 - 4) with sp by lia.
  split; [done|]. split; [by rewrite load32_store32, u32_small|]. by apply words_at_store.
Qed.
Lemma stack_ctl x sp ws a b c :
  stack x sp ws → stack (X (with_ctl a b c (x_regs x)) (x_mem x)) sp ws.
Proof. done. Qed.
(** The bytes outside a range are as before. *)
Definition keeps_outside (lo hi : Z) (m m' : mem) : Prop :=
  ∀ a, a < lo ∨ hi <= a → load8 m' a = load8 m a.

(** Words on the stack from [sp] up to [hi], the memory outside of them being
    as in [m]. *)
Definition pushed (m : mem) (hi : Z) (x : xstate) (sp : Z) (ws : list Z) : Prop :=
  stack x sp ws ∧ keeps_outside sp hi m (x_mem x).
Lemma push_pushed m hi v x sp w ws :
  pushed m hi x (sp + 4) ws → u32 v = w → 0 <= sp → sp + 4 <= hi → hi < 2 ^ 32 →
  pushed m hi (push v x) sp (w :: ws).
Proof.
  change (2 ^ 32) with 0x100000000. intros [[Hsp Hw] Hk] <- H0 H1 H2. unfold pushed, stack, push.
  cbn [x_regs x_mem with_esp r_esp]. rewrite Hsp. replace (sp + 4 - 4) with sp by lia.
  rewrite u32_small by lia. split; [split; [done|split]|].
  - apply load32_store32.
  - by apply words_at_store.
  - intros a Ha. rewrite load8_store32_ne by lia. apply Hk. lia.
Qed.

Lemma pushed_ctl m hi x sp ws a b c :
  pushed m hi x sp ws → pushed m hi (X (with_ctl a b c (x_regs x)) (x_mem x)) sp ws.
Proof. done. Qed.

(** The word at [a] after pushing a segment register on the memory [m]. *)
Definition seg_word (zext : bool) (m : mem) (a v : Z) : Z :=
  u16 v + if zext then 0 else 0x10000 * load16 m (a + 2).
Lemma seg_word_low zext m a v : u16 (seg_word zext m a v) = u16 v.
Proof. unfold seg_word, u16. destruct zext; Z.to_euclidean_division_equations; lia. Qed.
Lemma push_seg_pushed zext m hi v x sp w ws :
  pushed m hi x (sp + 4) ws → seg_word zext m sp v = w → 0 <= sp → sp + 4 <= hi → hi < 2 ^ 32 →
  pushed m hi (push_seg zext v x) sp (w :: ws).
Proof.
  change (2 ^ 32) with 0x100000000. intros [[Hsp Hw] Hk] <- H0 H1 H2. unfold pushed, stack, push_seg.
  cbn [x_regs x_mem with_esp r_esp]. rewrite Hsp. replace (sp + 4 - 4) with sp by lia.
  rewrite u32_small by lia. unfold seg_word. destruct zext.
  - split; [split; [done|split]|].
    + rewrite load32_store32. rewrite u32_small; [lia|]. pose proof (u16_bound v). lia.
    + by apply words_at_store.
    + intros a Ha. rewrite load8_store32_ne by lia. apply Hk. lia.
  - split; [split; [done|split]|].
    + unfold load32. rewrite load16_store16. f_equal. f_equal. unfold load16.
      rewrite !load8_store16_ne by lia. by rewrite !Hk by lia.
    + eapply words_at_ext; [|exact Hw]. intros b Hb. apply load8_store16_ne. lia.
    + intros a Ha. rewrite load8_store16_ne by lia. apply Hk. lia.
Qed.

(** Registers that hold what they can hold. *)
Definition regs_wf (r : regs) : Prop :=
  Forall (λ v, 0 <= v < 2 ^ 32)
    [r_eax r; r_ecx r; r_edx r; r_ebx r; r_esp r; r_ebp r; r_esi r; r_edi r; r_eip r; r_flags r] ∧
  Forall (λ v, 0 <= v < 2 ^ 16) [r_ds r; r_es r; r_fs r; r_gs r; r_cs r].

(** The frame of an interrupt at the registers [r], on the memory [m]; its
    words, from the lowest address on. *)
Definition frame_of (zext : bool) (m : mem) (r : regs) (num code : Z) : exception_frame_t :=
  let seg k v := seg_word zext m (r_esp r - k) v in
  Frame (seg 68 (r_gs r)) (seg 64 (r_fs r)) (seg 60 (r_es r)) (seg 56 (r_ds r))
    (r_edi r) (r_esi r) (r_ebp r) (r_esp r - 20) (r_ebx r)
    (r_edx r) (r_ecx r) (r_eax r) num code (r_eip r) (seg 8 (r_cs r)) (r_flags r).
Definition frame_words (f : exception_frame_t) : list Z :=
  [f_gs f; f_fs f; f_es f; f_ds f; f_edi f; f_esi f; f_ebp f; f_esp f; f_ebx f; f_edx f;
   f_ecx f; f_eax f; f_num f; f_error_code f; f_eip f; f_cs f; f_eflags f].

Lemma read_frame_words m p f : words_at m p (frame_words f) → read_frame m p = f.
Proof.
  unfold frame_words, read_frame. cbn [words_at]. rewrite <- !Z.add_assoc. cbn [Z.add Pos.add].
  intros Hw. destruct_and! Hw. destruct f. cbn in *. f_equal; done.
Qed.

(** What the processor and the macro push. *)
Definition code_of (err : bool) (code : Z) : Z := if err then code else 0.
Definition error_code (err : bool) (code : Z) : option Z := if err then Some code else None.

(** Stack pointers that do not wrap. *)
Ltac sp_norm :=
  repeat match goal with
  | |- context [u32 (?a - 4)] =>
      lazymatch a with
      | context [u32] => fail
      | _ => rewrite (u32_small (a - 4)) by lia
      end
  end.
Ltac regs_facts Hwf :=
  let Hw := fresh in let Hh := fresh in destruct Hwf as [Hw Hh];
  repeat match goal with
  | Hf : Forall _ (_ :: _) |- _ => apply Forall_cons in Hf as [? Hf]
  end; cbn beta in *.

Lemma enter_pushed zext x d num err code :
  regs_wf (x_regs x) → 128 <= r_esp (x_regs x) → 0 <= code < 2 ^ 32 →
  let sp := r_esp (x_regs x) in
  pushed (x_mem x) sp (stub_enter zext num err (deliver zext d (error_code err code) x)) (sp - 72)
    (sp - 68 :: frame_words (frame_of zext (x_mem x) (x_regs x) (u32 num) (code_of err code))).
Proof.
  intros Hwf Hsp Hc sp. regs_facts Hwf.
  unfold stub_enter, pusha, deliver, frame_words, frame_of.
  cbn [f_gs f_fs f_es f_ds f_edi f_esi f_ebp f_esp f_ebx f_edx f_ecx f_eax f_num f_error_code f_eip f_cs f_eflags].
  destruct err; cbn [error_code code_of].
  all: repeat first [apply push_pushed|apply push_seg_pushed|apply pushed_ctl].
  all: cbn -[Z.pow Z.add Z.sub Z.mul u32 seg_word]; subst sp; sp_norm; try lia.
  all: try (rewrite u32_small by lia; lia).
  all: try (f_equal; lia).
  all: split; [split; [lia|done]|done].
Qed.

(** Returning to the interrupted code. *)
Lemma words_at_nth m a ws (i : nat) w :
  words_at m a ws → ws !! i = Some w → load32 m (a + 4 * Z.of_nat i) = w.
Proof.
  revert a i. induction ws as [|v ws IH]; intros a i; [done|]. intros [<- Hw].
  destruct i as [|i]; cbn; intros Hi.
  - injection Hi as <-. f_equal. lia.
  - rewrite <- (IH _ _ Hw Hi). f_equal. lia.
Qed.
Lemma top_stack x sp ws (i : nat) w : stack x sp ws → ws !! i = Some w → top x (Z.of_nat i) = w.
Proof. intros [<- Hw]. by apply words_at_nth. Qed.
Lemma words_at_app m a l1 l2 :
  words_at m a (l1 ++ l2) ↔ words_at m a l1 ∧ words_at m (a + 4 * len l1) l2.
Proof.
  revert a. induction l1 as [|w l1 IH]; intros a; cbn [app words_at length].
  - rewrite Z.mul_0_r, Z.add_0_r. tauto.
  - rewrite IH. replace (a + 4 * Z.of_nat (S (length l1))) with (a + 4 + 4 * len l1) by lia. tauto.
Qed.
Lemma drop_stack_ok n x sp l1 l2 :
  stack x sp (l1 ++ l2) → n = 4 * len l1 → 0 <= sp → sp + n < 2 ^ 32 →
  stack (drop_stack n x) (sp + n) l2.
Proof.
  intros [<- Hw] -> H0 H1. unfold stack, drop_stack. cbn [x_regs x_mem with_esp r_esp].
  rewrite u32_small by lia. split; [done|]. apply words_at_app in Hw as [_ Hw]. exact Hw.
Qed.

Lemma popa_iret_regs y :
  let z := drop_stack 8 (popa y) in
  x_regs (iret z) = Regs (top y 7) (top y 6) (top y 5) (top y 4) (u32 (r_esp (x_regs z) + 12))
    (top y 2) (top y 1) (top y 0) (r_ds (x_regs y)) (r_es (x_regs y)) (r_fs (x_regs y)) (r_gs (x_regs y))
    (top z 0) (u16 (top z 1)) (top z 2).
Proof. reflexivity. Qed.

Lemma leave_regs zext m x r w num code :
  regs_wf r → 128 <= r_esp r → stack x (r_esp r - 72) (w :: frame_words (frame_of zext m r num code)) →
  x_regs (stub_leave x) = r ∧ x_mem (stub_leave x) = x_mem x.
Proof.
  intros Hwf Hsp Hs. regs_facts Hwf. split; [|done].
  set (ws := frame_words (frame_of zext m r num code)) in Hs.
  set (x1 := drop_stack 4 x).
  set (x2 := X (with_segs (u16 (top x1 3)) (u16 (top x1 2)) (u16 (top x1 1)) (u16 (top x1 0))
    (x_regs x1)) (x_mem x1)).
  set (x3 := drop_stack 16 x2). set (x5 := drop_stack 8 (popa x3)).
  apply (drop_stack_ok 4 x _ [w] ws) in Hs as Hs1; [|done|lia|lia].
  change (stack x2 (r_esp r - 72 + 4) ws) in Hs1.
  apply (drop_stack_ok 16 x2 _ (take 4 ws) (drop 4 ws))
    in Hs1 as Hs3; [|done|lia|lia].
  fold x3 in Hs3. set (sp3 := r_esp r - 72 + 4 + 16) in *.
  assert (stack (popa x3) (sp3 + 32) (drop 12 ws)) as Hs4.
  { apply (drop_stack_ok 32 x3 sp3 (take 8 (drop 4 ws))); [exact Hs3|done|lia|lia]. }
  apply (drop_stack_ok 8 (popa x3) _ (take 2 (drop 12 ws)) (drop 14 ws))
    in Hs4 as Hs5; [|done|lia|lia].
  fold x5 in Hs5.
  change (stub_leave x) with (iret x5). unfold x5 at 1. rewrite popa_iret_regs. fold x5.
  change (r_ds (x_regs x3)) with (u16 (top x1 3)). change (r_es (x_regs x3)) with (u16 (top x1 2)).
  change (r_fs (x_regs x3)) with (u16 (top x1 1)). change (r_gs (x_regs x3)) with (u16 (top x1 0)).
  rewrite (proj1 Hs5), u32_small by lia.
  rewrite (top_stack x3 _ _ 7 _ Hs3 eq_refl : top x3 7 = _), (top_stack x3 _ _ 6 _ Hs3 eq_refl : top x3 6 = _),
    (top_stack x3 _ _ 5 _ Hs3 eq_refl : top x3 5 = _), (top_stack x3 _ _ 4 _ Hs3 eq_refl : top x3 4 = _),
    (top_stack x3 _ _ 2 _ Hs3 eq_refl : top x3 2 = _), (top_stack x3 _ _ 1 _ Hs3 eq_refl : top x3 1 = _),
    (top_stack x3 _ _ 0 _ Hs3 eq_refl : top x3 0 = _).
  rewrite (top_stack x1 _ _ 3 _ Hs1 eq_refl : top x1 3 = _), (top_stack x1 _ _ 2 _ Hs1 eq_refl : top x1 2 = _),
    (top_stack x1 _ _ 1 _ Hs1 eq_refl : top x1 1 = _), (top_stack x1 _ _ 0 _ Hs1 eq_refl : top x1 0 = _).
  rewrite (top_stack x5 _ _ 0 _ Hs5 eq_refl : top x5 0 = _), (top_stack x5 _ _ 1 _ Hs5 eq_refl : top x5 1 = _),
    (top_stack x5 _ _ 2 _ Hs5 eq_refl : top x5 2 = _).
  unfold frame_of.
  cbn [f_gs f_fs f_es f_ds f_edi f_esi f_ebp f_esp f_ebx f_edx f_ecx f_eax f_num f_error_code f_eip f_cs f_eflags].
  rewrite !seg_word_low, !u16_small by lia. destruct r as [eax ecx edx ebx esp]. cbn in sp3 |- *. f_equal. lia.
Qed.

(** The entry of every vector agrees with the number the vector has and with
    what the processor pushes for it. *)
Lemma vector_stub i :
  0 <= i < IDT_TABLE_NR →
  ∃ name, vector_handler i = ("exception_handler_" +:+ name)%string ∧
    (name, (vector_num i, pushes_error_code i)) ∈ stubs.
Proof.
  intros Hi.
  assert (Forall (λ i, Exists (λ p, vector_handler (Z.of_nat i) = "exception_handler_" +:+ p.1 ∧
    p.2 = (vector_num (Z.of_nat i), pushes_error_code (Z.of_nat i)))%string stubs) (seq 0 128)) as Hall
    by (apply (bool_decide_unpack _); vm_compute; done).
  assert (Z.to_nat i ∈ seq 0 128) as Hin by (unfold IDT_TABLE_NR in Hi; apply elem_of_seq; cbn; lia).
  apply (proj1 (Forall_forall _ _) Hall) in Hin. rewrite Z2Nat.id in Hin by lia.
  apply Exists_exists in Hin as ([n q] & Hin & Hn & Hq). cbn in Hn, Hq. subst q. by exists n.
Qed.

(** What the entry routine needs of a C handler: the calling convention, and
    the frame left as it is. *)
Definition handler_ok (x x' : xstate) : Prop :=
  r_esp (x_regs x') = r_esp (x_regs x) ∧
  ∀ a, top x 0 <= a < top x 0 + sizeof_frame → load8 (x_mem x') a = load8 (x_mem x) a.

(** ** Property *)

(** C29: Interrupts are transparent. The gate of each of the 128 vectors of the
    table leads to a use of the macro that pushes a 0 for the error code
    exactly when the processor pushes none, and pushes the number of the
    vector, or -1 for the vectors the kernel has no handler for, which share
    exception_handler_unknown. The handler runs with interrupts masked and
    reads in its exception_frame_t the registers of the interrupted code, that
    number and the error code, and no byte outside the 72 below the interrupted
    stack pointer has changed. The segment registers are in the low half of
    their members; the upper half is zero, or, on a processor that pushes 16
    bits ([zext] false), what the stack held before. When the handler returns,
    the interrupted code goes on with all its registers, flags and stack
    pointer as they were. *)
Theorem stub_roundtrip zext i d code x :
  0 <= i < IDT_TABLE_NR →
  regs_wf (x_regs x) → 128 <= r_esp (x_regs x) → 0 <= code < 2 ^ 32 →
  let err := pushes_error_code i in
  let num := vector_num i in
  let r := x_regs x in
  let x1 := deliver zext d (error_code err code) x in
  let x2 := stub_enter zext num err x1 in
  (∃ name, vector_handler i = ("exception_handler_" +:+ name)%string ∧ (name, (num, err)) ∈ stubs) ∧
  Z.testbit (r_flags (x_regs x2)) 9 = false ∧
  read_frame (x_mem x2) (top x2 0) = frame_of zext (x_mem x) r (u32 num) (code_of err code) ∧
  keeps_outside (r_esp r - 72) (r_esp r) (x_mem x) (x_mem x2) ∧
  ∀ do_handler, handler_ok x2 (do_handler x2) →
    x_regs (exception_handler zext num err do_handler x1) = r ∧
    x_mem (exception_handler zext num err do_handler x1) = x_mem (do_handler x2).
Proof.
  intros Hi Hwf Hsp Hc err num r x1 x2.
  destruct (enter_pushed zext x d num err code Hwf Hsp Hc) as [Hst Hout]. fold x1 in Hst, Hout. fold x2 in Hst, Hout.
  pose proof Hst as [Hesp Hw].
  assert (top x2 0 = r_esp r - 68) as Ht by exact (top_stack x2 _ _ 0 _ Hst eq_refl).
  destruct Hw as [_ Hw]. replace (r_esp (x_regs x) - 72 + 4) with (top x2 0) in Hw by (rewrite Ht; unfold r; lia).
  split; [by apply vector_stub|]. split; [|split; [|split]].
  - assert (r_flags (x_regs x2) = Z.ldiff (r_flags r) ELFAGS_IF) as -> by (unfold x2, x1; by destruct err).
    rewrite Z.ldiff_spec. change (Z.testbit ELFAGS_IF 9) with true. apply andb_false_r.
  - by apply read_frame_words.
  - exact Hout.
  - intros h [Hh Hk]. apply (leave_regs zext (x_mem x) (h x2) r (load32 (x_mem (h x2)) (r_esp r - 72)) (u32 num)
      (code_of err code)); [done|done|].
    split; [by rewrite Hh|]. split; [done|].
    replace (r_esp r - 72 + 4) with (top x2 0) by lia.
    by apply (words_at_ext (x_mem x2)).
Qed.

(** A page fault in code that runs at the stack pointer 0x9000, and the vector
    15, which has no handler, on a processor that pushes 16 bits. *)
Definition demo_regs : regs := Regs 1 2 3 4 0x9000 5 6 7 16 16 16 16 0x10400 8 0x202.
Lemma stub_roundtrip_witness :
  (let x1 := deliver true (GateDesc 0x100 8 0x8E00 1) (Some 4) (X demo_regs ∅) in
    read_frame (x_mem (stub_enter true 14 true x1)) (0x9000 - 68) = frame_of true ∅ demo_regs 14 4 ∧
    x_regs (exception_handler true 14 true id x1) = demo_regs) ∧
  (let m := store32 ∅ (0x9000 - 8) 0x12345678 in
    let x1 := deliver false (GateDesc 0x100 8 0x8E00 1) None (X demo_regs m) in
    let f := read_frame (x_mem (stub_enter false (-1) false x1)) (0x9000 - 68) in
    f_num f = 0xFFFFFFFF ∧ f_cs f = 0x12340008 ∧ x_regs (exception_handler false (-1) false id x1) = demo_regs).
Proof.
  assert (regs_wf demo_regs) as Hwf by (split; apply (bool_decide_unpack _); by vm_compute).
  split.
  - destruct (stub_roundtrip true 14 (GateDesc 0x100 8 0x8E00 1) 4 (X demo_regs ∅)) as (_ & _ & Hf & _ & Hh).
    + done.
    + exact Hwf.
    + by vm_compute.
    + done.
    + split; [exact Hf|]. apply Hh. by split.
  - destruct (stub_roundtrip false 15 (GateDesc 0x100 8 0x8E00 1) 0 (X demo_regs (store32 ∅ (0x9000 - 8) 0x12345678)))
      as (_ & _ & Hf & _ & Hh).
    + done.
    + exact Hwf.
    + by vm_compute.
    + done.
    + split; [|split].
      * exact (f_equal f_num Hf).
      * etrans; [exact (f_equal f_cs Hf)|]. vm_compute. reflexivity.
      * apply Hh. by split.
Defined.
