(* ===== verification/Tss.v ===== *)
(** * The hardware task switch (comm/cpuistr.h: far_jump, write_tr; cpu/cpu.h: tss_t)

    What a far jump to a TSS and ltr do, as documented for the i386: registers
    saved in and loaded from the TSSs in memory, the busy bit of the
    descriptors, and the conditions under which the processor refuses a switch.
    The task switches of [System] are carried out by this processor. *)

From S2P Require Import Prelude Mem DList Klib Machine Irq Sched SchedSpec SchedOps Mutex Sem Cpu.
From S2P Require Import TaskInit Log Timer Init System Liveness Boot Stub.

(** ** The other members of tss_t (cpu/cpu.h) *)

Definition TSS_eax : Z := 40.
Definition TSS_ecx : Z := 44.
Definition TSS_edx : Z := 48.
Definition TSS_ebx : Z := 52.
Definition TSS_ebp : Z := 60.
Definition TSS_esi : Z := 64.
Definition TSS_edi : Z := 68.
Definition TSS_ldt : Z := 96.
(** iomap: the debug trap flag is its bit 0. *)
Definition TSS_iomap : Z := 100.

(** ** Saving and loading registers *)

(** The registers a TSS holds: those of [regs], and SS. *)
Record tctx : Type := TCtx { c_regs : regs; c_ss : Z }.

Definition tss_store16 (base : Z) (ws : list (Z * Z)) (m : mem) : mem :=
  foldl (λ m p, store16 m (base + p.1) p.2) m ws.

Definition ctx_words (c : tctx) : list (Z * Z) :=
  let r := c_regs c in [
  (TSS_eip, r_eip r); (TSS_eflags, r_flags r); (TSS_eax, r_eax r); (TSS_ecx, r_ecx r);
  (TSS_edx, r_edx r); (TSS_ebx, r_ebx r); (TSS_esp, r_esp r); (TSS_ebp, r_ebp r);
  (TSS_esi, r_esi r); (TSS_edi, r_edi r)].
Definition ctx_segs (c : tctx) : list (Z * Z) :=
  let r := c_regs c in [
  (TSS_es, r_es r); (TSS_cs, r_cs r); (TSS_ss, c_ss c); (TSS_ds, r_ds r); (TSS_fs, r_fs r);
  (TSS_gs, r_gs r)].

(** A selector is stored in the low half of its word. *)
Definition tss_save (base : Z) (c : tctx) (m : mem) : mem :=
  tss_store16 base (ctx_segs c) (tss_store base (ctx_words c) m).
Definition tss_load (base : Z) (m : mem) : tctx :=
  TCtx (Regs (load32 m (base + TSS_eax)) (load32 m (base + TSS_ecx)) (load32 m (base + TSS_edx))
    (load32 m (base + TSS_ebx)) (load32 m (base + TSS_esp)) (load32 m (base + TSS_ebp))
    (load32 m (base + TSS_esi)) (load32 m (base + TSS_edi))
    (load16 m (base + TSS_ds)) (load16 m (base + TSS_es)) (load16 m (base + TSS_fs))
    (load16 m (base + TSS_gs)) (load32 m (base + TSS_eip)) (load16 m (base + TSS_cs))
    (load32 m (base + TSS_eflags))) (load16 m (base + TSS_ss)).
Definition tss_ldt (base : Z) (m : mem) : Z := load16 m (base + TSS_ldt).
Definition tss_trap (base : Z) (m : mem) : bool := Z.testbit (load16 m (base + TSS_iomap)) 0.

(** ** Descriptors *)

(** The descriptor a selector names: none for the null selector, one of the
    LDT, or one beyond the table. *)
Definition desc_of (g : list segment_desc_t) (sel : Z) : option segment_desc_t :=
  if Z.testbit sel 2 || (sel / 8 =? 0) then None else g !! Z.to_nat (sel / 8).

(** Bit 1 of the type of a TSS descriptor: the task is running. *)
Definition TSS_BUSY : Z := 2.
Definition set_busy (d : segment_desc_t) : segment_desc_t := with_attr (Z.lor (attr d) TSS_BUSY) d.
Definition clear_busy (d : segment_desc_t) : segment_desc_t := with_attr (Z.ldiff (attr d) TSS_BUSY) d.
Definition busy_at (sel : Z) (g : list segment_desc_t) : list segment_desc_t :=
  alter set_busy (Z.to_nat (sel / 8)) g.
Definition idle_at (sel : Z) (g : list segment_desc_t) : list segment_desc_t :=
  alter clear_busy (Z.to_nat (sel / 8)) g.

(** An available 32-bit TSS, present and large enough. *)
Definition tss_available (d : segment_desc_t) : bool :=
  seg_system d && (seg_type d =? 9) && seg_present d && (0x67 <=? seg_limit d).

(** What the segment registers may be loaded with, at privilege level 0. *)
Definition code_ok (g : list segment_desc_t) (sel : Z) : bool :=
  match desc_of g sel with
  | Some d => seg_present d && negb (seg_system d) && Z.testbit (attr d) 3
  | None => false
  end.
Definition stack_ok (g : list segment_desc_t) (sel : Z) : bool :=
  match desc_of g sel with
  | Some d => seg_present d && negb (seg_system d) && negb (Z.testbit (attr d) 3) && Z.testbit (attr d) 1
  | None => false
  end.
Definition data_ok (g : list segment_desc_t) (sel : Z) : bool :=
  (sel / 4 =? 0) ||
  match desc_of g sel with
  | Some d => seg_present d && negb (seg_system d) && (negb (Z.testbit (attr d) 3) || Z.testbit (attr d) 1)
  | None => false
  end.
Definition ldt_ok (g : list segment_desc_t) (sel : Z) : bool :=
  (sel / 4 =? 0) ||
  match desc_of g sel with
  | Some d => seg_present d && seg_system d && (seg_type d =? 2)
  | None => false
  end.
Definition ctx_loads (g : list segment_desc_t) (ldt : Z) (c : tctx) : bool :=
  let r := c_regs c in
  ldt_ok g ldt && code_ok g (r_cs r) && stack_ok g (c_ss c) && data_ok g (r_ds r) &&
  data_ok g (r_es r) && data_ok g (r_fs r) && data_ok g (r_gs r).

(** ** The instructions *)

Record proc : Type := Proc {
  p_ctx : tctx;                      (* EIP is that of the next instruction *)
  p_tr : Z;
  p_gdt : list segment_desc_t;
  p_mem : mem
}.

Inductive outcome_of : Type :=
| Switched (p : proc)
| Refused (sel : Z)                  (* a fault before the switch *)
| BadTask (sel : Z)                  (* a fault while loading the new task *)
| Trapped (sel : Z).                 (* the debug exception of the T bit *)

(** ljmpl to a selector of a TSS. *)
Definition jmp_tss (sel : Z) (p : proc) : outcome_of :=
  match desc_of (p_gdt p) sel, desc_of (p_gdt p) (p_tr p) with
  | Some d, Some d0 =>
      if tss_available d then
        let m := tss_save (seg_base d0) (p_ctx p) (p_mem p) in
        let g := busy_at sel (idle_at (p_tr p) (p_gdt p)) in
        let c := tss_load (seg_base d) m in
        if negb (ctx_loads g (tss_ldt (seg_base d) m) c) then BadTask sel
        else if tss_trap (seg_base d) m then Trapped sel
        else Switched (Proc c sel g m)
      else Refused sel
  | _, _ => Refused sel
  end.
(** ltr *)
Definition ltr (sel : Z) (p : proc) : outcome_of :=
  match desc_of (p_gdt p) sel with
  | Some d =>
      if tss_available d then Switched (Proc (p_ctx p) sel (busy_at sel (p_gdt p)) (p_mem p))
      else Refused sel
  | None => Refused sel
  end.

(** ** A TSS in memory *)

Definition ctx_wf (c : tctx) : Prop := regs_wf (c_regs c) ∧ 0 <= c_ss c < 2 ^ 16.

Section tss_memory.
Implicit Types (m : mem) (c : tctx).

Lemma load8_store16s_out ws base m x :
  Forall (λ p, x < base + p.1 ∨ base + p.1 + 2 <= x) ws →
  load8 (tss_store16 base ws m) x = load8 m x.
Proof.
  unfold tss_store16. revert m. induction ws as [|[o v] ws IH]; intros m Hws; [done|].
  apply Forall_cons in Hws as [Ho Hws]. cbn [foldl fst snd] in *.
  rewrite IH by done. by apply load8_store16_ne.
Qed.
Lemma load16_store16s_in ws base m o v :
  (o, v) ∈ ws → ForallOrdPairs (λ p q, disjoint_ranges p.1 2 q.1 2) ws →
  load16 (tss_store16 base ws m) (base + o) = u16 v.
Proof.
  intros Hin Hd. revert m Hin. unfold tss_store16.
  induction Hd as [|p ws Hp _ IH]; intros m Hin; [by apply elem_of_nil in Hin|].
  cbn [foldl]. apply elem_of_cons in Hin as [<-|Hin]; [|by apply IH].
  cbn [fst snd] in *. clear IH. rewrite <- (load16_store16 m (base + o) v).
  generalize (store16 m (base + o) v). induction Hp as [|q ws Hq _ IH]; intros m'; [done|].
  cbn [foldl]. rewrite IH. unfold disjoint_ranges in Hq. cbn in Hq. unfold load16.
  by rewrite !load8_store16_ne by lia.
Qed.

Lemma ctx_words_apart c : ForallOrdPairs (λ p q, disjoint_ranges p.1 4 q.1 4) (ctx_words c).
Proof.
  unfold ctx_words, disjoint_ranges, TSS_eip, TSS_eflags, TSS_eax, TSS_ecx, TSS_edx, TSS_ebx, TSS_esp,
    TSS_ebp, TSS_esi, TSS_edi.
  repeat (apply FOP_cons; [repeat (apply List.Forall_cons; [cbn [fst]; lia|]); apply List.Forall_nil|]).
  apply FOP_nil.
Qed.
Lemma ctx_segs_apart c : ForallOrdPairs (λ p q, disjoint_ranges p.1 2 q.1 2) (ctx_segs c).
Proof.
  unfold ctx_segs, disjoint_ranges, TSS_es, TSS_cs, TSS_ss, TSS_ds, TSS_fs, TSS_gs.
  repeat (apply FOP_cons; [repeat (apply List.Forall_cons; [cbn [fst]; lia|]); apply List.Forall_nil|]).
  apply FOP_nil.
Qed.

(** Saving writes the words 32 to 95 of the TSS only. *)
Lemma tss_save_out base c m x : x < base + 32 ∨ base + 96 <= x → load8 (tss_save base c m) x = load8 m x.
Proof.
  intros Hx. unfold tss_save. rewrite load8_store16s_out.
  - unfold tss_store, ctx_words. cbn [foldl fst snd].
    unfold TSS_eip, TSS_eflags, TSS_eax, TSS_ecx, TSS_edx, TSS_ebx, TSS_esp, TSS_ebp, TSS_esi, TSS_edi.
    by rewrite !load8_store32_ne by lia.
  - unfold ctx_segs, TSS_es, TSS_cs, TSS_ss, TSS_ds, TSS_fs, TSS_gs.
    repeat (apply Forall_cons; split; [cbn [fst]; lia|]). by apply Forall_nil.
Qed.
Lemma tss_save_word base c m o v : (o, v) ∈ ctx_words c → load32 (tss_save base c m) (base + o) = u32 v.
Proof.
  intros Hin. rewrite <- (tss_store_in (ctx_words c) base m o v Hin (ctx_words_apart c)).
  assert (o + 4 <= 72) as Ho.
  { unfold ctx_words in Hin. repeat (apply elem_of_cons in Hin as [[= -> ->]|Hin]; [done|]).
    by apply elem_of_nil in Hin. }
  unfold load32, load16, tss_save. rewrite !load8_store16s_out; [done|..].
  all: unfold ctx_segs, TSS_es, TSS_cs, TSS_ss, TSS_ds, TSS_fs, TSS_gs.
  all: repeat (apply Forall_cons; split; [cbn [fst]; lia|]); by apply Forall_nil.
Qed.
Lemma tss_save_seg base c m o v : (o, v) ∈ ctx_segs c → load16 (tss_save base c m) (base + o) = u16 v.
Proof. intros Hin. apply load16_store16s_in; [done|apply ctx_segs_apart]. Qed.

(** What is saved is what will be loaded. *)
Lemma tss_load_save base c m : ctx_wf c → tss_load base (tss_save base c m) = c.
Proof.
  intros [Hwf Hss]. unfold tss_load.
  repeat match goal with
  | |- context [load32 (tss_save ?b ?c ?m) (?b + ?o)] =>
      erewrite (tss_save_word b c m o) by (unfold ctx_words; repeat constructor)
  | |- context [load16 (tss_save ?b ?c ?m) (?b + ?o)] =>
      erewrite (tss_save_seg b c m o) by (unfold ctx_segs; repeat constructor)
  end.
  regs_facts Hwf. rewrite !u32_small, !u16_small by lia. by destruct c as [[] ?].
Qed.

(** A TSS is read from its own bytes. *)
Definition same_tss (base : Z) (m m' : mem) : Prop :=
  ∀ x, base <= x < base + sizeof_tss → load8 m' x = load8 m x.
Lemma tss_load_same base m m' : same_tss base m m' → tss_load base m' = tss_load base m.
Proof.
  intros Hm. unfold tss_load, load32, load16, TSS_eip, TSS_eflags, TSS_eax, TSS_ecx, TSS_edx, TSS_ebx,
    TSS_esp, TSS_ebp, TSS_esi, TSS_edi, TSS_es, TSS_cs, TSS_ss, TSS_ds, TSS_fs, TSS_gs.
  unfold same_tss, sizeof_tss in Hm. by rewrite !Hm by lia.
Qed.
Definition tss_quiet (base : Z) (m : mem) : Prop := tss_ldt base m = 0 ∧ tss_trap base m = false.
Lemma tss_quiet_keep base m m' :
  (∀ x, base + 96 <= x < base + sizeof_tss → load8 m' x = load8 m x) → tss_quiet base m → tss_quiet base m'.
Proof.
  unfold tss_quiet, tss_ldt, tss_trap, load16, TSS_ldt, TSS_iomap, sizeof_tss. intros Hm.
  by rewrite !Hm by lia.
Qed.
End tss_memory.

(** ** Descriptors of tasks *)

Section descriptors.
Implicit Types (g : list segment_desc_t) (d : segment_desc_t).

Lemma desc_of_index g (i : nat) : (0 < i)%nat → desc_of g (Z.of_nat i * 8) = g !! i.
Proof.
  intros Hi. unfold desc_of. rewrite Z.div_mul, Nat2Z.id by done.
  rewrite (proj2 (Z.eqb_neq _ 0)) by lia.
  change 8 with (2 ^ 3). rewrite Z.mul_pow2_bits_low by lia. done.
Qed.
Lemma busy_index sel g (i : nat) : sel = Z.of_nat i * 8 → busy_at sel g = alter set_busy i g.
Proof. intros ->. unfold busy_at. by rewrite Z.div_mul, Nat2Z.id. Qed.
Lemma idle_index sel g (i : nat) : sel = Z.of_nat i * 8 → idle_at sel g = alter clear_busy i g.
Proof. intros ->. unfold idle_at. by rewrite Z.div_mul, Nat2Z.id. Qed.

(** Clearing the mark of the running task gives back the kernel's table. *)
Lemma idle_busy g sel (i : nat) d :
  sel = Z.of_nat i * 8 → g !! i = Some d → clear_busy (set_busy d) = d →
  idle_at sel (busy_at sel g) = g.
Proof.
  intros Hs Hd Hc. rewrite (idle_index _ _ i Hs), (busy_index _ _ i Hs).
  rewrite (alter_as_list_insert _ _ _ _ Hd).
  erewrite alter_as_list_insert by (apply list_lookup_insert_eq; by eapply lookup_lt_Some).
  by rewrite list_insert_insert_eq, Hc, list_insert_id.
Qed.

(** The mark does not disturb the search for a free descriptor. *)
Lemma find_insert (l : list segment_desc_t) i d e :
  l !! i = Some d → attr d ≠ 0 → attr e ≠ 0 →
  fst <$> list_find (λ d, attr d = 0) (<[i:=e]> l) = fst <$> list_find (λ d, attr d = 0) l.
Proof.
  intros Hi Hd He. revert i Hi. induction l as [|f l IH]; intros [|i] Hi; try done.
  - injection Hi as ->. cbn. by rewrite !decide_False by done.
  - cbn. destruct (decide (attr f = 0)); [done|]. specialize (IH i Hi).
    destruct (list_find _ (<[i:=_]> l)) as [[??]|], (list_find _ l) as [[??]|]; cbn in *; congruence.
Qed.
Lemma busy_free g sel (i : nat) d :
  sel = Z.of_nat (S i) * 8 → g !! S i = Some d → attr d ≠ 0 → free_desc (busy_at sel g) = free_desc g.
Proof.
  intros Hs Hd Ha. rewrite (busy_index _ _ _ Hs). unfold free_desc.
  rewrite (alter_as_list_insert _ _ _ _ Hd), drop_insert_ge by lia.
  apply (find_insert _ _ d); [by rewrite lookup_drop; cbn; rewrite Nat.sub_0_r|done|].
  cbn. intros H0. apply Ha. apply Z.lor_eq_0_iff in H0. tauto.
Qed.

(** The descriptor tss_init writes. *)
Lemma tss_desc_base t : 0 <= t + OFF_tss < 2 ^ 32 → seg_base (tss_desc t) = t + OFF_tss.
Proof.
  intros Ht. unfold tss_desc. rewrite u32_small by lia. apply seg_base_ok; [done|]. by unfold sizeof_tss.
Qed.
Lemma busy_base d : seg_base (set_busy d) = seg_base d.
Proof. done. Qed.
Lemma tss_desc_available t : tss_available (tss_desc t) = true.
Proof. reflexivity. Qed.
Lemma tss_desc_busy t : tss_available (set_busy (tss_desc t)) = false.
Proof. reflexivity. Qed.
Lemma tss_desc_clear t : clear_busy (set_busy (tss_desc t)) = tss_desc t.
Proof. reflexivity. Qed.
End descriptors.

(** ** Switching among tasks *)

(** Registers with the kernel's flat segments. *)
Definition flat (c : tctx) : Prop :=
  r_cs (c_regs c) = KERNEL_SELECTOR_CODE ∧ c_ss c = KERNEL_SELECTOR_DATA ∧
  r_ds (c_regs c) = KERNEL_SELECTOR_DATA ∧ r_es (c_regs c) = KERNEL_SELECTOR_DATA ∧
  r_fs (c_regs c) = KERNEL_SELECTOR_DATA ∧ r_gs (c_regs c) = KERNEL_SELECTOR_DATA.

(** The registers a task that is not running will go on with. *)
Definition saved (p : proc) (t : Z) : tctx := tss_load (t + OFF_tss) (p_mem p).

(** A table [g] with the kernel's segments and, at the selectors [sel], the
    TSS descriptors of the tasks [ts]. *)
Record tss_layout (g : list segment_desc_t) (sel : Z → Z) (ts : list Z) : Prop := {
  tl_code : g !! 1%nat = Some (SegDesc 0xFFFF 0 0 0xCF98 0);
  tl_data : g !! 2%nat = Some (SegDesc 0xFFFF 0 0 0xCF92 0);
  tl_desc : ∀ t, t ∈ ts → ∃ i : nat, sel t = Z.of_nat i * 8 ∧ (0 < i)%nat ∧ g !! i = Some (tss_desc t);
  tl_inj : ∀ t u, t ∈ ts → u ∈ ts → sel t = sel u → t = u;
  tl_range : ∀ t, t ∈ ts → 0 < t ∧ t + sizeof_task <= 2 ^ 32;
  tl_apart : ∀ t u, t ∈ ts → u ∈ ts → apart t u
}.

(** The processor runs [cur]; the others are in their TSSs. *)
Record on_tasks (g : list segment_desc_t) (sel : Z → Z) (ts : list Z) (cur : Z) (p : proc) : Prop := {
  ot_cur : cur ∈ ts;
  ot_tr : p_tr p = sel cur;
  ot_gdt : p_gdt p = busy_at (sel cur) g;
  ot_quiet : ∀ t, t ∈ ts → tss_quiet (t + OFF_tss) (p_mem p);
  ot_flat : ∀ t, t ∈ ts → t ≠ cur → flat (saved p t);
  ot_ctx : ctx_wf (p_ctx p) ∧ flat (p_ctx p)
}.

Section switching.
Context (g : list segment_desc_t) (sel : Z → Z) (ts : list Z) (Hl : tss_layout g sel ts).

Lemma layout_index t u (i j : nat) :
  t ∈ ts → u ∈ ts → t ≠ u → sel t = Z.of_nat i * 8 → sel u = Z.of_nat j * 8 → i ≠ j.
Proof using Hl. intros Ht Hu Hne Hi Hj ->. apply Hne, (tl_inj _ _ _ Hl); [done|done|congruence]. Qed.

(** What the processor finds at a selector while [cur] is marked. *)
Lemma desc_running cur : cur ∈ ts → desc_of (busy_at (sel cur) g) (sel cur) = Some (set_busy (tss_desc cur)).
Proof using Hl.
  intros Hc. destruct (tl_desc _ _ _ Hl cur Hc) as (i & Hi & H0 & Hd).
  rewrite (busy_index _ _ i Hi), Hi, desc_of_index by done. by rewrite list_lookup_alter_eq, Hd.
Qed.
Lemma desc_waiting cur u :
  cur ∈ ts → u ∈ ts → u ≠ cur → desc_of (busy_at (sel cur) g) (sel u) = Some (tss_desc u).
Proof using Hl.
  intros Hc Hu Hne. destruct (tl_desc _ _ _ Hl cur Hc) as (i & Hi & _ & _).
  destruct (tl_desc _ _ _ Hl u Hu) as (j & Hj & H0 & Hd).
  pose proof (layout_index u cur j i Hu Hc Hne Hj Hi).
  rewrite (busy_index _ _ i Hi), Hj, desc_of_index by done. by rewrite list_lookup_alter_ne by done.
Qed.
Lemma desc_segment cur (i : nat) d :
  cur ∈ ts → (0 < i)%nat → g !! i = Some d → attr d ≠ 0x89 →
  desc_of (busy_at (sel cur) g) (Z.of_nat i * 8) = Some d.
Proof using Hl.
  intros Hc H0 Hd Ha. destruct (tl_desc _ _ _ Hl cur Hc) as (j & Hj & _ & Hdj).
  rewrite (busy_index _ _ j Hj), desc_of_index by done. rewrite list_lookup_alter_ne; [done|].
  intros ->. rewrite Hd in Hdj. injection Hdj as ->. by apply Ha.
Qed.

Lemma flat_loads cur c : cur ∈ ts → flat c → ctx_loads (busy_at (sel cur) g) 0 c = true.
Proof using Hl.
  intros Hc (Hcs & Hss & Hds & Hes & Hfs & Hgs). unfold ctx_loads, code_ok, stack_ok, data_ok.
  rewrite Hcs, Hss, Hds, Hes, Hfs, Hgs. change KERNEL_SELECTOR_CODE with (Z.of_nat 1 * 8).
  change KERNEL_SELECTOR_DATA with (Z.of_nat 2 * 8).
  rewrite (desc_segment cur 1 _ Hc ltac:(lia) (tl_code _ _ _ Hl)) by done.
  rewrite (desc_segment cur 2 _ Hc ltac:(lia) (tl_data _ _ _ Hl)) by done. reflexivity.
Qed.

(** The TSSs of different tasks do not overlap. *)
Lemma save_other cur u c m x :
  cur ∈ ts → u ∈ ts → u ≠ cur → u + OFF_tss <= x < u + OFF_tss + sizeof_tss →
  load8 (tss_save (cur + OFF_tss) c m) x = load8 m x.
Proof using Hl.
  intros Hc Hu Hne Hx. apply tss_save_out.
  destruct (tl_apart _ _ _ Hl u cur Hu Hc) as [|Ha]; [done|].
  unfold OFF_tss, sizeof_tss, sizeof_task in *. lia.
Qed.
Lemma save_quiet cur t c m :
  cur ∈ ts → t ∈ ts → tss_quiet (t + OFF_tss) m → tss_quiet (t + OFF_tss) (tss_save (cur + OFF_tss) c m).
Proof using Hl.
  intros Hc Ht. apply tss_quiet_keep. intros x Hx. destruct (decide (t = cur)) as [->|Hne].
  - apply tss_save_out. lia.
  - apply (save_other cur t); [done..|]. unfold sizeof_tss in *. lia.
Qed.

Lemma task_base t : t ∈ ts → seg_base (tss_desc t) = t + OFF_tss.
Proof using Hl.
  intros Ht. apply tss_desc_base. pose proof (tl_range _ _ _ Hl t Ht).
  unfold OFF_tss, sizeof_task in *. lia.
Qed.

(** The new processor state of a switch from [cur] to [u]. *)
Definition switched (cur u : Z) (p : proc) : proc :=
  Proc (saved p u) (sel u) (busy_at (sel u) g) (tss_save (cur + OFF_tss) (p_ctx p) (p_mem p)).

Lemma jmp_switches cur u p :
  on_tasks g sel ts cur p → u ∈ ts → u ≠ cur → jmp_tss (sel u) p = Switched (switched cur u p).
Proof using Hl.
  intros [Hc Htr Hg Hq Hf Hx] Hu Hne. unfold jmp_tss. rewrite Htr, Hg.
  rewrite desc_waiting, desc_running, tss_desc_available by done. cbn zeta.
  destruct (tl_desc _ _ _ Hl cur Hc) as (i & Hi & _ & Hd).
  rewrite (idle_busy _ _ i _ Hi Hd (tss_desc_clear cur)), busy_base, !task_base by done.
  assert (same_tss (u + OFF_tss) (p_mem p) (tss_save (cur + OFF_tss) (p_ctx p) (p_mem p))) as Hs
    by (intros x Hxx; by apply (save_other cur u)).
  rewrite (tss_load_same _ _ _ Hs). fold (saved p u).
  destruct (save_quiet cur u (p_ctx p) (p_mem p) Hc Hu (Hq u Hu)) as [-> ->].
  by rewrite flat_loads by auto.
Qed.

Lemma jmp_running cur p : on_tasks g sel ts cur p → jmp_tss (sel cur) p = Refused (sel cur).
Proof using Hl.
  intros [Hc Htr Hg _ _ _]. unfold jmp_tss. rewrite Htr, Hg, desc_running by done.
  by rewrite tss_desc_busy.
Qed.

Lemma saved_switched cur u p t :
  on_tasks g sel ts cur p → t ∈ ts →
  saved (switched cur u p) t = if decide (t = cur) then p_ctx p else saved p t.
Proof using Hl.
  intros [Hc _ _ _ _ [Hwf _]] Ht. unfold saved, switched. cbn [p_mem].
  case_decide as E; [subst; by apply tss_load_save|].
  apply tss_load_same. intros x Hx. by apply (save_other cur t).
Qed.

Lemma tss_load_wf base m : ctx_wf (tss_load base m).
Proof.
  split; [split|]; cbn; try apply load16_bound.
  - repeat (apply Forall_cons; split; [apply load32_bound|]). by apply Forall_nil.
  - repeat (apply Forall_cons; split; [apply load16_bound|]). by apply Forall_nil.
Qed.

Lemma switched_on cur u p :
  on_tasks g sel ts cur p → u ∈ ts → u ≠ cur → on_tasks g sel ts u (switched cur u p).
Proof using Hl.
  intros Hon Hu Hne. pose proof Hon as [Hc Htr Hg Hq Hf Hx]. split; try done.
  - intros t Ht. by apply save_quiet; auto.
  - intros t Ht Htu. rewrite (saved_switched cur u) by done. case_decide; [apply Hx|by apply Hf].
  - split; [apply tss_load_wf|]. by apply Hf.
Qed.

(** The running task computes: its registers change, and memory but for the
    TSSs of the tasks [is_task]. *)
Definition computes (is_task : Z → Prop) (p p1 : proc) : Prop :=
  p_tr p1 = p_tr p ∧ p_gdt p1 = p_gdt p ∧ ctx_wf (p_ctx p1) ∧ flat (p_ctx p1) ∧
  ∀ t, is_task t → same_tss (t + OFF_tss) (p_mem p) (p_mem p1).

Lemma computes_saved (P : Z → Prop) p p1 t : computes P p p1 → P t → saved p1 t = saved p t.
Proof using Type*. intros (_ & _ & _ & _ & Hm) Ht. unfold saved. by rewrite (tss_load_same _ _ _ (Hm t Ht)). Qed.
Lemma computes_on (P : Z → Prop) cur p p1 :
  (∀ t, t ∈ ts → P t) → on_tasks g sel ts cur p → computes P p p1 → on_tasks g sel ts cur p1.
Proof using Type*.
  intros HP [Hc Htr Hg Hq Hf _] Hcm. pose proof Hcm as (Htr1 & Hg1 & Hwf & Hfl & Hm).
  split; [done|congruence|congruence|..|done].
  - intros t Ht. eapply tss_quiet_keep; [|by apply Hq]. intros x Hx. apply (Hm t (HP t Ht)). lia.
  - intros t Ht Hne. rewrite (computes_saved P p p1) by auto. by apply Hf.
Qed.
End switching.

(** ** The kernel's switches *)

Section kernel.
Context `{Platform}.

Definition tasks_of (y : asys) : list Z := idle_task :: a_all (y_sched y).
Definition is_task (c : config) (t : Z) : Prop := is_Some (k_tasks (c_state c) !! t).

(** The GDT describes the kernel's segments and the TSSs of the tasks. *)
Record tss_gdt (s : kstate) (ts : list Z) : Prop := {
  tg_code : k_gdt s !! 1%nat = Some (SegDesc 0xFFFF 0 0 0xCF98 0);
  tg_data : k_gdt s !! 2%nat = Some (SegDesc 0xFFFF 0 0 0xCF92 0);
  tg_desc : ∀ t, t ∈ ts → ∃ i : nat,
    sel_of s t = Z.of_nat i * 8 ∧ (0 < i)%nat ∧ k_gdt s !! i = Some (tss_desc t)
}.

Lemma tasks_exist c y t : sys_inv c y → t ∈ tasks_of y → is_task c t.
Proof.
  intros Hi Ht. pose proof (co_rep _ _ _ (si_core _ _ Hi)) as HR. unfold tasks_of in Ht.
  apply elem_of_cons in Ht as [->|Ht]; [apply (kr_idle _ _ HR)|by apply (kr_all _ _ HR)].
Qed.
Lemma layout_of c y :
  sys_inv c y → tss_gdt (c_state c) (tasks_of y) →
  tss_layout (k_gdt (c_state c)) (sel_of (c_state c)) (tasks_of y).
Proof.
  intros Hi [Hcd Hda Hd]. pose proof (co_rep _ _ _ (si_core _ _ Hi)) as HR.
  pose proof (tp_apart _ (kr_placed _ _ HR)) as Hap. pose proof (tp_range _ (kr_placed _ _ HR)) as Hrg.
  split; [done|done|done|apply (co_sels _ _ _ (si_core _ _ Hi))|..].
  - intros t Ht. by apply Hrg, (tasks_exist c y).
  - intros t u Ht Hu. by apply Hap; apply (tasks_exist c y).
Qed.

(** The flags of a context. *)
Definition ctx_flags (x : context) : Z := match x with Fresh fl => fl | Resume fl _ => fl end.
(** The registers [r] have the flags of the context saved for a selector. *)
Definition flags_agree (cs : gmap Z context) (sel : Z) (r : tctx) : Prop :=
  ∃ x, cs !! sel = Some x ∧ r_flags (c_regs r) = u32 (ctx_flags x).

(** The processor [p] carries the configuration [c]. *)
Record carries (p : proc) (c : config) (y : asys) : Prop := {
  ca_inv : sys_inv c y;
  ca_gdt : tss_gdt (c_state c) (tasks_of y);
  ca_on : on_tasks (k_gdt (c_state c)) (sel_of (c_state c)) (tasks_of y) (k_curr (c_state c)) p;
  ca_flags : ∀ t, t ∈ tasks_of y → t ≠ k_curr (c_state c) →
    flags_agree (c_saved c) (sel_of (c_state c) t) (saved p t)
}.

(** One step of the system on the processor. Between two switches the tasks
    and the kernel compute; the registers [r] are those at the end of this
    computation. At a switch their flags are those of the kernel. *)
Inductive hw_step : config → proc → label → tctx → config → proc → Prop :=
| hw_stay c p l c' p1 :
    sys_step c l c' → computes (is_task c) p p1 →
    tr (k_cpu (c_state c')) = tr (k_cpu (c_state c)) →
    hw_step c p l (p_ctx p1) c' p1
| hw_jump c p l c' p1 p' :
    sys_step c l c' → computes (is_task c) p p1 →
    tr (k_cpu (c_state c')) ≠ tr (k_cpu (c_state c)) →
    flags_agree (c_saved c') (tr (k_cpu (c_state c))) (p_ctx p1) →
    jmp_tss (tr (k_cpu (c_state c'))) p1 = Switched p' →
    hw_step c p l (p_ctx p1) c' p'.
Inductive hw_run : config → proc → config → proc → Prop :=
| hw_nil c p : hw_run c p c p
| hw_cons c p l r c1 p1 c2 p2 : hw_step c p l r c1 p1 → hw_run c1 p1 c2 p2 → hw_run c p c2 p2.
(** A run in which [t] is not running. *)
Inductive hw_away (t : Z) : config → proc → config → proc → Prop :=
| away_nil c p : running c ≠ t → hw_away t c p c p
| away_cons c p l r c1 p1 c2 p2 :
    running c ≠ t → hw_step c p l r c1 p1 → hw_away t c1 p1 c2 p2 → hw_away t c p c2 p2.

Lemma curr_tr x z : sys_inv x z → tr (k_cpu (c_state x)) = sel_of (c_state x) (k_curr (c_state x)).
Proof. intros Hx. rewrite (sys_inv_curr _ _ Hx). apply (co_tr _ _ _ (si_core _ _ Hx)). Qed.
Lemma curr_task x z : sys_inv x z → k_curr (c_state x) ∈ tasks_of z.
Proof.
  intros Hx. rewrite (sys_inv_curr _ _ Hx). pose proof (co_wf _ _ _ (si_core _ _ Hx)) as Ha.
  rewrite (aw_curr _ Ha). apply a_next_in. by rewrite a_dispatch_wf by apply Ha.
Qed.

Lemma next_tasks c l y : tasks_of (y_next c l y) = tasks_of y.
Proof.
  unfold tasks_of, y_next. destruct l; [by rewrite y_call_all|].
  cbn. by rewrite (proj1 (a_all_tick (expired (c_state c) (y_sched y)) (y_sched y))).
Qed.

Section one_step.
Context (c : config) (p p1 : proc) (y : asys) (l : label) (c' : config).
Context (Hca : carries p c y) (Hst : sys_step c l c') (Hcm : computes (is_task c) p p1).
Let y' : asys := y_next c l y.
Let cur : Z := k_curr (c_state c).
Let nxt : Z := k_curr (c_state c').

Lemma next_sel t : sel_of (c_state c') t = sel_of (c_state c) t.
Proof using Hca Hst.
  apply sel_of_env. intros u. pose proof (kp_sels _ _ (sys_step_rest _ _ _ _ (ca_inv _ _ _ Hca) Hst) u) as ->.
  by destruct l.
Qed.
Lemma next_gdt : k_gdt (c_state c') = k_gdt (c_state c).
Proof using Hca Hst.
  rewrite (kp_gdt _ _ (sys_step_rest _ _ _ _ (ca_inv _ _ _ Hca) Hst)). by destruct l.
Qed.
Lemma next_inv : sys_inv c' y'.
Proof using Hca Hst. apply (sys_step_sim _ _ _ _ (ca_inv _ _ _ Hca) Hst). Qed.
Lemma next_layout : tss_layout (k_gdt (c_state c)) (sel_of (c_state c)) (tasks_of y).
Proof using Hca. apply layout_of; apply Hca. Qed.
Lemma next_same : tr (k_cpu (c_state c')) = tr (k_cpu (c_state c)) ↔ nxt = cur.
Proof using Hca Hst.
  pose proof (curr_task _ _ next_inv) as Hn; unfold y' in Hn; rewrite next_tasks in Hn.
  rewrite (curr_tr _ _ next_inv), (curr_tr _ _ (ca_inv _ _ _ Hca)), next_sel. fold nxt cur.
  split; [|by intros E; rewrite E]. apply (tl_inj _ _ _ next_layout); [done|]. apply (curr_task _ _ (ca_inv _ _ _ Hca)).
Qed.
Lemma next_on : on_tasks (k_gdt (c_state c)) (sel_of (c_state c)) (tasks_of y) cur p1.
Proof using Hca Hcm.
  eapply computes_on; [apply next_layout| |apply Hca|exact Hcm].
  intros t. by apply tasks_exist, Hca.
Qed.

(** The selectors, the table and the tasks are as before the step. *)
Lemma next_carries p2 :
  on_tasks (k_gdt (c_state c)) (sel_of (c_state c)) (tasks_of y) nxt p2 →
  (∀ t, t ∈ tasks_of y → t ≠ nxt → flags_agree (c_saved c') (sel_of (c_state c) t) (saved p2 t)) →
  carries p2 c' y'.
Proof using Hca Hst.
  intros [Hc Htr Hg Hq Hf Hx] Hfl. destruct (ca_gdt _ _ _ Hca) as [H1 H2 H3].
  unfold y'. split; [apply next_inv|split|split|]; rewrite ?next_tasks, ?next_gdt, ?next_sel; try done.
  - intros t Ht. rewrite next_sel. by apply H3.
  - intros t Ht Hne. rewrite next_sel. by apply Hfl.
Qed.

Lemma stay_carries : tr (k_cpu (c_state c')) = tr (k_cpu (c_state c)) → carries p1 c' y'.
Proof using Hca Hst Hcm.
  intros Htr. pose proof (proj1 next_same Htr) as Hn. apply next_carries; rewrite Hn; [apply next_on|].
  intros t Ht Hne. rewrite (computes_saved (is_task c) p p1) by (exact Hcm || (apply (tasks_exist c y); [apply Hca|exact Ht])).
  destruct (sys_step_saved _ _ _ _ (ca_inv _ _ _ Hca) Hst) as [[_ ->]|(fl & k & Hs & Hm)];
    [by apply (ca_flags _ _ _ Hca)|].
  assert (sel_of (c_state c) t ≠ tr (k_cpu (c_state c))) as Hsel.
  { rewrite (curr_tr _ _ (ca_inv _ _ _ Hca)). intros E. apply Hne.
    apply (tl_inj _ _ _ next_layout); [done|apply (curr_task _ _ (ca_inv _ _ _ Hca))|done]. }
  destruct (ca_flags _ _ _ Hca t Ht Hne) as (x & Hx & Hf). exists x.
  by rewrite Hs, lookup_insert_ne, Htr, lookup_delete_ne by congruence.
Qed.

Lemma jump_carries :
  tr (k_cpu (c_state c')) ≠ tr (k_cpu (c_state c)) →
  flags_agree (c_saved c') (tr (k_cpu (c_state c))) (p_ctx p1) →
  let p' := switched (k_gdt (c_state c)) (sel_of (c_state c)) cur nxt p1 in
  jmp_tss (tr (k_cpu (c_state c'))) p1 = Switched p' ∧ carries p' c' y'.
Proof using Hca Hst Hcm.
  intros Htr Hfl p'. assert (nxt ≠ cur) as Hn by (intros E; by apply Htr, next_same).
  pose proof (curr_task _ _ next_inv) as Hin. unfold y' in Hin; rewrite next_tasks in Hin. fold nxt in Hin.
  pose proof next_on as Hon. pose proof next_layout as Hl. split.
  { rewrite (curr_tr _ _ next_inv), next_sel. by apply (jmp_switches _ _ _ Hl). }
  apply next_carries; [by apply (switched_on _ _ _ Hl)|]. intros t Ht Hne. unfold p'.
  rewrite (saved_switched _ _ _ Hl cur nxt p1 t Hon Ht).
  destruct (sys_step_saved _ _ _ _ (ca_inv _ _ _ Hca) Hst) as [[Htr' _]|(fl & k & Hs & Hm)]; [done|].
  rewrite (curr_tr _ _ (ca_inv _ _ _ Hca)) in Hs, Hfl. fold cur in Hs, Hfl.
  case_decide as E; [by subst t|].
  rewrite (computes_saved (is_task c) p p1) by (exact Hcm || (apply (tasks_exist c y); [apply Hca|exact Ht])).
  destruct (ca_flags _ _ _ Hca t Ht E) as (x & Hx & Hf). exists x. split; [|done].
  rewrite (curr_tr _ _ next_inv), next_sel in Hs. fold nxt in Hs.
  assert (∀ u, u ∈ tasks_of y → t ≠ u → sel_of (c_state c) t ≠ sel_of (c_state c) u) as Hsel.
  { intros u Hu Htu Es. by apply Htu, (tl_inj _ _ _ Hl). }
  rewrite Hs, lookup_insert_ne, lookup_delete_ne; [done|by apply not_eq_sym, Hsel|].
  apply not_eq_sym, Hsel; [|done]. apply (curr_task _ _ (ca_inv _ _ _ Hca)).
Qed.
End one_step.

Lemma hw_step_carries c p y l r c' p' :
  carries p c y → hw_step c p l r c' p' →
  carries p' c' (y_next c l y) ∧
  (running c' ≠ running c → p_ctx p' = saved p (running c') ∧ saved p' (running c) = r) ∧
  ∀ t, t ∈ tasks_of y → t ≠ running c → saved p' t = saved p t.
Proof.
  intros Hca Hst. pose proof (ca_inv _ _ _ Hca) as Hi.
  destruct Hst as [c p l c' p1 Hst Hcm Htr|c p l c' p1 p' Hst Hcm Htr Hfl Hj].
  - pose proof (proj1 (next_same c p y l c' Hca Hst) Htr) as Hn. split; [by eapply stay_carries|].
    split; [done|]. intros t Ht _. by apply (computes_saved (is_task c)), (tasks_exist c y).
  - destruct (jump_carries c p p1 y l c' Hca Hst Hcm Htr Hfl) as [E Hca']. rewrite E in Hj. injection Hj as <-.
    pose proof (next_on c p p1 y Hca Hcm) as Hon. pose proof (next_layout c p y Hca) as Hl.
    pose proof (curr_task _ _ Hi) as Hc. split; [done|]. split.
    + intros _. split.
      * apply (computes_saved (is_task c)); [done|]. apply (tasks_exist c y); [done|].
        rewrite <- (next_tasks c l y). by apply curr_task, (next_inv c p y l c' Hca Hst).
      * rewrite (saved_switched _ _ _ Hl _ _ _ _ Hon Hc). by rewrite decide_True.
    + intros t Ht Hne. rewrite (saved_switched _ _ _ Hl _ _ _ _ Hon Ht), decide_False by done.
      by apply (computes_saved (is_task c)), (tasks_exist c y).
Qed.

Lemma hw_run_carries c p y c' p' : hw_run c p c' p' → carries p c y → ∃ y', carries p' c' y'.
Proof.
  intros Hr. revert y. induction Hr as [c p|c p l r c1 p1 c2 p2 Hst _ IH]; intros y Hca; [by exists y|].
  apply (IH (y_next c l y)). by eapply hw_step_carries.
Qed.
Lemma hw_away_saved t c p y c' p' :
  hw_away t c p c' p' → carries p c y → t ∈ tasks_of y →
  running c' ≠ t ∧ saved p' t = saved p t ∧ ∃ y', carries p' c' y' ∧ t ∈ tasks_of y'.
Proof.
  intros Hr. revert y. induction Hr as [c p Hn|c p l r c1 p1 c2 p2 Hn Hst _ IH]; intros y Hca Ht.
  - split_and!; [done|done|by exists y].
  - destruct (hw_step_carries c p y l r c1 p1 Hca Hst) as (Hca1 & _ & Hs).
    destruct (IH (y_next c l y) Hca1) as (Hn2 & Hs2 & Hy); [by rewrite next_tasks|].
    split; [done|]. split; [|done]. rewrite Hs2. by apply Hs.
Qed.

(** Every step of the system is one of the processor: the switch it may need
    is accepted. *)
Definition at_flags (fl : Z) (p : proc) : proc :=
  let r := c_regs (p_ctx p) in
  Proc (TCtx (with_ctl (r_eip r) (r_cs r) (u32 fl) r) (c_ss (p_ctx p))) (p_tr p) (p_gdt p) (p_mem p).
Lemma at_flags_computes (P : Z → Prop) fl p : ctx_wf (p_ctx p) → flat (p_ctx p) → computes P p (at_flags fl p).
Proof.
  intros [Hwf Hss] Hfl. split_and!; try done. split; [|done]. destruct Hwf as [Hw Hh]. split; [|exact Hh].
  rewrite !Forall_cons in Hw |- *. destruct_and! Hw.
  split_and!; first [assumption|exact (proj1 (u32_bound fl))|exact (proj2 (u32_bound fl))|by apply Forall_nil].
Qed.
Lemma hw_can_step c p y l c' :
  carries p c y → sys_step c l c' → ∃ p1 p', computes (is_task c) p p1 ∧ hw_step c p l (p_ctx p1) c' p' ∧
    (running c' ≠ running c → flags_agree (c_saved c') (tr (k_cpu (c_state c))) (p_ctx p1)).
Proof.
  intros Hca Hst. destruct (ot_ctx _ _ _ _ _ (ca_on _ _ _ Hca)) as [Hwf Hfl].
  destruct (decide (tr (k_cpu (c_state c')) = tr (k_cpu (c_state c)))) as [Htr|Htr].
  - assert (computes (is_task c) p p) as Hcm by (by split_and!).
    exists p, p. split; [done|]. split; [by apply hw_stay|]. intros Hne. exfalso. apply Hne.
    by apply (next_same c p y l c' Hca Hst).
  - destruct (sys_step_saved _ _ _ _ (ca_inv _ _ _ Hca) Hst) as [[Htr' _]|(fl & k & Hs & _)]; [done|].
    pose proof (at_flags_computes (is_task c) fl p Hwf Hfl) as Hcm.
    assert (flags_agree (c_saved c') (tr (k_cpu (c_state c))) (p_ctx (at_flags fl p))) as Hag.
    { exists (Resume fl k). by rewrite Hs, lookup_insert_eq. }
    destruct (jump_carries c p _ y l c' Hca Hst Hcm Htr Hag) as [Hj _].
    eexists _, _. split; [exact Hcm|]. split; [by eapply hw_jump|done].
Qed.
End kernel.

(** ** The TSSs task_init leaves *)

Section first_load.
Context `{Platform}.

(** The general registers are what the memory held before. *)
Definition first_ctx (t entry esp : Z) (m : mem) : tctx :=
  let b := t + OFF_tss in
  TCtx (Regs (load32 m (b + TSS_eax)) (load32 m (b + TSS_ecx)) (load32 m (b + TSS_edx))
    (load32 m (b + TSS_ebx)) (u32 esp) (load32 m (b + TSS_ebp)) (load32 m (b + TSS_esi))
    (load32 m (b + TSS_edi)) KERNEL_SELECTOR_DATA KERNEL_SELECTOR_DATA KERNEL_SELECTOR_DATA
    KERNEL_SELECTOR_DATA (u32 entry) KERNEL_SELECTOR_CODE task_flags) KERNEL_SELECTOR_DATA.

Lemma first_ctx_flat t entry esp m : flat (first_ctx t entry esp m).
Proof. done. Qed.

(** The bytes tss_init does not reach: kernel_memset clears the first only. *)
Lemma tss_image_rest t entry esp m x :
  let o := x - (t + OFF_tss) in
  40 <= o < 56 ∨ 60 <= o < 72 ∨ 96 <= o < 104 → load8 (tss_image t entry esp m) x = load8 m x.
Proof.
  intros o Ho. unfold o in Ho. unfold tss_image, tss_store, tss_words. cbn [foldl fst snd].
  unfold TSS_eip, TSS_esp0, TSS_esp, TSS_ss0, TSS_ss, TSS_gs, TSS_fs, TSS_ds, TSS_es, TSS_cs, TSS_eflags.
  rewrite !load8_store32_ne by lia. apply load_store_ne. lia.
Qed.
Lemma tss_image_seg t entry esp m o v :
  (o, v) ∈ tss_words entry esp → 0 <= v < 0x10000 →
  load16 (tss_image t entry esp m) (t + OFF_tss + o) = v.
Proof.
  intros Hin Hv. pose proof (tss_image_in t entry esp m o v Hin) as Hw.
  rewrite u32_small in Hw by lia. unfold load32 in Hw.
  pose proof (load16_bound (tss_image t entry esp m) (t + OFF_tss + o)).
  pose proof (load16_bound (tss_image t entry esp m) (t + OFF_tss + o + 2)). lia.
Qed.

(** Membership in a list of words. *)
Ltac in_words := unfold tss_words; repeat first [apply list_elem_of_here|apply list_elem_of_further].
Lemma first_load t entry esp m :
  let b := t + OFF_tss in
  let m' := tss_image t entry esp m in
  tss_load b m' = first_ctx t entry esp m ∧ tss_ldt b m' = tss_ldt b m ∧ tss_trap b m' = tss_trap b m.
Proof.
  cbn zeta. split; [|split].
  - unfold tss_load, first_ctx.
    rewrite (tss_image_in t entry esp m TSS_esp esp), (tss_image_in t entry esp m TSS_eip entry),
      (tss_image_in t entry esp m TSS_eflags (Z.lor ELFAGS_IF EFLAGS_DEFAULT)) by in_words.
    rewrite (tss_image_seg t entry esp m TSS_ds KERNEL_SELECTOR_DATA),
      (tss_image_seg t entry esp m TSS_es KERNEL_SELECTOR_DATA),
      (tss_image_seg t entry esp m TSS_fs KERNEL_SELECTOR_DATA),
      (tss_image_seg t entry esp m TSS_gs KERNEL_SELECTOR_DATA),
      (tss_image_seg t entry esp m TSS_cs KERNEL_SELECTOR_CODE),
      (tss_image_seg t entry esp m TSS_ss KERNEL_SELECTOR_DATA) by first [solve [in_words]|by split].
    unfold load32, load16, TSS_eax, TSS_ecx, TSS_edx, TSS_ebx, TSS_ebp, TSS_esi, TSS_edi.
    by rewrite !tss_image_rest by lia.
  - unfold tss_ldt, load16, TSS_ldt. by rewrite !tss_image_rest by lia.
  - unfold tss_trap, load16, TSS_iomap. by rewrite !tss_image_rest by lia.
Qed.

(** Creating a task writes to its own bytes. *)
Lemma named_mem_out t entry esp bs m x :
  name_ok bs → x < t ∨ t + sizeof_task <= x → load8 (named_mem t entry esp bs m) x = load8 m x.
Proof.
  unfold name_ok, TASK_NAME_MAX_IN_SIZE, sizeof_task. intros Hn Hx. unfold named_mem.
  rewrite load_stores_out by (rewrite length_app; cbn; lia).
  apply tss_image_out. unfold OFF_tss, sizeof_tss. lia.
Qed.
Lemma named_mem_tss t entry esp bs m :
  name_ok bs → same_tss (t + OFF_tss) (tss_image t entry esp m) (named_mem t entry esp bs m).
Proof.
  unfold name_ok, TASK_NAME_MAX_IN_SIZE. intros Hn x Hx. unfold named_mem.
  apply load_stores_out. rewrite length_app. unfold OFF_tss in Hx. cbn. lia.
Qed.
Lemma named_mem_other t u entry esp bs m :
  name_ok bs → sizeof_task <= Z.abs (t - u) → same_tss (u + OFF_tss) m (named_mem t entry esp bs m).
Proof.
  intros Hn Ha x Hx. apply named_mem_out; [done|]. unfold OFF_tss, sizeof_tss, sizeof_task in *. lia.
Qed.
End first_load.

Lemma same_tss_trans b m1 m2 m3 : same_tss b m1 m2 → same_tss b m2 m3 → same_tss b m1 m3.
Proof. intros H1 H2 x Hx. by rewrite H2, H1. Qed.
Lemma same_tss_quiet b m m' : same_tss b m m' → tss_ldt b m' = tss_ldt b m ∧ tss_trap b m' = tss_trap b m.
Proof.
  unfold same_tss, tss_ldt, tss_trap, load16, TSS_ldt, TSS_iomap, sizeof_tss. intros Hm.
  by rewrite !Hm by lia.
Qed.

(** The first switch to a task: its TSS holds [tss_image]. *)
Section first_jump.
Context (g : list segment_desc_t) (sel : Z → Z) (ts : list Z) (Hl : tss_layout g sel ts).
Context (cur t : Z) (p : proc) (Hc : cur ∈ ts) (Ht : t ∈ ts) (Hne : t ≠ cur).
Context (Htr : p_tr p = sel cur) (Hg : p_gdt p = busy_at (sel cur) g).
Context (entry esp : Z) (m : mem) (Hm : same_tss (t + OFF_tss) (tss_image t entry esp m) (p_mem p)).

Lemma jmp_first :
  jmp_tss (sel t) p =
    if negb (ctx_loads (busy_at (sel t) g) (tss_ldt (t + OFF_tss) m) (first_ctx t entry esp m)) then BadTask (sel t)
    else if tss_trap (t + OFF_tss) m then Trapped (sel t)
    else Switched (Proc (first_ctx t entry esp m) (sel t) (busy_at (sel t) g)
      (tss_save (cur + OFF_tss) (p_ctx p) (p_mem p))).
Proof using Type*.
  unfold jmp_tss. rewrite Htr, Hg, (desc_waiting _ _ _ Hl), (desc_running _ _ _ Hl), tss_desc_available by done.
  cbn zeta. destruct (tl_desc _ _ _ Hl cur Hc) as (i & Hi & _ & Hd).
  rewrite (idle_busy _ _ i _ Hi Hd (tss_desc_clear cur)), busy_base, !(task_base _ _ _ Hl) by done.
  assert (same_tss (t + OFF_tss) (tss_image t entry esp m) (tss_save (cur + OFF_tss) (p_ctx p) (p_mem p))) as Hs.
  { eapply same_tss_trans; [exact Hm|]. intros x Hx. by apply (save_other _ _ _ Hl cur t). }
  rewrite (tss_load_same _ _ _ Hs). destruct (same_tss_quiet _ _ _ Hs) as [-> ->].
  destruct (first_load t entry esp m) as (-> & -> & ->). done.
Qed.

(** The table has no LDT descriptor. *)
Definition no_ldt (g : list segment_desc_t) : Prop :=
  Forall (λ d, seg_system d && (seg_type d =? 2) = false) g.

Lemma stale_ldt_bad : no_ldt g → tss_ldt (t + OFF_tss) m / 4 ≠ 0 → jmp_tss (sel t) p = BadTask (sel t).
Proof using Type*.
  intros Hno Hldt. rewrite jmp_first. unfold ctx_loads, ldt_ok.
  rewrite (proj2 (Z.eqb_neq _ 0) Hldt). cbn [orb]. unfold desc_of.
  destruct (Z.testbit _ 2 || _); [done|].
  destruct (busy_at (sel t) g !! _) as [d|] eqn:Ed; [|done].
  destruct (tl_desc _ _ _ Hl t Ht) as (i & Hi & _ & Hd).
  rewrite (busy_index _ _ i Hi), (alter_as_list_insert _ _ _ _ Hd) in Ed.
  apply list_lookup_insert_Some in Ed as [(_ & <- & _)|[_ Ed]]; [done|].
  apply (proj1 (Forall_lookup _ _) Hno) in Ed. cbn beta in Ed.
  by rewrite <- (andb_assoc (seg_present d)), Ed, andb_false_r.
Qed.
End first_jump.

(** ** The processor when the main task enters its loop *)

Section boot_processor.
Context `{Platform}.

(** All general registers zero. *)
Definition fresh_ctx (entry esp : Z) : tctx :=
  TCtx (Regs 0 0 0 0 (u32 esp) 0 0 0 KERNEL_SELECTOR_DATA KERNEL_SELECTOR_DATA KERNEL_SELECTOR_DATA
    KERNEL_SELECTOR_DATA (u32 entry) KERNEL_SELECTOR_CODE task_flags) KERNEL_SELECTOR_DATA.
(** The loaders clear the objects of the kernel that have no initial value. *)
Definition tss_clear (m : mem) (t : Z) : Prop :=
  ∀ x, t + OFF_tss <= x < t + OFF_tss + sizeof_tss → load8 m x = 0.

Lemma clear_first t entry esp m :
  tss_clear m t → first_ctx t entry esp m = fresh_ctx entry esp ∧ tss_quiet (t + OFF_tss) m.
Proof.
  unfold tss_clear, sizeof_tss. intros Hz. split; [|split].
  - unfold first_ctx, fresh_ctx, load32, load16, TSS_eax, TSS_ecx, TSS_edx, TSS_ebx, TSS_ebp, TSS_esi, TSS_edi.
    by rewrite !Hz by lia.
  - unfold tss_ldt, load16, TSS_ldt. by rewrite !Hz by lia.
  - unfold tss_trap, load16, TSS_iomap. by rewrite !Hz by lia.
Qed.

(** A task created in memory [m], as it is in the later memory [m']. *)
Lemma created_ctx t entry esp bs m m' :
  name_ok bs → tss_clear m t → same_tss (t + OFF_tss) (named_mem t entry esp bs m) m' →
  tss_load (t + OFF_tss) m' = fresh_ctx entry esp ∧ tss_quiet (t + OFF_tss) m'.
Proof.
  intros Hn Hz Hm. pose proof (same_tss_trans _ _ _ _ (named_mem_tss t entry esp bs m Hn) Hm) as Hs.
  destruct (clear_first t entry esp m Hz) as [Hc [Hq1 Hq2]].
  destruct (first_load t entry esp m) as (Hl & Hl1 & Hl2).
  destruct (same_tss_quiet _ _ _ Hs) as [E1 E2]. unfold tss_quiet.
  rewrite (tss_load_same _ _ _ Hs), Hl, E1, E2, Hl1, Hl2. done.
Qed.

(** Where the first tasks start. *)
Definition first_entries : list (Z * (Z * Z)) := [
  (idle_task, (idle_entry, idle_esp)); (main_task, (0, 0));
  (new_task, (symbol "new_task_entry", new_task_stack_top))].

(** The processor state that task_main_init leaves: ltr has marked the
    descriptor of the main task. *)
Definition boot_proc (c0 : tctx) (s : kstate) : proc :=
  Proc c0 (tr (k_cpu s)) (busy_at (tr (k_cpu s)) (k_gdt s)) (k_mem s).

Lemma ltr_main c0 tr0 m :
  ltr (tss_selector 1) (Proc c0 tr0 (gdt_with_tss [idle_task; main_task]) m) =
    Switched (Proc c0 (tss_selector 1) (busy_at (tss_selector 1) (gdt_with_tss [idle_task; main_task])) m).
Proof. reflexivity. Qed.
(** The descriptor of the new task is added after that. *)
Lemma ltr_new :
  <[5%nat := tss_desc new_task]> (busy_at (tss_selector 1) (gdt_with_tss [idle_task; main_task])) =
    busy_at (tss_selector 1) (gdt_with_tss [idle_task; main_task; new_task]).
Proof. reflexivity. Qed.

Context (s s' : kstate) (Hb : boot_image s) (Hbd : booted s s').
Context (Hz : Forall (tss_clear (k_mem s)) first_tasks).

Lemma boot_apart t u : t ∈ first_tasks → u ∈ first_tasks → t ≠ u → sizeof_task <= Z.abs (u - t).
Proof using Hb.
  intros Ht Hu Hne. pose proof (proj1 (Forall_forall _ _) (bi_tasks _ Hb)) as Hex.
  destruct (tp_apart _ (bi_placed _ Hb) t u (Hex _ Ht) (Hex _ Hu)); [done|lia].
Qed.

Lemma boot_tss t entry esp :
  (t, (entry, esp)) ∈ first_entries →
  tss_load (t + OFF_tss) (k_mem s') = fresh_ctx entry esp ∧ tss_quiet (t + OFF_tss) (k_mem s').
Proof using Hb Hbd Hz.
  pose proof (first_tasks_ne s Hb) as (Hmi & Hni & Hnm). pose proof Hz as Hz'. unfold first_tasks in Hz'.
  apply Forall_cons in Hz' as [Zi Hz']. apply Forall_cons in Hz' as [Zm Hz'].
  apply Forall_cons in Hz' as [Zn _].
  assert (name_ok (bytes_of IDLE_TASK_NAME) ∧ name_ok (bytes_of "main") ∧ name_ok (bytes_of "my new task"))
    as (N1 & N2 & N3) by (split_and!; apply name_ok_names; unfold names; set_solver).
  assert (∀ t u, t ∈ first_tasks → u ∈ first_tasks → t ≠ u → sizeof_task <= Z.abs (u - t)) as Hap by apply boot_apart.
  unfold first_tasks in Hap. rewrite (bd_mem _ _ Hbd). unfold new_mem, main_mem.
  assert (∀ u e p bs m, name_ok bs → tss_clear m t → u ≠ t → u ∈ [idle_task; main_task; new_task] →
    t ∈ [idle_task; main_task; new_task] → tss_clear (named_mem u e p bs m) t ∧
    same_tss (t + OFF_tss) m (named_mem u e p bs m)) as Hother.
  { intros u e p bs m Hbs Hc Hne Hu Ht.
    assert (same_tss (t + OFF_tss) m (named_mem u e p bs m)) as Hs
      by (apply named_mem_other; [done|by apply Hap]).
    split; [|done]. intros x Hx. rewrite Hs by done. by apply Hc. }
  unfold first_entries. rewrite !elem_of_cons, elem_of_nil.
  intros [[= -> -> ->]|[[= -> -> ->]|[[= -> -> ->]|[]]]].
  - apply (created_ctx idle_task _ _ (bytes_of IDLE_TASK_NAME) (k_mem s)); [done|done|].
    eapply same_tss_trans; [apply (named_mem_other main_task idle_task 0 0 (bytes_of "main"))|
      apply (named_mem_other new_task idle_task)]; try done; apply Hap; set_solver || congruence.
  - apply (created_ctx main_task _ _ (bytes_of "main") (named_mem idle_task idle_entry idle_esp
      (bytes_of IDLE_TASK_NAME) (k_mem s))); [done| |].
    + apply Hother; [done|done|congruence|set_solver|set_solver].
    + apply (named_mem_other new_task main_task); [done|]. apply Hap; [set_solver|set_solver|congruence].
  - eapply (created_ctx new_task _ _ (bytes_of "my new task")); [done| |by intros x Hx].
    apply Hother; [done| |congruence|set_solver|set_solver].
    apply Hother; [done|done|congruence|set_solver|set_solver].
Qed.

Lemma first_entry t : t ∈ first_tasks → ∃ entry esp, (t, (entry, esp)) ∈ first_entries.
Proof using Type.
  unfold first_tasks, first_entries. rewrite !elem_of_cons, elem_of_nil.
  intros [->|[->|[->|[]]]]; eexists _, _; rewrite !elem_of_cons; eauto.
Qed.
Lemma fresh_flat entry esp : flat (fresh_ctx entry esp).
Proof using Type. done. Qed.

Lemma boot_tss_gdt : tss_gdt s' first_tasks.
Proof using Hbd.
  destruct (booted_sels s s' Hbd) as (Hi & Hm & Hn). split; rewrite ?(bd_gdt _ _ Hbd); try reflexivity.
  intros t Ht. unfold first_tasks in Ht. rewrite !elem_of_cons, elem_of_nil in Ht.
  destruct Ht as [->|[->|[->|[]]]].
  - exists 3%nat. rewrite Hi. split; [done|]. split; [lia|reflexivity].
  - exists 4%nat. rewrite Hm. split; [done|]. split; [lia|reflexivity].
  - exists 5%nat. rewrite Hn. split; [done|]. split; [lia|reflexivity].
Qed.

Lemma boot_carries c0 :
  ctx_wf c0 → flat c0 → carries (boot_proc c0 s') (boot_config s') (y_boot s').
Proof using Hb Hbd Hz.
  intros Hwf Hfl. pose proof (boot_inv s s' Hb Hbd) as Hi.
  split; [done|apply boot_tss_gdt|split|].
  - apply (curr_task _ _ Hi).
  - apply (curr_tr _ _ Hi).
  - by rewrite <- (curr_tr _ _ Hi).
  - intros t Ht. destruct (first_entry t Ht) as (e & p & Hin). by apply (boot_tss t e p).
  - intros t Ht _. destruct (first_entry t Ht) as (e & p & Hin). unfold saved. cbn [p_mem boot_proc].
    rewrite (proj1 (boot_tss t e p Hin)). apply fresh_flat.
  - done.
  - intros t Ht Hne. destruct (first_entry t Ht) as (e & p & Hin).
    exists (Fresh task_flags). split; [|unfold saved; cbn [p_mem boot_proc]; by rewrite (proj1 (boot_tss t e p Hin))].
    apply (booted_saved s s' Hb Hbd); [done|]. intros ->. apply Hne. symmetry.
    apply (kr_curr _ _ (bd_rep _ _ Hbd)).
Qed.
End boot_processor.

(** ** Properties *)

Section tss_properties.
Context `{Platform}.

(** The configurations and processor states reached from the start of the
    kernel, with any registers in the first one. *)
Definition hw_reachable (s : kstate) (c : config) (p : proc) : Prop :=
  ∃ s' c0, (kernel_init;; init_main_start) s = Done tt s' ∧ ctx_wf c0 ∧ flat c0 ∧
    hw_run (boot_config s') (boot_proc c0 s') c p.

Lemma hw_reachable_carries s c p :
  boot_image s → Forall (tss_clear (k_mem s)) first_tasks → hw_reachable s c p → ∃ y, carries p c y.
Proof.
  intros Hb Hz (s' & c0 & E & Hwf & Hfl & Hr). destruct (boot_ok s Hb) as (s2 & E2 & Hbd).
  rewrite E in E2. injection E2 as <-. eapply hw_run_carries; [exact Hr|by eapply boot_carries].
Qed.

(** C13: The processor accepts every switch of the kernel: the TSS a far jump names
    is never the busy one, its descriptor is present and large enough, and
    its segments and LDT can be loaded, so that no step of the kernel is
    lost to a fault. The next task goes on with the registers its TSS holds,
    the flags being those the kernel's context has, exactly one TSS of the
    tasks is marked busy, and it is the running one. *)
Theorem switches_accepted s c p l c' p1 :
  boot_image s → Forall (tss_clear (k_mem s)) first_tasks → hw_reachable s c p →
  sys_step c l c' → computes (is_task c) p p1 →
  p_tr p = tr (k_cpu (c_state c)) ∧ p_gdt p = busy_at (p_tr p) (k_gdt (c_state c)) ∧
  jmp_tss (p_tr p) p = Refused (p_tr p) ∧
  (running c' ≠ running c → flags_agree (c_saved c') (tr (k_cpu (c_state c))) (p_ctx p1) →
    ∃ p', jmp_tss (tr (k_cpu (c_state c'))) p1 = Switched p' ∧
    hw_step c p l (p_ctx p1) c' p' ∧ p_ctx p' = saved p (running c') ∧
    flags_agree (c_saved c) (tr (k_cpu (c_state c'))) (p_ctx p')).
Proof.
  intros Hb Hz Hr Hst Hcm. destruct (hw_reachable_carries s c p Hb Hz Hr) as [y Hca].
  pose proof (ca_inv _ _ _ Hca) as Hi. pose proof (ca_on _ _ _ Hca) as Hon.
  pose proof (next_layout c p y Hca) as Hl. pose proof (curr_tr _ _ Hi) as Htr.
  rewrite (ot_tr _ _ _ _ _ Hon), (ot_gdt _ _ _ _ _ Hon), <- Htr. split_and!; [done|done| |].
  { rewrite Htr. by apply (jmp_running _ _ _ Hl). }
  intros Hne Hfl. assert (tr (k_cpu (c_state c')) ≠ tr (k_cpu (c_state c))) as Htr'
    by (intros E; by apply Hne, (next_same c p y l c' Hca Hst)).
  destruct (jump_carries c p p1 y l c' Hca Hst Hcm Htr' Hfl) as [E Hca']. eexists. split; [exact E|].
  assert (hw_step c p l (p_ctx p1) c' (switched (k_gdt (c_state c)) (sel_of (c_state c))
    (k_curr (c_state c)) (k_curr (c_state c')) p1)) as Hstep by (by eapply hw_jump).
  destruct (hw_step_carries c p y l _ c' _ Hca Hstep) as (_ & Hsw & _).
  destruct (Hsw Hne) as [Hx _]. split; [exact Hstep|]. split; [exact Hx|].
  rewrite Hx, (curr_tr _ _ (next_inv c p y l c' Hca Hst)), (next_sel c p y l c' Hca Hst).
  apply (ca_flags _ _ _ Hca); [|done]. rewrite <- (next_tasks c l y).
  by apply curr_task, (next_inv c p y l c' Hca Hst).
Qed.

(** C14: The registers of a task survive the other tasks: when a task is switched
    out with registers [r], whatever the other tasks then do, call and
    compute, and however the timer interrupts them, the switch that brings
    it back loads exactly [r]. *)
Theorem registers_survive s c p l r c1 p1 c2 p2 l2 r2 c3 p3 :
  boot_image s → Forall (tss_clear (k_mem s)) first_tasks → hw_reachable s c p →
  hw_step c p l r c1 p1 → running c1 ≠ running c →
  hw_away (running c) c1 p1 c2 p2 →
  hw_step c2 p2 l2 r2 c3 p3 → running c3 = running c →
  p_ctx p3 = r.
Proof.
  intros Hb Hz Hr Hst Hne Haw Hst3 Heq. destruct (hw_reachable_carries s c p Hb Hz Hr) as [y Hca].
  destruct (hw_step_carries _ _ _ _ _ _ _ Hca Hst) as (Hca1 & Hsw & _).
  destruct (Hsw Hne) as [_ Hs1].
  assert (running c ∈ tasks_of (y_next c l y)) as Hin
    by (rewrite next_tasks; apply curr_task, Hca).
  destruct (hw_away_saved _ _ _ _ _ _ Haw Hca1 Hin) as (Hn2 & Hs2 & y2 & Hca2 & _).
  destruct (hw_step_carries _ _ _ _ _ _ _ Hca2 Hst3) as (_ & Hsw3 & _).
  destruct (Hsw3 ltac:(congruence)) as [-> _]. by rewrite Heq, Hs2, Hs1.
Qed.

(** C27: The first switch to a task that task_init has created: it starts at its
    entry point, on its stack, with flat segments and interrupts enabled,
    but its general registers are what the TSS held before, for
    kernel_memset clears one byte only; and if it held an LDT selector or
    the trap flag, the switch faults. *)
Theorem first_switch s a t tk name bs entry esp sel ts cur p :
  krep s a → gdt_wf s → mutex_free s cpu_mutex → k_tasks s !! t = Some tk →
  cstr_at (k_mem s) name bs → name_ok bs → disjoint_ranges t sizeof_task name (len bs + 1) →
  t ≠ idle_task → unplaced t a → len (a_ready a) < INT_MAX → len (a_all a) < INT_MAX →
  is_Some (free_desc (k_gdt s)) →
  let b := t + OFF_tss in
  ∃ s', task_init t name entry esp s = Done 0 s' ∧
    (tss_layout (k_gdt s') sel ts → cur ∈ ts → t ∈ ts → t ≠ cur →
     p_tr p = sel cur → p_gdt p = busy_at (sel cur) (k_gdt s') → same_tss b (k_mem s') (p_mem p) →
     (tss_quiet b (k_mem s) → ∃ p', jmp_tss (sel t) p = Switched p' ∧
        p_ctx p' = first_ctx t entry esp (k_mem s)) ∧
     (tss_ldt b (k_mem s) = 0 → tss_trap b (k_mem s) = true → jmp_tss (sel t) p = Trapped (sel t)) ∧
     (tss_ldt b (k_mem s) / 4 ≠ 0 → no_ldt (k_gdt s') → jmp_tss (sel t) p = BadTask (sel t))).
Proof.
  intros HR Hg Hm Ht Hs Hn Hd Hi Hu Hlr Hla Hf b.
  destruct (task_init_ok s a t tk name bs entry esp HR Hg Hm Ht Hs Hn Hd Hi Hu Hlr Hla)
    as (s' & E & _ & HE & _ & _ & _).
  exists s'. split; [exact E|]. intros Hl Hc Hin Hne Htr Hgd Hpm.
  rewrite (se_mem _ _ HE), (task_named_mem _ _ _ _ _ Hf) in Hpm.
  pose proof (same_tss_trans _ _ _ _ (named_mem_tss t entry esp bs (k_mem s) Hn) Hpm) as Hmt.
  pose proof (jmp_first _ _ _ Hl cur t p Hc Hin Hne Htr Hgd entry esp (k_mem s) Hmt) as Hj.
  pose proof (flat_loads _ _ _ Hl t (first_ctx t entry esp (k_mem s)) Hin (first_ctx_flat _ _ _ _)) as Hfl.
  split_and!.
  - intros [Hq1 Hq2]. rewrite Hj. unfold b in *. rewrite Hq1, Hq2, Hfl. by eexists.
  - intros Hq1 Hq2. rewrite Hj. unfold b in *. by rewrite Hq1, Hq2, Hfl.
  - intros Hldt Hno. by apply (stale_ldt_bad _ _ _ Hl cur t p Hc Hin Hne Htr Hgd entry esp (k_mem s)).
Qed.
End tss_properties.
