(* ===== verification/Program.v ===== *)
(** * What the tasks do (kernel/init/init.c)

    The loops of init_main and new_task_entry, run by the two tasks of the
    kernel side by side. A task takes the steps of its own loop and, inside
    log_printfln, those of [Lines]; the timer interrupts it anywhere. *)

From S2P Require Import Prelude Mem DList Klib Machine Irq Sched SchedSpec SchedOps Mutex Sem TaskInit.
From S2P Require Import Log Report Panic Timer Init System Liveness Boot Queues Lines Tss.

(** ** The loops as code *)

Inductive instr : Type :=
| IPrintf (fmt : string)        (* log_printfln(fmt, count++) *)
| ICall (k : kcall).

Section code.
Context `{Platform}.

Definition send_fmt : string := "sending notify: %d".
Definition recv_fmt : string := "recv notify: %d".

(** The body of the loop of init_main, and of the one of new_task_entry. *)
Definition main_code : list instr :=
  [IPrintf send_fmt; ICall (CNotify notify_task_print); ICall (CSleep 1000)].
Definition new_code : list instr :=
  [ICall (CWait notify_task_print); IPrintf recv_fmt].

Definition run_instr (str_buf count : Z) (i : instr) : M unit :=
  match i with
  | IPrintf fmt => log_printfln str_buf (literal fmt) [count]
  | ICall k => run_call k
  end.
Fixpoint run_code (str_buf : Z) (code : list instr) (count : Z) : M unit :=
  match code with
  | [] => mret tt
  | [i] => run_instr str_buf count i
  | i :: code => run_instr str_buf count i;; run_code str_buf code count
  end.

(** The code is that of the functions of [Init]. *)
Lemma main_code_turn str_buf n : init_main_turn str_buf n = run_code str_buf main_code n.
Proof. unfold init_main_turn, main_code, send_fmt. cbn [run_code run_instr run_call]. exact eq_refl. Qed.
Lemma new_code_turn str_buf n : new_task_turn str_buf n = run_code str_buf new_code n.
Proof. unfold new_task_turn, new_code, recv_fmt. cbn [run_code run_instr run_call]. exact eq_refl. Qed.

(** The value of count in a turn. *)
Definition count (n : nat) : Z := i32 (Z.of_nat n).

Lemma count_next n : i32 (count n + 1) = count (S n).
Proof. unfold count, i32. rewrite Nat2Z.inj_succ. Z.to_euclidean_division_equations. lia. Qed.
Lemma turns_from n k body : turns n body (count k) = foldr (λ i p, body (count i);; p) (mret tt) (seq k n).
Proof.
  revert k. induction n as [|n IH]; intros k; [done|]. cbn [turns seq foldr].
  by rewrite count_next, IH.
Qed.

(** ** The programs of the tasks *)

(** Where a task is in its loop: the turn, the place in the body, and how far
    it is in log_printfln. *)
Inductive stage : Type := Ready | Formatted | Printing.
Inductive point : Type := Pt (turn pc : nat) (st : stage).

Definition next (code : list instr) (n i : nat) : point :=
  if decide (S i < length code)%nat then Pt n (S i) Ready else Pt (S n) 0 Ready.

(** A line, as its format and count give it. *)
Definition fmt_text (fmt : string) (n : nat) : list Z := prefix_of fmt ++ itoa_str (count n) 10.

(** str_buf of log_printfln is in the stack of the caller. *)
Context (main_buf new_buf : Z).

Definition code_of (t : Z) : list instr :=
  if t =? main_task then main_code else if t =? new_task then new_code else [].
Definition buf_of (t : Z) : Z := if t =? main_task then main_buf else new_buf.

Record pconfig : Type := PConfig { p_lines : lconfig; p_points : gmap Z point }.

(** The current task takes a step of its program. *)
Inductive task_step : pconfig → list event → pconfig → Prop :=
| task_call c ph pts n i k c' :
    pts !! running c = Some (Pt n i Ready) → code_of (running c) !! i = Some (ICall k) →
    sys_step c (LCall k) c' →
    task_step (PConfig (LConfig c ph) pts) []
      (PConfig (LConfig c' ph) (<[running c := next (code_of (running c)) n i]> pts))
| task_format c ph pts n i fmt m :
    pts !! running c = Some (Pt n i Ready) → code_of (running c) !! i = Some (IPrintf fmt) →
    kernel_vsprintf (k_mem (c_state c)) (buf_of (running c)) (literal fmt) [count n] = Ok m →
    task_step (PConfig (LConfig c ph) pts) []
      (PConfig (LConfig (with_state_of c (with_mem m (c_state c))) ph) (<[running c := Pt n i Formatted]> pts))
| task_begin c ph pts n i fmt bs c' :
    pts !! running c = Some (Pt n i Formatted) → code_of (running c) !! i = Some (IPrintf fmt) →
    cstr_at (k_mem (c_state c)) (buf_of (running c)) bs →
    sys_step c (LCall (CLock log_mutex)) c' →
    task_step (PConfig (LConfig c ph) pts) [EBegin (running c) bs]
      (PConfig (LConfig c' (<[running c := Chars (buf_of (running c)) bs]> ph))
         (<[running c := Pt n i Printing]> pts))
| task_print c ph pts n i fmt e c' ph' :
    pts !! running c = Some (Pt n i Printing) → code_of (running c) !! i = Some (IPrintf fmt) →
    line_step (LConfig c ph) e (LConfig c' ph') → ph' ≠ ph →
    task_step (PConfig (LConfig c ph) pts) e
      (PConfig (LConfig c' ph')
         (match ph' !! running c with
          | Some _ => pts
          | None => <[running c := next (code_of (running c)) n i]> pts
          end)).

(** Or the timer interrupts it. *)
Inductive prog_step : pconfig → list event → pconfig → Prop :=
| prog_tick c ph pts c' :
    sys_step c LTick c' → prog_step (PConfig (LConfig c ph) pts) [] (PConfig (LConfig c' ph) pts)
| prog_task P e P' : task_step P e P' → prog_step P e P'.

Inductive prog_run : pconfig → list event → pconfig → Prop :=
| run_nil P : prog_run P [] P
| run_snoc P1 evs P2 e P3 : prog_run P1 evs P2 → prog_step P2 e P3 → prog_run P1 (evs ++ e) P3.

(** The main task enters its loop, the new task starts. *)
Definition first_points : gmap Z point :=
  <[main_task := Pt 0 0 Ready]> {[new_task := Pt 0 0 Ready]}.
Definition prog_start (s : kstate) : pconfig := PConfig (LConfig (boot_config s) ∅) first_points.

(** ** The dialogue

    What is promised of the output: the main task counts the notifications it
    sends, the new task those it receives, and it receives none that has not
    been sent. *)
Inductive dialogue : nat → nat → list (list Z) → Prop :=
| dialogue_start : dialogue 0 0 []
| dialogue_send k j ls : dialogue k j ls → dialogue (S k) j (ls ++ [fmt_text send_fmt k])
| dialogue_recv k j ls : dialogue k j ls → (j < k)%nat → dialogue k (S j) (ls ++ [fmt_text recv_fmt j]).

(** *** Counting what has been executed *)

Definition is_printf (i : instr) : bool := match i with IPrintf _ => true | _ => false end.
Definition is_wait (i : instr) : bool := match i with ICall (CWait _) => true | _ => false end.
Definition is_notify (i : instr) : bool := match i with ICall (CNotify _) => true | _ => false end.

Definition occurs (sel : instr → bool) (l : list instr) : nat := length (List.filter sel l).
Definition executed (sel : instr → bool) (code : list instr) (pt : point) : nat :=
  match pt with Pt n i _ => n * occurs sel code + occurs sel (take i code) end.
Definition printing (pt : point) : nat := match pt with Pt _ _ Printing => 1 | _ => 0 end.

Lemma executed_next sel code n i x st :
  code !! i = Some x →
  executed sel code (next code n i) = (executed sel code (Pt n i st) + if sel x then 1 else 0)%nat.
Proof.
  intros Hx. pose proof (lookup_lt_Some _ _ _ Hx) as Hlt.
  assert (occurs sel (take (S i) code) = (occurs sel (take i code) + if sel x then 1 else 0)%nat) as Ho.
  { unfold occurs. rewrite (take_S_r _ _ _ Hx), List.filter_app, length_app. cbn. by destruct (sel x). }
  unfold next. case_decide; cbn [executed]; [lia|].
  rewrite take_ge in Ho by lia. rewrite take_0. cbn. lia.
Qed.
Lemma next_ready code n i : ∃ n' i', next code n i = Pt n' i' Ready ∧ (i < length code → i' < length code)%nat.
Proof. unfold next. case_decide; eexists _, _; (split; [done|lia]). Qed.
End code.

(** ** The invariant of a task *)

Section thread.
Context `{Platform}.
Context (main_buf new_buf : Z).

Local Notation buf_of := (buf_of main_buf new_buf).

(** The string that begins at [p] ends inside the buffer of [t]. *)
Definition in_buffer (m : mem) (t p : Z) : Prop :=
  ∃ cs, cstr_at m p cs ∧ buf_of t <= p ∧ p + len cs < buf_of t + 128.

Definition stage_ok (m : mem) (ph : option phase) (t : Z) (pt : point) : Prop :=
  match pt with
  | Pt _ _ Ready => ph = None
  | Pt n i Formatted => ph = None ∧
      ∃ fmt, code_of t !! i = Some (IPrintf fmt) ∧ cstr_at m (buf_of t) (fmt_text fmt n)
  | Pt n i Printing => is_Some ph ∧ ∃ fmt, code_of t !! i = Some (IPrintf fmt)
  end.

(** The format of a task, which prints one line in a turn. *)
Definition fmt_of (t : Z) : string := if t =? main_task then send_fmt else recv_fmt.
(** The lines it has begun. *)
Definition begun (t : Z) (pt : point) : nat := executed is_printf (code_of t) pt + printing pt.

Record thread_inv (m : mem) (ph : option phase) (bg : list (list Z)) (t : Z) (pt : point) : Prop := {
  ti_pc : match pt with Pt _ i _ => (i < length (code_of t))%nat end;
  ti_stage : stage_ok m ph t pt;
  ti_chars : ∀ p bs, ph = Some (Chars p bs) → in_buffer m t p;
  ti_begun : bg = fmt_text (fmt_of t) <$> seq 0 (begun t pt)
}.

Definition threads : list Z := [main_task; new_task].

Context (Hne : main_task ≠ new_task).

Lemma code_main : code_of main_task = main_code.
Proof using Type. unfold code_of. by rewrite Z.eqb_refl. Qed.
Lemma code_new : code_of new_task = new_code.
Proof using Hne. unfold code_of. rewrite (proj2 (Z.eqb_neq _ _)) by done. by rewrite Z.eqb_refl. Qed.
Lemma code_some t i x : code_of t !! i = Some x → t ∈ threads.
Proof using Type.
  unfold code_of, threads. rewrite !elem_of_cons.
  destruct (Z.eqb_spec t main_task); [by left|]. destruct (Z.eqb_spec t new_task); [by right; left|done].
Qed.

(** A body calls log_printfln once, with the format of its task. *)
Lemma printf_at t n i st fmt :
  code_of t !! i = Some (IPrintf fmt) → fmt = fmt_of t ∧ executed is_printf (code_of t) (Pt n i st) = n.
Proof using Type.
  intros Hi. unfold code_of, fmt_of in *. destruct (t =? main_task); [|destruct (t =? new_task)].
  - destruct i as [|[|[|i]]]; try done. injection Hi as <-. cbn. split; [done|lia].
  - destruct i as [|[|i]]; try done. injection Hi as <-. cbn. split; [done|lia].
  - done.
Qed.

(** Calls of the body that are not about the log. *)
Lemma code_call t i k :
  code_of t !! i = Some (ICall k) → k ≠ CLock log_mutex ∧ k ≠ CUnlock log_mutex.
Proof using Type.
  unfold code_of. intros Hi. destruct (t =? main_task); [|destruct (t =? new_task)]; [| |done].
  - destruct i as [|[|[|i]]]; try done; by injection Hi as <-.
  - destruct i as [|[|i]]; try done; by injection Hi as <-.
Qed.

(** Writing into the buffer of another task. *)
Lemma cstr_at_other m a bs p cs :
  len bs <= 128 → disjoint_ranges a 128 p (len cs + 1) → cstr_at m p cs → cstr_at (stores m a bs) p cs.
Proof using Type. intros Hl Hd Hs. apply cstr_at_stores_out; [|done]. unfold disjoint_ranges in *. lia. Qed.

Lemma fmt_text_facts fmt n :
  fmt ∈ [send_fmt; recv_fmt] →
  Forall text_byte (fmt_text fmt n) ∧ len (fmt_text fmt n) < 127 ∧
  bytes_of fmt = prefix_of fmt ++ [37; 100] ∧ Forall (λ c, c ≠ 37) (prefix_of fmt).
Proof using Type.
  intros Hf. assert (Forall (λ f, Forall text_byte (prefix_of f) ∧ len (prefix_of f) < 20 ∧
    bytes_of f = prefix_of f ++ [37; 100] ∧ Forall (λ c, c ≠ 37) (prefix_of f)) [send_fmt; recv_fmt]) as Hall.
  { unfold text_byte. apply (bool_decide_unpack _). by vm_compute. }
  destruct (proj1 (Forall_forall _ _) Hall _ Hf) as (Ht & Hl & He & Hp). unfold fmt_text.
  pose proof (itoa_str_bytes (count n) 10 ltac:(lia)) as [_ Hi].
  split_and!; [apply Forall_app; split; [done|by apply itoa_text]|rewrite length_app; lia|done|done].
Qed.

(** log_printfln fills its buffer. *)
Lemma format_ok m t fmt n :
  fmt ∈ [send_fmt; recv_fmt] → cstr_at m (literal fmt) (bytes_of fmt) →
  disjoint_ranges (buf_of t) 128 (literal fmt) (len (bytes_of fmt) + 1) →
  kernel_vsprintf m (buf_of t) (literal fmt) [count n] = Ok (stores m (buf_of t) (fmt_text fmt n ++ [0])) ∧
  cstr_at (stores m (buf_of t) (fmt_text fmt n ++ [0])) (buf_of t) (fmt_text fmt n).
Proof using Type.
  intros Hf Hs Hd. destruct (fmt_text_facts fmt n Hf) as (Ht & Hl & He & Hp). split.
  - assert (render (λ _, []) NORMAL (bytes_of fmt) [count n] = (fmt_text fmt n, None)) as Hr.
    { rewrite He. apply render_one; [done|]. unfold render_conv. cbn. do 2 f_equal.
      unfold count. by rewrite i32_small by apply i32_range. }
    rewrite (vsprintf_ok (λ _, []) _ _ _ (bytes_of fmt)); rewrite ?Hr; try done.
    + rewrite He, length_app. unfold fmt_text in Hl. rewrite length_app in Hl. cbn. lia.
    + cbn [fst]. unfold disjoint_ranges in *. lia.
    + intros p. rewrite He, args_str by done. cbn. by intros ?%elem_of_nil.
  - by apply text_stored.
Qed.
End thread.

(** ** The invariant of the program *)

Section invariant.
Context `{Platform}.
Context (main_buf new_buf : Z).

Local Notation thread_inv := (thread_inv main_buf new_buf).
Local Notation in_buffer := (in_buffer main_buf new_buf).
Local Notation buf_of := (buf_of main_buf new_buf).
Local Notation notified := (queue notify_task_print).
Local Notation units y := (count_of y notify_task_print).

(** What both loops have executed. *)
Definition executed_at (sel : instr → bool) (pts : gmap Z point) (t : Z) : nat :=
  from_option (executed sel (code_of t)) 0%nat (pts !! t).
Definition total (sel : instr → bool) (pts : gmap Z point) : nat :=
  executed_at sel pts main_task + executed_at sel pts new_task.

(** No notification is received before it is sent: [w] calls of sem_wait that
    do not wait any more, and the units left, come from [n] calls of
    sem_notify.  The count may wrap. *)
Record units_ok (y : asys) (w n : Z) : Prop := {
  uo_queue : ∀ u, u ∈ notified y → u = new_task;
  uo_range : INT_MIN <= units y <= INT_MAX;
  uo_units : w - len (notified y) + Z.max 0 (units y) <= n
}.

(** Who may wait, and for what, and who may sleep.  A task that waits for a
    notification is not in a logging routine. *)
Record rest_ok (ph : gmap Z phase) (y : asys) : Prop := {
  ro_wait : ∀ w t, t ∈ waiters_of y w →
    w = mutex_wait_list log_mutex ∨ w = sem_wait_list notify_task_print;
  ro_sleep : ∀ t n, (t, n) ∈ a_sleep (y_sched y) → t = main_task ∧ n <= sleep_ticks_of 1000;
  ro_phase : ∀ t, t ∈ notified y → ph !! t = None
}.

Definition formats_at (m : mem) : Prop :=
  ∀ fmt, fmt ∈ [send_fmt; recv_fmt] → cstr_at m (literal fmt) (bytes_of fmt).

Record prog_inv (out : list Z) (P : pconfig) (y : asys) (evs : list event) : Prop := {
  pi_lines : line_inv out (p_lines P) y evs;
  pi_all : a_all (y_sched y) = threads;
  pi_sem : is_Some (y_sems y !! notify_task_print);
  pi_formats : formats_at (k_mem (c_state (l_config (p_lines P))));
  pi_threads : ∀ t, t ∈ threads → ∃ pt, p_points P !! t = Some pt ∧
    thread_inv (k_mem (c_state (l_config (p_lines P)))) (l_phase (p_lines P) !! t) (begun_by t evs) t pt;
  pi_units : units_ok y (Z.of_nat (total is_wait (p_points P))) (Z.of_nat (total is_notify (p_points P)));
  pi_dialogue : dialogue (length (ended_by main_task evs)) (length (ended_by new_task evs)) (ended evs);
  pi_phases : ∀ t, is_Some (l_phase (p_lines P) !! t) → t ∈ threads;
  pi_rest : rest_ok (l_phase (p_lines P)) y;
  pi_reply : ∀ n i, p_points P !! new_task = Some (Pt n i Printing) → (n < length (ended_by main_task evs))%nat
}.

Lemma ended_end t bs evs : ended (evs ++ [EEnd t bs]) = ended evs ++ [bs].
Proof using Type. unfold ended. by rewrite omap_app. Qed.
Lemma ended_by_end t u bs evs :
  ended_by t (evs ++ [EEnd u bs]) = ended_by t evs ++ if u =? t then [bs] else [].
Proof using Type. unfold ended_by. rewrite omap_app. cbn. by destruct (u =? t). Qed.

(** *** The semaphore *)

Lemma i32_le v : 0 <= v → i32 v <= v.
Proof using Type. intros Hv. unfold i32. Z.to_euclidean_division_equations. lia. Qed.

Lemma units_move y q y' w n :
  sem_move notify_task_print y q y' → (∀ t, t ∈ waits_of notify_task_print [q] → t = new_task) →
  units_ok y w n →
  units_ok y' (w + len (waits_of notify_task_print [q])) (n + notifies_of notify_task_print [q]).
Proof using Type.
  intros Hm Hw [Hq Hr Hu].
  destruct Hm as [q y' Hw0 Hn0 Hq' Hc|t y' Hlt Hq' Hc|t y' Hle Hq' Hc|t y' Hq0 Hq' Hc|t u l y' Hq0 Hq' Hc];
    rewrite ?waits_self, ?notifies_self, ?Hw0, ?Hn0 in *; cbn [length notifies_of waits_of].
  - split; rewrite ?Hq', ?Hc; [done|done|lia].
  - pose proof (i32_le (units y - 1)). split; rewrite ?Hq', ?Hc; [done|apply i32_range|lia].
  - split; rewrite ?Hq', ?Hc; [|done|rewrite length_app; cbn [length]; lia].
    intros u. rewrite elem_of_app. intros [Hu'|Hu']; [by apply Hq|by apply Hw].
  - rewrite Hq0 in Hu. cbn in Hu. split; rewrite ?Hq', ?Hc; [by intros u ?%elem_of_nil|apply i32_range|].
    cbn [length]. destruct (decide (0 <= units y + 1)) as [Hp|Hp].
    + pose proof (i32_le (units y + 1) Hp). lia.
    + rewrite i32_small by (unfold INT_MIN, INT_MAX in *; lia). lia.
  - rewrite Hq0 in *. cbn [length] in Hu. split; rewrite ?Hq', ?Hc; [|done|lia].
    intros v Hv. apply Hq, elem_of_cons. by right.
Qed.

Lemma units_other y q y' w n :
  sem_move notify_task_print y q y' → waits_of notify_task_print [q] = [] →
  notifies_of notify_task_print [q] = 0 → units_ok y w n → units_ok y' w n.
Proof using Type.
  intros Hm Hw Hn Hu. pose proof (units_move y q y' w n Hm) as Hu'. rewrite Hw, Hn in Hu'. cbn in Hu'.
  rewrite !Z.add_0_r in Hu'. apply Hu'; [by intros t ?%elem_of_nil|done].
Qed.

(** What the calls of the two loops are for the semaphore. *)
Lemma code_units t i k :
  code_of t !! i = Some (ICall k) →
  waits_of notify_task_print [(t, LCall k)] = (if is_wait (ICall k) then [t] else []) ∧
  notifies_of notify_task_print [(t, LCall k)] = (if is_notify (ICall k) then 1 else 0) ∧
  (is_wait (ICall k) = true → t = new_task).
Proof using Type.
  unfold code_of. intros Hi. destruct (t =? main_task); [|destruct (Z.eqb_spec t new_task) as [->|]]; [| |done].
  - destruct i as [|[|[|i]]]; try done; injection Hi as <-; cbn; rewrite ?Z.eqb_refl; done.
  - destruct i as [|[|i]]; try done; injection Hi as <-; cbn; rewrite ?Z.eqb_refl; done.
Qed.

(** *** Waiting and sleeping *)

(** The calls that happen: those of the loops and the log's mutex. *)
Inductive prog_label (t : Z) : label → Prop :=
| label_tick : prog_label t LTick
| label_code i k : code_of t !! i = Some (ICall k) → prog_label t (LCall k)
| label_lock : prog_label t (LCall (CLock log_mutex))
| label_unlock : prog_label t (LCall (CUnlock log_mutex)).

Lemma label_call t l k :
  prog_label t l → l = LCall k →
  (∀ w, blocks_at k = Some w → (w = mutex_wait_list log_mutex ∧ k = CLock log_mutex) ∨
    (w = sem_wait_list notify_task_print ∧ k = CWait notify_task_print)) ∧
  ∀ ms, k = CSleep ms → t = main_task ∧ ms = 1000.
Proof using Type.
  intros Hl ->. inversion Hl as [|i k' Hk| |]; subst; [|by split; [intros w [= <-]; left|]|done].
  unfold code_of in Hk. destruct (Z.eqb_spec t main_task) as [->|]; [|destruct (t =? new_task); [|done]].
  - destruct i as [|[|[|i]]]; try done; injection Hk as <-; (split; [done|]); [done|]. by intros ms [= <-].
  - destruct i as [|[|i]]; try done; injection Hk as <-. split; [|done]. intros w [= <-]. by right.
Qed.

(** *** Where the tasks are *)

Context (Hne : main_task ≠ new_task).

Lemma total_insert sel pts t pt pt' d :
  t ∈ threads → pts !! t = Some pt →
  executed sel (code_of t) pt' = (executed sel (code_of t) pt + d)%nat →
  total sel (<[t := pt']> pts) = (total sel pts + d)%nat.
Proof using Hne.
  unfold threads. rewrite !elem_of_cons, elem_of_nil. intros [->|[->|[]]] Hp He; unfold total, executed_at.
  - rewrite lookup_insert_eq, lookup_insert_ne, Hp by done. cbn. lia.
  - rewrite lookup_insert_eq, lookup_insert_ne, Hp by done. cbn. lia.
Qed.

Section state.
Context (out : list Z) (c : config) (ph : gmap Z phase) (pts : gmap Z point) (y : asys) (evs : list event).
Context (HI : prog_inv out (PConfig (LConfig c ph) pts) y evs).

Lemma prog_sys : sys_inv c y.
Proof using HI. apply (li_sys _ _ _ _ (pi_lines _ _ _ _ HI)). Qed.
Lemma thread_at t : t ∈ threads → ∃ pt, pts !! t = Some pt ∧
  thread_inv (k_mem (c_state c)) (ph !! t) (begun_by t evs) t pt.
Proof using HI. apply (pi_threads _ _ _ _ HI). Qed.
Lemma thread_is t pt : t ∈ threads → pts !! t = Some pt →
  thread_inv (k_mem (c_state c)) (ph !! t) (begun_by t evs) t pt.
Proof using HI. intros Ht Hp. destruct (thread_at t Ht) as (pt' & Hp' & Hi). congruence. Qed.

(** The current task does not wait, and the others' phases do not change. *)
Lemma running_not_notified : running c ∉ notified y.
Proof using HI.
  unfold running. rewrite (sys_inv_curr _ _ prog_sys). apply running_not_waiting, (co_wf _ _ _ (si_core _ _ prog_sys)).
Qed.
Lemma rest_same ph' : (∀ t, t ≠ running c → ph' !! t = ph !! t) → rest_ok ph' y.
Proof using HI.
  intros Ho. destruct (pi_rest _ _ _ _ HI) as [Hw Hs Hp]. split; [done..|]. intros t Ht.
  rewrite Ho; [by apply Hp|]. intros ->. by apply running_not_notified.
Qed.
Lemma rest_next l c' ph' :
  sys_step c l c' → prog_label (running c) l → (∀ t, t ≠ running c → ph' !! t = ph !! t) →
  (l = LCall (CWait notify_task_print) → ph' !! running c = None) → rest_ok ph' (y_next c l y).
Proof using HI.
  intros Hst Hl Ho Hn. destruct (rest_same ph' Ho) as [Hw Hs Hp]. split.
  - intros w t [Hin|(-> & k & -> & Hb)]%(waiters_next _ _ _ _ _ _ prog_sys Hst); [by apply (Hw w t)|].
    destruct (label_call _ _ k Hl eq_refl) as [Hk _]. destruct (Hk w Hb) as [[-> _]|[-> _]]; auto.
  - intros t n [(n' & Hin & Hle)|(-> & ms & -> & ->)]%(sleepers_next _ _ _ _ _ _ prog_sys Hst).
    + destruct (Hs _ _ Hin). split; [done|lia].
    + destruct (label_call _ _ _ Hl eq_refl) as [_ Hk]. by destruct (Hk ms eq_refl) as [-> ->].
  - intros t [Hin|(-> & k & -> & Hb)]%(waiters_next _ _ _ _ _ _ prog_sys Hst); [by apply Hp|].
    destruct (label_call _ _ k Hl eq_refl) as [Hk _]. destruct (Hk _ Hb) as [[Hw' ->]|[_ ->]]; [|by apply Hn].
    exfalso. symmetry in Hw'. revert Hw'. apply (lk_apart _ (si_locks _ _ prog_sys)); [|apply (pi_sem _ _ _ _ HI)].
    by apply (mutex_exists _ _ _ _ _ (pi_lines _ _ _ _ HI)).
Qed.

Lemma fmt_of_in t : fmt_of t ∈ [send_fmt; recv_fmt].
Proof using Type. unfold fmt_of. rewrite !elem_of_cons. destruct (t =? main_task); auto. Qed.

(** The lines of a task that are complete: those of the past turns, and the
    one under way until its last byte is sent. *)
Lemma ended_count t pt :
  t ∈ threads → pts !! t = Some pt →
  begun t pt = (length (ended_by t evs) + length (text_of (ph !! t)))%nat.
Proof using HI.
  intros Ht Hp. pose proof (ti_begun _ _ _ _ _ _ _ (thread_is t pt Ht Hp)) as Hb.
  rewrite (li_texts _ _ _ _ (pi_lines _ _ _ _ HI) t) in Hb. apply (f_equal length) in Hb.
  rewrite length_fmap, length_seq, length_app in Hb. done.
Qed.
Lemma text_of_short (o : option phase) : (length (text_of o) <= 1)%nat.
Proof using Type. destruct o as [[]|]; cbn; lia. Qed.

(** A notification is sent after its line is complete; one is received
    before its line begins. *)
Lemma sent_first : (total is_notify pts <= length (ended_by main_task evs))%nat.
Proof using HI Hne.
  destruct (thread_at main_task) as ([n i st] & Hp & Ht); [by left|].
  destruct (thread_at new_task) as ([n' i' st'] & Hp' & Ht'); [by right; left|].
  pose proof (ended_count main_task _ ltac:(by left) Hp) as Hc. unfold total, executed_at. rewrite Hp, Hp'. cbn [from_option].
  pose proof (text_of_short (ph !! main_task)) as Hs.
  destruct Ht as [Hi Hst _ _], Ht' as [Hi' _ _ _]. unfold begun in Hc.
  rewrite code_main in *. rewrite (code_new Hne) in *. cbn [length main_code new_code] in *.
  assert (executed is_notify new_code (Pt n' i' st') = 0%nat) as ->.
  { destruct i' as [|[|]]; [..|lia]; cbn; lia. }
  destruct st; cbn [stage_ok printing] in *.
  - rewrite Hst in Hc. cbn [text_of length] in Hc. destruct i as [|[|[|]]]; [..|lia]; cbn in *; lia.
  - destruct Hst as [Hst _]. rewrite Hst in Hc. cbn [text_of length] in Hc. destruct i as [|[|[|]]]; [..|lia]; cbn in *; lia.
  - destruct Hst as (_ & fmt & Hf). rewrite code_main in Hf.
    destruct i as [|[|[|]]]; try done. cbn in *. lia.
Qed.
Lemma received_first n i st fmt :
  pts !! new_task = Some (Pt n i st) → code_of new_task !! i = Some (IPrintf fmt) →
  (n < total is_wait pts)%nat.
Proof using Hne.
  intros Hp Hf. unfold total, executed_at. rewrite Hp. cbn [from_option]. rewrite (code_new Hne) in *.
  destruct i as [|[|]]; try done. cbn. lia.
Qed.

(** The new task, when it runs, has been notified of what it has waited for. *)
Lemma received_sent :
  running c = new_task → (total is_wait pts <= length (ended_by main_task evs))%nat.
Proof using HI Hne.
  intros Er. pose proof sent_first as Hs.
  pose proof (pi_units _ _ _ _ HI) as [Hq _ Hu]. cbn [p_points] in Hu.
  assert (notified y = []) as Hnil; [|rewrite Hnil in Hu; cbn [length] in Hu; lia].
  destruct (notified y) as [|u l] eqn:E; [done|]. exfalso. apply running_not_notified.
  rewrite Er, E, <- (Hq u); by left.
Qed.

(** A task prints its next line: the dialogue goes on. *)
Lemma dialogue_next bs :
  running c ∈ threads → text_of (ph !! running c) = [bs] →
  dialogue (length (ended_by main_task (evs ++ [EEnd (running c) bs])))
    (length (ended_by new_task (evs ++ [EEnd (running c) bs]))) (ended (evs ++ [EEnd (running c) bs])).
Proof using HI Hne.
  intros Ht Hx. destruct (thread_at _ Ht) as (pt & Hp & Hi).
  pose proof (ended_count _ _ Ht Hp) as Hc. pose proof (ti_begun _ _ _ _ _ _ _ Hi) as Hb.
  rewrite (li_texts _ _ _ _ (pi_lines _ _ _ _ HI)) in Hb. cbn [p_lines l_phase] in Hb.
  rewrite Hx in Hb, Hc. cbn [length] in Hc. rewrite Hc, seq_app, fmap_app in Hb. cbn in Hb.
  apply app_inj_tail in Hb as [_ ->].
  rewrite ended_end, !ended_by_end.
  pose proof (pi_dialogue _ _ _ _ HI) as Hd.
  unfold threads in Ht. rewrite !elem_of_cons, elem_of_nil in Ht. destruct Ht as [Er|[Er|[]]]; rewrite Er in *.
  - rewrite Z.eqb_refl, (proj2 (Z.eqb_neq main_task new_task)) by done.
    rewrite app_nil_r, length_app, Nat.add_1_r. unfold fmt_of. rewrite Z.eqb_refl. by apply dialogue_send.
  - rewrite Z.eqb_refl, (proj2 (Z.eqb_neq new_task main_task)) by done.
    rewrite app_nil_r, length_app, Nat.add_1_r. unfold fmt_of. rewrite (proj2 (Z.eqb_neq new_task main_task)) by done.
    apply dialogue_recv; [done|]. destruct pt as [n i []]; unfold begun in Hc; destruct Hi as [_ Hs _ _];
      [cbn in Hs; by rewrite Hs in Hx|cbn in Hs; destruct Hs as [Hs _]; by rewrite Hs in Hx|].
    destruct Hs as (_ & fmt & Hf). rewrite (proj2 (printf_at _ n i Printing fmt Hf)) in Hc. cbn in Hc.
    pose proof (pi_reply _ _ _ _ HI n i Hp). lia.
Qed.
End state.
End invariant.

(** ** The steps keep the invariant *)

Section steps.
Context `{Platform}.
Context (main_buf new_buf : Z) (Hne : main_task ≠ new_task).
(** The buffers are apart from each other and from the formats. *)
Context (Hbufs : disjoint_ranges main_buf 128 new_buf 128).
Context (Hfmts : ∀ t fmt, fmt ∈ [send_fmt; recv_fmt] →
  disjoint_ranges (buf_of main_buf new_buf t) 128 (literal fmt) (len (bytes_of fmt) + 1)).

Local Notation thread_inv := (thread_inv main_buf new_buf).
Local Notation in_buffer := (in_buffer main_buf new_buf).
Local Notation buf_of := (buf_of main_buf new_buf).
Local Notation prog_inv := (prog_inv main_buf new_buf).
Local Notation task_step := (task_step main_buf new_buf).
Local Notation prog_step := (prog_step main_buf new_buf).

Lemma all_next c l y : a_all (y_sched (y_next c l y)) = a_all (y_sched y).
Proof using Type. pose proof (next_tasks c l y) as Ht. unfold tasks_of in Ht. congruence. Qed.

Lemma begun_by_snoc t evs e : begun_by t (evs ++ e) = begun_by t evs ++ begun_by t e.
Proof using Type. unfold begun_by. by rewrite omap_app. Qed.

Section step.
Context (out : list Z) (c : config) (ph : gmap Z phase) (pts : gmap Z point) (y : asys) (evs : list event).
Context (HI : prog_inv out (PConfig (LConfig c ph) pts) y evs).
Local Notation r := (running c).
Local Notation m := (k_mem (c_state c)).

(** A step that writes nothing and is about the current task only. *)
Lemma inv_same_mem c' ph' pts' y' e :
  k_mem (c_state c') = m → line_inv out (LConfig c' ph') y' (evs ++ e) →
  a_all (y_sched y') = a_all (y_sched y) → is_Some (y_sems y' !! notify_task_print) →
  units_ok y' (Z.of_nat (total is_wait pts')) (Z.of_nat (total is_notify pts')) →
  (∀ t, t ≠ r → ph' !! t = ph !! t ∧ pts' !! t = pts !! t ∧ begun_by t e = []) →
  (∀ pt, r ∈ threads → pts !! r = Some pt → thread_inv m (ph !! r) (begun_by r evs) r pt →
    ∃ pt', pts' !! r = Some pt' ∧ thread_inv m (ph' !! r) (begun_by r evs ++ begun_by r e) r pt') →
  dialogue (length (ended_by main_task (evs ++ e))) (length (ended_by new_task (evs ++ e))) (ended (evs ++ e)) →
  (is_Some (ph' !! r) → r ∈ threads) → rest_ok ph' y' →
  (∀ n i, r = new_task → pts' !! r = Some (Pt n i Printing) → (n < length (ended_by main_task (evs ++ e)))%nat) →
  prog_inv out (PConfig (LConfig c' ph') pts') y' (evs ++ e).
Proof using HI.
  intros Hm Hl Hall Hs Hu Ho Hr Hd Hrt Hro Hrp. split; cbn; rewrite ?Hm, ?Hall; try done.
  - apply (pi_all _ _ _ _ _ _ HI).
  - apply (pi_formats _ _ _ _ _ _ HI).
  - intros t Ht. destruct (pi_threads _ _ _ _ _ _ HI t Ht) as (pt & Hp & Hi). cbn in Hp, Hi.
    rewrite begun_by_snoc. destruct (decide (t = r)) as [->|Hne'].
    + by apply (Hr pt).
    + destruct (Ho t Hne') as (-> & -> & ->). rewrite app_nil_r. by exists pt.
  - intros t. destruct (decide (t = r)) as [->|Hne']; [done|]. destruct (Ho t Hne') as (-> & _).
    apply (pi_phases _ _ _ _ _ _ HI).
  - intros n i Hp. destruct (decide (new_task = r)) as [Er|Hnr]; [apply (Hrp n i); congruence|].
    rewrite (proj1 (proj2 (Ho new_task Hnr))) in Hp. pose proof (pi_reply _ _ _ _ _ _ HI n i Hp).
    unfold ended_by in *. rewrite omap_app, length_app. lia.
Qed.

Lemma dialogue_same e :
  (∀ t, ended_by t e = []) → ended e = [] →
  dialogue (length (ended_by main_task (evs ++ e))) (length (ended_by new_task (evs ++ e))) (ended (evs ++ e)).
Proof using HI.
  intros He Hn. assert (∀ t, ended_by t (evs ++ e) = ended_by t evs) as Ht.
  { intros t. unfold ended_by in *. by rewrite omap_app, He, app_nil_r. }
  rewrite !Ht. unfold ended in *. rewrite omap_app, Hn, app_nil_r. apply (pi_dialogue _ _ _ _ _ _ HI).
Qed.

Lemma tick_prog c' :
  sys_step c LTick c' → prog_inv out (PConfig (LConfig c' ph) pts) (y_next c LTick y) evs.
Proof using HI.
  intros Hst. pose proof (prog_sys _ _ _ _ _ _ _ _ HI) as Hi.
  rewrite <- (app_nil_r evs). apply inv_same_mem; rewrite ?app_nil_r.
  - by apply (kernel_sends_nothing _ _ _ _ Hi Hst).
  - by apply (kernel_inv _ _ _ _ _ (pi_lines _ _ _ _ _ _ HI)).
  - apply all_next.
  - apply sems_next, (pi_sem _ _ _ _ _ _ HI).
  - eapply units_other; [apply (sem_step_move _ _ _ _ _ Hi Hst), (pi_sem _ _ _ _ _ _ HI)|done..|].
    apply (pi_units _ _ _ _ _ _ HI).
  - done.
  - intros pt _ Hp Ht. by exists pt.
  - apply (pi_dialogue _ _ _ _ _ _ HI).
  - apply (pi_phases _ _ _ _ _ _ HI).
  - apply (rest_next _ _ _ _ _ _ _ _ HI _ _ _ Hst); [constructor|done..].
  - intros n i -> Hp. by apply (pi_reply _ _ _ _ _ _ HI n i).
Qed.

Lemma phase_none n i st : st ≠ Printing → r ∈ threads → pts !! r = Some (Pt n i st) → ph !! r = None.
Proof using HI.
  intros Hst Ht Hp. pose proof (ti_stage _ _ _ _ _ _ _ (thread_is _ _ _ _ _ _ _ _ HI r _ Ht Hp)) as Hs.
  destruct st; [done|by destruct Hs|done].
Qed.

Lemma call_prog n i k c' :
  pts !! r = Some (Pt n i Ready) → code_of r !! i = Some (ICall k) → sys_step c (LCall k) c' →
  prog_inv out (PConfig (LConfig c' ph) (<[r := next (code_of r) n i]> pts)) (y_next c (LCall k) y) evs.
Proof using HI Hne.
  intros Hp Hk Hst. pose proof (prog_sys _ _ _ _ _ _ _ _ HI) as Hi.
  pose proof (code_some r i _ Hk) as Ht. destruct (code_call r i k Hk) as [Hk1 Hk2].
  destruct (code_units r i k Hk) as (Hw & Hn & Hwn).
  rewrite <- (app_nil_r evs). apply inv_same_mem; rewrite ?app_nil_r.
  - by apply (kernel_sends_nothing _ _ _ _ Hi Hst).
  - apply (kernel_inv _ _ _ _ _ (pi_lines _ _ _ _ _ _ HI)); [done|congruence..].
  - apply all_next.
  - apply sems_next, (pi_sem _ _ _ _ _ _ HI).
  - rewrite (total_insert Hne is_wait pts r _ _ _ Ht Hp (executed_next _ _ _ _ _ Ready Hk)).
    rewrite (total_insert Hne is_notify pts r _ _ _ Ht Hp (executed_next _ _ _ _ _ Ready Hk)).
    pose proof (units_move y _ _ (Z.of_nat (total is_wait pts)) (Z.of_nat (total is_notify pts)) (sem_step_move _ _ _ _ _ Hi Hst (pi_sem _ _ _ _ _ _ HI))) as Hu.
    change (k_curr (c_state c)) with r in Hu. rewrite Hw, Hn in Hu.
    rewrite !Nat2Z.inj_add.
    assert (Z.of_nat (if is_wait (ICall k) then 1%nat else 0%nat) =
      len (if is_wait (ICall k) then [r] else [])) as -> by (by destruct (is_wait _)).
    assert (Z.of_nat (if is_notify (ICall k) then 1%nat else 0%nat) =
      if is_notify (ICall k) then 1 else 0) as -> by (by destruct (is_notify _)).
    apply Hu, (pi_units _ _ _ _ _ _ HI).
    destruct (is_wait (ICall k)); [|by intros t ?%elem_of_nil].
    intros t ->%list_elem_of_singleton. by apply Hwn.
  - intros t Hne'. by rewrite lookup_insert_ne by done.
  - intros pt _ Hp' [Hpc Hs Hch Hb]. rewrite Hp in Hp'. injection Hp' as <-. rewrite lookup_insert_eq.
    eexists. split; [done|]. pose proof (executed_next is_printf _ n _ _ Ready Hk) as He. cbn in He.
    destruct (next_ready (code_of r) n i) as (n' & i' & E & Hi'). rewrite E in *. split; [by apply Hi'|done|done|].
    rewrite Hb. unfold begun. cbn [executed printing is_printf] in *. do 2 f_equal. lia.
  - apply (pi_dialogue _ _ _ _ _ _ HI).
  - done.
  - apply (rest_next _ _ _ _ _ _ _ _ HI _ _ _ Hst); [by econstructor|done|].
    intros _. by apply (phase_none n i Ready).
  - intros n' i' _. rewrite lookup_insert_eq. destruct (next_ready (code_of r) n i) as (? & ? & -> & _). done.
Qed.

Lemma begin_prog n i fmt bs c' :
  pts !! r = Some (Pt n i Formatted) → code_of r !! i = Some (IPrintf fmt) → cstr_at m (buf_of r) bs →
  sys_step c (LCall (CLock log_mutex)) c' →
  prog_inv out (PConfig (LConfig c' (<[r := Chars (buf_of r) bs]> ph)) (<[r := Pt n i Printing]> pts))
    (y_next c (LCall (CLock log_mutex)) y) (evs ++ [EBegin r bs]).
Proof using HI Hne.
  intros Hp Hf Hs Hst. pose proof (prog_sys _ _ _ _ _ _ _ _ HI) as Hi. pose proof (code_some r i _ Hf) as Ht.
  assert (ph !! r = None) as Hn by (by apply (phase_none n i Formatted)).
  apply inv_same_mem.
  - by apply (kernel_sends_nothing _ _ _ _ Hi Hst).
  - by apply (begin_inv _ _ _ _ _ (pi_lines _ _ _ _ _ _ HI)).
  - apply all_next.
  - apply sems_next, (pi_sem _ _ _ _ _ _ HI).
  - rewrite (total_insert Hne is_wait pts r _ _ 0 Ht Hp), (total_insert Hne is_notify pts r _ _ 0 Ht Hp) by (cbn; lia).
    rewrite !Nat.add_0_r.
    eapply units_other; [apply (sem_step_move _ _ _ _ _ Hi Hst), (pi_sem _ _ _ _ _ _ HI)|done..|].
    apply (pi_units _ _ _ _ _ _ HI).
  - intros t Hne'. rewrite !lookup_insert_ne by done. cbn. by rewrite (proj2 (Z.eqb_neq _ _)) by done.
  - intros pt _ Hp' [Hpc Hstg Hch Hb]. rewrite Hp in Hp'. injection Hp' as <-. rewrite !lookup_insert_eq.
    destruct Hstg as (_ & fmt' & Hf' & Hbuf). rewrite Hf in Hf'. injection Hf' as <-.
    destruct (printf_at r n i Printing fmt Hf) as [-> He].
    pose proof (cstr_at_fun _ _ _ _ Hs Hbuf) as ->.
    destruct (fmt_text_facts (fmt_of r) n (fmt_of_in r)) as (_ & Hl & _).
    eexists. split; [done|]. split; [done|by split; eauto| |].
    + intros p bs [= <- <-]. eexists. split; [exact Hs|]. lia.
    + replace (begun_by r [EBegin r (fmt_text (fmt_of r) n)]) with [fmt_text (fmt_of r) n]
        by (cbn; by rewrite Z.eqb_refl).
      destruct (printf_at r n i Formatted _ Hf) as [_ He']. rewrite Hb. unfold begun. rewrite He, He'.
      cbn [printing]. by rewrite Nat.add_0_r, Nat.add_1_r, seq_S, fmap_app.
  - by apply dialogue_same.
  - done.
  - apply (rest_next _ _ _ _ _ _ _ _ HI _ _ _ Hst); [constructor| |done].
    intros t Htr. by apply lookup_insert_ne.
  - intros n' i' Er. rewrite lookup_insert_eq. intros [= -> ->].
    pose proof (received_sent _ _ Hne _ _ _ _ _ _ HI Er). rewrite Er in *.
    pose proof (received_first Hne pts n' i' Formatted fmt Hp Hf).
    unfold ended_by in *. rewrite omap_app, length_app. lia.
Qed.

(** A task whose strings are left alone. *)
Lemma thread_kept m1 m2 phs bg t pt :
  (∀ p cs, buf_of t <= p → p + len cs < buf_of t + 128 → cstr_at m1 p cs → cstr_at m2 p cs) →
  thread_inv m1 phs bg t pt → thread_inv m2 phs bg t pt.
Proof using Type.
  intros Hkeep [Hpc Hs Hch Hb]. split; [done| | |done].
  - destruct pt as [n' i' []]; [done| |done]. destruct Hs as (Hs & f & Hfi & Hft). split; [done|].
    exists f. split; [done|]. apply Hkeep; [lia| |done].
    destruct (printf_at t n' i' Ready f Hfi) as [-> _].
    destruct (fmt_text_facts (fmt_of t) n' (fmt_of_in t)) as (_ & Hlt & _). lia.
  - intros p bs Hph. destruct (Hch p bs Hph) as (cs & Hcs & H1 & H2). exists cs.
    split_and!; [by apply Hkeep|done|done].
Qed.
(** Writing into the buffer of one task leaves the other's alone. *)
Lemma other_kept m1 t u bs p cs :
  t ∈ threads → u ∈ threads → u ≠ t → len bs <= 128 →
  buf_of u <= p → p + len cs < buf_of u + 128 → cstr_at m1 p cs → cstr_at (stores m1 (buf_of t) bs) p cs.
Proof using Hne Hbufs.
  intros Ht Hu Hut Hl H1 H2. apply cstr_at_other; [done|]. clear -Ht Hu Hut H1 H2 Hbufs Hne.
  unfold threads, Program.buf_of, disjoint_ranges in *. rewrite !elem_of_cons, elem_of_nil in Ht, Hu.
  destruct Ht as [->|[->|[]]], Hu as [->|[->|[]]]; try done;
    rewrite ?Z.eqb_refl, ?(proj2 (Z.eqb_neq new_task main_task)) in * by done; lia.
Qed.

(** Formatting: the other task's strings are left alone. *)
Lemma format_prog n i fmt m' :
  pts !! r = Some (Pt n i Ready) → code_of r !! i = Some (IPrintf fmt) →
  kernel_vsprintf m (buf_of r) (literal fmt) [count n] = Ok m' →
  prog_inv out (PConfig (LConfig (with_state_of c (with_mem m' (c_state c))) ph) (<[r := Pt n i Formatted]> pts)) y evs.
Proof using HI Hne Hbufs Hfmts.
  intros Hp Hk E. pose proof (code_some r i _ Hk) as Ht. destruct (printf_at r n i Ready fmt Hk) as [-> He].
  pose proof (pi_formats _ _ _ _ _ _ HI _ (fmt_of_in r)) as Hf. cbn [p_lines l_config] in Hf.
  destruct (format_ok main_buf new_buf m r (fmt_of r) n (fmt_of_in r) Hf (Hfmts r _ (fmt_of_in r))) as [E' Hbuf].
  rewrite E in E'. injection E' as ->.
  destruct (fmt_text_facts (fmt_of r) n (fmt_of_in r)) as (_ & Hl & _).
  assert (len (fmt_text (fmt_of r) n ++ [0]) <= 128) as Hl' by (rewrite length_app; cbn; lia).
  assert (ph !! r = None) as Hn by (by apply (phase_none n i Ready)).
  split; cbn [p_lines l_config l_phase p_points with_state_of c_state with_mem k_mem].
  - apply (compute_inv _ _ _ _ _ (pi_lines _ _ _ _ _ _ HI)). intros t p bs cs Hph Hcs.
    pose proof (pi_phases _ _ _ _ _ _ HI t (ex_intro _ _ Hph)) as Ht'.
    destruct (thread_at _ _ _ _ _ _ _ _ HI t Ht') as (pt & _ & Hti).
    destruct (ti_chars _ _ _ _ _ _ _ Hti p bs Hph) as (cs' & Hcs' & H1 & H2).
    rewrite (cstr_at_fun _ _ _ _ Hcs Hcs') in *. by apply (other_kept m r t); [..|congruence| | | |].
  - apply (pi_all _ _ _ _ _ _ HI).
  - apply (pi_sem _ _ _ _ _ _ HI).
  - intros f Hff. apply cstr_at_other; [done|by apply Hfmts|]. by apply (pi_formats _ _ _ _ _ _ HI).
  - intros t Ht'. destruct (thread_at _ _ _ _ _ _ _ _ HI t Ht') as (pt & Hpt & Hti).
    destruct (decide (t = r)) as [->|Hne'].
    + rewrite lookup_insert_eq. eexists. split; [done|]. rewrite Hp in Hpt. injection Hpt as <-.
      destruct Hti as [Hpc _ _ Hb]. split; [done|split; [done|by eexists]|by rewrite Hn|exact Hb].
    + rewrite lookup_insert_ne by done. exists pt. split; [done|].
      apply (thread_kept m); [|done]. intros p cs. by apply other_kept.
  - rewrite (total_insert Hne is_wait pts r _ _ 0 Ht Hp), (total_insert Hne is_notify pts r _ _ 0 Ht Hp) by (cbn; lia).
    rewrite !Nat.add_0_r. apply (pi_units _ _ _ _ _ _ HI).
  - apply (pi_dialogue _ _ _ _ _ _ HI).
  - apply (pi_phases _ _ _ _ _ _ HI).
  - apply (pi_rest _ _ _ _ _ _ HI).
  - intros n' i' Hp'. destruct (decide (new_task = r)) as [Er|Hnr].
    + rewrite Er, lookup_insert_eq in Hp'. done.
    + rewrite lookup_insert_ne in Hp' by done. by apply (pi_reply _ _ _ _ _ _ HI n' i').
Qed.

(** A step of log_println, by its phase. *)
Lemma print_step p e c' ph' :
  ph !! r = Some p → line_step (LConfig c ph) e (LConfig c' ph') → ph' ≠ ph →
  k_mem (c_state c') = m ∧ (∀ t, t ≠ r → ph' !! t = ph !! t) ∧
  ((e = [] ∧ is_Some (ph' !! r) ∧ ∀ a bs, ph' !! r = Some (Chars a bs) →
      ∃ b ch rest, p = Chars b bs ∧ a = b + 1 ∧ cstr_at m b (ch :: rest)) ∨
   (∃ bs, p = Lf bs ∧ e = [EEnd r bs] ∧ ph' !! r = Some (Unlock bs)) ∨
   (e = [] ∧ ph' !! r = None)).
Proof using HI.
  intros Hp Hst Hne'. pose proof (prog_sys _ _ _ _ _ _ _ _ HI) as Hi.
  inversion Hst as [? ? ? Hs|? ? k ? Hn _ _ Hs|? ? mm Hn _|? ? msg bs ? Hn _ Hs
    |? ? a bs a' s' Hp' E|? ? a bs s' Hp' E|? ? bs s' Hp' E|? ? bs s' Hp' E|? ? bs ? Hp' Hs];
    subst; try congruence; rewrite ?Hp' in Hp; try injection Hp as <-.
  all: rewrite ?lookup_insert_eq, ?lookup_delete_eq.
  all: assert (∀ p' t, t ≠ r → <[r := p']> ph !! t = ph !! t) as Ho by (intros; by apply lookup_insert_ne).
  - destruct (owner_line _ _ _ _ _ (pi_lines _ _ _ _ _ _ HI) _ Hp') as (_ & _ & _ & _ & _ & _ & rest & _ & Hs).
    destruct rest as [|ch rest]; [by rewrite (log_char_end _ _ Hs) in E|].
    rewrite (proj1 (log_char_next _ _ _ _ Hs)) in E. injection E as <- <-.
    split_and!; [done|by apply Ho|left]. split_and!; [done|by eexists|].
    intros a' bs' [= <- <-]. by exists a, ch, rest.
  - destruct (owner_line _ _ _ _ _ (pi_lines _ _ _ _ _ _ HI) _ Hp') as (_ & _ & _ & _ & _ & _ & rest & _ & Hs).
    destruct rest as [|ch rest]; [|by rewrite (proj1 (log_char_next _ _ _ _ Hs)) in E].
    rewrite (log_char_end _ _ Hs) in E. injection E as <-.
    split_and!; [done|by apply Ho|left]. split_and!; [done|by eexists|done].
  - injection E as <-. split_and!; [done|by apply Ho|left]. split_and!; [done|by eexists|done].
  - injection E as <-. split_and!; [done|by apply Ho|right; left]. by exists bs.
  - split_and!; [by apply (kernel_sends_nothing _ _ _ _ Hi Hs)| |right; by right].
    intros t Ht. by apply lookup_delete_ne.
Qed.

Lemma moved_rest c' ph' y' w n :
  is_Some (ph !! r) → moved (LConfig c ph) y (LConfig c' ph') y' → units_ok y w n →
  (∀ t, t ≠ r → ph' !! t = ph !! t) →
  a_all (y_sched y') = a_all (y_sched y) ∧ is_Some (y_sems y' !! notify_task_print) ∧ units_ok y' w n ∧
  rest_ok ph' y'.
Proof using HI.
  intros Hp Hm Hu Ho. pose proof (pi_sem _ _ _ _ _ _ HI) as Hs.
  destruct Hm as [->|(l & Hst & -> & Hl)]; [split_and!; [done..|by apply (rest_same _ _ _ _ _ _ _ _ HI)]|]. cbn in Hst, Hl.
  pose proof (prog_sys _ _ _ _ _ _ _ _ HI) as Hi.
  split; [apply all_next|]. split; [by apply sems_next|]. split.
  - eapply units_other; [by apply (sem_step_move _ _ _ _ _ Hi Hst)| | |done];
      destruct (Hl Hp) as [-> | ->]; done.
  - apply (rest_next _ _ _ _ _ _ _ _ HI _ _ _ Hst); [destruct (Hl Hp) as [-> | ->]; constructor|done|].
    destruct (Hl Hp) as [-> | ->]; done.
Qed.

Lemma print_prog n i fmt e c' ph' :
  pts !! r = Some (Pt n i Printing) → code_of r !! i = Some (IPrintf fmt) →
  line_step (LConfig c ph) e (LConfig c' ph') → ph' ≠ ph →
  ∃ y', prog_inv out (PConfig (LConfig c' ph')
    (match ph' !! r with Some _ => pts | None => <[r := next (code_of r) n i]> pts end)) y' (evs ++ e).
Proof using HI Hne.
  intros Hp Hf Hst Hne'. pose proof (code_some r i _ Hf) as Ht.
  pose proof (thread_is _ _ _ _ _ _ _ _ HI r _ Ht Hp) as [Hpc ([p Hph] & _) Hch Hb].
  assert (∀ e' n' i', r = new_task → pts !! r = Some (Pt n' i' Printing) →
    (n' < length (ended_by main_task (evs ++ e')))%nat) as Hrp.
  { intros e' n' i' Er Hp'. rewrite Er in Hp'. pose proof (pi_reply _ _ _ _ _ _ HI n' i' Hp').
    unfold ended_by in *. rewrite omap_app, length_app. lia. }
  destruct (line_step_inv _ _ _ _ _ _ (pi_lines _ _ _ _ _ _ HI) Hst) as (y' & Hl & Hm). exists y'.
  destruct (print_step p e c' ph' Hph Hst Hne') as (Hmem & Ho & Hcase).
  destruct (moved_rest _ _ _ _ _ (ex_intro _ p Hph) Hm (pi_units _ _ _ _ _ _ HI) Ho) as (Hall & Hs & Hu & Hro).
  assert (∀ e', e' = [] ∨ (∃ bs, e' = [EEnd r bs]) → ∀ t, begun_by t e' = []) as Hbeg by (by intros e' [->|[bs ->]]).
  destruct Hcase as [(-> & [p' Hp'] & Hc)|[(bs & -> & -> & Hp')|(-> & Hp')]]; rewrite Hp' in *; apply inv_same_mem; try done.
  - intros t Htr. rewrite Ho by done. auto.
  - intros pt _ Hpt _. rewrite Hp in Hpt. injection Hpt as <-. exists (Pt n i Printing). rewrite Hp', app_nil_r.
    split; [done|]. split; [done|by split; eauto| |exact Hb]. intros a bs [= ->].
    destruct (Hc a bs eq_refl) as (b & ch & rest & -> & -> & Hcs).
    destruct (Hch b bs Hph) as (cs & Hcs' & H1 & H2). rewrite <- (cstr_at_fun _ _ _ _ Hcs Hcs') in *.
    apply cstr_at_cons in Hcs as (_ & _ & Hcs). exists rest. cbn [length] in *. split_and!; [done|lia|lia].
  - by apply dialogue_same.
  - apply Hrp.
  - intros t Htr. rewrite Ho by done. auto.
  - intros pt _ Hpt _. rewrite Hp in Hpt. injection Hpt as <-. exists (Pt n i Printing). rewrite Hp', app_nil_r.
    split; [done|]. split; [done|by split; eauto|done|exact Hb].
  - apply (dialogue_next _ _ Hne _ _ _ _ _ _ HI); [done|]. by rewrite Hph.
  - apply Hrp.
  - rewrite (total_insert Hne is_wait pts r _ _ _ Ht Hp (executed_next _ _ _ _ _ Printing Hf)).
    rewrite (total_insert Hne is_notify pts r _ _ _ Ht Hp (executed_next _ _ _ _ _ Printing Hf)).
    cbn [is_wait is_notify]. by rewrite !Nat.add_0_r.
  - intros t Htr. rewrite Ho, lookup_insert_ne by done. auto.
  - intros pt _ Hpt _. rewrite Hp in Hpt. injection Hpt as <-. rewrite lookup_insert_eq, Hp', app_nil_r.
    eexists. split; [done|]. pose proof (executed_next is_printf _ n _ _ Printing Hf) as He. cbn in He.
    destruct (next_ready (code_of r) n i) as (n' & i' & E & Hi'). rewrite E in *. split; [by apply Hi'|done|done|].
    rewrite Hb. unfold begun. cbn [executed printing is_printf] in *. do 2 f_equal. lia.
  - by apply dialogue_same.
  - intros n' i' _. rewrite lookup_insert_eq. destruct (next_ready (code_of r) n i) as (? & ? & -> & _). done.
Qed.
End step.
End steps.

(** ** Runs of the program *)

Section runs.
Context `{Platform}.
Context (main_buf new_buf : Z) (Hne : main_task ≠ new_task).

(** The formats are strings of the image, away from the tasks, and the
    buffers of the two tasks are away from them and from each other. *)
Record program_image (s : kstate) : Prop := {
  pg_formats : formats_at (k_mem s);
  pg_apart : ∀ t fmt, t ∈ first_tasks → fmt ∈ [send_fmt; recv_fmt] →
    disjoint_ranges t sizeof_task (literal fmt) (len (bytes_of fmt) + 1);
  pg_buffers : disjoint_ranges main_buf 128 new_buf 128;
  pg_buffer_formats : ∀ t fmt, fmt ∈ [send_fmt; recv_fmt] →
    disjoint_ranges (buf_of main_buf new_buf t) 128 (literal fmt) (len (bytes_of fmt) + 1)
}.

Local Notation prog_inv := (prog_inv main_buf new_buf).

Lemma prog_step_inv s out P e P' y evs :
  program_image s → prog_inv out P y evs → prog_step main_buf new_buf P e P' → ∃ y', prog_inv out P' y' (evs ++ e).
Proof using Hne.
  intros [_ _ Hb Hf] HI Hst. destruct Hst as [c ph pts c' Hs|P e P' Hst].
  { rewrite app_nil_r. eexists. by apply tick_prog. }
  destruct Hst as [c ph pts n i k c' Hp Hk Hs|c ph pts n i fmt m Hp Hk E|c ph pts n i fmt bs c' Hp Hk Hc Hs
    |c ph pts n i fmt e c' ph' Hp Hk Hs Hph]; rewrite ?app_nil_r.
  - eexists. by apply (call_prog _ _ Hne _ _ _ _ _ _ HI n i k).
  - eexists. by apply (format_prog _ _ Hne Hb Hf _ _ _ _ _ _ HI n i fmt).
  - eexists. by apply (begin_prog _ _ Hne _ _ _ _ _ _ HI n i fmt).
  - by apply (print_prog _ _ Hne _ _ _ _ _ _ HI n i fmt).
Qed.

Lemma prog_run_inv s out P evs P' y :
  program_image s → prog_inv out P y [] → prog_run main_buf new_buf P evs P' → ∃ y', prog_inv out P' y' evs.
Proof using Hne.
  intros Hg HI Hr. induction Hr as [P|P1 evs P2 e P3 _ IH Hst]; [by exists y|].
  destruct (IH HI) as (y2 & HI2). by eapply prog_step_inv.
Qed.

(** The formats are still there when the tasks start. *)
Lemma formats_boot s s' :
  boot_image s → booted s s' → program_image s → formats_at (k_mem s').
Proof using Type.
  intros Hb Hbd [Hs Ha _ _] fmt Hf. rewrite (bd_mem _ _ Hbd). unfold new_mem, main_mem.
  assert (∀ t e p bs mm, t ∈ first_tasks → name_ok bs → cstr_at mm (literal fmt) (bytes_of fmt) →
    cstr_at (named_mem t e p bs mm) (literal fmt) (bytes_of fmt)) as Hn.
  { intros t e p bs mm Ht Hok. apply cstr_at_same. intros x Hx. apply named_mem_out; [done|].
    pose proof (Ha t fmt Ht Hf) as Hd. unfold disjoint_ranges in Hd. lia. }
  do 3 (apply Hn; [unfold first_tasks; rewrite !elem_of_cons; tauto|done|]). by apply Hs.
Qed.

Lemma prog_inv_start s s' :
  boot_image s → booted s s' → program_image s →
  prog_inv (serial_out (k_io s')) (prog_start s') (y_boot s') [].
Proof using Hne.
  intros Hb Hbd Hg. split; cbn [prog_start p_lines p_points l_config l_phase boot_config c_state].
  - apply (line_inv_start (boot_config s') (y_boot s') (Mutex NULL 0)); try done.
    + by apply (boot_inv s).
    + cbn. by rewrite (bd_mutexes _ _ Hbd), lookup_insert_eq.
  - done.
  - cbn. rewrite (bd_sems _ _ Hbd), lookup_singleton_eq. by eexists.
  - by apply (formats_boot s).
  - intros t Ht. exists (Pt 0 0 Ready). split.
    + unfold threads in Ht. rewrite !elem_of_cons, elem_of_nil in Ht. unfold first_points.
      destruct Ht as [->|[->|[]]]; [apply lookup_insert_eq|].
      rewrite lookup_insert_ne by done. apply lookup_singleton_eq.
    + rewrite lookup_empty. split; [|done|done|].
      * unfold threads in Ht. rewrite !elem_of_cons, elem_of_nil in Ht.
        destruct Ht as [->|[->|[]]]; [rewrite code_main|rewrite (code_new Hne)]; cbn; lia.
      * unfold begun. cbn [executed printing]. by rewrite take_0.
  - assert (∀ sel, total sel first_points = 0%nat) as Ht.
    { intros sel. unfold total, executed_at, first_points.
      rewrite lookup_insert_eq, lookup_insert_ne, lookup_singleton_eq by done. cbn [from_option executed]. by rewrite !take_0. }
    assert (count_of (y_boot s') notify_task_print = 0) as Hc
      by (unfold count_of; cbn; by rewrite (bd_sems _ _ Hbd), lookup_singleton_eq).
    rewrite !Ht. split.
    + intros u. unfold queue, waiters_of. cbn. unfold boot_waits. rewrite lookup_insert_eq. by intros ?%elem_of_nil.
    + rewrite Hc. unfold INT_MIN, INT_MAX. lia.
    + rewrite Hc. lia.
  - constructor.
  - intros t [? Hx]. by rewrite lookup_empty in Hx.
  - split; [|by intros t n ?%elem_of_nil|by intros; apply lookup_empty].
    intros w t (l & Hw & Hin)%waiters_of_elem. cbn in Hw. apply boot_waits_empty in Hw as ->.
    by apply elem_of_nil in Hin.
  - intros n i. unfold first_points. by rewrite lookup_insert_ne, lookup_singleton_eq by done.
Qed.

(** What has been sent of the line under way. *)
Lemma part_text out c ph pts y evs mx part p :
  prog_inv out (PConfig (LConfig c ph) pts) y evs →
  ph !! owner mx = Some p → progress (k_mem (c_state c)) p part →
  part `prefix_of` line (fmt_text send_fmt (length (ended_by main_task evs))) ∨
  (length (ended_by new_task evs) < length (ended_by main_task evs))%nat ∧
  part `prefix_of` line (fmt_text recv_fmt (length (ended_by new_task evs))).
Proof using Hne.
  intros HI Hp Hpr. pose proof (pi_phases _ _ _ _ _ _ HI (owner mx) (ex_intro _ p Hp)) as Ht.
  destruct (thread_at _ _ _ _ _ _ _ _ HI _ Ht) as (pt & Hpt & Hti).
  pose proof (ended_count _ _ _ _ _ _ _ _ HI _ _ Ht Hpt) as Hc.
  pose proof (ti_begun _ _ _ _ _ _ _ Hti) as Hb.
  rewrite (li_texts _ _ _ _ (pi_lines _ _ _ _ _ _ HI)) in Hb. cbn [p_lines l_phase] in Hb.
  assert (part = [] ∨ ∃ bs, text_of (ph !! owner mx) = [bs] ∧ part `prefix_of` line bs) as [->|(bs & Hx & Hpre)].
  { rewrite Hp. destruct (progress_part _ _ _ Hpr) as [->|(bs & Hbs & Hpre)]; [by left|right]. by exists bs. }
  { left. apply prefix_nil. }
  rewrite Hx in Hb, Hc. cbn [length] in Hc. rewrite Hc, seq_app, fmap_app in Hb.
  apply app_inj_tail in Hb as [_ ->]. unfold threads in Ht. rewrite !elem_of_cons, elem_of_nil in Ht.
  destruct Ht as [Er|[Er|[]]]; rewrite Er in *; unfold fmt_of in Hpre; [left|right].
  - by rewrite Z.eqb_refl in Hpre.
  - rewrite (proj2 (Z.eqb_neq new_task main_task)) in Hpre by done. split; [|done].
    destruct pt as [n i []]; destruct Hti as [_ Hs _ _]; cbn in Hs; [congruence|by destruct Hs; congruence|].
    destruct Hs as (_ & fmt & Hf). unfold begun in Hc. rewrite (proj2 (printf_at _ n i Printing fmt Hf)) in Hc. cbn in Hc.
    pose proof (pi_reply _ _ _ _ _ _ HI n i Hpt). lia.
Qed.
End runs.

(** ** Progress *)

Section progress.
Context `{Platform}.
Context (main_buf new_buf : Z) (Hne : main_task ≠ new_task).
Context (out : list Z) (c : config) (ph : gmap Z phase) (pts : gmap Z point) (y : asys) (evs : list event).
Context (HI : prog_inv main_buf new_buf out (PConfig (LConfig c ph) pts) y evs).

Local Notation Hi := (prog_sys _ _ _ _ _ _ _ _ HI).
Local Notation can_step := (∃ e P', task_step main_buf new_buf (PConfig (LConfig c ph) pts) e P').

Lemma program_call k :
  running c ≠ idle_task → call_ok k y → ∃ c', sys_step c (LCall k) c'.
Proof using HI.
  intros Hc Hok. unfold running in Hc. rewrite (sys_inv_curr _ _ Hi) in Hc.
  destruct (can_call c y k Hi Hc Hok) as (s' & cs' & Hst). by eexists.
Qed.

(** The contracts of the calls of the two loops hold. *)
Lemma code_ok t i k : code_of t !! i = Some (ICall k) → call_ok k y.
Proof using HI.
  pose proof (pi_sem _ _ _ _ _ _ HI) as Hs. unfold code_of.
  destruct (t =? main_task); [|destruct (t =? new_task); [|done]]; intros Hk.
  - destruct i as [|[|[|i]]]; try done; injection Hk as <-; [exact Hs|]. cbn. lia.
  - destruct i as [|[|i]]; try done; injection Hk as <-. exact Hs.
Qed.
Lemma lock_call_ok : call_ok (CLock log_mutex) y.
Proof using HI.
  destruct (li_out _ _ _ _ (pi_lines _ _ _ _ _ _ HI)) as (mx & part & Hm & _ & Hp).
  split; rewrite Hm; [by eexists|]. cbn. unfold INT_MAX. destruct Hp as [[-> _]|[-> _]]; lia.
Qed.
Lemma unlock_call_ok p : ph !! running c = Some p → call_ok (CUnlock log_mutex) y.
Proof using HI.
  intros Hp. destruct (owner_line _ _ _ _ _ (pi_lines _ _ _ _ _ _ HI) p Hp) as (mx & part & Hm & Hl & Ho & _).
  unfold call_ok, args_ok. rewrite Hm. cbn. rewrite Hl, Ho, (running_curr _ _ Hi). split; [by eexists|done].
Qed.

Lemma phase_changes p p' : ph !! running c = Some p → p' ≠ p → <[running c := p']> ph ≠ ph.
Proof using Type.
  intros Hp Hne' E. apply Hne'. rewrite <- E, lookup_insert_eq in Hp. congruence.
Qed.

(** Inside log_println there is always a next step. *)
Lemma print_goes_on p :
  running c ≠ idle_task → ph !! running c = Some p →
  ∃ e c' ph', line_step (LConfig c ph) e (LConfig c' ph') ∧ ph' ≠ ph.
Proof using HI.
  intros Hc Hp. destruct p as [a bs|bs|bs|bs].
  - destruct (owner_line _ _ _ _ _ (pi_lines _ _ _ _ _ _ HI) _ Hp) as (_ & _ & _ & _ & _ & _ & rest & _ & Hs).
    destruct rest as [|ch rest]; eexists _, _, _; split.
    + by apply line_chars_end with a; [|apply log_char_end].
    + by apply (phase_changes (Chars a bs)).
    + by apply line_char with a; [|apply (log_char_next _ _ _ _ Hs)].
    + apply (phase_changes (Chars a bs)); [done|]. intros [=]. lia.
  - eexists _, _, _. split; [by apply line_cr|by apply (phase_changes (Cr bs))].
  - eexists _, _, _. split; [by apply line_lf|by apply (phase_changes (Lf bs))].
  - destruct (program_call _ Hc (unlock_call_ok _ Hp)) as (c' & Hst). eexists _, _, _.
    split; [by apply (line_unlock _ _ bs)|]. intros E.
    rewrite <- E, lookup_delete_eq in Hp. done.
Qed.

(** The current task, when it is not the idle task, can go on. *)
Lemma task_goes_on s :
  program_image main_buf new_buf s → running c ≠ idle_task → can_step.
Proof using HI Hne.
  intros [_ _ Hb Hf] Hc.
  assert (running c ∈ threads) as Ht.
  { pose proof (curr_task c y Hi) as Ht. unfold tasks_of in Ht. rewrite (pi_all _ _ _ _ _ _ HI) in Ht.
    by apply elem_of_cons in Ht as [?|Ht]. }
  destruct (thread_at _ _ _ _ _ _ _ _ HI _ Ht) as ([n i st] & Hp & [Hpc Hs Hch _]).
  destruct st; cbn in Hpc, Hs.
  - destruct (lookup_lt_is_Some_2 _ _ Hpc) as [[fmt|k] Hk].
    + destruct (printf_at _ n i Ready fmt Hk) as [-> _].
      destruct (format_ok main_buf new_buf (k_mem (c_state c)) (running c) _ n (fmt_of_in (running c))
        (pi_formats _ _ _ _ _ _ HI _ (fmt_of_in _)) (Hf _ _ (fmt_of_in _))) as [E _].
      eexists _, _. by eapply task_format.
    + destruct (program_call k Hc (code_ok _ _ _ Hk)) as (c' & Hst). eexists _, _. by eapply task_call.
  - destruct Hs as (_ & fmt & Hk & Hcs). destruct (program_call _ Hc lock_call_ok) as (c' & Hst).
    eexists _, _. by eapply task_begin.
  - destruct Hs as ([p Hph] & fmt & Hk). destruct (print_goes_on p Hc Hph) as (e & c' & ph' & Hst & Hn).
    eexists _, _. by eapply task_print.
Qed.

(** When the idle task runs, no task waits for another for ever: the main
    task is asleep. *)
Lemma idle_asleep :
  running c = idle_task → ∃ n, (main_task, n) ∈ a_sleep (y_sched y) ∧ 1 <= n <= sleep_ticks_of 1000.
Proof using HI Hne.
  intros Hid. pose proof (co_wf _ _ _ (si_core _ _ Hi)) as Ha. pose proof (pi_rest _ _ _ _ _ _ HI) as [Hw Hs Hp].
  assert (a_ready (y_sched y) = []) as Hr.
  { unfold running in Hid. rewrite (sys_inv_curr _ _ Hi), (aw_curr _ Ha) in Hid. unfold a_next in Hid.
    destruct (a_ready (y_sched y)) as [|t r] eqn:E; [done|]. cbn in Hid. subst t.
    exfalso. apply (aw_idle _ Ha). rewrite <- (aw_place _ Ha), E. by left. }
  assert (∀ t, t ∈ threads → (∃ n, (t, n) ∈ a_sleep (y_sched y)) ∨ ∃ w, t ∈ waiters_of y w) as Hplace.
  { intros t Ht. rewrite <- (pi_all _ _ _ _ _ _ HI), <- (aw_place _ Ha), Hr in Ht. cbn in Ht.
    apply elem_of_app in Ht as [([t' n] & -> & Hin)%list_elem_of_fmap|(w & l & Hl & Hin)%elem_of_waiters]; [eauto|].
    right. exists w. apply waiters_of_elem. eauto. }
  destruct (Hplace main_task ltac:(by left)) as [[n Hn]|[w Hin]].
  { exists n. split; [done|]. destruct (Hs _ _ Hn) as [_ Hle].
    pose proof (proj1 (Forall_forall _ _) (aw_sleep _ Ha) _ Hn) as Hpos. cbn in Hpos. lia. }
  exfalso. destruct (Hw _ _ Hin) as [-> | ->].
  2: { by apply Hne, (uo_queue _ _ _ (pi_units _ _ _ _ _ _ HI)). }
  destruct (li_out _ _ _ _ (pi_lines _ _ _ _ _ _ HI)) as (mx & part & Hm & _ & Hpart). cbn [l_phase] in Hpart.
  destruct (lk_mutex _ (si_locks _ _ Hi) _ _ Hm) as (l & Hl & Hfree & Hheld).
  rewrite (waiters_of_some _ _ _ Hl) in Hin.
  destruct Hpart as [[H0 _]|(H1 & p & Hph & _)].
  { destruct (Hfree H0) as [_ ->]. by apply elem_of_nil in Hin. }
  destruct Hheld as (_ & Hall & Hnin); [by rewrite H1|].
  assert (owner mx = new_task) as Ho.
  { rewrite (pi_all _ _ _ _ _ _ HI) in Hall. unfold threads in Hall. rewrite !elem_of_cons, elem_of_nil in Hall.
    destruct Hall as [Ho|[Ho|[]]]; [|done]. by rewrite Ho in Hnin. }
  rewrite Ho in *. destruct (Hplace new_task ltac:(by right; left)) as [[n Hn]|[w Hin']].
  - destruct (Hs _ _ Hn) as [E _]. by rewrite E in Hne.
  - destruct (Hw _ _ Hin') as [-> | ->].
    + by rewrite (waiters_of_some _ _ _ Hl) in Hin'.
    + by rewrite (Hp _ Hin') in Hph.
Qed.
End progress.

(** ** Properties *)

Section program_properties.
Context `{Platform}.

Lemma program_reach main_buf new_buf s s' evs P :
  boot_image s → program_image main_buf new_buf s → (kernel_init;; init_main_start) s = Done tt s' →
  prog_run main_buf new_buf (prog_start s') evs P →
  main_task ≠ new_task ∧ ∃ y, prog_inv main_buf new_buf (serial_out (k_io s')) P y evs.
Proof.
  intros Hb Hg E Hr. destruct (boot_ok s Hb) as (s2 & E2 & Hbd).
  rewrite E in E2. injection E2 as <-. clear E.
  pose proof (not_eq_sym (proj2 (proj2 (first_tasks_ne s Hb)))) as Hne. split; [done|].
  by apply (prog_run_inv _ _ Hne s _ _ _ _ _ Hg (prog_inv_start _ _ Hne s s' Hb Hbd Hg) Hr).
Qed.

(** C3: The output of the system is a dialogue of its two tasks: however the timer
    interrupts them, what is on the serial line is "sending notify: 0, 1, ..."
    of the main task and "recv notify: 0, 1, ..." of the new task, in whole
    lines that never mix, in which every notification is received at most
    once, in order, and after it has been sent; and then at most the beginning
    of a line that continues the dialogue. *)
Theorem output_ordered main_buf new_buf s s' evs P :
  boot_image s → program_image main_buf new_buf s → (kernel_init;; init_main_start) s = Done tt s' →
  prog_run main_buf new_buf (prog_start s') evs P →
  ∃ k j ls part, dialogue k j ls ∧
    serial_out (k_io (c_state (l_config (p_lines P)))) = serial_out (k_io s') ++ concat (line <$> ls) ++ part ∧
    (part `prefix_of` line (fmt_text send_fmt k) ∨
     (j < k)%nat ∧ part `prefix_of` line (fmt_text recv_fmt j)).
Proof.
  intros Hb Hg E Hr. destruct (program_reach main_buf new_buf s s' evs P Hb Hg E Hr) as (Hne & y & HI).
  destruct P as [[c ph] pts].
  destruct (li_out _ _ _ _ (pi_lines _ _ _ _ _ _ HI)) as (mx & part & _ & Hout & Hpart).
  eexists _, _, _, part. split; [apply (pi_dialogue _ _ _ _ _ _ HI)|]. split; [exact Hout|].
  destruct Hpart as [[_ ->]|(_ & p & Hp & Hpr)]; [left; apply prefix_nil|].
  by apply (part_text _ _ Hne _ _ _ _ _ _ _ _ _ HI Hp).
Qed.

(** C4: The system never stops: in every configuration the two tasks reach the
    timer interrupt is handled, and a task that runs can take the next step
    of its program, unless the idle task runs; then the main task sleeps, for
    at most the ticks of one second, so that no task waits for another for
    ever. *)
Theorem never_stuck main_buf new_buf s s' evs P :
  boot_image s → program_image main_buf new_buf s → (kernel_init;; init_main_start) s = Done tt s' →
  prog_run main_buf new_buf (prog_start s') evs P →
  let c := l_config (p_lines P) in
  (∃ c', sys_step c LTick c') ∧
  ((∃ e P', task_step main_buf new_buf P e P') ∨
   running c = idle_task ∧ ∃ y n, sys_inv c y ∧ (main_task, n) ∈ a_sleep (y_sched y) ∧
     1 <= n <= sleep_ticks_of 1000).
Proof.
  intros Hb Hg E Hr c. destruct (program_reach main_buf new_buf s s' evs P Hb Hg E Hr) as (Hne & y & HI).
  subst c. destruct P as [[c ph] pts]. pose proof (prog_sys _ _ _ _ _ _ _ _ HI) as Hi.
  split; [destruct (can_tick c y Hi) as (s2 & cs2 & Hst); by eexists|].
  destruct (decide (running c = idle_task)) as [Hid|Hid].
  - right. split; [done|]. destruct (idle_asleep _ _ Hne _ _ _ _ _ _ HI Hid) as (n & Hn). by exists y, n.
  - left. by apply (task_goes_on _ _ Hne _ _ _ _ _ _ HI s).
Qed.
End program_properties.
