(* ===== verification/Startup.v ===== *)
(** * The start-up code in assembly (boot/start.S, loader/start.S, kernel/init/start.S)

    The boot sector that reads the loader, the entry into 32-bit code that
    leads to load_kernel, _start of the kernel, and simple_switch.  The disk
    service of the BIOS is a parameter, with its documented behaviour as a
    hypothesis. *)

From S2P Require Import Prelude Mem Klib Machine Irq Cpu Elf Loader32 Loader16 Stub Tss.

(** ** Memory layout (comm/info.h) *)

Definition BOOT_ADDR : Z := 0x7c00.
Definition BOOT_MAX_SIZE : Z := 512.
Definition LOADER_ADDR : Z := 0x8000.
Definition LOADER_MAX_SIZE : Z := 512 * 64.

(** ** The boot sector *)

(** The machine in real mode: the registers the boot sector uses, the carry
    flag, and the memory. *)
Record rmode : Type := RMode {
  m_eax : Z; m_ebx : Z; m_ecx : Z; m_edx : Z; m_esp : Z;
  m_ds : Z; m_ss : Z; m_es : Z; m_fs : Z; m_gs : Z;
  m_cf : bool;
  m_mem : mem
}.

(** Writing a part of a 32-bit register. *)
Definition set_low (r v : Z) : Z := r - u16 r + u16 v.
Definition set_l (r v : Z) : Z := r - u8 r + u8 v.
Definition set_h (r v : Z) : Z := r - u16 r + u8 v * 0x100 + u8 r.
Definition get_h (r : Z) : Z := u8 (r / 0x100).

(** The address of an operand in real mode. *)
Definition linear (seg off : Z) : Z := seg * 16 + u16 off.

(** _start: zero the segment registers, and set the stack to the address the
    boot sector is linked at. *)
Definition boot_setup (x : rmode) : rmode :=
  let eax := set_low (m_eax x) 0 in
  RMode eax (m_ebx x) (m_ecx x) (m_edx x) (set_low (m_esp x) BOOT_ADDR)
    (u16 eax) (u16 eax) (u16 eax) (u16 eax) (u16 eax) false (m_mem x).
(** read_loader: the arguments of the service. *)
Definition read_args (x : rmode) : rmode :=
  RMode (set_l (set_h (m_eax x) 2) 64) (set_low (m_ebx x) 0x8000) (set_low (m_ecx x) 2)
    (set_low (m_edx x) 0x80) (m_esp x) (m_ds x) (m_ss x) (m_es x) (m_fs x) (m_gs x) (m_cf x) (m_mem x).

(** The sector the assembler makes of the code: padded to 510 bytes, with the
    signature the BIOS looks for; code that is longer is refused. *)
Definition boot_record (code : list Z) : option (list Z) :=
  if len code <=? 510 then Some (code ++ replicate (510 - length code) 0 ++ [0x55; 0xaa]) else None.
Lemma boot_record_bootable code sector :
  boot_record code = Some sector →
  len sector = BOOT_MAX_SIZE ∧ sector !! 510%nat = Some 0x55 ∧ sector !! 511%nat = Some 0xaa.
Proof.
  unfold boot_record. destruct (Z.leb_spec (len code) 510) as [Hl|]; [|done]. intros [= <-].
  unfold BOOT_MAX_SIZE. rewrite !length_app, length_replicate. split; [cbn; lia|].
  rewrite app_assoc, !lookup_app_r by (rewrite length_app, length_replicate; lia).
  rewrite length_app, length_replicate.
  replace (510 - (length code + (510 - length code)))%nat with 0%nat by lia.
  by replace (511 - (length code + (510 - length code)))%nat with 1%nat by lia.
Qed.

Section boot_sector.
(** The BIOS: its own state, and [int $0x13]. *)
Context {B : Type} (int13 : B → rmode → B * rmode).

(** One pass from the label read_loader to the jump back. *)
Definition read_loader (s : B * rmode) : B * rmode := int13 s.1 (read_args s.2).

(** The boot sector: the state it leaves, and the address it jumps to. *)
Definition boot_start (b : B) (x : rmode) : result (B * rmode * Z) :=
  s ← ended (cwhile (λ s,
    let s := read_loader s in
    if m_cf s.2 then Cont s else Brk s) (b, boot_setup x));
  Ok (s, LOADER_ADDR).

(** What the service was asked: drive, first sector, number of sectors, and
    the address of the buffer. *)
Definition asked_drive (x : rmode) : Z := u8 (m_edx x).
Definition asked_count (x : rmode) : Z := u8 (m_eax x).
Definition asked_buffer (x : rmode) : Z := linear (m_es x) (m_ebx x).
(** The geometry of the drive turns cylinder, head and sector into the number
    of the sector. *)
Context (heads per_track : Z).
Definition asked_sector (x : rmode) : Z :=
  let cylinder := get_h (m_ecx x) + u8 (m_ecx x) / 64 * 0x100 in
  (cylinder * heads + get_h (m_edx x)) * per_track + (u8 (m_ecx x) mod 64 - 1).

(** The drives, as 16-bit words. *)
Context (drives : Z → Z → Z).

(** Documented behaviour of the service 2 of [int $0x13]: it keeps the
    segment registers and the stack, writes no conventional memory but the
    buffer and what is below the stack pointer, and if the carry flag is clear
    the sectors asked for are in the buffer.  The code relies on the BIOS to
    go on with the next head at the end of a track, which one that addresses
    sectors by number does: on a disk of 63 sectors per track the last two of
    its 64 sectors are beyond the first track. *)
Record int13_read : Prop := {
  rd_segs : ∀ b x, let x' := (int13 b x).2 in
    m_ds x' = m_ds x ∧ m_ss x' = m_ss x ∧ m_es x' = m_es x ∧ m_fs x' = m_fs x ∧ m_gs x' = m_gs x;
  rd_esp : ∀ b x, m_esp (int13 b x).2 = m_esp x;
  rd_keeps : ∀ b x a, get_h (m_eax x) = 2 →
    linear (m_ss x) (m_esp x) <= a < 0x80000 →
    a < asked_buffer x ∨ asked_buffer x + SECTOR_SIZE * asked_count x <= a →
    load8 (m_mem (int13 b x).2) a = load8 (m_mem x) a;
  rd_data : ∀ b x k, get_h (m_eax x) = 2 → m_cf (int13 b x).2 = false →
    0 <= k < 256 * asked_count x →
    load16 (m_mem (int13 b x).2) (asked_buffer x + 2 * k) =
      u16 (drives (asked_drive x) (asked_sector x * 256 + k))
}.

(** The state after [k] attempts, and whether the [k]-th one is the first to
    succeed. *)
Fixpoint attempts (k : nat) (s : B * rmode) : B * rmode :=
  match k with
  | O => s
  | S k => attempts k (read_loader s)
  end.
Definition succeeds_at (s : B * rmode) (k : nat) : Prop :=
  m_cf (attempts (S k) s).2 = false ∧ ∀ j, (j < k)%nat → m_cf (attempts (S j) s).2 = true.
End boot_sector.

(** ** The loader's 32-bit entry *)

(** The loader's _start is its first instruction, a jump to loader16_entry. *)
Definition loader_start `{Platform} := loader16_entry.

(** protect_entry: the data segment registers, then a far jump to load_kernel
    through the code segment.  [None]: the processor refuses a selector. *)
Definition protect_entry `{Platform} (p : proc) : option (proc * Z) :=
  let r := c_regs (p_ctx p) in
  let ax := set_low (r_eax r) 16 in
  let g := p_gdt p in
  if data_ok g (u16 ax) && stack_ok g (u16 ax) && code_ok g 8 then
    Some (Proc (TCtx (Regs ax (r_ecx r) (r_edx r) (r_ebx r) (r_esp r) (r_ebp r) (r_esi r) (r_edi r)
      (u16 ax) (u16 ax) (u16 ax) (u16 ax) (symbol "load_kernel") 8 (r_flags r)) (u16 ax))
      (p_tr p) g (p_mem p), symbol "load_kernel")
  else None.

(** ** The kernel's entry *)

Definition KERNEL_STACK_SIZE : Z := 8 * 1024.

Definition with_eax (v : Z) (r : regs) : regs :=
  Regs v (r_ecx r) (r_edx r) (r_ebx r) (r_esp r) (r_ebp r) (r_esi r) (r_edi r)
    (r_ds r) (r_es r) (r_fs r) (r_gs r) (r_eip r) (r_cs r) (r_flags r).
Definition jump (eip : Z) (x : xstate) : xstate :=
  X (with_ctl eip (r_cs (x_regs x)) (r_flags (x_regs x)) (x_regs x)) (x_mem x).
(** A call of [eip] that is to return to [back]. *)
Definition call_at (eip back : Z) (x : xstate) : xstate := jump eip (push back x).

(** The call of kernel_entry with &boot_info, in load_kernel *)
Definition call_kernel (kernel_entry boot_info back : Z) (x : xstate) : xstate :=
  call_at kernel_entry back (push boot_info x).

Section kernel_entry.
Context `{Platform}.

(** _start, up to the entry of kernel_init: the argument is passed on. *)
Definition start_enter (x : xstate) : xstate :=
  let x := X (with_eax (top x 1) (x_regs x)) (x_mem x) in
  let x := push (r_eax (x_regs x)) x in
  call_at (symbol "kernel_init") (symbol "_start.returned") x.
(** From its return on: the stack of the kernel. *)
Definition start_leave (x : xstate) : xstate :=
  let x := X (with_esp (u32 (symbol "stack" + KERNEL_STACK_SIZE)) (x_regs x)) (x_mem x) in
  jump (symbol "init_main") x.
(** _start, with what the C function kernel_init does to the machine. *)
Definition kernel_start (kernel_init : xstate → xstate) (x : xstate) : xstate :=
  start_leave (kernel_init (start_enter x)).
End kernel_entry.

(** ** simple_switch *)

(** push %ebp; push %ebx; push %esi; push %edi *)
Definition push_saved (x : xstate) : xstate :=
  let r := x_regs x in
  push (r_edi r) (push (r_esi r) (push (r_ebx r) (push (r_ebp r) x))).
(** pop %edi; pop %esi; pop %ebx; pop %ebp; ret *)
Definition pop_saved (x : xstate) : xstate :=
  let r := x_regs x in
  X (Regs (r_eax r) (r_ecx r) (r_edx r) (top x 2) (u32 (r_esp r + 20)) (top x 3) (top x 1) (top x 0)
       (r_ds r) (r_es r) (r_fs r) (r_gs r) (top x 4) (r_cs r) (r_flags r)) (x_mem x).
(** simple_switch(&from, to): the arguments go to EAX and EDX, which the
    caller does not expect to be kept. *)
Definition switch_args (x : xstate) : xstate :=
  let r := x_regs x in
  X (Regs (top x 1) (r_ecx r) (top x 2) (r_ebx r) (r_esp r) (r_ebp r) (r_esi r) (r_edi r)
    (r_ds r) (r_es r) (r_fs r) (r_gs r) (r_eip r) (r_cs r) (r_flags r)) (x_mem x).
Definition simple_switch (x : xstate) : xstate :=
  let from := r_eax (x_regs (switch_args x)) in
  let to := r_edx (x_regs (switch_args x)) in
  let x := push_saved (switch_args x) in
  let x := X (x_regs x) (store32 (x_mem x) from (r_esp (x_regs x))) in
  let x := X (with_esp to (x_regs x)) (x_mem x) in
  pop_saved x.

#[local] Opaque kernel_file place.

(** ** The boot sector's loop *)

Lemma set_low_u16 r v : u16 (set_low r v) = u16 v.
Proof. unfold set_low, u16. Z.to_euclidean_division_equations. lia. Qed.
Lemma set_l_u8 r v : u8 (set_l r v) = u8 v.
Proof. unfold set_l, u8. Z.to_euclidean_division_equations. lia. Qed.
Lemma set_l_get_h r v : get_h (set_l r v) = get_h r.
Proof. unfold set_l, get_h, u8. Z.to_euclidean_division_equations. lia. Qed.
Lemma set_h_get_h r v : get_h (set_h r v) = u8 v.
Proof. unfold set_h, get_h, u8, u16. Z.to_euclidean_division_equations. lia. Qed.
Lemma low_bytes r : u16 r = get_h r * 0x100 + u8 r.
Proof. unfold get_h, u8, u16. Z.to_euclidean_division_equations. lia. Qed.
Lemma set_low_u8 r v : 0 <= v < 0x100 → u8 (set_low r v) = v ∧ get_h (set_low r v) = 0.
Proof.
  intros Hv. pose proof (low_bytes (set_low r v)) as H. rewrite set_low_u16, u16_small in H by lia.
  assert (0 <= u8 (set_low r v) < 0x100) by apply Z.mod_pos_bound, eq_refl.
  assert (0 <= get_h (set_low r v)) by (unfold get_h, u8; by apply Z.mod_pos_bound).
  lia.
Qed.

Section boot_facts.
Context {B : Type} (int13 : B → rmode → B * rmode) (heads per_track : Z) (drives : Z → Z → Z).
Context (Hbios : int13_read int13 heads per_track drives).

(** The segments and the stack of the boot sector, and the memory that is
    neither the loader's nor below the stack. *)
Record booting_from (m : mem) (x : rmode) : Prop := {
  bf_segs : m_ds x = 0 ∧ m_ss x = 0 ∧ m_es x = 0 ∧ m_fs x = 0 ∧ m_gs x = 0;
  bf_esp : u16 (m_esp x) = BOOT_ADDR;
  bf_mem : ∀ a, BOOT_ADDR <= a < 0x80000 →
    a < LOADER_ADDR ∨ LOADER_ADDR + LOADER_MAX_SIZE <= a → load8 (m_mem x) a = load8 m a
}.

Lemma setup_booting x : booting_from (m_mem x) (boot_setup x).
Proof.
  clear Hbios. split; unfold boot_setup; cbn [m_ds m_ss m_es m_fs m_gs m_esp m_mem].
  - by rewrite set_low_u16.
  - by rewrite set_low_u16.
  - done.
Qed.

(** What an attempt asks the BIOS for. *)
Lemma read_args_asks m x :
  booting_from m x →
  let y := read_args x in
  get_h (m_eax y) = 2 ∧ asked_drive y = 0x80 ∧ asked_count y = 64 ∧ asked_buffer y = LOADER_ADDR ∧
  asked_sector heads per_track y = 1 ∧ linear (m_ss y) (m_esp y) = BOOT_ADDR.
Proof.
  clear Hbios. intros [(Hds & Hss & Hes & _) Hesp _] y. subst y.
  unfold asked_drive, asked_count, asked_buffer, asked_sector, read_args, linear.
  cbn [m_eax m_ebx m_ecx m_edx m_es m_ss m_esp].
  destruct (set_low_u8 (m_ecx x) 2) as [-> ->]; [done|].
  destruct (set_low_u8 (m_edx x) 0x80) as [-> ->]; [done|].
  rewrite set_l_get_h, set_h_get_h, set_l_u8, set_low_u16, Hes, Hss, Hesp. done.
Qed.

Lemma attempt_keeps m s : booting_from m s.2 → booting_from m (read_loader int13 s).2.
Proof using Hbios.
  intros Hf. destruct (read_args_asks m s.2 Hf) as (Hh & Hd & Hc & Hb & _ & Hl).
  pose proof Hf as [Hsegs Hesp Hmem]. unfold read_loader.
  split.
  - destruct (rd_segs _ _ _ _ Hbios s.1 (read_args s.2)) as (-> & -> & -> & -> & ->). exact Hsegs.
  - rewrite (rd_esp _ _ _ _ Hbios). exact Hesp.
  - intros a Ha Ho. rewrite (rd_keeps _ _ _ _ Hbios).
    + by apply Hmem.
    + exact Hh.
    + by rewrite Hl.
    + rewrite Hb, Hc. exact Ho.
Qed.
Lemma attempts_keep k m s : booting_from m s.2 → booting_from m (attempts int13 k s).2.
Proof using Hbios.
  revert s. induction k as [|k IH]; intros s Hf; [done|]. cbn [attempts]. by apply IH, attempt_keeps.
Qed.

(** A successful attempt has read the loader. *)
Definition loader_read (m : mem) : Prop :=
  ∀ k, 0 <= k < LOADER_MAX_SIZE / 2 →
    load16 m (LOADER_ADDR + 2 * k) = u16 (drives 0x80 (1 * 256 + k)).
Lemma attempt_reads m s :
  booting_from m s.2 → m_cf (read_loader int13 s).2 = false →
  loader_read (m_mem (read_loader int13 s).2).
Proof using Hbios.
  intros Hf Hcf k Hk. destruct (read_args_asks m s.2 Hf) as (Hh & Hd & Hc & Hb & Hs & _).
  pose proof (rd_data _ _ _ _ Hbios s.1 (read_args s.2) k Hh Hcf) as Hr.
  rewrite Hb, Hd, Hc, Hs in Hr. by apply Hr.
Qed.

Lemma boot_steps s k :
  succeeds_at int13 s k →
  steps (λ s, let s := read_loader int13 s in if m_cf s.2 then Cont s else Brk s)
    (Z.of_nat k + 1) s (attempts int13 (S k) s).
Proof.
  clear Hbios. revert s. induction k as [|k IH]; intros s [Hok Hfail]; cbn [attempts] in *.
  - apply steps_brk. cbn zeta. by rewrite Hok.
  - replace (Z.of_nat (S k) + 1) with (Z.of_nat k + 1 + 1) by lia.
    pose proof (Hfail 0%nat ltac:(lia)) as H0. cbn [attempts] in H0.
    eapply steps_cont; [cbn zeta; by rewrite H0|].
    apply IH. split; [exact Hok|]. intros j Hj. apply (Hfail (S j)). lia.
Qed.

(** As soon as an attempt succeeds the loader is in memory and is entered. *)
Lemma boot_start_ok b x k :
  Z.of_nat k < 2 ^ 32 → succeeds_at int13 (b, boot_setup x) k →
  ∃ b' x', boot_start int13 b x = Ok (b', x', LOADER_ADDR) ∧
    booting_from (m_mem x) x' ∧ loader_read (m_mem x').
Proof using Hbios.
  intros Hk Hs. pose proof (setup_booting x) as Hset. pose proof (boot_steps _ k Hs) as Hst.
  assert (attempts int13 (S k) (b, boot_setup x) =
    read_loader int13 (attempts int13 k (b, boot_setup x))) as Elast.
  { clear. generalize (b, boot_setup x). induction k as [|k IH]; intros s; [done|].
    cbn [attempts] in *. apply IH. }
  set (s' := attempts int13 (S k) (b, boot_setup x)) in *. exists s'.1, s'.2. split_and!.
  - unfold boot_start. change (2 ^ 32) with 0x100000000 in Hk.
    erewrite cwhile_steps; [|exact Hst|lia]. by rewrite (surjective_pairing s') at 1.
  - by apply attempts_keep.
  - rewrite Elast. apply (attempt_reads (m_mem x)); [by apply attempts_keep|]. rewrite <- Elast. apply Hs.
Qed.
End boot_facts.

(** ** The stack of simple_switch *)

Lemma push_saved_stack x sp ws :
  regs_wf (x_regs x) → 16 <= sp → stack x sp ws →
  stack (push_saved x) (sp - 16)
    (r_edi (x_regs x) :: r_esi (x_regs x) :: r_ebx (x_regs x) :: r_ebp (x_regs x) :: ws).
Proof.
  intros Hwf Hsp Hst. pose proof Hst as [<- _]. regs_facts Hwf. unfold push_saved.
  replace (r_esp (x_regs x)) with (r_esp (x_regs x) - 16 + 4 + 4 + 4 + 4) in Hst by lia.
  repeat (apply push_stack; [|done|lia..]). exact Hst.
Qed.
Lemma push_saved_outside x :
  regs_wf (x_regs x) → 16 <= r_esp (x_regs x) →
  keeps_outside (r_esp (x_regs x) - 16) (r_esp (x_regs x)) (x_mem x) (x_mem (push_saved x)).
Proof.
  intros Hwf Hsp a Ha. regs_facts Hwf. unfold push_saved, push.
  cbn -[Z.pow Z.add Z.sub Z.mul u32 store32]. sp_norm. by rewrite !load8_store32_ne by lia.
Qed.

(** simple_switch goes on with the registers on the stack it is given. *)
Definition switch_frame (r : regs) (ret : Z) : list Z := [r_edi r; r_esi r; r_ebx r; r_ebp r; ret].
(** What it writes: four words below its stack pointer, and the pointer
    [from]. *)
Definition switch_apart (x : xstate) (a : Z) : Prop :=
  disjoint_ranges (r_esp (x_regs x) - 16) 16 a 20 ∧ disjoint_ranges (top x 1) 4 a 20.

Lemma switch_frame_regs m ws to r ret :
  words_at m to (switch_frame r ret) → to + 20 < 2 ^ 32 → 0 <= to →
  x_regs (pop_saved (X (with_esp to ws) m)) =
    Regs (r_eax ws) (r_ecx ws) (r_edx ws) (r_ebx r) (to + 20) (r_ebp r) (r_esi r) (r_edi r)
      (r_ds ws) (r_es ws) (r_fs ws) (r_gs ws) ret (r_cs ws) (r_flags ws).
Proof.
  change (2 ^ 32) with 0x100000000. intros Hw H1 H2.
  set (y := X (with_esp to ws) m).
  assert (stack y to (switch_frame r ret)) as Hst by done.
  unfold pop_saved.
  rewrite (top_stack y to _ 0 _ Hst eq_refl : top y 0 = _), (top_stack y to _ 1 _ Hst eq_refl : top y 1 = _),
    (top_stack y to _ 2 _ Hst eq_refl : top y 2 = _), (top_stack y to _ 3 _ Hst eq_refl : top y 3 = _),
    (top_stack y to _ 4 _ Hst eq_refl : top y 4 = _).
  cbn [x_regs y with_esp r_esp]. by rewrite u32_small by lia.
Qed.

(** The registers and the memory after a switch. *)
Lemma simple_switch_to x r ret :
  regs_wf (x_regs x) → 16 <= r_esp (x_regs x) → 0 <= top x 2 → top x 2 + 20 < 2 ^ 32 →
  words_at (x_mem x) (top x 2) (switch_frame r ret) → switch_apart x (top x 2) →
  let x0 := x_regs x in
  let x' := simple_switch x in
  x_regs x' = Regs (top x 1) (r_ecx x0) (top x 2) (r_ebx r) (top x 2 + 20) (r_ebp r) (r_esi r) (r_edi r)
    (r_ds x0) (r_es x0) (r_fs x0) (r_gs x0) ret (r_cs x0) (r_flags x0) ∧
  load32 (x_mem x') (top x 1) = r_esp x0 - 16 ∧
  (disjoint_ranges (r_esp x0 - 16) 20 (top x 1) 4 →
    words_at (x_mem x') (r_esp x0 - 16) (switch_frame x0 (top x 0))) ∧
  ∀ a, (a < r_esp x0 - 16 ∨ r_esp x0 <= a) → (a < top x 1 ∨ top x 1 + 4 <= a) →
    load8 (x_mem x') a = load8 (x_mem x) a.
Proof.
  intros Hwf Hsp Hto0 Hto Hw [Hd1 Hd2] x0 x'. unfold disjoint_ranges in *. fold x0 in Hsp, Hd1.
  assert (x' = pop_saved (X (with_esp (top x 2) (x_regs (push_saved (switch_args x))))
    (store32 (x_mem (push_saved (switch_args x))) (top x 1) (r_esp (x_regs (push_saved (switch_args x)))))))
    as Ex by (by unfold x', simple_switch).
  clearbody x'. subst x'. set (y := switch_args x).
  assert (regs_wf (x_regs y)) as Hwfy.
  { pose proof (load32_bound (x_mem x) (r_esp x0 + 4 * 1)) as B1.
    pose proof (load32_bound (x_mem x) (r_esp x0 + 4 * 2)) as B2.
    destruct Hwf as [Hw1 Hw2]. split; [|exact Hw2]. rewrite !Forall_cons in *. cbn. tauto. }
  pose proof (push_saved_outside y Hwfy Hsp) as Ho.
  change (r_esp (x_regs y)) with (r_esp x0) in Ho. change (x_mem y) with (x_mem x) in Ho.
  assert (stack y (r_esp x0) [top x 0]) as Hs0.
  { split; [done|]. split; [|done]. unfold top. cbn. by rewrite Z.add_0_r. }
  pose proof (push_saved_stack y _ _ Hwfy Hsp Hs0) as [Hsp' Hws].
  set (m := store32 (x_mem (push_saved y)) (top x 1) (r_esp (x_regs (push_saved y)))).
  assert (0 <= r_esp x0 < 2 ^ 32) as Hb by (clear - Hwf; subst x0; regs_facts Hwf; done).
  change (2 ^ 32) with 0x100000000 in *. clear Hwfy.
  split_and!.
  - rewrite (switch_frame_regs m _ _ r ret); [done| |done..].
    apply (words_at_ext (x_mem x)); [|done]. cbn [switch_frame length]. intros a Ha.
    unfold m. rewrite load8_store32_ne by lia. apply Ho. lia.
  - change (load32 m (top x 1) = r_esp x0 - 16). unfold m.
    rewrite load32_store32, Hsp', u32_small; [done|]. lia.
  - intros Hd. change (words_at m (r_esp x0 - 16) (switch_frame x0 (top x 0))).
    apply (words_at_ext (x_mem (push_saved y))); [|exact Hws].
    cbn [switch_frame length]. intros a Ha. unfold m. apply load8_store32_ne. lia.
  - intros a H1 H2. change (load8 m a = load8 (x_mem x) a). unfold m.
    rewrite load8_store32_ne by lia. by apply Ho.
Qed.

(** ** The loader's entry and the kernel's *)

Section entry_facts.
Context `{Platform}.

(** The registers protect_entry leaves. *)
Definition flat_regs (r : regs) : regs :=
  Regs (set_low (r_eax r) 16) (r_ecx r) (r_edx r) (r_ebx r) (r_esp r) (r_ebp r) (r_esi r) (r_edi r)
    16 16 16 16 (symbol "load_kernel") 8 (r_flags r).
Lemma protect_entry_ok p :
  p_gdt p = row_desc <$> loader_gdt →
  protect_entry p =
    Some (Proc (TCtx (flat_regs (c_regs (p_ctx p))) 16) (p_tr p) (p_gdt p) (p_mem p), symbol "load_kernel").
Proof.
  intros Hg. unfold protect_entry. rewrite set_low_u16, Hg. change (u16 16) with 16.
  assert (data_ok (row_desc <$> loader_gdt) 16 && stack_ok (row_desc <$> loader_gdt) 16 &&
    code_ok (row_desc <$> loader_gdt) 8 = true) as -> by (vm_compute; reflexivity).
  done.
Qed.

Lemma push_u32 v x sp ws :
  stack x (sp + 4) ws → 0 <= sp → sp + 4 < 2 ^ 32 → stack (push v x) sp (u32 v :: ws).
Proof.
  change (2 ^ 32) with 0x100000000. intros [Hsp Hw] H0 H1. unfold stack, push.
  cbn [x_regs x_mem with_esp r_esp]. rewrite Hsp, u32_small by lia. replace (sp + 4 - 4) with sp by lia.
  split; [done|]. split; [apply load32_store32|]. by apply words_at_store.
Qed.

(** The words on the stack when kernel_init is entered. *)
Lemma start_enter_stack entry boot_info back r m :
  0 <= boot_info < 2 ^ 32 → 16 <= r_esp r < 2 ^ 32 →
  let x1 := start_enter (call_kernel entry boot_info back (X r m)) in
  stack x1 (r_esp r - 16) [u32 (symbol "_start.returned"); boot_info; u32 back; boot_info] ∧
  keeps_outside (r_esp r - 16) (r_esp r) m (x_mem x1).
Proof.
  intros Hb Hsp x1. set (x := call_kernel entry boot_info back (X r m)).
  pose proof (push_u32 boot_info (X r m) (r_esp r - 4) []) as P1.
  replace (r_esp r - 4 + 4) with (r_esp r) in P1 by lia.
  specialize (P1 (conj eq_refl I) ltac:(lia) ltac:(lia)). rewrite (u32_small boot_info) in P1 by done.
  replace (r_esp r - 4) with (r_esp r - 8 + 4) in P1 by lia.
  assert (stack x (r_esp r - 8) [u32 back; boot_info]) as Hx
    by (apply stack_ctl, push_u32; [exact P1|lia..]).
  pose proof (top_stack x _ _ 1 _ Hx eq_refl : top x 1 = boot_info) as Ht. split.
  - unfold x1, start_enter. fold x. rewrite Ht. apply stack_ctl, push_u32; [|lia..].
    cbn [x_regs with_eax r_eax]. apply push_stack; [|done|lia..].
    replace (r_esp r - 16 + 4 + 4) with (r_esp r - 8) by lia. exact Hx.
  - intros a Ha. unfold x1, start_enter. fold x. rewrite Ht. unfold x, call_kernel, call_at, jump, push.
    cbn -[Z.pow Z.add Z.sub Z.mul u32 store32]. change (2 ^ 32) with 0x100000000 in *. sp_norm.
    by rewrite !load8_store32_ne by lia.
Qed.

End entry_facts.

(** ** Properties *)

(** C36: The boot sector, with a BIOS that reads sectors as documented: as soon
    as an attempt succeeds it jumps to the loader with the segment registers
    zero and the stack below itself; sectors 1 to 64 of the first hard disk
    fill memory from 0x8000 to 0xFFFF, which is up to the kernel's first
    sector; the memory from the boot sector up to the loader, 0x7C00 to
    0x7FFF, and from 0x10000 up to 0x7FFFF is untouched. (Below its stack and
    above 0x80000 the BIOS may write, and the other registers are its to
    change.) If no attempt ever succeeds the boot sector never leaves its
    loop. *)
Theorem boot_start_correct {B} (int13 : B → rmode → B * rmode) heads per_track drives b x :
  int13_read int13 heads per_track drives →
  (∀ k, Z.of_nat k < 2 ^ 32 → succeeds_at int13 (b, boot_setup x) k →
    ∃ b' x', boot_start int13 b x = Ok (b', x', LOADER_ADDR) ∧
      m_ds x' = 0 ∧ m_ss x' = 0 ∧ m_es x' = 0 ∧ m_fs x' = 0 ∧ m_gs x' = 0 ∧
      u16 (m_esp x') = BOOT_ADDR ∧
      (∀ i, 0 <= i < 64 * 256 →
        load16 (m_mem x') (LOADER_ADDR + 2 * i) = u16 (drives 0x80 (1 * 256 + i))) ∧
      1 + 64 = KERNEL_BEGIN_SECTOR ∧ LOADER_ADDR + LOADER_MAX_SIZE = 0x10000 ∧
      ∀ a, BOOT_ADDR <= a < LOADER_ADDR ∨ 0x10000 <= a < 0x80000 →
        load8 (m_mem x') a = load8 (m_mem x) a) ∧
  ((∀ k, m_cf (attempts int13 (S k) (b, boot_setup x)).2 = true) → boot_start int13 b x = Err KLoop).
Proof.
  intros Hbios. split.
  - intros k Hk Hs. destruct (boot_start_ok int13 heads per_track drives Hbios b x k Hk Hs)
      as (b' & x' & E & [(H1 & H2 & H3 & H4 & H5) H6 H7] & Hl).
    exists b', x'. split_and!; try done. intros a Ha. apply H7; unfold BOOT_ADDR, LOADER_ADDR, LOADER_MAX_SIZE in *; lia.
  - intros Hf. unfold boot_start.
    rewrite (cwhile_never _ (λ s, ∀ k, m_cf (attempts int13 (S k) s).2 = true)); [done| |exact Hf].
    intros s H. exists (read_loader int13 s). split; [|intros k; apply (H (S k))].
    cbn zeta. specialize (H 0%nat). cbn [attempts] in H. by rewrite H.
Qed.

(** A BIOS whose first read fails, for a disk of 255 heads and 63 sectors per
    track. *)
Definition demo_int13 (disk : Z → Z) (b : bool) (x : rmode) : bool * rmode :=
  let m := if b then stores (m_mem x) (asked_buffer x)
    (disk_bytes disk (asked_sector 255 63 x * 256) (256 * Z.to_nat (asked_count x))) else m_mem x in
  (true, RMode (m_eax x) (m_ebx x) (m_ecx x) (m_edx x) (m_esp x) (m_ds x) (m_ss x) (m_es x) (m_fs x)
    (m_gs x) (negb b) m).
Lemma demo_int13_read disk : int13_read (demo_int13 disk) 255 63 (λ _, disk).
Proof.
  split.
  - done.
  - done.
  - intros b x a _ _ Ho. unfold demo_int13. cbn [snd m_mem]. destruct b; [|done].
    assert (0 <= asked_count x) by (by apply Z.mod_pos_bound).
    apply load_stores_out. rewrite disk_bytes_len. unfold SECTOR_SIZE in Ho. lia.
  - intros b x k _ Hcf Hk. unfold demo_int13 in *. cbn [snd m_mem m_cf] in *.
    apply negb_false_iff in Hcf. subst b.
    pose proof (load16_disk disk (m_mem x) (asked_buffer x) (asked_sector 255 63 x * 256)
      (256 * Z.to_nat (asked_count x)) (Z.to_nat k) ltac:(lia)) as Hl.
    rewrite Z2Nat.id in Hl by lia. exact Hl.
Qed.

Lemma boot_start_correct_witness :
  ∃ b' x', boot_start (demo_int13 demo_disk) false (RMode 0xAA55 0 0 0x80 0x6F00 0 0 0 0 0 true ∅) =
      Ok (b', x', LOADER_ADDR) ∧ u16 (m_esp x') = BOOT_ADDR.
Proof.
  destruct (boot_start_correct (demo_int13 demo_disk) 255 63 (λ _, demo_disk) false
    (RMode 0xAA55 0 0 0x80 0x6F00 0 0 0 0 0 true ∅) (demo_int13_read demo_disk)) as [H _].
  destruct (H 1%nat) as (b' & x' & E & _ & _ & _ & _ & _ & Hs & _).
  - done.
  - split; [exact eq_refl|]. intros [|j] Hj; [exact eq_refl|lia].
  - exists b', x'. split; [exact E|exact Hs].
Defined.

(** simple_switch is a coroutine switch: the caller [x] resumes the task
    whose stack it is given, with that task's callee-saved registers and return
    address; when another caller [y] gives it the pointer [x] has stored, and
    the 20 bytes there are as they were, the call of [x] returns to its caller
    with its stack pointer and its callee-saved registers as they were. *)
Theorem simple_switch_resumes x y r ret :
  regs_wf (x_regs x) → 16 <= r_esp (x_regs x) < 2 ^ 32 - 4 →
  0 <= top x 2 → top x 2 + 20 < 2 ^ 32 →
  words_at (x_mem x) (top x 2) (switch_frame r ret) → switch_apart x (top x 2) →
  disjoint_ranges (r_esp (x_regs x) - 16) 20 (top x 1) 4 →
  let x' := simple_switch x in
  let sp := r_esp (x_regs x) in
  switch_frame (x_regs x') (r_eip (x_regs x')) = switch_frame r ret ∧
  r_esp (x_regs x') = top x 2 + 20 ∧
  (regs_wf (x_regs y) → 16 <= r_esp (x_regs y) →
   top y 2 = load32 (x_mem x') (top x 1) →
   (∀ a, sp - 16 <= a < sp + 4 → load8 (x_mem y) a = load8 (x_mem x') a) →
   switch_apart y (sp - 16) →
   let y' := simple_switch y in
   switch_frame (x_regs y') (r_eip (x_regs y')) = switch_frame (x_regs x) (top x 0) ∧
   r_esp (x_regs y') = sp + 4 ∧ load32 (x_mem y') (top y 1) = r_esp (x_regs y) - 16).
Proof.
  change (2 ^ 32) with 0x100000000. intros Hwf Hsp H1 H2 Hw Ha Hd x' sp.
  destruct (simple_switch_to x r ret) as (Er & El & Hf & _); [done|lia|done|done|done|done|].
  specialize (Hf Hd). fold x' in Er, El, Hf. fold sp in El, Hf. rewrite Er.
  split; [done|]. split; [done|]. intros Hwfy Hspy Ht Hm Hay y'. rewrite El in Ht.
  destruct (simple_switch_to y (x_regs x) (top x 0)) as (Er' & El' & _); rewrite ?Ht;
    [done|done|lia|lia| |done|].
  - apply (words_at_ext (x_mem x')); [|exact Hf]. cbn [switch_frame length]. intros a Hr. apply Hm. lia.
  - fold y' in Er', El'. rewrite Er'. split; [done|]. split; [cbn [r_esp]; lia|done].
Qed.

Lemma simple_switch_resumes_witness :
  let x := X demo_regs (store32 (store32 (store32 ∅ 0x9000 0x10500) 0x9004 0x30000) 0x9008 0xA000) in
  let x' := simple_switch x in
  r_esp (x_regs x') = 0xA014 ∧
  let y := X (with_esp 0xA010 (x_regs x'))
    (store32 (store32 (store32 (x_mem x') 0xA010 0x10600) 0xA014 0x30004) 0xA018 0x8FF0) in
  r_esp (x_regs (simple_switch y)) = 0x9004.
Proof.
  intros x x'.
  destruct (simple_switch_resumes x (X (with_esp 0xA010 (x_regs x'))
    (store32 (store32 (store32 (x_mem x') 0xA010 0x10600) 0xA014 0x30004) 0xA018 0x8FF0))
    (Regs 0 0 0 0 0 0 0 0 0 0 0 0 0 0 0) 0) as (_ & Hsp & Hy).
  - split; apply (bool_decide_unpack _); vm_compute; reflexivity.
  - split; vm_compute; congruence.
  - vm_compute; congruence.
  - vm_compute; congruence.
  - unfold switch_frame, words_at. split_and!; vm_compute; reflexivity.
  - split; apply (bool_decide_unpack _); vm_compute; reflexivity.
  - apply (bool_decide_unpack _); vm_compute; reflexivity.
  - split; [exact Hsp|]. apply Hy.
    + split; apply (bool_decide_unpack _); vm_compute; reflexivity.
    + vm_compute; congruence.
    + vm_compute; reflexivity.
    + intros a Ha. change (r_esp (x_regs x)) with 0x9000 in Ha.
      fold x'. clearbody x'. cbn [x_mem]. by rewrite !load8_store32_ne by lia.
    + split; apply (bool_decide_unpack _); vm_compute; reflexivity.
Defined.
