(* ===== verification/Chain.v ===== *)
(** * From power on to the first task

    The boot sector, the 16-bit loader, the 32-bit loader and the entry of the
    kernel, one after the other on one memory: the memory map the BIOS gives
    travels with them, and what the kernel finds is enough for it to start. *)

From S2P Require Import Prelude Mem DList Klib Machine Irq Sched SchedSpec SchedOps Mutex Sem Cpu TaskInit Log Timer Init System Boot.
From S2P Require Import Elf Loader32 Loader16 Stub Tss Startup.

(** ** boot_info in memory (comm/types.h) *)

Definition sizeof_boot_info : Z := 4 * 21.

(** The words of the structure: ten pairs, then the count. *)
Definition info_words (b : boot_info_t) : list Z :=
  (ram_regions b ≫= λ r, [start r; size r]) ++ [Loader16.count b].
Fixpoint put_words (m : mem) (a : Z) (ws : list Z) : mem :=
  match ws with
  | [] => m
  | w :: ws => put_words (store32 m a w) (a + 4) ws
  end.
Definition get_region (m : mem) (a : Z) (i : nat) : ram_region_info :=
  Region (load32 m (a + 8 * Z.of_nat i)) (load32 m (a + 8 * Z.of_nat i + 4)).
Definition get_boot_info (m : mem) (a : Z) : boot_info_t :=
  BootInfo (get_region m a <$> seq 0 10) (i32 (load32 m (a + 80))).
Definition put_boot_info (m : mem) (a : Z) (b : boot_info_t) : mem := put_words m a (info_words b).

Lemma put_words_out m a ws x :
  x < a ∨ a + 4 * len ws <= x → load8 (put_words m a ws) x = load8 m x.
Proof.
  revert m a. induction ws as [|w ws IH]; intros m a Hx; [done|]. cbn [put_words length] in *.
  rewrite IH by lia. apply load8_store32_ne. lia.
Qed.
Lemma load32_same m m' a :
  (∀ x, a <= x < a + 4 → load8 m' x = load8 m x) → load32 m' a = load32 m a.
Proof. intros Hx. unfold load32, load16. by rewrite !Hx by lia. Qed.
Lemma put_words_at m a ws (i : nat) w :
  ws !! i = Some w → load32 (put_words m a ws) (a + 4 * Z.of_nat i) = u32 w.
Proof.
  revert m a i. induction ws as [|v ws IH]; intros m a i Hi; [done|]. cbn [put_words].
  destruct i as [|i]; cbn in Hi.
  - injection Hi as ->. rewrite Z.mul_0_r, Z.add_0_r, <- (load32_store32 m a w).
    apply load32_same. intros x Hx. apply put_words_out. lia.
  - rewrite <- (IH (store32 m a v) (a + 4) i Hi). f_equal. lia.
Qed.

(** A region is two words of the structure. *)
Lemma region_words (rs : list ram_region_info) (i : nat) r ws :
  rs !! i = Some r →
  ((rs ≫= λ r, [start r; size r]) ++ ws) !! (2 * i)%nat = Some (start r) ∧
  ((rs ≫= λ r, [start r; size r]) ++ ws) !! (2 * i + 1)%nat = Some (size r).
Proof.
  revert i. induction rs as [|q rs IH]; intros i Hi; [done|]. cbn [mbind list_bind].
  destruct i as [|i]; cbn in Hi; [by injection Hi as ->|].
  replace (2 * S i)%nat with (S (S (2 * i))) by lia. cbn [Nat.add app lookup list_lookup]. by apply IH.
Qed.
Lemma regions_length (rs : list ram_region_info) : length (rs ≫= λ r, [start r; size r]) = (2 * length rs)%nat.
Proof. induction rs as [|q rs IH]; [done|]. cbn [mbind list_bind app length] in *. lia. Qed.

(** What is read back is the structure, its words cut to their width. *)
Definition cut (r : ram_region_info) : ram_region_info := Region (u32 (start r)) (u32 (size r)).
Lemma get_put_info m a b :
  length (ram_regions b) = 10%nat →
  get_boot_info (put_boot_info m a b) a = BootInfo (cut <$> ram_regions b) (i32 (Loader16.count b)).
Proof.
  intros Hl. unfold get_boot_info. destruct b as [rs n]. cbn [ram_regions Loader16.count] in *. f_equal.
  - apply list_eq. intros i. rewrite !list_lookup_fmap. destruct (rs !! i) as [r|] eqn:E.
    + pose proof (lookup_lt_Some _ _ _ E) as Hi. rewrite lookup_seq_lt by lia. cbn [fmap option_fmap option_map Nat.add].
      destruct (region_words rs i r [n] E) as [H1 H2].
      apply (put_words_at m a) in H1, H2. unfold get_region, put_boot_info, info_words, cut. cbn [ram_regions Loader16.count].
      replace (a + 4 * Z.of_nat (2 * i)) with (a + 8 * Z.of_nat i) in H1 by lia.
      replace (a + 4 * Z.of_nat (2 * i + 1)) with (a + 8 * Z.of_nat i + 4) in H2 by lia.
      by rewrite H1, H2.
    + apply lookup_ge_None in E. by rewrite lookup_seq_ge by lia.
  - unfold put_boot_info, info_words. cbn [ram_regions Loader16.count].
    assert (((rs ≫= λ r, [start r; size r]) ++ [n]) !! 20%nat = Some n) as Hn.
    { rewrite lookup_app_r by (rewrite regions_length; lia). by rewrite regions_length, Hl. }
    apply (put_words_at m a) in Hn. change (a + 4 * Z.of_nat 20) with (a + 80) in Hn. rewrite Hn.
    unfold i32, u32. Z.to_euclidean_division_equations. lia.
Qed.

(** The regions recorded are those read back. *)
Definition region_wf (r : ram_region_info) : Prop := 0 <= start r < 2 ^ 32 ∧ 0 <= size r < 2 ^ 32.
Lemma cut_wf rs : Forall region_wf rs → cut <$> rs = rs.
Proof.
  change (2 ^ 32) with 0x100000000. induction 1 as [|[st sz] rs [H1 H2] _ IH]; [done|].
  cbn [fmap list_fmap]. f_equal; [|exact IH]. unfold cut. cbn [start size] in *. by rewrite !u32_small.
Qed.
Lemma holds_put m a b rs :
  holds_regions b rs → Forall region_wf rs → len rs <= INT_MAX →
  holds_regions (get_boot_info (put_boot_info m a b) a) rs.
Proof.
  intros (Hc & Hl & Ht) Hw Hn. rewrite get_put_info by done. unfold holds_regions. cbn [ram_regions Loader16.count].
  rewrite length_fmap, <- fmap_take, Ht, cut_wf by done. split_and!; [|done|done].
  rewrite Hc. apply i32_small. unfold INT_MIN. lia.
Qed.
Lemma get_info_same m m' a :
  (∀ x, a <= x < a + sizeof_boot_info → load8 m' x = load8 m x) → get_boot_info m' a = get_boot_info m a.
Proof.
  unfold sizeof_boot_info. intros Hx. unfold get_boot_info. f_equal.
  - apply list_fmap_ext. intros i j Hj. apply lookup_seq in Hj as [-> Hi]. unfold get_region.
    f_equal; apply load32_same; intros x Hr; apply Hx; lia.
  - f_equal. apply load32_same. intros x Hr. apply Hx. lia.
Qed.
Lemma get_info_length m a : length (ram_regions (get_boot_info m a)) = 10%nat.
Proof. cbn. done. Qed.

(** ** Entries of the BIOS *)

Definition entry_wf (p : Z * SMAP_entry_t) : Prop :=
  0 <= BaseL p.2 < 2 ^ 32 ∧ 0 <= LengthL p.2 < 2 ^ 32.
Lemma usable_wf l : Forall entry_wf l → Forall region_wf (usable_regions l).
Proof.
  intros Hl. unfold usable_regions. apply Forall_fmap, Forall_forall. intros p [_ Hp]%list_elem_of_filter.
  exact (proj1 (Forall_forall _ _) Hl p Hp).
Qed.

(** ** The way from power on to kernel_init *)

Section chain.
Context `{Platform}.
(** The BIOS, its disks as 16-bit words, and the ports of the drive. *)
Context {B : Type} (int13 : B → rmode → B * rmode) (heads per_track : Z) (drives : Z → Z → Z).
Context (bios : int15_request → e820_reply) (dev_inb dev_inw : list lio → Z → Z).

Definition boot_info : Z := symbol "boot_info".

(** The machine the processor is when it enters protected mode: the table of
    the loader, and the registers load_kernel is entered with. *)
Definition protected (regs : regs) (ss : Z) (m : mem) : proc :=
  Proc (TCtx regs ss) 0 (row_desc <$> loader_gdt) m.

(** boot/start.S, loader16.c and loader32.c, each entered where the one before
    jumps to, up to the entry of the kernel; [None]: it is not reached.
    The registers at the switch to protected mode are whatever loader16.c
    leaves, [b0] is the state of the BIOS and [garbage] the stack. *)
Definition power_on (b0 : B) (x0 : rmode) (garbage : SMAP_entry_t) (r : real_mode) (regs : regs) (ss back : Z)
    : option xstate :=
  match boot_start int13 b0 x0 with
  | Ok (_, x, addr) =>
      if addr =? LOADER_ADDR then
        match loader16_entry bios (get_boot_info (m_mem x) boot_info) garbage "" r with
        | inr (info, _, (_, (cs, eip))) =>
            let p := protected (with_ctl eip cs (r_flags regs) regs) ss (put_boot_info (m_mem x) boot_info info) in
            if code_ok (p_gdt p) cs then
              match protect_entry p with
              | Some (p, _) =>
                  match load_kernel dev_inb dev_inw (LState (p_mem p) []) with
                  | Ok (s, Some entry) =>
                      Some (call_kernel entry boot_info back (X (c_regs (p_ctx p)) (l_mem s)))
                  | _ => None
                  end
              | None => None
              end
            else None
        | inl _ => None
        end
      else None
  | Err _ => None
  end.

(** The disk holds a kernel: from sector 65 on an ELF file whose segments are
    above the loader, with the names of the first tasks in them. *)
Record kernel_on_disk (disk : Z → Z) (entry : Z) (segs : list (Z * list Z)) : Prop := {
  kd_elf : ∀ m, elf_file (kernel_file disk m) SYS_KERNEL_LOAD_ADDR kernel_file_len;
  kd_entry : ∀ m, e_entry (kernel_file disk m) SYS_KERNEL_LOAD_ADDR = entry;
  kd_starts : entry ≠ 0;
  kd_segs : ∀ m, segments (kernel_file disk m) SYS_KERNEL_LOAD_ADDR = segs;
  kd_above : Forall (λ p, 0x10000 <= p.1) segs;
  kd_names : ∀ m, Forall (λ n, 0x10000 <= literal n ∧
    cstr_at (place m segs) (literal n) (bytes_of n)) names
}.

(** The global objects of the kernel exist: [boot_image], whatever is in the
    memory but the names. *)
Definition objects_exist (s : kstate) : Prop :=
  ∀ m, Forall (λ n, cstr_at m (literal n) (bytes_of n)) names → boot_image (with_mem m s).

Context (Hbios : int13_read int13 heads per_track drives).
Context (capacity : Z) (Hata : kernel_drive dev_inb dev_inw (drives 0x80) capacity []).
Context (ids : list Z) (l : list (Z * SMAP_entry_t)) (Hserves : serves bios ids l).
Context (Hl : l ≠ [] ∧ len l < 2 ^ 32 ∧ Forall entry_wf l) (Hlast : last_kept l = true).
Context (entry : Z) (segs : list (Z * list Z)) (Hdisk : kernel_on_disk (drives 0x80) entry segs).
Context (Hinfo : LOADER_ADDR <= boot_info ∧ boot_info + sizeof_boot_info <= 0x10000).

#[local] Opaque place.

(** The memory map survives the 32-bit loader and the stack below the boot
    sector. *)
Lemma info_survives m m1 sp :
  sp <= BOOT_ADDR → keeps_outside (sp - 16) sp (place (kernel_file (drives 0x80) m) segs) m1 →
  get_boot_info m1 boot_info = get_boot_info m boot_info.
Proof using Hdisk Hinfo.
  clear capacity Hata Hl Hlast Hserves. unfold BOOT_ADDR. intros Hsp Hk. destruct Hinfo as [Hi1 Hi2]. unfold LOADER_ADDR, sizeof_boot_info in Hi1, Hi2. apply get_info_same.
  unfold sizeof_boot_info. intros x Hx. rewrite Hk by lia. rewrite place_out.
  - unfold kernel_file. apply load_stores_out. left. unfold SYS_KERNEL_LOAD_ADDR. lia.
  - intros p Hp. left. pose proof (proj1 (Forall_forall _ _) (kd_above _ _ _ Hdisk) p Hp) as Ha. cbn in Ha. lia.
Qed.

(** The usable regions the BIOS reports, at most nine, reach the kernel. *)
Definition memory_map : list ram_region_info := take 9 (usable_regions l).
Lemma map_found b garbage r text :
  length (ram_regions b) = 10%nat →
  ∃ info text', loader16_entry bios b garbage text r = inr (info, text', enter_protect_mode r) ∧
    ∀ m a, holds_regions (get_boot_info (put_boot_info m a info) a) memory_map.
Proof using Hserves Hl Hlast.
  intros Hb. destruct Hl as (Hne & Hlen & Hwf).
  destruct (detect_memory_ok bios ids l b (show_msg msg_loading text) garbage Hserves Hne Hlast Hb Hlen)
    as (info & E & Hh).
  unfold loader16_entry. rewrite E. eexists _, _. split; [done|]. intros m a. apply holds_put; [done| |].
  - by apply Forall_take, usable_wf.
  - unfold memory_map. rewrite length_take. unfold INT_MAX. lia.
Qed.

(** load_kernel starts the kernel. *)
Lemma kernel_loaded m :
  ∃ tr, load_kernel dev_inb dev_inw (LState m []) =
    Ok (LState (place (kernel_file (drives 0x80) m) segs) tr, Some entry).
Proof using Hata Hdisk.
  destruct (load_kernel_ok dev_inb dev_inw (drives 0x80) capacity (LState m []) Hata) as (tr & E).
  - apply (kd_elf _ _ _ Hdisk).
  - cbn [l_mem]. rewrite (kd_entry _ _ _ Hdisk). apply (kd_starts _ _ _ Hdisk).
  - exists tr. cbn [l_mem] in E. by rewrite (kd_segs _ _ _ Hdisk), (kd_entry _ _ _ Hdisk) in E.
Qed.

Lemma power_on_ok b0 x0 k garbage r regs ss back :
  Z.of_nat k < 2 ^ 32 → succeeds_at int13 (b0, boot_setup x0) k → 16 <= r_esp regs <= BOOT_ADDR →
  ∃ x, power_on b0 x0 garbage r regs ss back = Some x ∧ r_eip (x_regs x) = entry ∧
    let x1 := start_enter x in
    r_eip (x_regs x1) = symbol "kernel_init" ∧ r_cs (x_regs x1) = 8 ∧
    Forall (λ sel, sel = 16) [r_ds (x_regs x1); r_es (x_regs x1); r_fs (x_regs x1); r_gs (x_regs x1)] ∧
    stack x1 (r_esp regs - 16) [u32 (symbol "_start.returned"); boot_info; u32 back; boot_info] ∧
    holds_regions (get_boot_info (x_mem x1) boot_info) memory_map ∧
    Forall (λ n, cstr_at (x_mem x1) (literal n) (bytes_of n)) names.
Proof using Type*.
  intros Hk Hs Hsp. destruct (boot_start_ok int13 heads per_track drives Hbios b0 x0 k Hk Hs)
    as (b' & x' & E & _ & _).
  unfold power_on. rewrite E. cbn zeta. rewrite Z.eqb_refl. 
  destruct (map_found (get_boot_info (m_mem x') boot_info) garbage r "" (get_info_length _ _))
    as (info & text & -> & Hinf). cbn beta iota. unfold enter_protect_mode. cbn beta iota zeta.
  assert (code_ok (row_desc <$> loader_gdt) 8 = true) as Hcs by (vm_compute; reflexivity).
  cbn [p_gdt protected]. rewrite Hcs, protect_entry_ok by done. cbn [p_ctx protected p_mem c_regs].
  set (m := put_boot_info (m_mem x') boot_info info).
  destruct (kernel_loaded m) as (tr & ->). cbn [l_mem].
  set (m2 := place (kernel_file (drives 0x80) m) segs).
  destruct (start_enter_stack entry boot_info back (flat_regs (with_ctl (symbol "protect_entry") 8 (r_flags regs) regs)) m2)
    as [Hst Hout].
  { unfold LOADER_ADDR, sizeof_boot_info in *. lia. }
  { unfold BOOT_ADDR in Hsp. cbn [flat_regs with_ctl r_esp]. lia. }
  cbn [flat_regs with_ctl r_esp] in Hst, Hout. eexists. split; [done|]. split; [done|]. split; [done|]. split; [done|].
  split; [by repeat constructor|]. split; [exact Hst|]. split.
  - rewrite (info_survives m _ (r_esp regs)); [apply Hinf|lia|exact Hout].
  - pose proof (kd_names _ _ _ Hdisk (kernel_file (drives 0x80) m)) as Hn. fold m2 in Hn.
    eapply Forall_impl; [exact Hn|]. intros n [Hlo Hc]. eapply cstr_at_same; [|exact Hc].
    intros x Hx. apply Hout. unfold BOOT_ADDR in Hsp. lia.
Qed.
End chain.

(** ** Property *)

Section chain_property.
Context `{Platform}.

(** C37: From power on to the first task. The disk holds the boot sector, the
    loader and an ELF file of the kernel; the BIOS reads sectors and enumerates
    the memory as documented, and the last entry it enumerates is not one that
    detect_memory ignores; the drive obeys the protocol of READ SECTORS EXT,
    is idle when the 32-bit loader starts and has the sectors of the kernel;
    boot_info is in the 32 KB the loader is read to, the loader's stack is not
    above the boot sector, and the kernel's stack is within the address space;
    and some attempt of the boot sector succeeds. Then the boot sector, the two
    halves of the loader and _start lead to kernel_init, with flat segments;
    its argument is the address of the memory map, which holds the usable
    regions the BIOS has reported, at most nine, and which neither the file nor
    the segments nor the stack have overwritten. From the memory it finds, and
    its global objects with any contents, the kernel starts: kernel_init and
    the start of init_main end with the first tasks in a state of the abstract
    kernel, and after kernel_init _start goes to init_main on the kernel's own
    stack. *)
Theorem kernel_powered_on {B} (int13 : B → rmode → B * rmode) heads per_track drives bios dev_inb dev_inw
    capacity ids l entry segs b0 x0 k garbage r regs ss back :
  int13_read int13 heads per_track drives → kernel_drive dev_inb dev_inw (drives 0x80) capacity [] →
  serves bios ids l → l ≠ [] ∧ len l < 2 ^ 32 ∧ Forall entry_wf l → last_kept l = true →
  kernel_on_disk (drives 0x80) entry segs →
  LOADER_ADDR <= boot_info ∧ boot_info + sizeof_boot_info <= 0x10000 →
  0 <= symbol "stack" < 2 ^ 32 - KERNEL_STACK_SIZE →
  Z.of_nat k < 2 ^ 32 → succeeds_at int13 (b0, boot_setup x0) k → 16 <= r_esp regs <= BOOT_ADDR →
  ∃ x, power_on int13 bios dev_inb dev_inw b0 x0 garbage r regs ss back = Some x ∧
    r_eip (x_regs x) = entry ∧
    let x1 := start_enter x in
    r_eip (x_regs x1) = symbol "kernel_init" ∧ r_cs (x_regs x1) = 8 ∧
    Forall (λ sel, sel = 16) [r_ds (x_regs x1); r_es (x_regs x1); r_fs (x_regs x1); r_gs (x_regs x1)] ∧
    holds_regions (get_boot_info (x_mem x1) (top x1 1)) (take 9 (usable_regions l)) ∧
    (∀ s, k_mem s = x_mem x1 → objects_exist s →
      ∃ s', (kernel_init;; init_main_start) s = Done tt s' ∧ k_curr s' = main_task ∧
        sys_inv (boot_config s') y_start) ∧
    ∀ kernel_init, let x2 := kernel_start kernel_init x in
      r_eip (x_regs x2) = symbol "init_main" ∧ r_esp (x_regs x2) = symbol "stack" + KERNEL_STACK_SIZE ∧
      x_mem x2 = x_mem (kernel_init x1).
Proof.
  intros Hbios Hata Hs Hl Hlast Hd Hi Hst Hk Hok Hsp.
  destruct (power_on_ok int13 heads per_track drives bios dev_inb dev_inw Hbios capacity Hata ids l Hs Hl Hlast entry segs Hd Hi
    b0 x0 k garbage r regs ss back Hk Hok Hsp) as (x & E & He & Hip & Hcs & Hseg & Hstk & Hmap & Hn).
  exists x. split; [exact E|]. split; [exact He|]. intros x1. fold x1 in Hip, Hcs, Hseg, Hstk, Hmap, Hn. split; [exact Hip|]. split; [exact Hcs|]. split; [exact Hseg|].
  split; [|split].
  - by rewrite (top_stack _ _ _ 1 _ Hstk eq_refl : top x1 1 = boot_info).
  - intros s Hm Ho. apply boot_starts. specialize (Ho (x_mem x1) Hn). by rewrite <- Hm, with_mem_id in Ho.
  - intros kernel_init x2. split; [done|]. split; [|done]. apply u32_small. unfold KERNEL_STACK_SIZE in *. lia.
Qed.
End chain_property.
