(* ===== verification/Demo.v ===== *)
(** * A concrete image of the kernel

    An image on which the theorems about the whole kernel are tried: the
    global objects at the addresses of [demo_platform], their contents not
    initialised. *)

From S2P Require Import Prelude Mem DList Klib Machine Irq Sched SchedSpec SchedOps Mutex Sem Cpu.
From S2P Require Import TaskInit Log Report Panic Timer Init System Liveness Boot Queues Lines Create Stub Tss Program Elf Loader32 Loader16 Startup Chain.

#[local] Existing Instance demo_platform.

Definition blank_task : task_t := Task TASK_WAITTING 0 0 0 0.
(** A task object that is not created at boot. *)
Definition spare_task : Z := 0x26000.
Definition image_tasks : gmap Z task_t :=
  list_to_map ((λ t, (t, blank_task)) <$> first_tasks ++ [spare_task]).
Definition image_nodes : gmap Z list_node_t := list_to_map
  ((λ n, (n, ListNode 1 1)) <$> ((first_tasks ++ [spare_task]) ≫= λ t, [run_node t; all_node t; wait_node t])).
Definition image_lists : gmap Z list_t := list_to_map ((λ l, (l, List 1 1 1)) <$> headers).
Definition image_mem : mem :=
  foldl (λ m n, stores m (literal n) (bytes_of n ++ [0])) ∅ (names ++ [send_fmt; recv_fmt]).
Definition demo_image : kstate :=
  demo_kernel image_mem (LHeap image_nodes image_lists) image_tasks
    {[cpu_mutex := Mutex 7 7; log_mutex := Mutex 7 7]} {[notify_task_print := Sem 7]}.

Lemma image_task_in t : is_Some (image_tasks !! t) → t ∈ first_tasks ++ [spare_task].
Proof.
  intros [tk Ht]. apply elem_of_list_to_map_2 in Ht.
  apply list_elem_of_fmap in Ht as (u & [= -> _] & Hu). done.
Qed.
(** A fact about each of the tasks. *)
Lemma image_tasks_forall (P : Z → Prop) :
  Forall P (first_tasks ++ [spare_task]) → ∀ t, is_Some (image_tasks !! t) → P t.
Proof. intros HP t Ht%image_task_in. by apply (proj1 (Forall_forall _ _) HP). Qed.

Lemma demo_placed : tasks_placed image_tasks.
Proof.
  split.
  - apply image_tasks_forall. by apply (bool_decide_unpack _); vm_compute.
  - intros t u Ht Hu. apply image_task_in in Ht, Hu.
    assert (Forall (λ t, Forall (λ u, apart t u) (first_tasks ++ [spare_task])) (first_tasks ++ [spare_task])) as Ha.
    { unfold apart. by apply (bool_decide_unpack _); vm_compute. }
    rewrite Forall_forall in Ha. specialize (Ha t Ht). rewrite Forall_forall in Ha. auto.
Qed.

Lemma image_nodes_ok t :
  is_Some (image_tasks !! t) →
  is_Some (image_nodes !! run_node t) ∧ is_Some (image_nodes !! all_node t) ∧
  is_Some (image_nodes !! wait_node t).
Proof.
  revert t. apply image_tasks_forall. by apply (bool_decide_unpack _); vm_compute.
Qed.
Lemma image_names_ok : Forall (λ n, cstr_at image_mem (literal n) (bytes_of n)) names.
Proof.
  repeat (apply Forall_cons; split; [split; [by apply (bool_decide_unpack _)|vm_compute; done]|]).
  constructor.
Qed.

Lemma demo_image_ok : boot_image demo_image.
Proof.
  split.
  - done.
  - done.
  - by vm_compute.
  - by apply (bool_decide_unpack _); vm_compute.
  - by apply (bool_decide_unpack _); vm_compute.
  - by apply (bool_decide_unpack _); vm_compute.
  - by apply (bool_decide_unpack _); vm_compute.
  - by apply (bool_decide_unpack _); vm_compute.
  - by apply (bool_decide_unpack _); vm_compute.
  - by apply (bool_decide_unpack _); vm_compute.
  - apply demo_placed.
  - apply image_nodes_ok.
  - apply image_names_ok.
  - unfold disjoint_ranges. by apply (bool_decide_unpack _); vm_compute.
Qed.

(** ** The image after boot *)

Lemma demo_boots :
  ∃ s, (kernel_init;; init_main_start) demo_image = Done tt s ∧ booted demo_image s ∧
    sys_inv (boot_config s) y_start.
Proof.
  destruct (boot_ok demo_image demo_image_ok) as (s & E & Hbd). exists s. split_and!; [exact E|exact Hbd|].
  pose proof (boot_inv demo_image s demo_image_ok Hbd) as Hi.
  assert (y_boot s = y_start) as Hy.
  { unfold y_boot, sys_of, y_start. by rewrite (bd_mutexes _ _ Hbd), (bd_sems _ _ Hbd). }
  by rewrite Hy in Hi.
Qed.
Lemma demo_awf : awf a_boot.
Proof. apply (awf_boot demo_image), demo_image_ok. Qed.
Lemma demo_slices s : sys_inv (boot_config s) y_start → slice_positive s a_boot.
Proof. intros Hi. apply (core_slice_positive s a_boot (boot_contexts s)), (si_core _ _ Hi). Qed.

(** *** Kernel calls *)

Lemma kernel_boots_witness :
  ∃ s, (kernel_init;; init_main_start) demo_image = Done tt s ∧ k_curr s = main_task.
Proof.
  destruct (kernel_boots demo_image demo_image_ok) as (s & E & _ & _ & _ & _ & Hk).
  exists s. split; [exact E|exact Hk].
Defined.

Lemma yield_refines_witness :
  ∃ s, rcall s (sys_sched_yield s) (a_yield a_boot) (keeps_locks s) ∧
    a_curr (a_yield a_boot) = new_task.
Proof.
  destruct demo_boots as (s & _ & Hbd & _).
  destruct (yield_refines s a_boot (bd_rep _ _ Hbd) demo_awf) as (Hr & _ & Hn).
  exists s. split; [exact Hr|]. by apply (Hn main_task new_task []).
Defined.

Lemma sleep_refines_witness :
  ∃ s, rcall s (sys_sleep 1000 s) (a_sleep_for 101 a_boot) (keeps_locks s).
Proof.
  destruct demo_boots as (s & _ & Hbd & _).
  destruct (sleep_refines s a_boot 1000 (bd_rep _ _ Hbd) demo_awf) as (Hr & _); [done|done|].
  exists s. exact Hr.
Defined.

Lemma time_tick_refines_witness :
  ∃ s, rcall (slice_ticked s a_boot) (task_time_tick s) (a_tick (expired s a_boot) a_boot) (keeps_locks s).
Proof.
  destruct demo_boots as (s & _ & Hbd & Hi).
  destruct (time_tick_refines s a_boot (bd_rep _ _ Hbd) demo_awf (demo_slices s Hi)) as (Hr & _).
  exists s. exact Hr.
Defined.

Lemma timer_handler_correct_witness :
  ∃ s s1 a1, do_handler_timer s = outcome (eflags (k_cpu s)) s1 a1 ∧ k_sys_tick s1 = 1.
Proof.
  destruct demo_boots as (s & _ & Hbd & Hi).
  destruct (timer_handler_correct s a_boot (bd_rep _ _ Hbd) demo_awf (demo_slices s Hi))
    as (s1 & a1 & E & _ & _ & _ & Ht & _).
  exists s, s1, a1. split; [exact E|]. by rewrite Ht, (bd_tick _ _ Hbd).
Defined.

Lemma demo_mutex s : booted demo_image s → mutex_in_use s a_boot log_mutex (Mutex NULL 0) [].
Proof.
  intros Hbd. split_and!; [apply Hbd|apply demo_awf|done| |by vm_compute].
  rewrite (bd_mutexes _ _ Hbd). apply lookup_insert_eq.
Qed.
Lemma mutex_lock_refines_witness :
  ∃ s, mutex_call s log_mutex (rein_mutex_lock log_mutex s) a_boot (Mutex main_task 1).
Proof.
  destruct demo_boots as (s & _ & Hbd & _).
  destruct (mutex_lock_refines s a_boot log_mutex (Mutex NULL 0) [] (demo_mutex s Hbd)) as (H0 & _).
  exists s. by apply H0.
Defined.

Lemma mutex_unlock_refines_witness :
  ∃ s, mutex_call s log_mutex (rein_mutex_unlock log_mutex s) a_boot (Mutex NULL 0).
Proof.
  destruct demo_boots as (s & _ & Hbd & _). set (s1 := mutex_set log_mutex (Mutex main_task 1) s).
  destruct (mutex_unlock_refines s1 a_boot log_mutex (Mutex main_task 1) []) as (_ & H1 & _).
  - split_and!; [apply krep_mutexes, Hbd|apply demo_awf|done|apply mutex_set_lookup|by vm_compute].
  - done.
  - done.
  - unfold INT_MAX. cbn. lia.
  - exists s1. by apply H1.
Defined.

Lemma mutex_unlock_misuse_witness :
  ∃ s line cond, rein_mutex_unlock log_mutex s =
    Stop (HPanic "mutex.c" line "rein_mutex_unlock" cond) (with_eflags (Z.ldiff (eflags (k_cpu s)) ELFAGS_IF) s).
Proof.
  destruct demo_boots as (s & _ & Hbd & _).
  destruct (mutex_unlock_misuse s log_mutex (Mutex NULL 0)) as (line & cond & E).
  - rewrite (bd_mutexes _ _ Hbd). apply lookup_insert_eq.
  - by left.
  - exists s, line, cond. exact E.
Defined.

Lemma demo_sem s : booted demo_image s → sem_in_use s a_boot notify_task_print (Sem 0) [].
Proof.
  intros Hbd. split_and!; [apply Hbd|apply demo_awf|done| |by vm_compute].
  rewrite (bd_sems _ _ Hbd). apply lookup_singleton_eq.
Qed.
Lemma sem_wait_refines_witness :
  ∃ s, sem_call s notify_task_print (sem_wait notify_task_print s)
    (a_block_on (sem_wait_list notify_task_print) a_boot) 0.
Proof.
  destruct demo_boots as (s & _ & Hbd & _).
  destruct (sem_wait_refines s a_boot notify_task_print (Sem 0) [] (demo_sem s Hbd)) as (_ & H0);
    [done|]. exists s. by apply H0.
Defined.
Lemma sem_notify_refines_witness :
  ∃ s, sem_call s notify_task_print (sem_notify notify_task_print s) a_boot 1.
Proof.
  destruct demo_boots as (s & _ & Hbd & _).
  destruct (sem_notify_refines s a_boot notify_task_print (Sem 0) [] (demo_sem s Hbd)) as (H0 & _);
    [done|]. exists s. by apply H0.
Defined.

(** *** A further task *)

Lemma demo_gdt s : booted demo_image s → gdt_wf s ∧ free_desc (k_gdt s) = Some 5%nat.
Proof. intros Hbd. unfold gdt_wf. rewrite (bd_gdt _ _ Hbd). by vm_compute. Qed.
Lemma demo_gdt_mutex s m : booted demo_image s → mutex_free (with_mem m s) cpu_mutex.
Proof.
  intros Hbd. apply (mutex_free_krep _ a_boot); [apply krep_mem, Hbd|by vm_compute|].
  cbn. rewrite (bd_mutexes _ _ Hbd). rewrite lookup_insert_ne by done. apply lookup_singleton_eq.
Qed.
Lemma demo_spare s : booted demo_image s → k_tasks s !! spare_task = Some blank_task.
Proof.
  intros Hbd. rewrite (bd_others _ _ Hbd) by (by apply (bool_decide_unpack _); vm_compute). by vm_compute.
Qed.

Lemma task_init_creates_witness :
  ∃ s s', task_init spare_task (literal "main") 0x12345 0x27000 s = Done 0 s' ∧
    a_ready (a_create spare_task a_boot) = [main_task; new_task; spare_task] ∧
    krep s' (a_create spare_task a_boot).
Proof.
  destruct demo_boots as (s & _ & Hbd & _). destruct (demo_gdt s Hbd) as [Hg Hf].
  destruct (task_init_creates (with_mem image_mem s) a_boot spare_task blank_task (literal "main")
    (bytes_of "main") 0x12345 0x27000 5 (krep_mem _ _ _ (bd_rep _ _ Hbd)) demo_awf)
    as (s' & E & HR & _).
  - done.
  - exact Hg.
  - by apply demo_gdt_mutex.
  - exact (demo_spare s Hbd).
  - apply (proj1 (Forall_forall _ _) image_names_ok). unfold names. set_solver.
  - done.
  - by left.
  - by vm_compute.
  - by apply (bool_decide_unpack _); vm_compute.
  - done.
  - exact Hf.
  - exists (with_mem image_mem s), s'. split; [exact E|]. split; [done|exact HR].
Defined.

Lemma task_init_failures_witness :
  ∃ s s', task_init spare_task 0x40000 0x12345 0x27000 s = Done (-1) s' ∧ k_gdt s' ≠ k_gdt s.
Proof.
  destruct demo_boots as (s & _ & Hbd & _). destruct (demo_gdt s Hbd) as [Hg Hf].
  destruct (task_init_failures (with_mem image_mem s) a_boot spare_task blank_task 0x40000 []
    0x12345 0x27000 Hg (demo_gdt_mutex s _ Hbd) (demo_spare s Hbd)) as (Hbad & _).
  - apply cstr_at_nil. by vm_compute.
  - done.
  - left. by vm_compute.
  - destruct Hbad as (s' & E & _ & Hg'); [by intros []|].
    exists (with_mem image_mem s), s'. split; [exact E|]. rewrite Hg'. cbn [k_gdt with_mem].
    rewrite Hf, (bd_gdt _ _ Hbd). by vm_compute.
Defined.

(** *** Runs *)

Lemma demo_start :
  ∃ s, reachable demo_image (boot_config s) ∧ sys_inv (boot_config s) y_start.
Proof.
  destruct demo_boots as (s & E & _ & Hi). exists s. split; [|exact Hi].
  exists s, []. split; [exact E|constructor].
Qed.

(** The configuration after a sequence of calls. *)
Lemma demo_calls ks :
  calls_ok ks y_start →
  ∃ c, reachable demo_image c ∧ sys_inv c (pend_calls ks (y_start, ∅)).1 ∧
    c_calls c = (pend_calls ks (y_start, ∅)).2.
Proof.
  destruct demo_boots as (s & E & _ & Hi). intros Hok.
  destruct (calls_run ks _ _ Hi Hok) as (c & tr & Htr & _ & Hi' & Hp).
  exists c. split; [|split; [exact Hi'|exact Hp]]. exists s, tr. split; [exact E|exact Htr].
Qed.

(** The contracts of concrete calls hold by computation. *)
Ltac call_oks :=
  repeat match goal with
  | |- calls_ok [] _ => exact I
  | |- calls_ok (_ :: _) _ => split; [by vm_compute|split; [|]]
  | |- call_ok CYield _ => exact I
  | |- call_ok (CSleep _) _ => by vm_compute
  | |- call_ok (CLock _) _ => split; [by vm_compute; eexists|by vm_compute]
  | |- call_ok (CWait _) _ => by vm_compute; eexists
  | |- call_ok (CNotify _) _ => by vm_compute; eexists
  | |- call_ok (CUnlock _) _ => split; [by vm_compute; eexists|split; [by vm_compute|by vm_compute]]
  end.

(** The main task yields to the new task. *)
Lemma kernel_refines_witness :
  ∃ s' tr c, (kernel_init;; init_main_start) demo_image = Done tt s' ∧
    sys_trace (boot_config s') tr c ∧ tr.*2 = [LCall CYield] ∧ k_curr (c_state c) = new_task.
Proof.
  destruct (kernel_refines demo_image demo_image_ok) as (s' & E & Hi & Hall).
  destruct (calls_run [CYield] _ _ Hi) as (c & tr & Htr & Hl & _); [call_oks|].
  destruct (Hall tr c Htr) as (y & Hr & _ & Hk).
  exists s', tr, c. split; [exact E|]. split; [exact Htr|]. split; [exact Hl|].
  rewrite Hk. clear - Hr Hl. rewrite Hl in Hr. inversion Hr as [|? ? y2 ? ? Hs Hr2]; subst.
  inversion Hr2; subst. inversion Hs; subst. by vm_compute.
Defined.

Lemma kernel_progress_witness : ∃ c c', reachable demo_image c ∧ sys_step c LTick c'.
Proof.
  destruct demo_start as (s & Hr & _).
  destruct (kernel_progress demo_image (boot_config s) demo_image_ok Hr) as (_ & (c' & Hst) & _).
  exists (boot_config s), c'. split; [exact Hr|exact Hst].
Defined.

(** The main task takes the log, the new task waits for it. *)
Lemma mutual_exclusion_witness :
  ∃ c, reachable demo_image c ∧ holds c main_task log_mutex ∧
    c_calls c !! new_task = Some (CLock log_mutex).
Proof.
  destruct (demo_calls [CLock log_mutex]) as (c & Hr & Hi & Hp); [call_oks|].
  assert (holds c main_task log_mutex) as Hh.
  { rewrite (holds_y _ _ _ _ Hi). exists (Mutex main_task 1). by vm_compute. }
  destruct (calls_run [CYield; CLock log_mutex] c _ Hi) as (c' & tr & Htr & Hl & Hi' & Hp'); [call_oks|].
  assert (∀ p, p ∈ tr → p.2 = LCall CYield ∨ p.2 = LCall (CLock log_mutex)) as Hls.
  { intros p Hin. assert (p.2 ∈ tr.*2) as Hin2 by (apply list_elem_of_fmap; eauto).
    rewrite Hl in Hin2. cbn in Hin2. rewrite !elem_of_cons, elem_of_nil in Hin2. tauto. }
  assert (Forall (λ p, ¬ unlocks main_task log_mutex p) tr) as Hno.
  { apply Forall_forall. intros p Hin ->. destruct (Hls _ Hin); done. }
  destruct (mutual_exclusion demo_image c tr c' main_task log_mutex demo_image_ok Hr Htr Hno Hh)
    as (Hh' & Hpend).
  exists c'. split_and!; [|exact Hh'|].
  - destruct Hr as (s & tr0 & E & Htr0). exists s, (tr0 ++ tr).
    split; [exact E|by eapply sys_trace_app].
  - apply Hpend; [by vm_compute|]. right.
    rewrite Hp in Hp'. destruct tr as [|[k0 l0] [|[k1 l1] [|]]]; try done.
    cbn in Hl. injection Hl as -> ->.
    inversion Htr as [|? ? c1 ? ? Hst1 Htr1]; subst. inversion Htr1; subst.
    destruct (sys_step_sim _ _ _ _ Hi Hst1) as (_ & Hi1 & _).
    rewrite (sys_inv_curr _ _ Hi1). apply elem_of_cons. right. apply elem_of_cons. left.
    f_equal.
Defined.

(** The new task waits for the log; it returns once the main task unlocks it
    and yields. *)
Lemma lock_returns_holding_witness :
  ∃ c, holds c new_task log_mutex ∧ c_calls c !! new_task = None.
Proof.
  destruct (demo_calls [CLock log_mutex; CYield; CLock log_mutex; CUnlock log_mutex])
    as (c & Hr & Hi & Hp); [call_oks|].
  destruct (can_call c _ CYield Hi) as (s' & cs' & Hst); [by vm_compute|exact I|].
  set (c' := Config _ _ _) in Hst.
  assert (c_calls c' !! new_task = None) as Hn.
  { destruct (sys_step_sim _ _ _ _ Hi Hst) as (_ & Hi' & _).
    pose proof (sys_inv_curr _ _ Hi') as Hk. cbn [c' c_calls c_state] in Hk |- *. rewrite Hk.
    apply lookup_delete_None. left. by vm_compute. }
  exists c'. split; [|exact Hn].
  apply (lock_returns_holding demo_image c _ c' new_task log_mutex demo_image_ok Hr Hst); [|exact Hn].
  left. rewrite Hp. by vm_compute.
Defined.

(** The new task waits for a notification of the main task. *)
Lemma sem_units_witness :
  ∃ c y, sys_inv c y ∧ 0 <= count_of y notify_task_print ∧
    (length (queue notify_task_print y) <= 1)%nat.
Proof.
  destruct demo_start as (s & _ & Hi).
  destruct (calls_run [CYield; CWait notify_task_print; CNotify notify_task_print] _ _ Hi)
    as (c & tr & Htr & Hl & _); [call_oks|].
  destruct tr as [|[k0 l0] [|[k1 l1] [|[k2 l2] [|]]]]; try done. cbn in Hl. injection Hl as -> -> ->.
  destruct (sem_units notify_task_print _ _ _ c Hi Htr) as (y & late & served & Hi' & Hsub & Hf & _ & _ & Hc).
  - by vm_compute; eexists.
  - exists c, y. split; [exact Hi'|]. split; [apply Hc; by vm_compute|].
    apply sublist_length in Hsub. change (queue notify_task_print y_start) with (@nil Z) in Hf.
    apply (f_equal length) in Hf. rewrite !length_app in Hf. cbn [length] in Hf.
    change (length (waits_of notify_task_print _)) with 1%nat in Hsub. lia.
Defined.

(** The new task waits for the log while the main task holds it, then the main
    task unlocks it. *)
Lemma mutex_fifo_witness :
  ∃ c y, sys_inv c y ∧ (lock_queue log_mutex y = [] ∨ lock_owner log_mutex y = main_task).
Proof.
  destruct (demo_calls [CLock log_mutex; CYield; CLock log_mutex]) as (c & _ & Hi & _); [call_oks|].
  destruct (calls_run [CUnlock log_mutex] c _ Hi) as (c' & tr & Htr & Hl & _); [call_oks|].
  destruct tr as [|[k0 l0] [|]]; try done. cbn in Hl. injection Hl as ->.
  destruct (mutex_fifo log_mutex c _ _ c' Hi Htr) as (y & late & served & Hi' & Hsub & Hf & Ho).
  - by vm_compute; eexists.
  - exists c', y. split; [exact Hi'|].
    assert (∀ y0, lock_queue log_mutex y0 = [new_task] → lock_owner log_mutex y0 = main_task →
      lock_queue log_mutex y0 ++ late = served ++ lock_queue log_mutex y →
      (len served < len (lock_queue log_mutex y0) →
        lock_owner log_mutex y = default (lock_owner log_mutex y0) (last served)) →
      lock_queue log_mutex y = [] ∨ lock_owner log_mutex y = main_task) as Hc.
    { intros y0 -> -> Hf0 Ho0. apply sublist_length in Hsub. change (length (locks_of log_mutex _)) with 0%nat in Hsub.
      destruct late; [|cbn in Hsub; lia]. destruct served as [|u served]; [by right; apply Ho0|].
      left. cbn in Hf0. injection Hf0 as _ Hf0. symmetry in Hf0. by apply app_eq_nil in Hf0 as [_ Hf0]. }
    apply (Hc _) in Ho; [exact Ho|by vm_compute|by vm_compute|exact Hf].
Defined.

Lemma ready_task_runs_witness : ∃ c, k_curr (c_state c) = new_task.
Proof.
  destruct demo_start as (s & _ & Hi).
  set (n := wait_ticks s new_task (a_ready a_boot)).
  destruct (ticks_run (Z.to_nat n) _ _ Hi) as (c' & tr & Htr & Hn).
  destruct (ready_task_runs (boot_config s) y_start tr c' new_task Hi Htr)
    as (tr1 & c1 & tr2 & _ & _ & _ & Hk & _).
  - apply (bool_decide_unpack _). by vm_compute.
  - rewrite Hn. change (wait_ticks _ _ _) with n. lia.
  - exists c1. exact Hk.
Defined.

(** The main task sleeps for a second. *)
Lemma sleeper_wakes_witness : ∃ c y, sys_inv c y ∧ main_task ∈ a_ready (y_sched y).
Proof.
  destruct (demo_calls [CSleep 1000]) as (c & _ & Hi & _); [call_oks|].
  destruct (ticks_run 100 c _ Hi) as (c1 & tr & Htr & Hn).
  destruct (sys_trace_sim _ _ _ _ Htr Hi) as (y1 & _ & Hi1).
  destruct (can_tick c1 y1 Hi1) as (s2 & cs2 & Hst).
  destruct (λ Hin Hn, sleeper_wakes c _ tr c1 _ main_task 101 Hi Hin Htr Hn Hst)
    as (_ & y2 & Hi2 & Hin).
  - apply (bool_decide_unpack _). by vm_compute.
  - rewrite Hn. done.
  - eexists _, y2. split; [exact Hi2|exact Hin].
Defined.

(** The main task prints a line. *)
Lemma lines_whole_witness :
  ∃ s evs L part, line_trace (LConfig (boot_config s) ∅) evs L ∧
    serial_out (k_io (c_state (l_config L))) =
      serial_out (k_io s) ++ (bytes_of "main" ++ [13; 10]) ++ part.
Proof.
  destruct demo_boots as (s & E & Hbd & Hi). set (s1 := with_mem image_mem s).
  destruct (println_run s1 (boot_contexts s) ∅ ∅ (literal "main") (bytes_of "main"))
    as (s2 & _ & Htr).
  - clear E. apply (mutex_free_krep _ a_boot); [apply krep_mem, Hbd|by vm_compute|].
    cbn. rewrite (bd_mutexes _ _ Hbd). apply lookup_insert_eq.
  - clear E. pose proof (sys_inv_curr _ _ Hi) as Hk. cbn in Hk. cbn. rewrite Hk. by vm_compute.
  - apply lookup_empty.
  - apply lookup_empty.
  - clear E. apply (proj1 (Forall_forall _ _) image_names_ok). unfold names. set_solver.
  - clear E. by vm_compute.
  - set (evs := [EBegin _ _; _]) in Htr. set (L := LConfig _ _) in Htr at 2.
    assert (line_trace (LConfig (boot_config s) ∅) ([] ++ evs) L) as Htr'.
    { eapply line_trace_app; [|exact Htr]. apply line_one, (line_compute (boot_config s) ∅ image_mem).
      - apply lookup_empty.
      - intros t p bs cs Ht. by rewrite lookup_empty in Ht. }
    destruct (lines_whole demo_image s ([] ++ evs) L demo_image_ok E Htr') as ((part & Ho & _) & _).
    exists s, ([] ++ evs), L, part. split; [exact Htr'|exact Ho].
Defined.

(** *** The two tasks *)

Definition main_buffer : Z := 0x31000.
Definition new_buffer : Z := 0x31100.

Lemma demo_program : program_image main_buffer new_buffer demo_image.
Proof.
  assert (Forall (λ f, cstr_at image_mem (literal f) (bytes_of f)) [send_fmt; recv_fmt]) as Hs.
  { repeat (apply Forall_cons; split; [split; [by apply (bool_decide_unpack _)|vm_compute; done]|]). constructor. }
  assert (Forall (λ t, Forall (λ f, disjoint_ranges t sizeof_task (literal f) (len (bytes_of f) + 1))
    [send_fmt; recv_fmt]) first_tasks) as Ha.
  { unfold disjoint_ranges. by apply (bool_decide_unpack _); vm_compute. }
  assert (Forall (λ b, Forall (λ f, disjoint_ranges b 128 (literal f) (len (bytes_of f) + 1))
    [send_fmt; recv_fmt]) [main_buffer; new_buffer]) as Hb.
  { unfold disjoint_ranges. by apply (bool_decide_unpack _); vm_compute. }
  rewrite Forall_forall in Hs. rewrite Forall_forall in Ha. rewrite Forall_forall in Hb. split.
  - exact Hs.
  - intros t f Ht. by apply (proj1 (Forall_forall _ _) (Ha t Ht)).
  - by left.
  - intros t f. refine (proj1 (Forall_forall _ _) (Hb _ _) f). unfold buf_of.
    rewrite !elem_of_cons. destruct (t =? main_task); auto.
Qed.

(** The main task formats its first line and takes the log. *)
Lemma demo_run :
  ∃ s P, (kernel_init;; init_main_start) demo_image = Done tt s ∧
    prog_run main_buffer new_buffer (prog_start s) ([] ++ [] ++ [EBegin main_task (bytes_of "sending notify: 0")]) P.
Proof.
  destruct demo_boots as (s & E & Hbd & Hi).
  pose proof (formats_boot _ _ _ _ demo_image_ok Hbd demo_program) as Hf.
  assert (running (boot_config s) = main_task) as Hk by apply (sys_inv_curr _ _ Hi).
  destruct (format_ok main_buffer new_buffer (k_mem s) main_task send_fmt 0) as [Ev Hc].
  { by left. }
  { by apply Hf; left. }
  { apply (pg_buffer_formats _ _ _ demo_program). by left. }
  change (fmt_text send_fmt 0) with (bytes_of "sending notify: 0") in Ev, Hc.
  set (m := stores _ _ _) in Ev, Hc. set (c1 := with_state_of (boot_config s) (with_mem m s)).
  assert (running c1 = main_task) as Hk1 by exact Hk.
  destruct (can_call c1 y_start (CLock log_mutex)) as (s2 & cs2 & Hst).
  { by apply sys_inv_mem. }
  { by vm_compute. }
  { call_oks. }
  exists s. eexists. split; [exact E|]. clear E. rewrite app_assoc.
  eapply run_snoc; [eapply run_snoc; [apply run_nil|]|]; apply prog_task.
  - apply (task_format _ _ (boot_config s) ∅ first_points 0 0 send_fmt m).
    + rewrite Hk. by vm_compute.
    + rewrite Hk. by vm_compute.
    + rewrite Hk. exact Ev.
  - fold c1. rewrite <- Hk1 at 1. eapply (task_begin _ _ c1 ∅ _ 0 0 send_fmt).
    + rewrite Hk, Hk1. apply lookup_insert_eq.
    + rewrite Hk1. by vm_compute.
    + rewrite Hk1. exact Hc.
    + exact Hst.
Qed.

Lemma output_ordered_witness :
  ∃ s P k j ls part, (kernel_init;; init_main_start) demo_image = Done tt s ∧ dialogue k j ls ∧
    serial_out (k_io (c_state (l_config (p_lines P)))) =
      serial_out (k_io s) ++ concat (line <$> ls) ++ part.
Proof.
  destruct demo_run as (s & P & E & Hr).
  destruct (output_ordered main_buffer new_buffer demo_image s _ P demo_image_ok demo_program E Hr)
    as (k & j & ls & part & Hd & Ho & _).
  exists s, P, k, j, ls, part. split_and!; [exact E|exact Hd|exact Ho].
Defined.
Lemma never_stuck_witness :
  ∃ s evs P c', prog_run main_buffer new_buffer (prog_start s) evs P ∧ evs ≠ [] ∧
    sys_step (l_config (p_lines P)) LTick c'.
Proof.
  destruct demo_run as (s & P & E & Hr).
  destruct (never_stuck main_buffer new_buffer demo_image s _ P demo_image_ok demo_program E Hr)
    as ((c' & Hst) & _).
  eexists s, _, P, c'. split_and!; [exact Hr|done|exact Hst].
Defined.

(** The main task creates its task. *)
Definition new_job : job :=
  Job new_task (literal "my new task") (bytes_of "my new task") (symbol "new_task_entry") new_task_stack_top.

Lemma demo_tasks_dom s1 t :
  main_runs demo_image s1 → is_Some (k_tasks s1 !! t) → t ∈ first_tasks ++ [spare_task].
Proof.
  intros Hm. rewrite (mr_tasks _ _ Hm), !lookup_insert_is_Some. intros [<-|(_ & [<-|(_ & Ht)])].
  - by apply (bool_decide_unpack _); vm_compute.
  - by apply (bool_decide_unpack _); vm_compute.
  - by apply image_task_in.
Qed.

Lemma new_job_ok s1 : main_runs demo_image s1 → job_ok s1 [main_task] new_job.
Proof.
  intros Hm. pose proof (mr_booting _ _ Hm) as Hbg. destruct (first_tasks_ne _ demo_image_ok) as (_ & Hni & Hnm).
  split; cbn [j_task j_name j_text new_job].
  - rewrite (mr_tasks _ _ Hm), !lookup_insert_ne by congruence. vm_compute. by eexists.
  - rewrite !not_elem_of_cons. split_and!; [done|done|apply not_elem_of_nil].
  - apply (proj1 (Forall_forall _ _) (bg_names _ _ _ Hbg)). unfold names. set_solver.
  - by vm_compute.
  - intros t Ht%(demo_tasks_dom _ _ Hm). revert t Ht. apply Forall_forall.
    unfold disjoint_ranges. by apply (bool_decide_unpack _); vm_compute.
Qed.

Lemma creation_safe_witness :
  ∃ s1 X, (kernel_init;; task_main_init;; sem_init notify_task_print 0;; irq_enable_global) demo_image = Done tt s1 ∧
    create_trace (main_start s1) X ∧ x_tasks X = [main_task; new_task] ∧
    x_given X = [(3, idle_task); (4, main_task); (5, new_task)] ∧
    ∃ y, sys_inv (x_config X) y ∧ a_all (y_sched y) = [main_task; new_task].
Proof.
  destruct (main_runs_ok demo_image demo_image_ok) as (s1 & _ & E & Hm).
  pose proof (mr_booting _ _ Hm) as Hbg.
  destruct (task_init_run s1 (c_saved (main_config s1)) ∅ ∅ [main_task] [(3, idle_task); (4, main_task)] _ new_job 4
    (main_create_inv demo_image s1 demo_image_ok Hm)) as (s2 & cs2 & _ & Htr).
  - exact eq_refl.
  - exact (mutex_free_krep _ _ _ (mr_rep _ _ Hm) (bg_waits _ _ _ Hbg) (bg_mutex _ _ _ Hbg)).
  - clear E. rewrite (kr_curr _ _ (mr_rep _ _ Hm)). by vm_compute.
  - apply lookup_empty.
  - exact (new_job_ok s1 Hm).
  - intros t p Hp. by rewrite lookup_empty in Hp.
  - clear E. by apply (bool_decide_unpack _); vm_compute.
  - rewrite (bg_gdt _ _ _ Hbg). exact (free_desc_boot 2 [idle_task; main_task] ltac:(lia) eq_refl).
  - set (X := CConfig (Config s2 _ _) _ _ _) in Htr.
    destruct (creation_safe demo_image s1 X demo_image_ok E Htr eq_refl) as (Hsys & _).
    exists s1, X. split; [exact E|]. split; [exact Htr|]. split; [exact eq_refl|].
    split; [exact eq_refl|exact Hsys].
Defined.

(** *** The processor *)

Definition demo_ctx : tctx := TCtx (Regs 1 2 3 4 0x9000 5 6 7 16 16 16 16 0x10400 8 0x202) 16.
Lemma demo_ctx_ok : ctx_wf demo_ctx ∧ flat demo_ctx.
Proof. split; [split; [split|]|split_and!]; done || (apply (bool_decide_unpack _); by vm_compute). Qed.
Lemma demo_clear : Forall (tss_clear (k_mem demo_image)) first_tasks.
Proof.
  assert (∀ t, t ∈ first_tasks → 0x20000 <= t <= 0x28000) as Hr.
  { apply Forall_forall. apply (bool_decide_unpack _). by vm_compute. }
  apply Forall_forall. intros t Ht x Hx. specialize (Hr t Ht). unfold OFF_tss, sizeof_tss in Hx.
  cbn [k_mem demo_image demo_kernel]. unfold image_mem, names. cbn [app foldl].
  rewrite !load_stores_out; [done|..]; vm_compute (literal _); vm_compute (length _); lia.
Qed.

(** The processor when the main task enters its loop. *)
Lemma demo_proc :
  ∃ s, hw_reachable demo_image (boot_config s) (boot_proc demo_ctx s) ∧
    carries (boot_proc demo_ctx s) (boot_config s) y_start ∧ sys_inv (boot_config s) y_start.
Proof.
  destruct demo_boots as (s & E & Hbd & Hi). exists s. destruct demo_ctx_ok as [Hwf Hfl]. split; [|split; [|exact Hi]].
  - exists s, demo_ctx. split; [exact E|]. split; [exact Hwf|]. split; [exact Hfl|]. apply hw_nil.
  - clear E. pose proof (boot_carries demo_image s demo_image_ok Hbd demo_clear demo_ctx Hwf Hfl) as Hca.
    assert (y_boot s = y_start) as Hy
      by (unfold y_boot, sys_of, y_start; by rewrite (bd_mutexes _ _ Hbd), (bd_sems _ _ Hbd)).
    by rewrite Hy in Hca.
Qed.

(** The main task yields: the processor runs the new task from its entry. *)
Lemma switches_accepted_witness :
  ∃ s c' p1 p', sys_step (boot_config s) (LCall CYield) c' ∧ running c' = new_task ∧
    jmp_tss (tr (k_cpu (c_state c'))) p1 = Switched p' ∧ p_ctx p' = saved (boot_proc demo_ctx s) new_task.
Proof.
  destruct demo_proc as (s & Hr & Hca & Hi).
  destruct (can_call (boot_config s) y_start CYield Hi) as (s' & cs' & Hst); [by vm_compute|exact I|].
  set (c' := Config s' cs' _) in Hst.
  destruct (sys_step_sim _ _ _ _ Hi Hst) as (_ & Hi' & _).
  assert (running c' = new_task) as Hn by (unfold running; rewrite (sys_inv_curr _ _ Hi'); by vm_compute).
  assert (running c' ≠ running (boot_config s)) as Hne
    by (rewrite Hn; unfold running; rewrite (sys_inv_curr _ _ Hi); by vm_compute).
  destruct (hw_can_step _ _ _ _ _ Hca Hst) as (p1 & _ & Hcm & _ & Hag).
  destruct (switches_accepted demo_image _ _ _ c' p1 demo_image_ok demo_clear Hr Hst Hcm) as (_ & _ & _ & Hsw).
  destruct (Hsw Hne (Hag Hne)) as (p' & Hj & _ & Hx & _). exists s, c', p1, p'.
  split; [exact Hst|]. split; [exact Hn|]. split; [exact Hj|]. by rewrite <- Hn.
Defined.

(** It yields in its turn: the main task goes on with its registers. *)
Lemma registers_survive_witness :
  ∃ c1 p1 r c3 p3, running c1 = new_task ∧ running c3 = main_task ∧ hw_away main_task c1 p1 c1 p1 ∧
    p_ctx p3 = r.
Proof.
  destruct demo_proc as (s & Hr & Hca & Hi).
  destruct (can_call (boot_config s) y_start CYield Hi) as (s1 & cs1 & Hst); [by vm_compute|exact I|].
  set (c1 := Config s1 cs1 _) in Hst.
  destruct (sys_step_sim _ _ _ _ Hi Hst) as (_ & Hi1 & _).
  assert (running c1 = new_task) as Hn1 by (unfold running; rewrite (sys_inv_curr _ _ Hi1); by vm_compute).
  assert (running (boot_config s) = main_task) as Hn0 by (unfold running; rewrite (sys_inv_curr _ _ Hi); by vm_compute).
  destruct (hw_can_step _ _ _ _ _ Hca Hst) as (q1 & p1 & _ & Hh1 & _).
  destruct (hw_step_carries _ _ _ _ _ _ _ Hca Hh1) as (Hca1 & _).
  destruct (can_call c1 _ CYield Hi1) as (s3 & cs3 & Hst3); [by vm_compute|exact I|].
  set (c3 := Config s3 cs3 _) in Hst3.
  destruct (sys_step_sim _ _ _ _ Hi1 Hst3) as (_ & Hi3 & _).
  assert (running c3 = main_task) as Hn3 by (unfold running; rewrite (sys_inv_curr _ _ Hi3); by vm_compute).
  destruct (hw_can_step _ _ _ _ _ Hca1 Hst3) as (q3 & p3 & _ & Hh3 & _).
  assert (hw_away (running (boot_config s)) c1 p1 c1 p1) as Haw
    by (apply away_nil; rewrite Hn0, Hn1; by vm_compute).
  exists c1, p1, (p_ctx q1), c3, p3. split; [exact Hn1|]. split; [exact Hn3|]. split; [by rewrite <- Hn0|].
  eapply (registers_survive demo_image _ _ _ _ _ _ _ _ _ _ c3 p3 demo_image_ok demo_clear Hr Hh1);
    [rewrite Hn0, Hn1; by vm_compute|exact Haw|exact Hh3|congruence].
Defined.

(** A task whose memory was used before. *)
Definition stale_mem : mem := store32 (store32 image_mem (spare_task + OFF_tss + TSS_eax) 77)
  (spare_task + OFF_tss + TSS_ldt) 0x28.
Lemma first_switch_witness :
  ∃ s s' p, task_init spare_task (literal "main") 0x12345 0x27000 s = Done 0 s' ∧
    jmp_tss 48 p = BadTask 48.
Proof.
  destruct demo_boots as (s & E0 & Hbd & _). clear E0. destruct (demo_gdt s Hbd) as [Hg Hf].
  set (s0 := with_mem stale_mem s). set (sel := λ t, if decide (t = spare_task) then 48 else 32).
  assert (cstr_at (k_mem s0) (literal "main") (bytes_of "main")) as Hnm
    by (split; [by apply (bool_decide_unpack _)|vm_compute; done]).
  assert (krep s0 a_boot) as HR by (apply krep_mem, Hbd).
  assert (spare_task ∉ a_all a_boot) as Hsp by (apply (bool_decide_unpack _); by vm_compute).
  destruct (task_init_ok s0 a_boot spare_task blank_task (literal "main") (bytes_of "main") 0x12345 0x27000
    HR Hg (demo_gdt_mutex s _ Hbd) (demo_spare s Hbd) Hnm ltac:(done) ltac:(by left) ltac:(by vm_compute)
    (unplaced_awf _ _ demo_awf Hsp) ltac:(done) ltac:(done)) as (s' & E & _ & HE & _).
  pose proof (se_gdt _ _ HE) as Hgd. rewrite (task_named_desc s0 _ _ _ _ 5 Hf) in Hgd. clear HE.
  set (p := Proc demo_ctx 32 (busy_at 32 (k_gdt s')) (k_mem s')).
  destruct (first_switch s0 a_boot spare_task blank_task (literal "main") (bytes_of "main") 0x12345 0x27000
    sel [main_task; spare_task] main_task p HR Hg (demo_gdt_mutex s _ Hbd) (demo_spare s Hbd) Hnm) as (s2 & E2 & Hsw);
    [done|by left|by vm_compute|by apply unplaced_awf; [apply demo_awf|]|done|done|by eexists|].
  assert (s2 = s') as -> by (rewrite E in E2; by injection E2).
  exists s0, s', p. split; [exact E|]. clear E E2.
  change (k_gdt s0) with (k_gdt s) in Hgd. rewrite (bd_gdt _ _ Hbd) in Hgd.
  destruct Hsw as (_ & _ & Hbad); try done.
  - unfold sel. split; rewrite ?Hgd; try reflexivity.
    + intros t. rewrite !elem_of_cons, elem_of_nil. intros [->|[->|[]]].
      * exists 4%nat. split; [by vm_compute|]. split; [lia|reflexivity].
      * exists 6%nat. split; [by vm_compute|]. split; [lia|reflexivity].
    + intros t u. rewrite !elem_of_cons, !elem_of_nil. intros [->|[->|[]]] [->|[->|[]]]; by vm_compute.
    + intros t. rewrite !elem_of_cons, elem_of_nil. intros [->|[->|[]]]; by vm_compute.
    + intros t u. rewrite !elem_of_cons, !elem_of_nil. unfold apart.
      intros [->|[->|[]]] [->|[->|[]]]; first [by left|right; by vm_compute].
  - apply list_elem_of_here.
  - apply list_elem_of_further, list_elem_of_here.
  - apply Hbad; [by vm_compute|]. rewrite Hgd. unfold no_ldt. apply (bool_decide_unpack _). by vm_compute.
Defined.

(** *** Power on *)

(** A kernel of one segment, which holds the names, loaded at 0x2B000. *)
Definition padded (bs : list Z) : list Z := bs ++ replicate (256 - length bs) 0.
Definition kernel_data : list Z :=
  padded (bytes_of IDLE_TASK_NAME) ++ padded (bytes_of "main") ++ padded (bytes_of "my new task").
Definition kernel_elf : mem := stores ∅ SYS_KERNEL_LOAD_ADDR (
  [0x7F; 0x45; 0x4c; 0x46] ++ replicate 20 0 ++ [0; 0; 1; 0; 52; 0; 0; 0] ++ replicate 12 0 ++
  [1; 0] ++ replicate 6 0 ++
  [1; 0; 0; 0; 84; 0; 0; 0; 0; 0; 0; 0; 0; 0xB0; 2; 0; 0; 3; 0; 0; 0; 3; 0; 0] ++ replicate 8 0 ++ kernel_data).
(** The disk that holds it. *)
Definition kernel_sectors (w : Z) : Z :=
  load16 kernel_elf (SYS_KERNEL_LOAD_ADDR + 2 * (w - KERNEL_BEGIN_SECTOR * 256)).

Lemma kernel_elf_ok : elf_file kernel_elf SYS_KERNEL_LOAD_ADDR kernel_file_len.
Proof.
  split; [by apply (bool_decide_unpack _)|by vm_compute|].
  intros i Hi. assert (e_phnum kernel_elf SYS_KERNEL_LOAD_ADDR = 1) as E by by vm_compute.
  rewrite E in Hi. assert (i = 0%nat) as -> by lia.
  split; [by apply (bool_decide_unpack _); vm_compute|intros _..];
    try (by apply (bool_decide_unpack _); vm_compute).
Qed.

Lemma names_in_data a m n pre post :
  kernel_data = pre ++ (bytes_of n ++ [0]) ++ post → Forall (λ c, c ≠ 0) (bytes_of n) →
  cstr_at (stores m a kernel_data) (a + len pre) (bytes_of n).
Proof.
  intros E Hn. split; [done|].
  assert (bytes_at (stores m a kernel_data) a kernel_data) as Hb.
  { apply bytes_at_stores. unfold byte. by apply (bool_decide_unpack _); vm_compute. }
  rewrite E in Hb at 2. by apply bytes_at_app in Hb as [_ [Hb _]%bytes_at_app].
Qed.
Lemma demo_kernel_on_disk : kernel_on_disk kernel_sectors 0x10000 [(0x2B000, kernel_data)].
Proof.
  assert (∀ m, elf_file (kernel_file kernel_sectors m) SYS_KERNEL_LOAD_ADDR kernel_file_len ∧
    segments (kernel_file kernel_sectors m) SYS_KERNEL_LOAD_ADDR = [(0x2B000, kernel_data)] ∧
    e_entry (kernel_file kernel_sectors m) SYS_KERNEL_LOAD_ADDR = 0x10000) as Hall.
  { intros m. pose proof (kernel_file_same kernel_sectors kernel_elf m (λ _, eq_refl)) as Hs.
    destruct (elf_file_same _ _ _ _ Hs kernel_elf_ok) as (H1 & -> & ->).
    split; [exact H1|]. split; by vm_compute. }
  split.
  - apply Hall.
  - apply Hall.
  - done.
  - apply Hall.
  - by repeat constructor.
  - intros m. unfold place. cbn [foldl fst snd].
    assert (∀ n pre post, kernel_data = pre ++ (bytes_of n ++ [0]) ++ post → Forall (λ c, c ≠ 0) (bytes_of n) →
      literal n = 0x2B000 + len pre →
      0x10000 <= literal n ∧ cstr_at (stores m 0x2B000 kernel_data) (literal n) (bytes_of n)) as Hn.
    { intros n pre post E Hz ->. split; [lia|by eapply names_in_data]. }
    unfold names. repeat (apply Forall_cons; split); [..|constructor].
    + apply (Hn _ [] (drop 10 kernel_data)); by (vm_compute; repeat constructor).
    + apply (Hn _ (take 256 kernel_data) (drop 261 kernel_data)); by (vm_compute; repeat constructor).
    + apply (Hn _ (take 512 kernel_data) (drop 524 kernel_data)); by (vm_compute; repeat constructor).
Qed.

Lemma demo_objects : objects_exist demo_image.
Proof.
  intros m Hm. destruct demo_image_ok. by split.
Qed.

Lemma kernel_powered_on_witness :
  ∃ x, power_on (demo_int13 kernel_sectors) (table_bios [low; rom; high]) demo_inb (demo_inw kernel_sectors)
      false (RMode 0xAA55 0 0 0x80 0x6F00 0 0 0 0 0 true ∅) (SMAP 0 0 0 0 0 0) (Real 0x202 (0, 0) 0x10 [])
      (with_esp 0x7B00 demo_regs) 0 0x9000 = Some x ∧
    let x1 := start_enter x in
    r_eip (x_regs x1) = symbol "kernel_init" ∧
    take 2 (ram_regions (get_boot_info (x_mem x1) (top x1 1))) = [Region 0 0x9FC00; Region 0x100000 0x7EE0000] ∧
    ∃ s', (kernel_init;; init_main_start) (with_mem (x_mem x1) demo_image) = Done tt s'.
Proof.
  destruct (kernel_powered_on (demo_int13 kernel_sectors) 255 63 (λ _, kernel_sectors) (table_bios [low; rom; high])
    demo_inb (demo_inw kernel_sectors) 10000 (Z.of_nat <$> seq 0 3) [low; rom; high] 0x10000 [(0x2B000, kernel_data)] false
    (RMode 0xAA55 0 0 0x80 0x6F00 0 0 0 0 0 true ∅) 1 (SMAP 0 0 0 0 0 0) (Real 0x202 (0, 0) 0x10 [])
    (with_esp 0x7B00 demo_regs) 0 0x9000 (demo_int13_read kernel_sectors))
    as (x & E & _ & Hip & _ & _ & (_ & _ & Hmap) & Hboot & _).
  - split; [|done]. apply ata_drive. intros w. apply u16_small, load16_bound.
  - by apply table_serves.
  - split; [done|]. split; [done|]. unfold entry_wf. by apply (bool_decide_unpack _); vm_compute.
  - done.
  - apply demo_kernel_on_disk.
  - by apply (bool_decide_unpack _); vm_compute.
  - done.
  - done.
  - split; [exact eq_refl|]. intros [|j] Hj; [exact eq_refl|lia].
  - done.
  - set (x1 := start_enter x) in *. destruct (Hboot (with_mem (x_mem x1) demo_image) eq_refl) as (s' & Es & _).
    { intros m Hm. exact (demo_objects m Hm). }
    exists x. split; [exact E|]. split; [exact Hip|]. split; [exact Hmap|]. by exists s'.
Defined.

(** *** Failed assertions *)

(** The strings of a failed assertion of rein_mutex_unlock; mutex.c is compiled
    under its path in the repository. *)
Definition mutex_path : string := "source/kernel/ipc/mutex.c".
Definition panic_strings : list (Z * string) :=
  ((λ f, (literal f, f)) <$> formats ++
    ["rein_mutex_unlock"; "lock->locker != 0"; "lock->owner == curr_task"]%string) ++
  [(file_literal "mutex.c", mutex_path)].
Definition panic_mem : mem := foldl (λ m p, stores m p.1 (bytes_of p.2 ++ [0])) ∅ panic_strings.
Definition panic_str (p : Z) : list Z :=
  default [] (bytes_of ∘ snd ∘ snd <$> list_find (λ q, q.1 = p) panic_strings).
Definition panic_ptrs : list Z := panic_strings.*1.

Lemma panic_strings_at s : strings_at 0x31000 panic_str panic_ptrs (with_mem panic_mem s).
Proof.
  unfold strings_at. apply Forall_forall. unfold text_byte, disjoint_ranges.
  repeat (apply Forall_cons; split;
    [split; [split; [by apply (bool_decide_unpack _); vm_compute|vm_compute; done]|
      by apply (bool_decide_unpack _); vm_compute]|]).
  constructor.
Qed.
Lemma panic_strings_low p : p ∈ panic_ptrs → p + len (panic_str p) < 0x50000.
Proof.
  assert (Forall (λ p, p + len (panic_str p) < 0x50000) panic_ptrs) as Hall
    by (apply (bool_decide_unpack _); by vm_compute).
  exact (proj1 (Forall_forall _ _) Hall p).
Qed.
Lemma demo_misuse_ready s mx : misuse_ready 0x31000 panic_str panic_ptrs mx (with_mem panic_mem s).
Proof.
  split.
  - apply panic_strings_at.
  - unfold literals_at. by apply (bool_decide_unpack _); vm_compute.
  - unfold misuse. destruct (locker mx =? 0); by apply (bool_decide_unpack _); vm_compute.
  - unfold misuse. by destruct (locker mx =? 0).
Qed.

(** The main task unlocks the log, which is free. *)
Lemma unlock_misuse_panics_witness :
  ∃ s s', with_panic 0x31000 (rein_mutex_unlock log_mutex s) = Stop HSpin s' ∧
    serial_out (k_io s') = serial_out (k_io s) ++ line (bytes_of "assert failed: lock->locker != 0") ++
      line (bytes_of ("file:" +:+ mutex_path)) ++ line (bytes_of "line:37") ++ line (bytes_of "func:rein_mutex_unlock").
Proof.
  destruct demo_boots as (s & E0 & Hbd & _). clear E0. set (s0 := with_mem panic_mem s).
  assert (k_mutexes s0 !! log_mutex = Some (Mutex NULL 0)) as Hm
    by (cbn; rewrite (bd_mutexes _ _ Hbd); apply lookup_insert_eq).
  destruct (unlock_misuse_panics 0x31000 panic_str panic_ptrs s0 log_mutex (Mutex NULL 0) Hm)
    as (s' & E & Ho & _).
  - by left.
  - apply (mutex_free_krep _ a_boot); [apply krep_mem, Hbd|by vm_compute|exact Hm].
  - apply demo_misuse_ready.
  - exists s0, s'. split; [exact E|exact Ho].
Defined.

(** It unlocks the free mutex of the GDT while the new task prints. When the
    log has been handed over to it, with other contents of other memory, it
    stops; had the new task come to wait behind it, it would wait again. *)
Lemma panic_waits_witness :
  ∃ s s1 k, with_panic 0x31000 (rein_mutex_unlock cpu_mutex s) = Switch (tss_selector 2) s1 k ∧
    k_curr s1 = new_task ∧ k_io s1 = k_io s ∧
    (∃ s2 s3, k_mem s2 = store32 (k_mem s1) 0x50000 7 ∧ k s2 = Stop HSpin s3 ∧
      serial_out (k_io s3) = serial_out (k_io s2) ++ line (bytes_of "assert failed: lock->locker != 0") ++
        line (bytes_of ("file:" +:+ mutex_path)) ++ line (bytes_of "line:37") ++
        line (bytes_of "func:rein_mutex_unlock")) ∧
    (∃ s2 s3 sel k3, k s2 = Switch sel s3 k3 ∧ k_mutexes s3 !! log_mutex = Some (Mutex new_task 1) ∧
      serial_out (k_io s3) = serial_out (k_io s2) ++ line (bytes_of "assert failed: lock->locker != 0")).
Proof.
  destruct demo_boots as (s & E0 & Hbd & _). clear E0.
  set (s0 := mutex_set log_mutex (Mutex new_task 1) (with_mem panic_mem s)).
  destruct (panic_waits 0x31000 panic_str panic_ptrs s0 a_boot cpu_mutex (Mutex NULL 0)
    (Mutex new_task 1) [] main_task [new_task]) as (s1 & k & E & HR & _ & _ & _ & Hio & Hr1 & Hb1 & Hk).
  - apply krep_mutexes, krep_mem, Hbd.
  - apply demo_awf.
  - done.
  - cbn. rewrite lookup_insert_ne by done. rewrite (bd_mutexes _ _ Hbd), lookup_insert_ne by done.
    apply lookup_singleton_eq.
  - by left.
  - apply lookup_insert_eq.
  - done.
  - done.
  - by vm_compute.
  - exact (misuse_ready_frame 0x31000 panic_str panic_ptrs _ (with_mem panic_mem s) s0 eq_refl
      (demo_misuse_ready s _)).
  - exists s0, s1, k. split; [|split; [apply (kr_curr _ _ HR)|split; [exact Hio|split]]].
    + rewrite E. f_equal. unfold sel_of. change (k_tasks s0) with (k_tasks s).
      change (a_curr _) with new_task. by rewrite (bd_new _ _ Hbd).
    + set (s2 := with_mem (store32 (k_mem s1) 0x50000 7) (mutex_set log_mutex (Mutex main_task 1) s)).
      assert (∀ x, x < 0x50000 → load8 (k_mem s2) x = load8 (k_mem s1) x) as Hsame
        by (intros x Hx; apply load8_store32_ne; lia).
      destruct (Hk s2) as [Hstop _].
      * apply (misuse_ready_same 0x31000 panic_str panic_ptrs _ s1 s2); [|exact Hr1].
        intros p x Hp Hx. apply Hsame. pose proof (panic_strings_low p Hp). lia.
      * eapply cstr_at_same; [|exact Hb1]. intros x Hx. apply Hsame.
        change (len (misuse_line panic_str (Mutex NULL 0))) with 32 in Hx. lia.
      * destruct Hstop as (s3 & E3 & Ho & _).
        -- cbn. rewrite lookup_insert_eq. by rewrite (kr_curr _ _ (bd_rep _ _ Hbd)).
        -- assert (mutex_free s log_mutex) as [_ Hw]; [|exact Hw].
           apply (mutex_free_krep _ a_boot); [apply Hbd|by vm_compute|].
           rewrite (bd_mutexes _ _ Hbd). apply lookup_insert_eq.
        -- exists s2, s3. split; [done|]. split; [exact E3|exact Ho].
    + destruct (demo_calls [CLock log_mutex; CYield; CLock log_mutex]) as (c & _ & Hi & _); [call_oks|].
      set (s2 := with_mem (k_mem s1) (c_state c)). destruct (Hk s2) as [_ Hagain].
      * by apply (misuse_ready_frame _ _ _ _ s1 s2).
      * exact Hb1.
      * destruct (Hagain _ new_task [] main_task [] (krep_mem _ _ _ (co_rep _ _ _ (si_core _ _ Hi)))
          (co_wf _ _ _ (si_core _ _ Hi))) as (s3 & k3 & E3 & _ & _ & Hm3 & Ho).
        -- by vm_compute.
        -- change (k_mutexes s2) with (k_mutexes (c_state c)). rewrite (si_mutexes _ _ Hi). by vm_compute.
        -- by vm_compute.
        -- exists s2, s3. eexists. exists k3. split; [exact E3|]. split; [exact Hm3|exact Ho].
Defined.
